(* ===== verification/_CoqProject ===== *)
-Q . S2P
Prelude.v
Standards.v
Sha2.v
Bech32m.v
Base64.v
Json.v
JsonSyntax.v
Types.v
AttestationId.v
Decode.v
Parser.v
Schema.v
Io.v
Db.v
DbFacts.v
History.v
Client.v
Samples.v
DbSpec.v
SlotSpec.v
Ingest.v
IngestSpec.v
Links.v
Walk.v
Replay.v
Config.v
Drip.v
DripSpec.v
BotDrip.v
Tickets.v
Concurrent.v
ConcurrentSpec.v
Startup.v
Pages.v
Listing.v
ListingSpec.v
Responses.v
Sql.v
Lookup.v
LookupSpec.v
F64.v
StatsCache.v
Stats.v
Eta.v
StatsSpec.v
StatsApi.v
Cluster.v
FaucetApi.v
Typed.v
EndToEnd.v
Routes.v
Migrations.v
Service.v
Extract.v
ExtractSpec.v
Api.v
ApiSpec.v
Permalinks.v
Tables.v
Rows.v
RowsSpec.v
TestKit.v
TypesTests.v
DecodeTests.v
AttestationIdTests.v
ParserTests.v
ClientTests.v
ApiTests.v
DripTests.v
Captured.v
