(* ===== verification/Prelude.v ===== *)
(** * A verified model of ligate-api

    The repository holds two programs around one Postgres database.  The indexer
    ([crates/indexer]) walks the blocks of a chain node over HTTP and writes rows; the API
    ([crates/api]) reads those rows, answers statistics and searches over them, and pays
    test tokens out of a faucet key ([crates/drip]) to web users and to a Discord bot.
    [crates/types] declares the JSON the node speaks.  This development translates them
    into Gallina and proves what makes them correct, and where they are not, what they do
    instead.

    ** How the parts fit

<<
      environment --Config--> Service.main --Startup (signer, budget)--> AppState
                                   | spawns                                 |
      node --HTTP--> Client --> Ingest --Parser/Decode--> Db --> Schema     |
                      Types        |                              |        |
                                   +---- two tasks, Io -----------+        |
                                                                  |        v
      request --Routes/Extract--> Api --> Listing/Pages  Lookup  Stats <---+
                                   |         +-- Rows, Responses --> JSON  |
                                   +----> Drip, FaucetApi (limiter, nonce) +
                                   +----> BotDrip (bot_drips)   Cluster
>>

    Foundations
    - [Prelude] (this file): Rust's [Result], machine integers with their wrap-around,
      clamps and decimal text, [str::trim], slices that may panic, folds.
    - [Json]: serde_json's [Value] and the derived decoders ([rename], [default],
      [flatten], numbers out of range).
    - [Io]: the effects of both programs.  A program is a function of an environment that
      chooses every HTTP reply, every clock reading, every lost statement or lost
      acknowledgement, and what others did to the database in between; [evolves R]
      is the rely-guarantee judgement all database theorems are stated with.
    - [Schema]: the tables after all of [migrations/*.sql], with CHECK, key and foreign
      key constraints as the record [db_ok].  [Tables]: the columns the migrations'
      CREATE and ALTER statements declare, and the rows of [Schema] as cells under them.
    - [Sql]: GROUP BY with COUNT and ORDER BY with LIMIT as list functions with their
      characterisations.  [F64]: binary64 on the Standard Library's [spec_float], behind
      the finality percentiles and the block estimate.
    - [Standards]: the interfaces [Bech32] and [Sha256] with their laws.  [Sha2] (FIPS
      180-4), [Bech32m] (BIP-350), [Base64] (RFC 4648) and [JsonSyntax] (RFC 8259) are
      reference implementations of the public standards: they meet the laws and reproduce
      the standards' vectors, and the witnesses and the unit tests are evaluated with them.
    - [Samples]: one concrete function for each other interface of the indexer, and small
      nodes whose bodies are JSON text, used by the witnesses.

    The indexer
    - [Types] is [crates/types/src/lib.rs]: a record, a decoder and an encoder for each
      wire type.
    - [AttestationId] is [attestation_id.rs]: [compute_attestation_id].
    - [Decode] is [decode.rs]: [decode_tx_body], the byte reader that recovers signer and
      nonce, together with the wire layout ([encode_inner], [wrap]) its documentation gives.
    - [Parser] is [parser.rs]: [classify_tx], [classify_events] and the four scans.
    - [Db] is [db.rs]: one statement per helper ([upsert_slot], [insert_transaction],
      [insert_attestation], [upsert_bounty], [apply_bounty_claim], [flip_pending_slots],
      ...), each with its proposed row, its constraint checks and its conflict arm.
      [DbFacts] derives that each statement keeps [db_ok]; its class [Guarantee] is the
      interface the ingest loop is verified against: a relation on databases that every
      statement respects, where an inserted transaction has a position of its column's
      type and an inserted attestation the id derived from it, which the loop discharges.
      Its instances: the constraints and the absence of reverted rows ([DbFacts]),
      [history] ([History]), the reachable states ([IngestSpec]), the column types
      ([Typed]) and the derived ids ([EndToEnd]).
      [DbSpec] and [SlotSpec] say what each helper leaves in its table.
    - [Client] is [client.rs] and [error.rs].  [Ingest] is [ingest.rs]: the forward walk
      ([bootstrap], [resolve_cursor], [walk_step], [walk], [main_step]) and the re-poll
      ([repoll_step]).  [IngestSpec], [Links], [Walk], [Replay] and [Typed] are its
      theorems.  The loops above the transactions are verified against a second class,
      [Writers] of [IngestSpec]: every [Guarantee] is one, and so is the relation of
      [Links], which some statements only keep behind a stored transaction.

    The API
    - [Config] is [config.rs]: [from_env].  [Startup] is the rest of [signer.rs] and the
      checks of [main.rs]: [signer_new], [new_with_chain_seed], [boot_signer] with the
      budget check, [redact_pg_url].  [Service] is [main] as a whole, with the shared
      [AppState], and [run] of [crates/indexer/src/lib.rs].
    - [Routes] is the routing table of [main.rs] and [Extract] the handlers' arguments: the
      query structs, bodies and headers of [handlers.rs], [stats.rs] and [bot_drip.rs], and
      the rejections.  [Api] runs every handler on the one shared state, request after
      request.  [ExtractSpec] writes the request of a call and reads it back; [ApiSpec] has
      the theorems of the running server, [Permalinks] those of the indexer and the server
      together.
    - [Rows] is the column list, tuple and struct of every SELECT ([queries.rs] and the
      reads of [db.rs], [stats.rs] and [bot_drip.rs]), with the mappers of [handlers.rs] on
      the structs; [RowsSpec] checks them against [Tables] and against the mappers of
      [Responses], which are on the rows of [Schema].
    - [Drip] is [ratelimit.rs], [signer.rs] and the drip handler of [handlers.rs], one
      request at a time ([drip]); [DripSpec] its theorems.  [FaucetApi] is what the
      faucet's handlers put on the wire, the drip status and the health probe.
    - [BotDrip] is [bot_drip.rs] and its table, one request ([drip_bot]) among others that
      may change table and nonce at each of its effects.
    - [Concurrent] is both handlers cut at their accesses to what they share ([web_step],
      [bot_step]), and a process that runs any number of such requests under a schedule.
      [Tickets] is the abstract specification of a shared nonce counter with the
      discipline that refines it; [ConcurrentSpec] shows that both faucets keep the
      discipline, that a request alone is its handler, and the guarantees and the limits
      under every schedule.
    - [Pages] is the pagination every list handler repeats, over any key order; [Listing]
      instantiates it for each endpoint ([cursor.rs], [queries.rs], [handlers.rs]) and
      [ListingSpec] discharges the hypotheses of [Pages] from the schema.
    - [Responses] is [responses.rs] with the row mappers of [handlers.rs].  [Lookup] is the
      detail endpoints, [search], [bounties_matching], [address_summary] and [info] of
      [handlers.rs] over the queries of [queries.rs]; [LookupSpec] its theorems.
    - [StatsCache], [Stats], [Eta] and [StatsApi] are [stats.rs]: the cache as a
      sequential map and as concurrent requests, the computations, the next-block
      estimate, and the twelve handlers.  [StatsSpec] holds the theorems of the
      computations.
    - [Cluster] is [cluster.rs]: the topology without addresses and its cache.

    The whole: [EndToEnd] composes the indexer's guarantees with the reader's
    assumptions.  [Migrations] is the rows the migrations rewrite, which keeps those
    assumptions.

    The repository's unit tests: [TestKit] reads a test as the proposition its assertions
    state; [TypesTests], [DecodeTests], [AttestationIdTests], [ParserTests], [ClientTests],
    [ApiTests] and [DripTests] are the test modules of the sources under the names of their
    functions, and one theorem per module says that the model passes them.  The data is the
    tests' own: a transaction body and an event captured from the chain, the chain's vector
    of an attestation id, the replies of a mock node.  The captured body is an instance of
    the wire layout the decoder is proved against ([DecodeTests.golden_body_layout]).
    [Captured] runs both programs on the captured texts: the indexer from an empty database,
    then the server, whose pages show the transaction.

    ** What the theorems show

    - References, types and history: whatever the node replies, whatever statements fail
      and however the two tasks interleave, every reference resolves, declared by the
      migrations or not, every integer keeps its column's type, no row is lost, no
      recovered column is blanked and no counter of a set, schema or address goes back.
    - The walk: with a node URL that can be a base it terminates, never panics, passes no
      height that is neither stored nor answered 404, and with a healthy node and database
      reaches the head while the re-poll writes beside it; with one that cannot be a base
      it panics at the first request.
    - Rows: what an insert or an upsert leaves on each arm; address summaries and bounty
      escrows as exact folds over the operations applied to them; slots' finality.
    - Decoding: body, event and attestation-id round trips, precedence of the event
      modules, errors.
    - Faucets: cooldowns over any sequence of requests; over every interleaving of
      requests to both, distinct nonces, at most one payment per request, nothing recorded
      that was not paid, and a window between a record and any later check; the bot's
      refusals as the first guard that failed, what a payout implies, and that the status
      endpoint predicts the next refusal.
    - Reading: page sizes and cursors of every list endpoint, exact delivery on a database
      at rest, and stability while the tables change under the reader; the search finds
      the first resource the query names and leads to a page that exists; the bounty
      matching is eligibility by definition; every read endpoint only reads.
    - Statistics: a reply is a value that this request computed, or an earlier request for
      the same did within its time to live; totals, leaderboards, daily series and the percentile of the estimate
      are what their definitions say.  The cluster reply is fresh or an outage, and no
      address leaves.
    - Start and routing: [from_env] is exactly a declared relation on environments; a
      process that serves has a funded signer with the right nonce and an indexer on the
      same chain; a path reaches exactly one handler.
    - The server: every request gets a reply, where the node's URL and the clock allow it
      ([ApiSpec.server_answers] says which); what a handler can be called with a client
      can ask for; no request writes the indexer's tables and only POST touches the
      faucets; over any mix of requests handled one after another web drips keep the
      cooldown and the two faucets draw distinct nonces from one counter.
    - Columns: every SELECT decodes whatever its columns admit, field by field under the
      column's own name, computed columns by their documented types; and what the handlers
      make of the decoded structs are the responses of [Responses].
    - Composition: every database the indexer reaches is one the reading theorems assume,
      so a client that pages while the indexer runs misses nothing it was there to see; a
      height the walk leaves behind has its page, and a page that was shown stays.
    - Limits of the design, proved as such: replaying a slot counts transfers and claims
      twice, reverted transactions are never stored, a finalized slot can be stamped
      again, a gas limit can make the decoder read a wrong nonce, requests to either faucet
      that reach the chain before the first is recorded are all paid, the daily drips count
      the bot twice, a long window or a drip amount of zero panics, the advertised wait is
      rounded down, a node URL without [http://] is accepted and panics at its first use, a
      block served as immutable changes, a password with an at sign is
      logged in part, a finality a migration has labelled stays.

    ** Interfaces

    Code outside the repository is a class of operations, with a class of laws where a
    theorem needs its documented behaviour: [Bech32] and [Sha256] (bech32, sha2), [Hex],
    [Urls] (url; a relative path joins a base that can be one and no other), [JsonText] (serde_json's text), [Base64Url] and the parameter
    [base64_decode] (base64), [Chrono], [BotTime], [Rfc3339], [Calendar] and [CalendarEnd]
    (chrono), [PgNumeric], [PgText] and [PgPercentile] (Postgres' NUMERIC text, its byte
    order on text and its percentile aggregate), [Unicode] (lower case beyond ASCII),
    [ChainSdk] and [SdkReads] (the node's client library), [Router] (axum's choice of a
    pattern), [Web] and [DateTimeText] (axum's and serde's reading of a request, with the
    client's writing of it in [Client]), [Sqlx] (the decoding of a cell), [Platform] (pool,
    migration runner and socket).  Each law class has an
    instance: the standard itself for [Bech32], [Sha256], [JsonText], [Base64Url] and [Hex],
    a sample beside the witness for the others.

    ** Bounds and fuel

    - [walk] recurses on fuel; [walk_fuel head next] is one unit per height up to the head
      and [Walk.walk_terminates] proves it enough.  [run] observes a loop that never
      returns for any number of passes.
    - [wait_for_inclusion] is bounded by the code's own deadline: twenty-five polls; the
      balance query by its five attempts.
    - A client that follows cursors recurses on fuel; [ListingSpec.pages_exact] says
      how much suffices: as many pages as the rows fill.
    - [drop_while] (for [trim]) takes the length of the text.
    - Integers are [Z] with [as_u64], [as_i32], ... wherever the code casts or wraps.
    - A run of the server is a list of requests ([Api.serve_all]), served one at a time; the
      interleaving of requests is in [Concurrent], [BotDrip] and [StatsCache].  A schedule
      of [Concurrent] is any list of turns; six turns answer a request
      ([ConcurrentSpec.answered_in_six]).

    ** Not modelled

    The migration runner's bookkeeping and the indexes the migrations create; tracing and
    metrics; the CORS layer beyond its answer to OPTIONS; the limits and timeouts of the
    connection pools; timers (a sleep does not change the state).  Strings are byte
    strings, as Rust's are.  [JsonSyntax] reads and prints no number with a fraction or an
    exponent; the captured bodies carry none.  A text that gives a member twice is read by
    the last value, as a [Value] is; serde's struct readers refuse it.  Deployment files are
    not part of the programs; the RFCs of [docs/rfc] are not either, and where the code
    differs from them on what is modelled, the list of findings beside this library says
    so.  Of the test code, [read_slot] of [db.rs], which has no caller, is only its
    statement. *)

From Stdlib Require Export ZArith Lia String Ascii List Bool.
From Stdlib Require Import DecimalString DecimalN DecimalFacts.
From stdpp Require Export base option list gmap strings relations.

Open Scope Z_scope.

(** ** Results: Rust's [Result<T, E>] *)

Inductive result (E A : Type) : Type :=
| Ok (a : A)
| Err (e : E).
Arguments Ok {E A} a.
Arguments Err {E A} e.

(** Rust's [?] operator is the bind of this monad: [x ← m; k] stops at the first
    error. *)
#[export] Instance result_ret E : MRet (result E) := fun _ a => Ok a.
#[export] Instance result_bind E : MBind (result E) := fun _ _ k r =>
  match r with Ok a => k a | Err e => Err e end.

(** [Result::ok]. *)
Definition result_ok {E A} (r : result E A) : option A :=
  match r with Ok a => Some a | Err _ => None end.

(** [P] holds of the value, if there is one. *)
Definition on_ok {E A} (P : A -> Prop) (r : result E A) : Prop :=
  match r with Ok a => P a | Err _ => True end.

(** [Result::map_err]. *)
Definition map_err {E F A} (f : E -> F) (r : result E A) : result F A :=
  match r with Ok a => Ok a | Err e => Err (f e) end.

(** ** Machine integers

    Every Rust integer is a [Z]; a cast [x as T] is written with its wrap-around,
    a checked conversion ([T::try_from]) returns an option. *)

Definition u8_max : Z := 255.
Definition u16_max : Z := 65535.
Definition u32_max : Z := 4294967295.
Definition u64_max : Z := 18446744073709551615.
Definition u128_max : Z := 340282366920938463463374607431768211455.
Definition i32_max : Z := 2147483647.
Definition i32_min : Z := -2147483648.
Definition i64_max : Z := 9223372036854775807.
Definition i64_min : Z := -9223372036854775808.

Definition in_u16 (z : Z) : Prop := 0 <= z <= u16_max.
Definition in_u32 (z : Z) : Prop := 0 <= z <= u32_max.
Definition in_u64 (z : Z) : Prop := 0 <= z <= u64_max.
Definition in_u128 (z : Z) : Prop := 0 <= z <= u128_max.
Definition in_i32 (z : Z) : Prop := i32_min <= z <= i32_max.
Definition in_i64 (z : Z) : Prop := i64_min <= z <= i64_max.

Definition opt_in_i64 (o : option Z) : Prop := match o with Some z => in_i64 z | None => True end.

Definition as_unsigned (w z : Z) : Z := z mod 2 ^ w.
Definition as_signed (w z : Z) : Z := (z + 2 ^ (w - 1)) mod 2 ^ w - 2 ^ (w - 1).

Definition as_u8 : Z -> Z := as_unsigned 8.
Definition as_u16 : Z -> Z := as_unsigned 16.
Definition as_u32 : Z -> Z := as_unsigned 32.
Definition as_u64 : Z -> Z := as_unsigned 64.
Definition as_i32 : Z -> Z := as_signed 32.
Definition as_i64 : Z -> Z := as_signed 64.

(** [u128::saturating_add], [u64::saturating_add], [u64::saturating_sub]. *)
Definition saturating_add (max a b : Z) : Z := Z.min max (a + b).
Definition saturating_sub (a b : Z) : Z := Z.max 0 (a - b).

(** [i32::try_from(x).unwrap_or(i32::MAX)] and its 64-bit twin. *)
Definition clamp_i32 (z : Z) : Z :=
  if (i32_min <=? z) && (z <=? i32_max) then z else i32_max.
Definition clamp_i64 (z : Z) : Z :=
  if (i64_min <=? z) && (z <=? i64_max) then z else i64_max.

Create HintDb ints discriminated.
Create Rewrite HintDb int_casts.

Ltac int_consts :=
  unfold in_u16, in_u32, in_u64, in_u128, in_i32, in_i64,
         u8_max, u16_max, u32_max, u64_max, u128_max,
         i32_max, i32_min, i64_max, i64_min in *.

Ltac lia_int := int_consts; lia.

Lemma as_i64_id z : in_i64 z -> as_i64 z = z.
Proof.
  intros H. unfold as_i64, as_signed. rewrite Z.mod_small; [lia|].
  change (2 ^ 64) with 18446744073709551616.
  change (2 ^ (64 - 1)) with 9223372036854775808. lia_int.
Qed.

Lemma as_i32_id z : in_i32 z -> as_i32 z = z.
Proof.
  intros H. unfold as_i32, as_signed. rewrite Z.mod_small; [lia|].
  change (2 ^ 32) with 4294967296.
  change (2 ^ (32 - 1)) with 2147483648. lia_int.
Qed.

Lemma as_u64_id z : in_u64 z -> as_u64 z = z.
Proof.
  intros H. unfold as_u64, as_unsigned. apply Z.mod_small.
  change (2 ^ 64) with 18446744073709551616. lia_int.
Qed.

Lemma as_u32_id z : in_u32 z -> as_u32 z = z.
Proof.
  intros H. unfold as_u32, as_unsigned. apply Z.mod_small.
  change (2 ^ 32) with 4294967296. lia_int.
Qed.

(** A signed value survives the trip through the unsigned type of its width:
    the database keeps [i64]/[i32], the wire [u64]/[u32]. *)
Lemma as_signed_unsigned w z :
  1 <= w -> - 2 ^ (w - 1) <= z < 2 ^ (w - 1) -> as_signed w (as_unsigned w z) = z.
Proof.
  intros Hw Hz. unfold as_signed, as_unsigned.
  assert (Hp : 2 ^ w = 2 * 2 ^ (w - 1)).
  { rewrite <- Z.pow_succ_r by lia. f_equal. lia. }
  rewrite Zplus_mod_idemp_l, Z.mod_small by lia. lia.
Qed.

Lemma as_i64_as_u64 z : in_i64 z -> as_i64 (as_u64 z) = z.
Proof.
  intros H. apply as_signed_unsigned; [lia|].
  change (2 ^ (64 - 1)) with 9223372036854775808. lia_int.
Qed.

Lemma as_i32_as_u32 z : in_i32 z -> as_i32 (as_u32 z) = z.
Proof.
  intros H. apply as_signed_unsigned; [lia|].
  change (2 ^ (32 - 1)) with 2147483648. lia_int.
Qed.

Lemma as_i64_range z : in_i64 (as_i64 z).
Proof.
  unfold as_i64, as_signed.
  pose proof (Z.mod_pos_bound (z + 2 ^ (64 - 1)) (2 ^ 64) eq_refl) as H.
  change (2 ^ 64) with 18446744073709551616 in *.
  change (2 ^ (64 - 1)) with 9223372036854775808 in *. lia_int.
Qed.

Lemma as_i32_range z : in_i32 (as_i32 z).
Proof.
  unfold as_i32, as_signed.
  pose proof (Z.mod_pos_bound (z + 2 ^ (32 - 1)) (2 ^ 32) eq_refl) as H.
  change (2 ^ 32) with 4294967296 in *.
  change (2 ^ (32 - 1)) with 2147483648 in *. lia_int.
Qed.

Lemma clamp_i32_range z : in_i32 (clamp_i32 z).
Proof.
  unfold clamp_i32. destruct (i32_min <=? z) eqn:?, (z <=? i32_max) eqn:?; simpl; lia_int.
Qed.

Lemma clamp_i64_range z : in_i64 (clamp_i64 z).
Proof.
  unfold clamp_i64. destruct (i64_min <=? z) eqn:?, (z <=? i64_max) eqn:?; simpl; lia_int.
Qed.

#[export] Hint Resolve as_i64_range as_i32_range clamp_i32_range clamp_i64_range : ints.
#[export] Hint Rewrite as_i64_id as_i32_id as_u64_id as_u32_id as_i64_as_u64 as_i32_as_u32
  using (first [assumption | lia_int]) : int_casts.

(** ** Decimal text: [to_string] and [str::parse] of the integer types *)

Definition to_string (z : Z) : string :=
  if z <? 0
  then ("-" ++ NilEmpty.string_of_uint (N.to_uint (Z.to_N (- z))))%string
  else NilEmpty.string_of_uint (N.to_uint (Z.to_N z)).

(** The digits of an unsigned literal; [None] on the empty string or on any
    character that is not a digit. *)
Definition parse_digits (s : string) : option Z :=
  match s with
  | EmptyString => None
  | _ => match NilEmpty.uint_of_string s with
         | Some d => Some (Z.of_N (N.of_uint d))
         | None => None
         end
  end.

(** [s.parse::<uN>()]: an optional leading [+], at least one digit, and an error
    when the value exceeds the type's maximum. *)
Definition parse_uint (max : Z) (s : string) : option Z :=
  let digits := match s with String "+" rest => rest | _ => s end in
  match parse_digits digits with
  | Some n => if n <=? max then Some n else None
  | None => None
  end.

(** [s.parse::<iN>()]. *)
Definition parse_int (min max : Z) (s : string) : option Z :=
  match s with
  | String "-" rest =>
      match parse_digits rest with
      | Some n => if min <=? - n then Some (- n) else None
      | None => None
      end
  | _ => parse_uint max s
  end.

Lemma uint_string_cases d :
  NilEmpty.string_of_uint d = EmptyString \/
  exists c s, NilEmpty.string_of_uint d = String c s /\ c <> "+"%char /\ c <> "-"%char.
Proof.
  destruct d; simpl; [by left|..]; right; eexists _, _; split_and!; (reflexivity || done).
Qed.

Lemma to_uint_nonempty n : NilEmpty.string_of_uint (N.to_uint n) <> EmptyString.
Proof.
  intros H. apply (f_equal NilEmpty.uint_of_string) in H.
  rewrite NilEmpty.usu in H. simpl in H. injection H as H.
  assert (n = 0%N) as ->.
  { rewrite <- (DecimalN.Unsigned.of_to n). by rewrite H. }
  done.
Qed.

Lemma parse_digits_to_string z : 0 <= z -> parse_digits (to_string z) = Some z.
Proof.
  intros Hz. unfold to_string. destruct (z <? 0) eqn:E; [lia|].
  unfold parse_digits.
  pose proof (to_uint_nonempty (Z.to_N z)) as Hne.
  destruct (NilEmpty.string_of_uint (N.to_uint (Z.to_N z))) eqn:Hs; [done|].
  rewrite <- Hs, NilEmpty.usu, DecimalN.Unsigned.of_to. f_equal. lia.
Qed.

Lemma to_string_head z :
  0 <= z -> exists c s, to_string z = String c s /\ c <> "+"%char /\ c <> "-"%char.
Proof.
  intros Hz. unfold to_string. destruct (z <? 0) eqn:E; [lia|].
  destruct (uint_string_cases (N.to_uint (Z.to_N z))) as [H|H]; [|done].
  by destruct (to_uint_nonempty (Z.to_N z)).
Qed.

(** Printing then parsing gives the value back, within the type's range. *)
Lemma parse_uint_to_string max z : 0 <= z <= max -> parse_uint max (to_string z) = Some z.
Proof.
  intros Hz. unfold parse_uint.
  destruct (to_string_head z) as (c & s & Hs & Hp & Hm); [lia|].
  assert (match to_string z with String "+" rest => rest | _ => to_string z end
          = to_string z) as ->.
  { rewrite Hs. destruct c as [[] [] [] [] [] [] [] []]; try done. }
  rewrite parse_digits_to_string by lia.
  destruct (z <=? max) eqn:E; [done|lia].
Qed.

Lemma parse_digits_nonneg s n : parse_digits s = Some n -> 0 <= n.
Proof.
  unfold parse_digits. destruct s; [done|].
  case_match; [|done]. intros [= <-]. lia.
Qed.

Lemma parse_uint_range max s n : parse_uint max s = Some n -> 0 <= n <= max.
Proof.
  unfold parse_uint. case_match eqn:E; [|done].
  apply parse_digits_nonneg in E. case_match; [|done]. intros [= <-]. lia.
Qed.

(** ** Text *)

(** The UTF-8 encodings of Unicode [White_Space]; a leading one is dropped. *)
Definition drop_ws_head (l : list Z) : option (list Z) :=
  match l with
  | 194 :: 133 :: r | 194 :: 160 :: r => Some r
  | 225 :: 154 :: 128 :: r | 227 :: 128 :: 128 :: r | 226 :: 129 :: 159 :: r => Some r
  | 226 :: 128 :: b :: r =>
      if ((128 <=? b) && (b <=? 138)) || (b =? 168) || (b =? 169) || (b =? 175)
      then Some r else None
  | b :: r => if ((9 <=? b) && (b <=? 13)) || (b =? 32) then Some r else None
  | [] => None
  end.

(** The same at the end of the text, on the reversed bytes. *)
Definition drop_ws_last (l : list Z) : option (list Z) :=
  match l with
  | 133 :: 194 :: r | 160 :: 194 :: r => Some r
  | 128 :: 154 :: 225 :: r | 128 :: 128 :: 227 :: r | 159 :: 129 :: 226 :: r => Some r
  | b :: 128 :: 226 :: r =>
      if ((128 <=? b) && (b <=? 138)) || (b =? 168) || (b =? 169) || (b =? 175)
      then Some r else None
  | b :: r => if ((9 <=? b) && (b <=? 13)) || (b =? 32) then Some r else None
  | [] => None
  end.

Fixpoint drop_while (step : list Z -> option (list Z)) (fuel : nat) (l : list Z) : list Z :=
  match fuel with
  | O => l
  | S n => match step l with Some r => drop_while step n r | None => l end
  end.

Definition bytes_of (s : string) : list Z :=
  (fun c => Z.of_N (N_of_ascii c)) <$> list_ascii_of_string s.
Definition string_of (l : list Z) : string :=
  string_of_list_ascii ((fun b => ascii_of_N (Z.to_N b)) <$> l).

(** The place of a character in an alphabet. *)
Fixpoint index_of (c : ascii) (l : list ascii) (k : Z) : option Z :=
  match l with
  | [] => None
  | x :: r => if Ascii.eqb x c then Some k else index_of c r (k + 1)
  end.

(** [str::trim]. *)
Definition trim (s : string) : string :=
  let l := drop_while drop_ws_head (String.length s) (bytes_of s) in
  string_of (rev (drop_while drop_ws_last (length l) (rev l))).

Lemma string_app_cons c (a b : string) : (String c a ++ b)%string = String c (a ++ b).
Proof. reflexivity. Qed.

Lemma list_ascii_app s t :
  list_ascii_of_string (s ++ t) = list_ascii_of_string s ++ list_ascii_of_string t.
Proof. induction s as [|c s IH]; simpl; [done|by f_equal]. Qed.

Lemma string_length_app (a b : string) : String.length (a ++ b) = (String.length a + String.length b)%nat.
Proof. induction a; simpl; [done|by f_equal]. Qed.

Lemma string_app_inj a b c : (a ++ b)%string = (a ++ c)%string -> b = c.
Proof.
  induction a as [|x a IH]; [intros H; exact H|]. rewrite !string_app_cons. intros H.
  apply IH. congruence.
Qed.

Lemma string_app_assoc (a b c : string) : ((a ++ b) ++ c)%string = (a ++ b ++ c)%string.
Proof. induction a as [|x a IH]; [done|exact (f_equal (String x) IH)]. Qed.

(** ** Bytes, slices and panics *)

Definition byte_ok (b : Z) : Prop := 0 <= b < 256.

Lemma bytes_of_ok s : Forall byte_ok (bytes_of s).
Proof.
  unfold bytes_of. apply Forall_fmap, Forall_true. intros c. unfold byte_ok. simpl.
  pose proof (N_ascii_bounded c). lia.
Qed.

Lemma string_of_bytes s : string_of (bytes_of s) = s.
Proof.
  unfold string_of, bytes_of. rewrite <- list_fmap_compose.
  rewrite <- (string_of_list_ascii_of_string s) at 2. f_equal.
  rewrite <- (list_fmap_id (list_ascii_of_string s)) at 2. apply list_fmap_ext.
  intros _ c _. simpl. by rewrite N2Z.id, ascii_N_embedding.
Qed.

Lemma bytes_of_inj s t : bytes_of s = bytes_of t <-> s = t.
Proof.
  split; [|by intros ->]. unfold bytes_of. intros H.
  rewrite <- (string_of_list_ascii_of_string s), <- (string_of_list_ascii_of_string t). f_equal.
  revert H. apply list_fmap_eq_inj. intros x y Hxy.
  apply N2Z.inj in Hxy. by rewrite <- (ascii_N_embedding x), Hxy, ascii_N_embedding.
Qed.

(** A computation of the source either finishes or panics (an index out of bounds,
    an [expect] on an error). *)
Inductive outcome (A : Type) : Type :=
| Done (a : A)
| Panicked.
Arguments Done {A} a.
Arguments Panicked {A}.

#[export] Instance outcome_ret : MRet outcome := fun _ a => Done a.
#[export] Instance outcome_bind : MBind outcome := fun _ _ k m =>
  match m with Done a => k a | Panicked => Panicked end.

(** [&l[a..b]]: panics unless [a <= b <= l.len()]. *)
Definition slice {A} (a b : nat) (l : list A) : outcome (list A) :=
  if ((a <=? b) && (b <=? length l))%nat then Done (take (b - a) (drop a l)) else Panicked.

Lemma slice_done {A} (a b : nat) (l : list A) :
  (a <= b <= length l)%nat -> slice a b l = Done (take (b - a) (drop a l)).
Proof.
  intros H. unfold slice.
  rewrite (proj2 (Nat.leb_le a b)), (proj2 (Nat.leb_le b (length l))) by lia. done.
Qed.

(** The middle of a concatenation. *)
Lemma slice_app {A} (l1 l2 l3 : list A) a b :
  a = length l1 -> b = (length l1 + length l2)%nat ->
  slice a b (l1 ++ l2 ++ l3) = Done l2.
Proof.
  intros -> ->. rewrite slice_done by (rewrite !length_app; lia).
  rewrite drop_app_length. f_equal. rewrite take_app_le by lia.
  apply take_ge. lia.
Qed.

(** [uN::from_le_bytes] and its inverse [to_le_bytes]. *)
Fixpoint from_le (l : list Z) : Z :=
  match l with [] => 0 | b :: r => b + 256 * from_le r end.

Fixpoint to_le (n : nat) (z : Z) : list Z :=
  match n with O => [] | S k => z mod 256 :: to_le k (z / 256) end.

Lemma length_to_le n z : length (to_le n z) = n.
Proof. revert z. induction n; intros; simpl; [done|]. by rewrite IHn. Qed.

Lemma from_to_le n z : 0 <= z < 256 ^ Z.of_nat n -> from_le (to_le n z) = z.
Proof.
  revert z. induction n as [|n IH]; intros z Hz.
  - simpl in *. lia.
  - rewrite Nat2Z.inj_succ, Z.pow_succ_r in Hz by lia. simpl. rewrite IH.
    + pose proof (Z.div_mod z 256). lia.
    + split; [apply Z.div_pos; lia|]. apply Z.div_lt_upper_bound; lia.
Qed.

Lemma to_le_app n m z : to_le (n + m) z = to_le n z ++ to_le m (z / 256 ^ Z.of_nat n).
Proof.
  revert z. induction n as [|n IH]; intros z.
  - simpl. by rewrite Z.div_1_r.
  - rewrite Nat2Z.inj_succ, Z.pow_succ_r by lia. simpl.
    rewrite IH, Z.div_div by lia. done.
Qed.

Lemma from_to_le_mod n z : 0 <= z -> from_le (to_le n z) = z mod 256 ^ Z.of_nat n.
Proof.
  revert z. induction n as [|n IH]; intros z Hz.
  - simpl. by rewrite Z.mod_1_r.
  - rewrite Nat2Z.inj_succ, Z.pow_succ_r by lia. simpl.
    rewrite IH by (apply Z.div_pos; lia). rewrite Z.rem_mul_r by lia. lia.
Qed.

Lemma to_le_bytes n z : Forall byte_ok (to_le n z).
Proof.
  revert z. induction n; intros z; simpl; constructor; [|done].
  unfold byte_ok. apply Z.mod_pos_bound. lia.
Qed.

(** ** Lists and folds *)

(** A predicate that every step keeps and that the step on [x] establishes holds after
    folding over a list with [x]. *)
Lemma fold_left_reaches {S A} (step : S -> A -> S) (P : S -> Prop) l x s :
  (forall s y, P s -> P (step s y)) -> (forall s, P (step s x)) ->
  x ∈ l -> P (fold_left step l s).
Proof.
  intros Hkeep Hx Hin.
  assert (forall l s, P s -> P (fold_left step l s)) as Hall.
  { induction l0 as [|y l0 IH]; intros; simpl; auto. }
  revert s. induction Hin; intros; simpl; auto.
Qed.

Lemma fold_left_keeps {S A} (step : S -> A -> S) (P : S -> Prop) l s :
  P s -> (forall s y, y ∈ l -> P s -> P (step s y)) -> P (fold_left step l s).
Proof.
  revert s. induction l as [|y l IH]; intros s Hs Hstep; simpl; [done|].
  apply IH; [by apply Hstep; [left|]|]. intros s' z Hz. apply Hstep. by right.
Qed.

(** Steps that leave the state alone can be dropped from the front and the back. *)
Lemma fold_left_idle {S A} (step : S -> A -> S) l s :
  (forall y, y ∈ l -> step s y = s) -> fold_left step l s = s.
Proof.
  intros Hs. induction l as [|y l IH]; simpl; [done|].
  rewrite Hs by by left. apply IH. intros z Hz. apply Hs. by right.
Qed.
