(* ===== verification/Standards.v ===== *)
(** * The encodings and the hash the chain's ids are written with

    The bech32 and sha2 crates, as the interfaces [Bech32] and [Sha256]: their operations
    are fields, their documented behaviour is the laws classes.  [Bech32m] and [Sha2] are
    reference implementations of the public standards that meet the laws. *)

From S2P Require Import Prelude.
Open Scope string_scope.
Open Scope list_scope.
Open Scope Z_scope.

(** The operations the indexer uses of the bech32 crate. An [Hrp] is its text. *)
Class Bech32 := {
  DecodeError : Type;
  EncodeError : Type;
  hrp_parse : string -> option string;
  bech32_decode : string -> result DecodeError (string * list Z);
  bech32_encode : string -> list Z -> result EncodeError string
}.

(** The HRPs of the protocol. *)
Definition known_hrps : list string := ["lig"; "lpk"; "lsc"; "las"; "lph"; "lat"].

(** Documented behaviour: the protocol's lowercase HRPs parse, and an encoding of at
    most 32 bytes under one of them succeeds and decodes to what was encoded. *)
Class Bech32Laws (B : Bech32) := {
  hrp_parse_known h : h ∈ known_hrps -> hrp_parse h = Some h;
  bech32_encode_ok h data :
    h ∈ known_hrps -> (length data <= 32)%nat -> Forall byte_ok data ->
    exists s, bech32_encode h data = Ok s;
  bech32_decode_encode h data s :
    h ∈ known_hrps -> bech32_encode h data = Ok s -> bech32_decode s = Ok (h, data)
}.

Class Sha256 := sha256 : list Z -> list Z.
Class Sha256Laws (H : Sha256) := {
  sha256_length m : length (sha256 m) = 32%nat;
  sha256_bytes m : Forall byte_ok (sha256 m)
}.
