(* ===== verification/Sha2.v ===== *)
(** * SHA-256 (FIPS 180-4)

    A reference implementation of the interface [Sha256], so that the attestation ids of
    this development can be evaluated and compared with the ids of the chain.  The round
    constants are not tabulated but computed from their definition: fractional bits of the
    square and cube roots of the first primes. *)

From S2P Require Import Prelude Standards.
Open Scope list_scope.
Open Scope Z_scope.

Module Fips180.
(** ** 32-bit words *)

Definition word (x : Z) : Z := x mod 2 ^ 32.
Definition rotate (n x : Z) : Z := Z.lor (Z.shiftr x n) (word (Z.shiftl x (32 - n))).
Definition xor3 (a b c : Z) : Z := Z.lxor a (Z.lxor b c).

Definition big_sigma0 (x : Z) : Z := xor3 (rotate 2 x) (rotate 13 x) (rotate 22 x).
Definition big_sigma1 (x : Z) : Z := xor3 (rotate 6 x) (rotate 11 x) (rotate 25 x).
Definition small_sigma0 (x : Z) : Z := xor3 (rotate 7 x) (rotate 18 x) (Z.shiftr x 3).
Definition small_sigma1 (x : Z) : Z := xor3 (rotate 17 x) (rotate 19 x) (Z.shiftr x 10).

(** Bitwise choice and majority; the complement of [x] is [2^32 - 1 - x]. *)
Definition choose_bits (x y z : Z) : Z := Z.lxor (Z.land x y) (Z.land (u32_max - x) z).
Definition majority (x y z : Z) : Z := xor3 (Z.land x y) (Z.land x z) (Z.land y z).

(** ** Constants *)

Definition is_prime (n : Z) : bool :=
  forallb (fun d => negb (n mod d =? 0)) (Z.of_nat <$> seq 2 (Z.to_nat (Z.sqrt n) - 1)).

Definition primes (count : nat) : list Z :=
  take count (filter (fun n => is_prime n = true) (Z.of_nat <$> seq 2 (count * 8))).

(** The greatest [r] with [r^3 <= n], bit by bit from bit [k] down. *)
Fixpoint cube_root (k : nat) (r n : Z) : Z :=
  let r' := r + 2 ^ Z.of_nat k in
  let r := if r' ^ 3 <=? n then r' else r in
  match k with O => r | S k => cube_root k r n end.

(** The first 32 bits of the fractional parts of the roots of [p]. *)
Definition sqrt_fraction (p : Z) : Z := word (Z.sqrt (p * 2 ^ 64)).
Definition cbrt_fraction (p : Z) : Z := word (cube_root 40 0 (p * 2 ^ 96)).

Definition round_constants : list Z := Eval vm_compute in cbrt_fraction <$> primes 64.

Lemma round_constants_def : round_constants = cbrt_fraction <$> primes 64.
Proof. vm_compute. reflexivity. Qed.

(** ** The compression function *)

Record Digest := { da : Z; db : Z; dc : Z; dd : Z; de : Z; df : Z; dg : Z; dh : Z }.

Definition initial : Digest := Eval vm_compute in
  match sqrt_fraction <$> primes 8 with
  | [a; b; c; d; e; f; g; h] =>
      {| da := a; db := b; dc := c; dd := d; de := e; df := f; dg := g; dh := h |}
  | _ => {| da := 0; db := 0; dc := 0; dd := 0; de := 0; df := 0; dg := 0; dh := 0 |}
  end.

Definition round (s : Digest) (kw : Z * Z) : Digest :=
  let t1 := s.(dh) + big_sigma1 s.(de) + choose_bits s.(de) s.(df) s.(dg) + kw.1 + kw.2 in
  let t2 := big_sigma0 s.(da) + majority s.(da) s.(db) s.(dc) in
  {| da := word (t1 + t2); db := s.(da); dc := s.(db); dd := s.(dc);
     de := word (s.(dd) + t1); df := s.(de); dg := s.(df); dh := s.(dg) |}.

(** The message schedule, kept newest word first. *)
Fixpoint schedule (more : nat) (ws : list Z) : list Z :=
  match more with
  | O => rev ws
  | S more =>
      let at_back k := nth (k - 1) ws 0 in
      let w := small_sigma1 (at_back 2%nat) + at_back 7%nat
               + small_sigma0 (at_back 15%nat) + at_back 16%nat in
      schedule more (word w :: ws)
  end.

Definition digest_add (s t : Digest) : Digest :=
  {| da := word (s.(da) + t.(da)); db := word (s.(db) + t.(db));
     dc := word (s.(dc) + t.(dc)); dd := word (s.(dd) + t.(dd));
     de := word (s.(de) + t.(de)); df := word (s.(df) + t.(df));
     dg := word (s.(dg) + t.(dg)); dh := word (s.(dh) + t.(dh)) |}.

(** One block of sixteen words. *)
Definition compress (s : Digest) (block : list Z) : Digest :=
  digest_add s (fold_left round (zip round_constants (schedule 48 (rev block))) s).

(** ** Padding and blocks *)

Definition to_be (n : nat) (z : Z) : list Z := rev (to_le n z).

Definition padded (m : list Z) : list Z :=
  let zeros := Z.to_nat ((55 - Z.of_nat (length m)) mod 64) in
  m ++ 128 :: replicate zeros 0 ++ to_be 8 (8 * Z.of_nat (length m)).

Fixpoint words (l : list Z) : list Z :=
  match l with
  | a :: b :: c :: d :: r => from_le [d; c; b; a] :: words r
  | _ => []
  end.

Fixpoint blocks (fuel : nat) (ws : list Z) : list (list Z) :=
  match fuel, ws with
  | S fuel, _ :: _ => take 16 ws :: blocks fuel (drop 16 ws)
  | _, _ => []
  end.

Definition digest_bytes (s : Digest) : list Z :=
  w ← [s.(da); s.(db); s.(dc); s.(dd); s.(de); s.(df); s.(dg); s.(dh)]; to_be 4 w.

#[export] Instance sha2 : Sha256 := fun m =>
  let ws := words (padded m) in
  digest_bytes (fold_left compress (blocks (length ws) ws) initial).

(** ** Laws *)

Lemma to_be_bytes n z : Forall byte_ok (to_be n z).
Proof. apply Forall_rev, to_le_bytes. Qed.

#[export] Instance sha2_laws : Sha256Laws sha2.
Proof.
  split; intros m; unfold sha256, sha2, digest_bytes;
    destruct (fold_left compress _ initial) as [a b c d e f g h].
  - done.
  - apply Forall_forall. intros x (w & Hx & _)%list_elem_of_bind.
    by apply (proj1 (Forall_forall _ _) (to_be_bytes 4 w)).
Qed.

(** A padded message is a whole number of blocks, each of sixteen words. *)
Lemma padded_length m : Z.of_nat (length (padded m)) mod 64 = 0.
Proof.
  unfold padded, to_be. rewrite !length_app, length_cons, length_app, length_replicate.
  rewrite length_rev, length_to_le.
  pose proof (Z.mod_pos_bound (55 - Z.of_nat (length m)) 64 eq_refl) as Hb.
  rewrite !Nat2Z.inj_add, Nat2Z.inj_succ, Nat2Z.inj_add, Z2Nat.id by lia.
  rewrite <- Z.add_1_r. change (Z.of_nat 8) with 8.
  replace (Z.of_nat (length m) + ((55 - Z.of_nat (length m)) mod 64 + 8 + 1))
    with ((55 - Z.of_nat (length m)) mod 64 + (Z.of_nat (length m) + 9)) by lia.
  rewrite Zplus_mod_idemp_l. by replace (55 - _ + _) with 64 by lia.
Qed.

(** The examples of the standard: the empty message and "abc". *)
Definition hex_digit (n : Z) : ascii :=
  ascii_of_N (Z.to_N (if n <? 10 then 48 + n else 87 + n)).
Definition hex_of (l : list Z) : string :=
  string_of_list_ascii (b ← l; [hex_digit (b / 16); hex_digit (b mod 16)]).

Example sha2_empty :
  hex_of (sha2 []) = "e3b0c44298fc1c149afbf4c8996fb92427ae41e4649b934ca495991b7852b855"%string.
Proof. vm_compute. reflexivity. Qed.
Example sha2_abc :
  hex_of (sha2 (bytes_of "abc")) =
    "ba7816bf8f01cfea414140de5dae2223b00361a396177a9cb410ff61f20015ad"%string.
Proof. vm_compute. reflexivity. Qed.
End Fips180.
