(* ===== verification/Bech32m.v ===== *)
(** * Bech32m (BIP-173, BIP-350)

    A reference implementation of the interface [Bech32]: a checksummed base-32 text with a
    human-readable prefix.  The encoder writes the bech32m checksum, the reader takes
    either of the two, as [bech32::decode] does. *)

From S2P Require Import Prelude Standards.
From Stdlib Require Import Btauto.
Open Scope string_scope.
Open Scope list_scope.
Open Scope Z_scope.

Module Bip350.
(** ** Groups of bits *)

(** The low [w] bits of [v], high bit first. *)
Fixpoint bits (w : nat) (v : Z) : list bool :=
  match w with O => [] | S w => Z.testbit v (Z.of_nat w) :: bits w v end.

Definition of_bits (l : list bool) : Z := fold_left (fun acc b => 2 * acc + Z.b2z b) l 0.

(** Eights of bits regrouped by fives, the last filled up with zeros, and back. *)
Fixpoint fives (l : list bool) : list Z :=
  match l with
  | [] => []
  | a :: b :: c :: d :: e :: r => of_bits [a; b; c; d; e] :: fives r
  | _ => [of_bits (take 5 (l ++ replicate 5 false))]
  end.

Fixpoint eights (l : list bool) : list Z * list bool :=
  match l with
  | a :: b :: c :: d :: e :: f :: g :: h :: r =>
      let '(bytes, rest) := eights r in (of_bits [a; b; c; d; e; f; g; h] :: bytes, rest)
  | _ => ([], l)
  end.

Definition to_fives (data : list Z) : list Z := fives (data ≫= bits 8).
(** Fewer than five bits may be left over, all zero. *)
Definition from_fives (groups : list Z) : option (list Z) :=
  let '(bytes, rest) := eights (groups ≫= bits 5) in
  if (length rest <? 5)%nat && forallb negb rest then Some bytes else None.

(** ** The checksum *)

Definition generators : list Z :=
  [0x3b6a57b2; 0x26508e6d; 0x1ea119fa; 0x3d4233dd; 0x2a1462b3].

Fixpoint feedback (gs : list Z) (k top : Z) : Z :=
  match gs with
  | [] => 0
  | g :: gs => Z.lxor (if Z.testbit top k then g else 0) (feedback gs (k + 1) top)
  end.

Definition polymod_step (chk v : Z) : Z :=
  Z.lxor (Z.lxor (Z.shiftl (Z.land chk (Z.ones 25)) 5) v)
         (feedback generators 0 (Z.shiftr chk 25)).
Definition polymod (chk : Z) (values : list Z) : Z := fold_left polymod_step values chk.

Definition BECH32M_CONST : Z := 0x2bc830a3.
Definition BECH32_CONST : Z := 1.

Definition hrp_expand (hrp : string) : list Z :=
  ((fun b => Z.shiftr b 5) <$> bytes_of hrp) ++ 0 :: ((fun b => Z.land b 31) <$> bytes_of hrp).

(** The six base-32 digits of a 30-bit number. *)
Definition digits (p : Z) : list Z := (fun k => Z.land (Z.shiftr p k) 31) <$> [25; 20; 15; 10; 5; 0].

Definition checksum (hrp : string) (groups : list Z) : list Z :=
  digits (Z.lxor (polymod 1 (hrp_expand hrp ++ groups ++ replicate 6 0)) BECH32M_CONST).

Definition residue (hrp : string) (groups : list Z) : Z :=
  polymod 1 (hrp_expand hrp ++ groups).

(** ** Text *)

Definition charset : list ascii :=
  list_ascii_of_string "qpzry9x8gf2tvdw0s3jn54khce6mua7l".

Definition char_of (v : Z) : ascii := nth (Z.to_nat v) charset "q"%char.
Definition value_of (c : ascii) : option Z := index_of c charset 0.

Definition is_upper (b : Z) : bool := (65 <=? b) && (b <=? 90).
Definition is_lower (b : Z) : bool := (97 <=? b) && (b <=? 122).
Definition lower (c : ascii) : ascii :=
  let b := Z.of_N (N_of_ascii c) in
  if is_upper b then ascii_of_N (Z.to_N (b + 32)) else c.

(** Printable, and not of mixed case. *)
Definition printable (s : string) : bool :=
  forallb (fun b => (33 <=? b) && (b <=? 126)) (bytes_of s) &&
  negb (existsb is_upper (bytes_of s) && existsb is_lower (bytes_of s)).

(** The reversed text up to its first [1] and what follows that. *)
Fixpoint until_one (l : list ascii) : option (list ascii * list ascii) :=
  match l with
  | [] => None
  | c :: r =>
      if Ascii.eqb c "1" then Some ([], r)
      else '(data, hrp) ← until_one r; Some (c :: data, hrp)
  end.

Inductive Bech32Error :=
| BadHrp
| TooLong
| NotBytes
| BadCharacter
| NoSeparator
| BadChecksum
| BadPadding.

Definition CODE_LENGTH : nat := 1023.

Definition hrp_ok (hrp : string) : bool :=
  (1 <=? String.length hrp)%nat && (String.length hrp <=? 83)%nat && printable hrp.

Definition text_of (hrp : string) (groups : list Z) : list ascii :=
  list_ascii_of_string hrp ++ "1"%char :: (char_of <$> groups).

Definition encode (hrp : string) (data : list Z) : result Bech32Error string :=
  if negb (hrp_ok hrp) then Err BadHrp
  else if negb (forallb (fun b => (0 <=? b) && (b <? 256)) data) then Err NotBytes
  else
    let groups := to_fives data in
    let text := text_of hrp (groups ++ checksum hrp groups) in
    if (CODE_LENGTH <? length text)%nat then Err TooLong
    else Ok (string_of_list_ascii (lower <$> text)).

Definition decode (s : string) : result Bech32Error (string * list Z) :=
  if negb (printable s) then Err BadCharacter
  else if (CODE_LENGTH <? String.length s)%nat then Err TooLong
  else
    match until_one (rev (lower <$> list_ascii_of_string s)) with
    | None => Err NoSeparator
    | Some (data, hrp) =>
        let hrp := string_of_list_ascii (rev hrp) in
        if negb (hrp_ok hrp) then Err BadHrp
        else match mapM value_of (rev data) with
        | None => Err BadCharacter
        | Some groups =>
            let r := residue hrp groups in
            if (length groups <? 6)%nat || negb ((r =? BECH32M_CONST) || (r =? BECH32_CONST))
            then Err BadChecksum
            else match from_fives (take (length groups - 6) groups) with
                 | Some bytes => Ok (hrp, bytes)
                 | None => Err BadPadding
                 end
        end
    end.

#[export] Instance bech32m : Bech32 := {
  DecodeError := Bech32Error;
  EncodeError := Bech32Error;
  hrp_parse hrp := if hrp_ok hrp then Some hrp else None;
  bech32_decode := decode;
  bech32_encode := encode
}.

(** ** The regrouping loses nothing *)

Lemma length_bits w v : length (bits w v) = w.
Proof. induction w; simpl; congruence. Qed.

(** Claims about the bytes, by checking all of them. *)
Lemma all_bytes (P : Z -> bool) :
  forallb P (Z.of_nat <$> seq 0 256) = true -> forall b, byte_ok b -> P b = true.
Proof.
  intros H b Hb. unfold byte_ok in Hb. rewrite forallb_forall in H. apply H.
  apply list_elem_of_In, list_elem_of_fmap. exists (Z.to_nat b). split; [lia|].
  apply elem_of_seq. lia.
Qed.

Lemma of_bits_byte b : byte_ok b -> of_bits (bits 8 b) = b.
Proof.
  intros Hb. apply Z.eqb_eq. revert b Hb. apply all_bytes. vm_compute. reflexivity.
Qed.

Lemma bits_of_five a b c d e : bits 5 (of_bits [a; b; c; d; e]) = [a; b; c; d; e].
Proof. by destruct a, b, c, d, e. Qed.

Lemma fives_bits l :
  exists pad, fives l ≫= bits 5 = l ++ replicate pad false /\ (pad < 5)%nat.
Proof.
  induction l as [l IH] using (induction_ltof1 _ (@length bool)). unfold ltof in IH.
  destruct l as [|a [|b [|c [|d [|e r]]]]].
  1: by exists 0%nat; split; [|lia].
  5: { destruct (IH r) as (pad & Hp & Hlt); [simpl; lia|]. exists pad. split; [|done].
       change (fives _) with (of_bits [a; b; c; d; e] :: fives r).
       rewrite bind_cons, bits_of_five, Hp. done. }
  all: cbn [fives take app replicate mbind list_bind]; rewrite bits_of_five.
  - by exists 4%nat; split; [|lia].
  - by exists 3%nat; split; [|lia].
  - by exists 2%nat; split; [|lia].
  - by exists 1%nat; split; [|lia].
Qed.

Lemma eights_bits data rest :
  Forall byte_ok data -> (length rest < 8)%nat ->
  eights ((data ≫= bits 8) ++ rest) = (data, rest).
Proof.
  intros Hd Hr. induction Hd as [|b data Hb Hd IH].
  - simpl. do 8 (destruct rest as [|? rest]; [done|]). simpl in Hr. lia.
  - rewrite bind_cons, <- app_assoc.
    set (tail := (data ≫= bits 8) ++ rest) in *.
    pose proof (of_bits_byte b Hb) as Hbits. cbn [bits] in Hbits |- *.
    cbn [app eights]. rewrite IH. by rewrite Hbits.
Qed.

Lemma all_false pad : forallb negb (replicate pad false) = true.
Proof. by induction pad. Qed.

Lemma from_to_fives data : Forall byte_ok data -> from_fives (to_fives data) = Some data.
Proof.
  intros Hd. unfold from_fives, to_fives.
  destruct (fives_bits (data ≫= bits 8)) as (pad & -> & Hp).
  rewrite eights_bits by (done || (rewrite length_replicate; lia)).
  rewrite length_replicate. destruct (Nat.ltb_spec pad 5); [|lia]. simpl.
  by rewrite all_false.
Qed.

Definition five_ok (v : Z) : Prop := 0 <= v < 32.

Lemma of_bits_five a b c d e : five_ok (of_bits [a; b; c; d; e]).
Proof. unfold five_ok, of_bits. destruct a, b, c, d, e; simpl; lia. Qed.

Lemma fives_ok l : Forall five_ok (fives l).
Proof.
  induction l as [l IH] using (induction_ltof1 _ (@length bool)). unfold ltof in IH.
  destruct l as [|a [|b [|c [|d [|e r]]]]]; [constructor|..];
    (constructor; [apply of_bits_five|]); [constructor..|]. apply IH. simpl. lia.
Qed.

(** ** The checksum verifies

    [polymod] is linear over exclusive or, and its feedback is silent while the state has
    at most 25 bits: six digits run through a zero state pack into one number, which is
    what a state misses to the constant. *)

Lemma feedback_xor gs k a b :
  feedback gs k (Z.lxor a b) = Z.lxor (feedback gs k a) (feedback gs k b).
Proof.
  revert k. induction gs as [|g gs IH]; intros k; cbn [feedback]; [done|].
  rewrite IH, Z.lxor_spec. destruct (Z.testbit a k), (Z.testbit b k); simpl;
    apply Z.bits_inj'; intros n _; rewrite !Z.lxor_spec, ?Z.bits_0; btauto.
Qed.

Lemma polymod_step_xor a b v w :
  polymod_step (Z.lxor a b) (Z.lxor v w) = Z.lxor (polymod_step a v) (polymod_step b w).
Proof.
  unfold polymod_step. rewrite Z.shiftr_lxor, feedback_xor.
  assert (Z.land (Z.lxor a b) (Z.ones 25) =
          Z.lxor (Z.land a (Z.ones 25)) (Z.land b (Z.ones 25))) as ->.
  { apply Z.bits_inj'; intros n _. rewrite !Z.land_spec, !Z.lxor_spec, !Z.land_spec. btauto. }
  rewrite Z.shiftl_lxor. apply Z.bits_inj'; intros n _. rewrite !Z.lxor_spec. btauto.
Qed.

(** The run over [values] and [c] is that over [values] and zeros, off by what [c] alone
    makes of the zero state. *)
Lemma polymod_tail s c :
  polymod s c = Z.lxor (polymod s (replicate (length c) 0)) (polymod 0 c).
Proof.
  assert (forall c s d, polymod (Z.lxor s d) c =
            Z.lxor (polymod s (replicate (length c) 0)) (polymod d c)) as Hall.
  { clear s c. induction c as [|v c IH]; intros s d; [done|].
    cbn [length replicate polymod fold_left].
    change (fold_left polymod_step c ?x) with (polymod x c).
    rewrite <- (Z.lxor_0_l v) at 1. rewrite polymod_step_xor. apply IH. }
  rewrite <- Hall. by rewrite Z.lxor_0_r.
Qed.

Lemma polymod_app s l1 l2 : polymod s (l1 ++ l2) = polymod (polymod s l1) l2.
Proof. apply fold_left_app. Qed.

(** In a small state a step appends a digit. *)
Lemma polymod_step_small d v :
  0 <= d < 2 ^ 25 -> five_ok v -> polymod_step d v = 32 * d + v.
Proof.
  intros Hd Hv. unfold polymod_step.
  assert (Z.shiftr d 25 = 0) as -> by (rewrite Z.shiftr_div_pow2 by lia; by apply Z.div_small).
  change (feedback generators 0 0) with 0. rewrite Z.lxor_0_r.
  rewrite Z.land_ones, Z.mod_small by lia. rewrite Z.shiftl_mul_pow2 by lia.
  rewrite <- Z.add_nocarry_lxor; [lia|]. apply Z.bits_inj'; intros n Hn.
  rewrite Z.land_spec, Z.bits_0. destruct (Z.ltb_spec n 5) as [Hlt|Hge].
  - rewrite Z.mul_pow2_bits_low by lia. done.
  - replace v with (v mod 2 ^ 5) by (apply Z.mod_small; exact Hv).
    rewrite Z.mod_pow2_bits_high by lia. btauto.
Qed.

Lemma digit_step p k j :
  0 <= p < 2 ^ 30 -> 0 <= k -> j = k + 5 ->
  polymod_step (p / 2 ^ j) (Z.land (Z.shiftr p k) 31) = p / 2 ^ k.
Proof.
  intros Hp Hk ->. rewrite Z.shiftr_div_pow2 by done.
  change 31 with (Z.ones 5). rewrite Z.land_ones by lia.
  assert (p / 2 ^ (k + 5) = p / 2 ^ k / 32) as ->.
  { rewrite Z.pow_add_r, <- Z.div_div by lia. done. }
  assert (0 <= p / 2 ^ k < 2 ^ 30).
  { split; [apply Z.div_pos; lia|]. eapply Z.le_lt_trans; [|apply Hp].
    apply Z.div_le_upper_bound; nia. }
  rewrite polymod_step_small.
  - change (2 ^ 5) with 32. pose proof (Z.div_mod (p / 2 ^ k) 32). lia.
  - split; [apply Z.div_pos; lia|]. apply Z.div_lt_upper_bound; lia.
  - apply Z.mod_pos_bound. lia.
Qed.

Lemma polymod_digits p : 0 <= p < 2 ^ 30 -> polymod 0 (digits p) = p.
Proof.
  intros Hp. unfold digits, polymod. cbn [fmap list_fmap fold_left].
  pose proof (digit_step p 25 30 Hp ltac:(lia) eq_refl) as E25.
  rewrite Z.div_small in E25 by lia.
  rewrite E25, (digit_step p 20), (digit_step p 15), (digit_step p 10), (digit_step p 5),
    (digit_step p 0) by lia.
  apply Z.div_1_r.
Qed.

Lemma lxor_bound n a b : 0 <= n -> 0 <= a < 2 ^ n -> 0 <= b < 2 ^ n -> 0 <= Z.lxor a b < 2 ^ n.
Proof.
  intros Hn Ha Hb. replace (Z.lxor a b) with (Z.lxor a b mod 2 ^ n);
    [apply Z.mod_pos_bound; lia|].
  apply Z.bits_inj'; intros k Hk. destruct (Z.ltb_spec k n).
  - by rewrite Z.mod_pow2_bits_low.
  - rewrite Z.mod_pow2_bits_high, Z.lxor_spec by lia.
    rewrite <- (Z.mod_small a (2 ^ n)), <- (Z.mod_small b (2 ^ n)) by done.
    by rewrite !Z.mod_pow2_bits_high by lia.
Qed.

Lemma feedback_bound gs k top :
  Forall (fun g => 0 <= g < 2 ^ 30) gs -> 0 <= feedback gs k top < 2 ^ 30.
Proof.
  intros Hg. revert k. induction Hg as [|g gs Hg Hgs IH]; intros k; cbn [feedback]; [lia|].
  apply lxor_bound; [lia| |apply IH]. destruct (Z.testbit top k); lia.
Qed.

Lemma polymod_bound s l :
  0 <= s < 2 ^ 30 -> Forall five_ok l -> 0 <= polymod s l < 2 ^ 30.
Proof.
  intros Hs Hl. revert s Hs. induction Hl as [|v l Hv Hl IH]; intros s Hs; [done|].
  cbn [polymod fold_left]. apply IH. unfold polymod_step.
  apply lxor_bound; [lia| |apply feedback_bound; repeat constructor; lia].
  apply lxor_bound; [lia| |unfold five_ok in Hv; lia].
  rewrite Z.shiftl_mul_pow2, Z.land_ones by lia.
  pose proof (Z.mod_pos_bound s (2 ^ 25) eq_refl). lia.
Qed.

Lemma hrp_expand_ok hrp : Forall five_ok (hrp_expand hrp).
Proof.
  assert (forall b, byte_ok b -> five_ok (Z.shiftr b 5) /\ five_ok (Z.land b 31)) as Hb.
  { intros b Hb. unfold byte_ok, five_ok in *. rewrite Z.shiftr_div_pow2 by lia.
    change 31 with (Z.ones 5). rewrite Z.land_ones by lia. split.
    - split; [apply Z.div_pos; lia|]. apply Z.div_lt_upper_bound; lia.
    - apply Z.mod_pos_bound. lia. }
  pose proof (bytes_of_ok hrp) as Hall. unfold hrp_expand.
  apply Forall_app. split; [|constructor; [unfold five_ok; lia|]];
    apply Forall_fmap; (eapply Forall_impl; [exact Hall|]); intros b Hx; by apply Hb.
Qed.

Lemma digits_ok p : Forall five_ok (digits p).
Proof.
  apply Forall_fmap, Forall_true. intros k. change 31 with (Z.ones 5). simpl.
  rewrite Z.land_ones by lia. apply Z.mod_pos_bound. lia.
Qed.

Lemma checksum_verifies hrp groups :
  Forall five_ok groups -> residue hrp (groups ++ checksum hrp groups) = BECH32M_CONST.
Proof.
  intros Hg. unfold residue, checksum.
  rewrite !app_assoc, polymod_app, polymod_tail.
  assert (forall p, length (digits p) = 6%nat) as -> by done.
  rewrite <- polymod_app. set (p := polymod 1 _).
  assert (0 <= p < 2 ^ 30) as Hp.
  { apply polymod_bound; [lia|]. apply Forall_app. split; [|by repeat constructor].
    apply Forall_app. split; [apply hrp_expand_ok|done]. }
  rewrite polymod_digits by (apply lxor_bound; [lia|done|unfold BECH32M_CONST; lia]).
  by rewrite <- Z.lxor_assoc, Z.lxor_nilpotent, Z.lxor_0_l.
Qed.

(** ** The text reads back *)

Lemma all_fives (P : Z -> bool) :
  forallb P (Z.of_nat <$> seq 0 32) = true -> forall v, five_ok v -> P v = true.
Proof.
  intros H v Hv. unfold five_ok in Hv. rewrite forallb_forall in H. apply H.
  apply list_elem_of_In, list_elem_of_fmap. exists (Z.to_nat v). split; [lia|].
  apply elem_of_seq. lia.
Qed.

(** A character that may stand in a lowercase text. *)
Definition plain (c : ascii) : bool :=
  let b := Z.of_N (N_of_ascii c) in (33 <=? b) && (b <=? 126) && negb (is_upper b).

Lemma char_of_plain v : five_ok v -> plain (char_of v) = true.
Proof. revert v. apply all_fives. vm_compute. reflexivity. Qed.

Lemma char_of_not_one v : five_ok v -> Ascii.eqb (char_of v) "1" = false.
Proof.
  intros Hv. apply negb_true_iff. revert v Hv. apply all_fives. vm_compute. reflexivity.
Qed.

Lemma value_of_char v : five_ok v -> value_of (char_of v) = Some v.
Proof.
  intros Hv. assert (match value_of (char_of v) with Some w => w =? v | None => false end = true)
    as Ht by (revert v Hv; apply all_fives; vm_compute; reflexivity).
  destruct (value_of _); [|done]. apply Z.eqb_eq in Ht. by subst.
Qed.

Lemma values_of_chars l : Forall five_ok l -> mapM value_of (char_of <$> l) = Some l.
Proof.
  intros Hl. induction Hl as [|v l Hv Hl IH]; [done|].
  rewrite fmap_cons. simpl. by rewrite value_of_char, IH.
Qed.

Lemma plain_lower c : plain c = true -> lower c = c.
Proof.
  unfold plain, lower. rewrite !andb_true_iff, negb_true_iff. by intros [_ ->].
Qed.

Lemma plains_lower l : Forall (fun c => plain c = true) l -> lower <$> l = l.
Proof.
  intros Hl. induction Hl as [|c l Hc Hl IH]; [done|].
  rewrite fmap_cons, IH. f_equal. by apply plain_lower.
Qed.

Lemma plains_printable l :
  Forall (fun c => plain c = true) l -> printable (string_of_list_ascii l) = true.
Proof.
  intros Hl. unfold printable, bytes_of. rewrite list_ascii_of_string_of_list_ascii.
  assert (forallb (fun b => (33 <=? b) && (b <=? 126))
            ((fun c => Z.of_N (N_of_ascii c)) <$> l) = true /\
          existsb is_upper ((fun c => Z.of_N (N_of_ascii c)) <$> l) = false) as [-> ->]; [|done].
  induction Hl as [|c l Hc Hl [IH1 IH2]]; [done|].
  rewrite fmap_cons. simpl. rewrite IH1, IH2. unfold plain in Hc. simpl in Hc.
  rewrite !andb_true_iff, negb_true_iff in Hc. destruct Hc as [[-> ->] ->]. done.
Qed.

Lemma until_one_skip cs rest :
  Forall (fun c => Ascii.eqb c "1" = false) cs ->
  until_one (cs ++ "1"%char :: rest) = Some (cs, rest).
Proof.
  intros Hcs. induction Hcs as [|c cs Hc Hcs IH]; [done|].
  simpl. by rewrite Hc, IH.
Qed.

(** A lowercase prefix. *)
Definition plain_hrp (hrp : string) : Prop :=
  hrp_ok hrp = true /\ Forall (fun c => plain c = true) (list_ascii_of_string hrp).

Lemma decode_text hrp groups data :
  plain_hrp hrp -> Forall five_ok groups -> from_fives groups = Some data ->
  let text := text_of hrp (groups ++ checksum hrp groups) in
  (length text <= CODE_LENGTH)%nat -> decode (string_of_list_ascii text) = Ok (hrp, data).
Proof.
  intros [Hok Hhrp] Hg Hdata text Hlen.
  assert (Forall five_ok (groups ++ checksum hrp groups)) as Hall
    by (apply Forall_app; split; [done|apply digits_ok]).
  assert (Forall (fun c => plain c = true) text) as Hplain.
  { apply Forall_app. split; [done|]. constructor; [done|]. apply Forall_fmap.
    eapply Forall_impl; [exact Hall|]. apply char_of_plain. }
  unfold decode. rewrite plains_printable by done.
  rewrite list_ascii_of_string_of_list_ascii, plains_lower by done.
  assert (String.length (string_of_list_ascii text) = length text) as ->
    by (clear; induction text; simpl; congruence).
  destruct (Nat.ltb_spec CODE_LENGTH (length text)); [lia|]. cbn [negb].
  unfold text, text_of. rewrite rev_app_distr. cbn [rev]. rewrite <- app_assoc. cbn [app].
  rewrite until_one_skip.
  2: { apply Forall_rev, Forall_fmap. eapply Forall_impl; [exact Hall|]. apply char_of_not_one. }
  rewrite !rev_involutive, string_of_list_ascii_of_string, Hok. cbn [negb].
  rewrite values_of_chars by done.
  rewrite checksum_verifies, Z.eqb_refl by done.
  assert (length (checksum hrp groups) = 6%nat) as Hc by done.
  rewrite length_app, Hc. destruct (Nat.ltb_spec (length groups + 6) 6); [lia|]. simpl orb.
  cbv iota. rewrite Nat.add_sub, take_app_length. by rewrite Hdata.
Qed.

Lemma known_plain h : h ∈ known_hrps -> plain_hrp h.
Proof.
  unfold known_hrps. rewrite !elem_of_cons, elem_of_nil.
  intros; destruct_or?; try done; subst; (split; [done|by repeat constructor]).
Qed.

Lemma length_to_fives data : (length (to_fives data) <= 8 * length data + 1)%nat.
Proof.
  unfold to_fives. assert (length (data ≫= bits 8) = 8 * length data)%nat as Hl.
  { induction data as [|b data IH]; [done|]. rewrite bind_cons, length_app, length_bits, IH.
    simpl. lia. }
  rewrite <- Hl. generalize (data ≫= bits 8). clear. intros l.
  induction l as [l IH] using (induction_ltof1 _ (@length bool)). unfold ltof in IH.
  destruct l as [|a [|b [|c [|d [|e r]]]]]; simpl; try lia.
  specialize (IH r). simpl in IH. lia.
Qed.

#[export] Instance bech32m_laws : Bech32Laws bech32m.
Proof.
  split; simpl.
  - intros h Hh. by rewrite (proj1 (known_plain h Hh)).
  - intros h data Hh Hl Hd. unfold encode. rewrite (proj1 (known_plain h Hh)). cbn [negb].
    assert (forallb (fun b => (0 <=? b) && (b <? 256)) data = true) as ->.
    { apply forallb_forall. intros b Hb%list_elem_of_In.
      pose proof (proj1 (Forall_forall _ _) Hd b Hb) as Hok. unfold byte_ok in Hok. lia. }
    cbn [negb]. destruct (Nat.ltb_spec CODE_LENGTH (length (text_of h
      (to_fives data ++ checksum h (to_fives data))))) as [Hlt|]; [|by eexists].
    exfalso. unfold text_of in Hlt. rewrite length_app, length_cons, length_fmap, length_app in Hlt.
    pose proof (length_to_fives data).
    assert (length (checksum h (to_fives data)) = 6%nat) as Hc by done. rewrite Hc in Hlt.
    assert (length (list_ascii_of_string h) <= 3)%nat as Hh3.
    { revert Hh. unfold known_hrps. rewrite !elem_of_cons, elem_of_nil.
      intros; destruct_or?; try done; subst; simpl; lia. }
    unfold CODE_LENGTH in Hlt. lia.
  - intros h data s Hh. unfold encode. pose proof (known_plain h Hh) as [Hok Hp].
    rewrite Hok. cbn [negb]. destruct (forallb _ data) eqn:Hb; [|done]. cbn [negb].
    assert (Forall byte_ok data) as Hd.
    { apply Forall_forall. intros b Hin. rewrite forallb_forall in Hb.
      specialize (Hb b (proj1 (list_elem_of_In _ _) Hin)). unfold byte_ok. lia. }
    destruct (Nat.ltb_spec CODE_LENGTH (length (text_of h
      (to_fives data ++ checksum h (to_fives data))))) as [|Hlen]; [done|]. intros [= <-].
    rewrite plains_lower.
    + apply decode_text; [done|apply fives_ok|by apply from_to_fives|done].
    + apply Forall_app. split; [done|]. constructor; [done|]. apply Forall_fmap.
      apply Forall_app. split; (eapply Forall_impl; [|apply char_of_plain]);
        [apply fives_ok|apply digits_ok].
Qed.

(** The examples of BIP-350, and one with a wrong character. *)
Example bip350_valid : exists bytes,
  decode "abcdef1l7aum6echk45nj3s0wdvt2fg8x9yrzpqzd3ryx" = Ok ("abcdef", bytes).
Proof. vm_compute. by eexists. Qed.
Example bip350_uppercase : decode "A1LQFN3A" = Ok ("a", []).
Proof. vm_compute. reflexivity. Qed.
Example bip350_broken : decode "a1lqfn3p" = Err BadChecksum.
Proof. vm_compute. reflexivity. Qed.
End Bip350.
