(* ===== verification/Base64.v ===== *)
(** * Base64 (RFC 4648)

    The two engines of the base64 crate the program uses: [STANDARD] (padded, read by the
    body decoder) and [URL_SAFE_NO_PAD] (the cursors).  Both refuse a last character whose
    unused bits are not zero. *)

From S2P Require Import Prelude.
Open Scope string_scope.
Open Scope list_scope.
Open Scope Z_scope.

Module Rfc4648.
(** ** Sixes of bits *)

Fixpoint sixes (l : list Z) : list Z :=
  match l with
  | a :: b :: c :: r =>
      a / 4 :: a mod 4 * 16 + b / 16 :: b mod 16 * 4 + c / 64 :: c mod 64 :: sixes r
  | [a; b] => [a / 4; a mod 4 * 16 + b / 16; b mod 16 * 4]
  | [a] => [a / 4; a mod 4 * 16]
  | [] => []
  end.

Fixpoint octets (l : list Z) : option (list Z) :=
  match l with
  | p :: q :: r :: s :: t =>
      rest ← octets t;
      Some (p * 4 + q / 16 :: q mod 16 * 16 + r / 4 :: r mod 4 * 64 + s :: rest)
  | [p; q; r] => if r mod 4 =? 0 then Some [p * 4 + q / 16; q mod 16 * 16 + r / 4] else None
  | [p; q] => if q mod 16 =? 0 then Some [p * 4 + q / 16] else None
  | [_] => None
  | [] => Some []
  end.

(** ** Text *)

Definition alphanumeric : string :=
  "ABCDEFGHIJKLMNOPQRSTUVWXYZabcdefghijklmnopqrstuvwxyz0123456789".
Definition standard : list ascii := list_ascii_of_string (alphanumeric ++ "+/").
Definition url_safe : list ascii := list_ascii_of_string (alphanumeric ++ "-_").

Definition char_of (alphabet : list ascii) (v : Z) : ascii := nth (Z.to_nat v) alphabet "A"%char.
Definition chars (alphabet : list ascii) (data : list Z) : list ascii :=
  char_of alphabet <$> sixes data.
Definition unchars (alphabet : list ascii) (l : list ascii) : option (list Z) :=
  mapM (fun c => index_of c alphabet 0) l ≫= octets.

Definition padding (n : nat) : list ascii := replicate (match (n mod 4)%nat with
  | 2 => 2 | 3 => 1 | _ => 0 end)%nat "="%char.
Definition unpad (l : list ascii) : list ascii :=
  match rev l with
  | "="%char :: "="%char :: r => rev r
  | "="%char :: r => rev r
  | _ => l
  end.

(** [STANDARD.encode] and [STANDARD.decode]: whole groups of four characters. *)
Definition standard_encode (data : list Z) : string :=
  string_of_list_ascii (chars standard data ++ padding (length (sixes data))).
Definition standard_decode (s : string) : option (list Z) :=
  let l := list_ascii_of_string s in
  if (length l mod 4 =? 0)%nat then unchars standard (unpad l) else None.

(** [URL_SAFE_NO_PAD]. *)
Definition url_encode (data : list Z) : string := string_of_list_ascii (chars url_safe data).
Definition url_decode (s : string) : option (list Z) := unchars url_safe (list_ascii_of_string s).

(** ** The round trips *)

Definition six_ok (v : Z) : Prop := 0 <= v < 64.

(** Induction on a list by threes. *)
Lemma by_threes {A} (P : list A -> Prop) :
  P [] -> (forall a, P [a]) -> (forall a b, P [a; b]) ->
  (forall a b c r, P r -> P (a :: b :: c :: r)) -> forall l, P l.
Proof.
  intros H0 H1 H2 H3 l.
  induction l as [l IH] using (induction_ltof1 _ length). unfold ltof in IH.
  destruct l as [|a [|b [|c r]]]; auto. apply H3, IH. simpl. lia.
Qed.

#[local] Ltac divmods := unfold six_ok, byte_ok in *; Z.to_euclidean_division_equations; lia.

Lemma sixes_ok l : Forall byte_ok l -> Forall six_ok (sixes l).
Proof.
  induction l as [|a|a b|a b c r IH] using by_threes; intros H; simpl;
    [done|decompose_Forall_hyps; repeat constructor; divmods..|].
  decompose_Forall_hyps. repeat (constructor; [divmods|]). by apply IH.
Qed.

Lemma octets_sixes l : Forall byte_ok l -> octets (sixes l) = Some l.
Proof.
  induction l as [|a|a b|a b c r IH] using by_threes; intros H; simpl; decompose_Forall_hyps.
  - done.
  - replace ((a mod 4 * 16) mod 16 =? 0) with true by (symmetry; apply Z.eqb_eq; divmods).
    do 2 f_equal. divmods.
  - replace ((b mod 16 * 4) mod 4 =? 0) with true by (symmetry; apply Z.eqb_eq; divmods).
    do 2 f_equal; [|f_equal]; divmods.
  - rewrite IH by done. simpl. do 2 f_equal; [|f_equal; [|f_equal]]; divmods.
Qed.

(** A property of the characters of the alphabet is checked on all 64. *)
Lemma all_sixes (f : Z -> bool) :
  forallb f (Z.of_nat <$> seq 0 64) = true -> forall v, six_ok v -> f v = true.
Proof.
  intros H v Hv. rewrite forallb_forall in H. apply H, list_elem_of_In, list_elem_of_fmap.
  exists (Z.to_nat v). unfold six_ok in Hv. rewrite elem_of_seq. lia.
Qed.

(** Sixty-four distinct characters, none of them the padding. *)
Definition alphabet_ok (alphabet : list ascii) : bool :=
  forallb (fun v => bool_decide (index_of (char_of alphabet v) alphabet 0 = Some v)
                    && negb (Ascii.eqb (char_of alphabet v) "="))
    (Z.of_nat <$> seq 0 64).

Lemma alphabet_char alphabet v :
  alphabet_ok alphabet = true -> six_ok v ->
  index_of (char_of alphabet v) alphabet 0 = Some v /\ char_of alphabet v <> "="%char.
Proof.
  intros Ha Hv. apply (all_sixes _ Ha) in Hv. apply andb_true_iff in Hv as [H1 H2].
  apply bool_decide_eq_true in H1. split; [done|]. intros E. by rewrite E in H2.
Qed.

Lemma unchars_chars alphabet l :
  alphabet_ok alphabet = true -> Forall byte_ok l ->
  unchars alphabet (chars alphabet l) = Some l.
Proof.
  intros Ha Hl. unfold unchars, chars.
  assert (mapM (fun c => index_of c alphabet 0) (char_of alphabet <$> sixes l) = Some (sixes l))
    as ->; [|by apply octets_sixes].
  induction (sixes_ok l Hl) as [|v r Hv Hr IH]; [done|].
  rewrite fmap_cons. simpl. by rewrite (proj1 (alphabet_char _ _ Ha Hv)), IH.
Qed.

Lemma unpad_padding l n : Forall (fun c => c <> "="%char) l -> unpad (l ++ padding n) = l.
Proof.
  intros Hl. unfold unpad, padding. rewrite rev_app_distr.
  destruct (rev l) as [|c r] eqn:Hr.
  { apply (f_equal (@rev ascii)) in Hr. rewrite rev_involutive in Hr. subst.
    by destruct (n mod 4)%nat as [|[|[|[|]]]]. }
  assert (c <> "="%char) as Hc.
  { apply (proj1 (Forall_forall _ _) Hl), list_elem_of_In, in_rev. rewrite Hr. by left. }
  assert (rev (c :: r) = l) as Hl' by by rewrite <- Hr, rev_involutive.
  destruct (n mod 4)%nat as [|[|[|[|]]]]; simpl in *; rewrite ?app_nil_r;
    try exact Hl'; destruct c as [[][][][][][][][]]; done.
Qed.

Lemma length_sixes_padding l :
  ((length (sixes l) + length (padding (length (sixes l)))) mod 4 = 0)%nat.
Proof.
  unfold padding. rewrite length_replicate.
  assert (length (sixes l) mod 4 <> 1)%nat as Hne.
  { induction l as [| | |a b c r IH] using by_threes; [done..|].
    simpl sixes. simpl length.
    replace (S (S (S (S (length (sixes r)))))) with (length (sixes r) + 1 * 4)%nat by lia.
    by rewrite Nat.Div0.mod_add. }
  pose proof (Nat.mod_upper_bound (length (sixes l)) 4).
  rewrite Nat.Div0.add_mod. destruct (length (sixes l) mod 4)%nat as [|[|[|[|]]]]; try done; lia.
Qed.

Lemma standard_decode_encode l : Forall byte_ok l -> standard_decode (standard_encode l) = Some l.
Proof.
  intros Hl. unfold standard_decode, standard_encode.
  rewrite list_ascii_of_string_of_list_ascii, length_app. unfold chars at 1.
  rewrite length_fmap, length_sixes_padding. simpl.
  rewrite unpad_padding; [by apply unchars_chars|].
  apply Forall_fmap. eapply Forall_impl; [by apply sixes_ok|]. intros v Hv.
  by apply (alphabet_char standard).
Qed.

Lemma url_decode_encode l : Forall byte_ok l -> url_decode (url_encode l) = Some l.
Proof.
  intros Hl. unfold url_decode, url_encode.
  rewrite list_ascii_of_string_of_list_ascii. by apply unchars_chars.
Qed.

(** ** The vectors of RFC 4648 *)

Example standard_vectors :
  (standard_encode ∘ bytes_of) <$> [""; "f"; "fo"; "foo"; "foob"; "fooba"; "foobar"] =
  [""; "Zg=="; "Zm8="; "Zm9v"; "Zm9vYg=="; "Zm9vYmE="; "Zm9vYmFy"].
Proof. vm_compute. reflexivity. Qed.

Example standard_refuses :
  standard_decode <$> ["Zg"; "Zg="; "Zh=="; "Z"; "Zm9v="; "Zm 9"; "Zg==Zg=="] = replicate 7 None.
Proof. vm_compute. reflexivity. Qed.
End Rfc4648.
