(* ===== verification/Json.v ===== *)
(** * JSON values and the derived (de)serialisers

    [Value] is serde_json's value type.  The wire types of [crates/types/src/lib.rs]
    carry [#[derive(Deserialize)]] with the [rename], [default] and [flatten]
    attributes; the combinators below state what such a declaration accepts, and
    [Types.v] spells one decoder per declared struct.  Text parsing and printing of
    JSON (serde_json's lexer) stays a parameter of the components that use it. *)

From S2P Require Import Prelude.

(** A JSON number as serde_json keeps it: a [u64], a negative [i64], or the bits of
    an [f64]. *)
Inductive Number : Set :=
| PosInt (n : Z)
| NegInt (n : Z)
| Float (bits : Z).

Inductive Value : Set :=
| JNull
| JBool (b : bool)
| JNumber (n : Number)
| JString (s : string)
| JArray (l : list Value)
| JObject (m : list (string * Value)).

(** [Map::get]. *)
Fixpoint obj_get (k : string) (m : list (string * Value)) : option Value :=
  match m with
  | [] => None
  | (k', v) :: m' => if String.eqb k k' then Some v else obj_get k m'
  end.

(** [Value::as_object], [as_str], [as_u64], [get]. *)
Definition as_object (v : Value) : option (list (string * Value)) :=
  match v with JObject m => Some m | _ => None end.
Definition as_str (v : Value) : option string :=
  match v with JString s => Some s | _ => None end.
Definition value_as_u64 (v : Value) : option Z :=
  match v with JNumber (PosInt n) => Some n | _ => None end.

(** Objects are printed from a map: setting a key replaces or appends it. *)
Fixpoint obj_set (k : string) (x : Value) (m : list (string * Value)) :=
  match m with
  | [] => [(k, x)]
  | (k', v) :: m' => if String.eqb k k' then (k, x) :: m' else (k', v) :: obj_set k x m'
  end.

Lemma obj_get_set_eq k x m : obj_get k (obj_set k x m) = Some x.
Proof.
  induction m as [|[k' v] m IH]; simpl; [by rewrite String.eqb_refl|].
  destruct (String.eqb k k') eqn:E; simpl; rewrite ?String.eqb_refl, ?E; done.
Qed.

(** ** Scalars *)

Definition de_string (v : Value) : option string := as_str v.
Definition de_bool (v : Value) : option bool :=
  match v with JBool b => Some b | _ => None end.

(** An unsigned integer type accepts the integers of its range, never a float; [PosInt]
    stands for a [u64], so only its upper end is a real test. *)
Definition de_uint (max : Z) (v : Value) : option Z :=
  match v with
  | JNumber (PosInt n) => if (0 <=? n) && (n <=? max) then Some n else None
  | _ => None
  end.
Lemma de_uint_range max v n : de_uint max v = Some n -> 0 <= n <= max.
Proof.
  destruct v as [| |[z| |]| | |]; simpl; try done.
  destruct (Z.leb_spec 0 z), (Z.leb_spec z max); simpl; try done. intros [= <-]. lia.
Qed.

Definition de_u8 := de_uint u8_max.
Definition de_u16 := de_uint u16_max.
Definition de_u32 := de_uint u32_max.
Definition de_u64 := de_uint u64_max.

Definition de_i64 (v : Value) : option Z :=
  match v with
  | JNumber (PosInt n) => if n <=? i64_max then Some n else None
  | JNumber (NegInt n) => Some n
  | _ => None
  end.

Definition de_value (v : Value) : option Value := Some v.

Definition de_list {A} (de : Value -> option A) (v : Value) : option (list A) :=
  match v with JArray l => mapM de l | _ => None end.

(** [Option<T>]: JSON [null] is [None]. *)
Definition de_option {A} (de : Value -> option A) (v : Value) : option (option A) :=
  match v with JNull => Some None | _ => Some <$> de v end.

(** ** Structs

    A derived struct reads a JSON object by field name (unknown fields are ignored)
    or a JSON array by position.  A field is present, missing from an object, or
    missing from a too-short array. *)
Inductive slot : Set :=
| Present (v : Value)
| MissingKey
| MissingElem.

Definition of_key (m : list (string * Value)) (k : string) : slot :=
  match obj_get k m with Some v => Present v | None => MissingKey end.

Definition struct_fields (names : list string) (v : Value) : option (list slot) :=
  match v with
  | JObject m => Some (of_key m <$> names)
  | JArray l =>
      if (length l <=? length names)%nat
      then Some ((Present <$> l) ++ replicate (length names - length l) MissingElem)
      else None
  | _ => None
  end.

(** With [#[serde(flatten)]] the struct reads objects only; the keys no field claims
    are kept in order. *)
Definition flatten_fields (names : list string) (v : Value)
  : option (list slot * list (string * Value)) :=
  match v with
  | JObject m =>
      Some (of_key m <$> names,
            filter (fun kv : string * Value => bool_decide (kv.1 ∈ names) = false) m)
  | _ => None
  end.

(** A field without attributes. *)
Definition field {A} (de : Value -> option A) (s : slot) : option A :=
  match s with Present v => de v | _ => None end.

Lemma field_present {A} (de : Value -> option A) s a :
  field de s = Some a -> exists v, de v = Some a.
Proof. destruct s; simpl; [eauto|done..]. Qed.

(** An [Option] field without attributes: a missing key reads as [None]. *)
Definition field_opt {A} (de : Value -> option A) (s : slot) : option (option A) :=
  match s with
  | Present v => de_option de v
  | MissingKey => Some None
  | MissingElem => None
  end.

(** A field with [#[serde(default)]]. *)
Definition field_default {A} (d : A) (de : Value -> option A) (s : slot) : option A :=
  match s with Present v => de v | _ => Some d end.

(** A struct with one field: the externally tagged wrappers of chain events. *)
Definition de_wrapper {A} (name : string) (de : Value -> option A) (v : Value) : option A :=
  match struct_fields [name] v with
  | Some [s] => field de s
  | _ => None
  end.

(** The wire shape of an externally tagged event. *)
Definition tagged (name : string) (fields : list (string * Value)) : Value :=
  JObject [(name, JObject fields)].

Lemma de_wrapper_tagged {A} name (de : Value -> option A) fields :
  de_wrapper name de (tagged name fields) = de (JObject fields).
Proof. unfold de_wrapper, tagged. simpl. unfold of_key. simpl. by rewrite String.eqb_refl. Qed.

Create Rewrite HintDb json.
#[export] Hint Rewrite @de_wrapper_tagged obj_get_set_eq : json.

(** [json_struct] evaluates a decoder on a literal object. *)
Ltac json_struct :=
  unfold de_string, de_value, de_u8, de_u16, de_u32, de_u64, de_uint;
  autorewrite with json; cbn;
  repeat match goal with
         | |- context [?a <=? ?b] => let E := fresh in destruct (a <=? b) eqn:E; cbn; [|lia_int]
         end; try reflexivity.

(** ** JSON text *)

(** serde_json's reader of a byte text, and the compact printer. *)
Class JsonText := {
  json_parse : string -> option Value;
  value_to_string : Value -> string
}.

(** Objects with distinct keys and members that are strings or [u64] numbers. *)
Definition flat_member (v : Value) : bool :=
  match v with
  | JString _ => true
  | JNumber (PosInt n) => (0 <=? n) && (n <=? u64_max)
  | _ => false
  end.
Definition flat (v : Value) : Prop :=
  match v with
  | JObject m => NoDup m.*1 /\ Forall (fun kv => flat_member kv.2 = true) m
  | _ => False
  end.

(** serde_json reads back the flat objects it prints. *)
Class JsonTextLaws (J : JsonText) :=
  json_parse_print v : flat v -> json_parse (value_to_string v) = Some v.
