(* ===== verification/JsonSyntax.v ===== *)
(** * JSON text (RFC 8259)

    A reference implementation of the interface [JsonText], on bytes: a lexer, a reader of
    its tokens with serde_json's nesting limit, and the compact printer.  Numbers are the
    integers of [u64] and [i64]: one with a fraction or an exponent is refused, and an [f64]
    is printed as serde_json prints one that is not finite.  Texts are taken to be UTF-8. *)

From S2P Require Import Prelude Json.
From Stdlib Require Import DecimalString DecimalN DecimalFacts.
Open Scope string_scope.
Open Scope list_scope.
Open Scope Z_scope.

Module Rfc8259.
(** ** Tokens *)

Inductive Token :=
| Punct (c : Z)
| Scalar (v : Value).

Abbreviation QUOTE := 34 (only parsing).
Abbreviation BACKSLASH := 92 (only parsing).
Abbreviation COMMA := 44 (only parsing).
Abbreviation COLON := 58 (only parsing).
Abbreviation LBRACKET := 91 (only parsing).
Abbreviation RBRACKET := 93 (only parsing).
Abbreviation LBRACE := 123 (only parsing).
Abbreviation RBRACE := 125 (only parsing).

Definition is_space (c : Z) : bool := existsb (Z.eqb c) [32; 9; 10; 13].
Definition is_digit (c : Z) : bool := (48 <=? c) && (c <=? 57).
Definition is_punct (c : Z) : bool :=
  existsb (Z.eqb c) [COMMA; COLON; LBRACKET; RBRACKET; LBRACE; RBRACE].

Definition hex_value (c : Z) : option Z :=
  if is_digit c then Some (c - 48)
  else if (97 <=? c) && (c <=? 102) then Some (c - 87)
  else if (65 <=? c) && (c <=? 70) then Some (c - 55)
  else None.

(** The UTF-8 bytes of a code point. *)
Definition utf8 (u : Z) : list Z :=
  if u <? 0x80 then [u]
  else if u <? 0x800 then [0xc0 + u / 64; 0x80 + u mod 64]
  else if u <? 0x10000 then [0xe0 + u / 4096; 0x80 + u / 64 mod 64; 0x80 + u mod 64]
  else [0xf0 + u / 262144; 0x80 + u / 4096 mod 64; 0x80 + u / 64 mod 64; 0x80 + u mod 64].

Definition unit4 (a b c d : Z) : option Z :=
  a ← hex_value a; b ← hex_value b; c ← hex_value c; d ← hex_value d;
  Some (((a * 16 + b) * 16 + c) * 16 + d).

(** The one-letter escapes: the letter and the byte it stands for. *)
Definition escapes : list (Z * Z) :=
  [(34, 34); (92, 92); (47, 47); (98, 8); (102, 12); (110, 10); (114, 13); (116, 9)].

Fixpoint assoc (k : Z) (l : list (Z * Z)) : option Z :=
  match l with [] => None | (a, b) :: r => if a =? k then Some b else assoc k r end.

(** After the opening quote: the text and what follows the closing one. *)
Fixpoint string_tail (l : list Z) : option (list Z * list Z) :=
  match l with
  | [] => None
  | c :: r =>
      if c =? QUOTE then Some ([], r)
      else if c <? 32 then None
      else if negb (c =? BACKSLASH)
      then '(s, t) ← string_tail r; Some (c :: s, t)
      else match r with
      | [] => None
      | e :: r =>
          if e =? 117 then
            match r with
            | a :: b :: c :: d :: r =>
                u ← unit4 a b c d;
                if (0xd800 <=? u) && (u <? 0xdc00) then
                  match r with
                  | 92 :: 117 :: a :: b :: c :: d :: r =>
                      w ← unit4 a b c d;
                      if (0xdc00 <=? w) && (w <? 0xe000)
                      then '(s, t) ← string_tail r;
                           Some (utf8 (0x10000 + (u - 0xd800) * 1024 + (w - 0xdc00)) ++ s, t)
                      else None
                  | _ => None
                  end
                else if (0xdc00 <=? u) && (u <? 0xe000) then None
                else '(s, t) ← string_tail r; Some (utf8 u ++ s, t)
            | _ => None
            end
          else b ← assoc e escapes; '(s, t) ← string_tail r; Some (b :: s, t)
      end
  end.

Fixpoint span_digits (l : list Z) : list Z * list Z :=
  match l with
  | c :: r => if is_digit c then let '(ds, t) := span_digits r in (c :: ds, t) else ([], l)
  | [] => ([], [])
  end.

(** A number of digits: no leading zero, no fraction, no exponent. *)
Definition number_tail (negative : bool) (l : list Z) : option (Token * list Z) :=
  let '(ds, t) := span_digits l in
  n ← parse_digits (string_of ds);
  if match ds with 48 :: _ :: _ => true | _ => false end then None
  else if match t with c :: _ => existsb (Z.eqb c) [46; 69; 101] | [] => false end then None
  else if negative
  then if (0 <? n) && (n <=? - i64_min) then Some (Scalar (JNumber (NegInt (- n))), t) else None
  else if n <=? u64_max then Some (Scalar (JNumber (PosInt n)), t) else None.

Definition words : list (list Z * Value) :=
  [(bytes_of "null", JNull); (bytes_of "true", JBool true); (bytes_of "false", JBool false)].

Fixpoint strip (p l : list Z) : option (list Z) :=
  match p, l with
  | [], _ => Some l
  | a :: p, b :: l => if a =? b then strip p l else None
  | _, [] => None
  end.

Fixpoint word_token (ws : list (list Z * Value)) (l : list Z) : option (Token * list Z) :=
  match ws with
  | [] => None
  | (w, v) :: ws =>
      match strip w l with Some r => Some (Scalar v, r) | None => word_token ws l end
  end.

Definition token (c : Z) (r : list Z) : option (Token * list Z) :=
  if is_punct c then Some (Punct c, r)
  else if c =? QUOTE then '(s, t) ← string_tail r; Some (Scalar (JString (string_of s)), t)
  else if c =? 45 then number_tail true r
  else if is_digit c then number_tail false (c :: r)
  else word_token words (c :: r).

Fixpoint lex (fuel : nat) (l : list Z) : option (list Token) :=
  match fuel, l with
  | _, [] => Some []
  | O, _ => None
  | S fuel, c :: r =>
      if is_space c then lex fuel r
      else '(t, r) ← token c r; ts ← lex fuel r; Some (t :: ts)
  end.

(** ** The reader *)

Section Loops.
Context (value : list Token -> option (Value * list Token)).

(** After [\[], at least one element. *)
Fixpoint elements (fuel : nat) (ts : list Token) : option (list Value * list Token) :=
  match fuel with
  | O => None
  | S fuel =>
      '(v, r) ← value ts;
      match r with
      | Punct 44 :: r => '(vs, r) ← elements fuel r; Some (v :: vs, r)
      | Punct 93 :: r => Some ([v], r)
      | _ => None
      end
  end.

(** After [{], at least one member; a key given twice keeps its last value. *)
Fixpoint members (fuel : nat) (acc : list (string * Value)) (ts : list Token)
  : option (list (string * Value) * list Token) :=
  match fuel, ts with
  | S fuel, Scalar (JString k) :: Punct 58 :: r =>
      '(v, r) ← value r;
      match r with
      | Punct 44 :: r => members fuel (obj_set k v acc) r
      | Punct 125 :: r => Some (obj_set k v acc, r)
      | _ => None
      end
  | _, _ => None
  end.
End Loops.

(** [depth]: the arrays and objects that may still be opened. *)
Fixpoint value (depth : nat) (ts : list Token) : option (Value * list Token) :=
  match ts, depth with
  | Scalar v :: r, _ => Some (v, r)
  | Punct 91 :: Punct 93 :: r, S _ => Some (JArray [], r)
  | Punct 123 :: Punct 125 :: r, S _ => Some (JObject [], r)
  | Punct 91 :: r, S depth => '(vs, r) ← elements (value depth) (length r) r; Some (JArray vs, r)
  | Punct 123 :: r, S depth => '(m, r) ← members (value depth) (length r) [] r; Some (JObject m, r)
  | _, _ => None
  end.

Definition read_nested (depth : nat) (s : string) : option Value :=
  let l := bytes_of s in
  ts ← lex (length l) l;
  '(v, rest) ← value depth ts;
  match rest with [] => Some v | _ => None end.
(** serde_json stops at the 128th nested array or object. *)
Definition read : string -> option Value := read_nested 127.

(** ** The printer *)

Definition hex_lower (n : Z) : Z := if n <? 10 then 48 + n else 87 + n.

Definition escaped (c : Z) : list Z :=
  if c =? QUOTE then [92; 34] else if c =? BACKSLASH then [92; 92]
  else if c =? 8 then [92; 98] else if c =? 12 then [92; 102] else if c =? 10 then [92; 110]
  else if c =? 13 then [92; 114] else if c =? 9 then [92; 116]
  else if c <? 32 then [92; 117; 48; 48; hex_lower (c / 16); hex_lower (c mod 16)]
  else [c].

Definition quoted (s : string) : list Z := QUOTE :: (bytes_of s ≫= escaped) ++ [QUOTE].

Fixpoint separated (l : list (list Z)) : list Z :=
  match l with
  | [] => []
  | [x] => x
  | x :: r => x ++ COMMA :: separated r
  end.

Fixpoint print (v : Value) : list Z :=
  match v with
  | JNull => bytes_of "null"
  | JBool b => bytes_of (if b then "true" else "false")
  | JNumber (PosInt n) | JNumber (NegInt n) => bytes_of (to_string n)
  | JNumber (Float _) => bytes_of "null"
  | JString s => quoted s
  | JArray l => LBRACKET :: separated (print <$> l) ++ [RBRACKET]
  | JObject m =>
      LBRACE :: separated ((fun kv => quoted kv.1 ++ COLON :: print kv.2) <$> m) ++ [RBRACE]
  end.

Definition write (v : Value) : string := string_of (print v).

(** ** Reading back a flat object *)

Lemma lex_more n m l ts : lex n l = Some ts -> (n <= m)%nat -> lex m l = Some ts.
Proof.
  revert m l ts. induction n as [|n IH]; intros m l ts H Hm.
  - destruct l; [|done]. by destruct m.
  - destruct m as [|m]; [lia|]. destruct l as [|c r]; [done|]. simpl in *.
    destruct (is_space c); [apply IH; [done|lia]|].
    destruct (token c r) as [[t r']|]; [|done]. simpl in *.
    destruct (lex n r') as [ts'|] eqn:E; [|done]. by rewrite (IH m _ _ E) by lia.
Qed.

Lemma unit4_control c :
  0 <= c < 32 -> unit4 48 48 (hex_lower (c / 16)) (hex_lower (c mod 16)) = Some c.
Proof.
  intros Hc.
  assert (forallb (fun k => bool_decide (unit4 48 48 (hex_lower (k / 16)) (hex_lower (k mod 16))
    = Some k)) (Z.of_nat <$> seq 0 32) = true) as Hall by (vm_compute; reflexivity).
  rewrite forallb_forall in Hall. specialize (Hall c).
  apply bool_decide_eq_true in Hall; [done|].
  apply list_elem_of_In, list_elem_of_fmap. exists (Z.to_nat c). rewrite elem_of_seq. lia.
Qed.

Lemma string_tail_escaped bs t :
  Forall byte_ok bs -> string_tail ((bs ≫= escaped) ++ QUOTE :: t) = Some (bs, t).
Proof.
  intros Hbs. induction Hbs as [|c bs Hc Hbs IH]; [done|].
  rewrite bind_cons, <- app_assoc. unfold escaped at 1.
  repeat match goal with
  | |- context [if c =? ?k then _ else _] =>
      destruct (Z.eqb_spec c k); [subst c; simpl; by rewrite IH|]
  end.
  destruct (Z.ltb_spec c 32) as [Hlt|Hge].
  - cbn [app string_tail]. simpl (_ =? QUOTE). simpl (92 <? 32). simpl (negb _).
    cbv iota. simpl (117 =? 117). cbv iota.
    rewrite unit4_control by (unfold byte_ok in Hc; lia). cbn [mbind option_bind].
    replace ((0xd800 <=? c) && (c <? 0xdc00)) with false by lia.
    replace ((0xdc00 <=? c) && (c <? 0xe000)) with false by lia.
    rewrite IH. cbn. unfold utf8. by replace (c <? 128) with true by lia.
  - cbn [app string_tail].
    replace (c =? QUOTE) with false by lia.
    replace (c <? 32) with false by lia.
    replace (c =? BACKSLASH) with false by lia.
    simpl. by rewrite IH.
Qed.

(** What may follow a number. *)
Definition stops (l : list Z) : Prop :=
  match l with c :: _ => is_punct c = true | [] => True end.

Lemma punct_cases c :
  is_punct c = true ->
  is_space c = false /\ is_digit c = false /\ existsb (Z.eqb c) [46; 69; 101] = false.
Proof.
  unfold is_punct, is_space, is_digit.
  simpl. lia.
Qed.

Lemma lex_punct c k rest ts :
  is_punct c = true -> lex k rest = Some ts -> lex (S k) (c :: rest) = Some (Punct c :: ts).
Proof.
  intros Hc Hk. destruct (punct_cases c Hc) as (Hs & _). simpl. rewrite Hs. unfold token.
  rewrite Hc. simpl. by rewrite Hk.
Qed.

Lemma lex_quoted s k rest ts :
  lex k rest = Some ts ->
  lex (length (quoted s) + k) (quoted s ++ rest) = Some (Scalar (JString s) :: ts).
Proof.
  intros Hk. apply (lex_more (S k)); [|unfold quoted; simpl; lia].
  unfold quoted. rewrite <- app_comm_cons, <- app_assoc. simpl. unfold token. simpl.
  rewrite string_tail_escaped by apply bytes_of_ok. simpl.
  by rewrite string_of_bytes, Hk.
Qed.

Lemma uint_digits d : Forall (fun c => is_digit c = true) (bytes_of (NilEmpty.string_of_uint d)).
Proof. unfold bytes_of. induction d; simpl; constructor; done. Qed.

Lemma span_digits_app ds t :
  Forall (fun c => is_digit c = true) ds ->
  match t with c :: _ => is_digit c = false | [] => True end ->
  span_digits (ds ++ t) = (ds, t).
Proof.
  intros Hds Ht. induction Hds as [|c ds Hc Hds IH]; simpl.
  - destruct t as [|c t]; [done|]. simpl. by rewrite Ht.
  - by rewrite Hc, IH.
Qed.

Lemma no_leading_zero n :
  match bytes_of (NilEmpty.string_of_uint (N.to_uint n)) with 48 :: _ :: _ => true | _ => false end
  = false.
Proof.
  assert (N.to_uint n = Decimal.unorm (N.to_uint n)) as ->.
  { rewrite <- DecimalN.Unsigned.to_of. by rewrite DecimalN.Unsigned.of_to. }
  unfold Decimal.unorm. destruct (Decimal.nzhead (N.to_uint n)) eqn:E; try done.
  by apply DecimalFacts.nzhead_nonzero in E.
Qed.

Lemma lex_number n k rest ts :
  0 <= n <= u64_max -> stops rest -> lex k rest = Some ts ->
  lex (length (bytes_of (to_string n)) + k) (bytes_of (to_string n) ++ rest)
  = Some (Scalar (JNumber (PosInt n)) :: ts).
Proof.
  intros Hn Hrest Hk. pose proof (parse_digits_to_string n (proj1 Hn)) as Hp.
  assert (Hd : Forall (fun c => is_digit c = true) (bytes_of (to_string n))).
  { unfold to_string. replace (n <? 0) with false by lia. apply uint_digits. }
  assert (Hz : match bytes_of (to_string n) with 48 :: _ :: _ => true | _ => false end = false).
  { unfold to_string. replace (n <? 0) with false by lia. apply no_leading_zero. }
  rewrite <- (string_of_bytes (to_string n)) in Hp.
  destruct (bytes_of (to_string n)) as [|c ds] eqn:E; [done|].
  apply (lex_more (S k)); [|simpl; lia].
  assert (is_digit c = true) as Hc by by inversion Hd.
  assert (is_space c = false /\ is_punct c = false /\ (c =? QUOTE) = false /\ (c =? 45) = false)
    as (H1 & H2 & H3 & H4).
  { unfold is_digit, is_space, is_punct in *. simpl. lia. }
  simpl. rewrite H1. unfold token. rewrite H2, H3, H4, Hc. unfold number_tail.
  change (c :: ds ++ rest) with ((c :: ds) ++ rest).
  rewrite span_digits_app; [|done|].
  2: { destruct rest as [|x rest]; [done|]. by apply punct_cases. }
  rewrite Hp. cbn [mbind option_bind]. rewrite Hz.
  replace (match rest with [] => false | c :: _ => existsb (Z.eqb c) [46; 69; 101] end) with false.
  2: { destruct rest as [|x rest]; [done|]. symmetry. by apply punct_cases. }
  replace (n <=? u64_max) with true by lia. cbn. by rewrite Hk.
Qed.

(** ** Objects *)

Definition member_tokens (kv : string * Value) : list Token :=
  [Scalar (JString kv.1); Punct COLON; Scalar kv.2].

Fixpoint members_tokens (m : list (string * Value)) : list Token :=
  match m with
  | [] => []
  | [kv] => member_tokens kv
  | kv :: m => member_tokens kv ++ Punct COMMA :: members_tokens m
  end.

Definition member_text (kv : string * Value) : list Z := quoted kv.1 ++ COLON :: print kv.2.

Lemma lex_member kv k rest ts :
  flat_member kv.2 = true -> stops rest -> lex k rest = Some ts ->
  lex (length (member_text kv) + k) (member_text kv ++ rest) = Some (member_tokens kv ++ ts).
Proof.
  intros Hv Hrest Hk. unfold member_text, member_tokens.
  rewrite length_app, <- app_assoc, <- Nat.add_assoc. simpl.
  apply lex_quoted, lex_punct; [done|]. destruct kv as [key [| |[n| |]|s| |]]; try done; simpl in *.
  - apply lex_number; [lia|done..].
  - by apply lex_quoted.
Qed.

Lemma lex_members m k rest ts :
  Forall (fun kv => flat_member kv.2 = true) m -> stops rest -> lex k rest = Some ts ->
  lex (length (separated (member_text <$> m)) + k) (separated (member_text <$> m) ++ rest)
  = Some (members_tokens m ++ ts).
Proof.
  intros Hm Hrest Hk. induction Hm as [|kv m Hkv Hm IH]; [done|].
  destruct m as [|kv' m]; [by apply lex_member|].
  change (separated (member_text <$> kv :: kv' :: m)) with
    (member_text kv ++ COMMA :: separated (member_text <$> kv' :: m)).
  change (members_tokens (kv :: kv' :: m)) with
    (member_tokens kv ++ Punct COMMA :: members_tokens (kv' :: m)).
  rewrite length_app, <- !app_assoc, <- Nat.add_assoc.
  apply lex_member; [done..|]. by apply lex_punct.
Qed.

Lemma obj_set_new k v m : k ∉ m.*1 -> obj_set k v m = m ++ [(k, v)].
Proof.
  induction m as [|[k' v'] m IH]; intros Hk; [done|]. simpl in *.
  apply not_elem_of_cons in Hk as [Hne Hk]. apply String.eqb_neq in Hne.
  by rewrite Hne, IH.
Qed.

Lemma members_read depth fuel acc m rest :
  m <> [] -> NoDup (acc ++ m).*1 -> (length m <= fuel)%nat ->
  members (value depth) fuel acc (members_tokens m ++ Punct RBRACE :: rest)
  = Some (acc ++ m, rest).
Proof.
  intros Hne. revert fuel acc. induction m as [|[k v] m IH]; intros fuel acc Hnd Hf; [done|].
  destruct fuel as [|fuel]; [simpl in Hf; lia|].
  assert (obj_set k v acc = acc ++ [(k, v)]) as Hset.
  { apply obj_set_new. rewrite fmap_app in Hnd. apply NoDup_app in Hnd as (_ & Hnd & _).
    intros Hin. apply (Hnd _ Hin). by left. }
  destruct m as [|kv' m].
  - by destruct depth; simpl; rewrite Hset.
  - change (members_tokens ((k, v) :: kv' :: m)) with
      (member_tokens (k, v) ++ Punct COMMA :: members_tokens (kv' :: m)).
    assert (members (value depth) fuel (acc ++ [(k, v)])
      (members_tokens (kv' :: m) ++ Punct RBRACE :: rest) = Some (acc ++ (k, v) :: kv' :: m, rest))
      as Hrest.
    { rewrite IH; [by rewrite <- app_assoc|done| |simpl in *; lia]. by rewrite <- app_assoc. }
    rewrite <- app_assoc. by destruct depth; simpl; rewrite Hset.
Qed.

Lemma bytes_of_string l : Forall byte_ok l -> bytes_of (string_of l) = l.
Proof.
  intros Hl. unfold bytes_of, string_of. rewrite list_ascii_of_string_of_list_ascii.
  rewrite <- list_fmap_compose. induction Hl as [|b l Hb Hl IH]; [done|].
  rewrite fmap_cons, IH. f_equal. simpl. rewrite N_ascii_embedding by (unfold byte_ok in Hb; lia).
  unfold byte_ok in Hb. lia.
Qed.

Lemma escaped_ok c : byte_ok c -> Forall byte_ok (escaped c).
Proof.
  intros Hc. unfold escaped. repeat case_match; repeat constructor; unfold byte_ok in *; try lia;
    unfold hex_lower; case_match; Z.to_euclidean_division_equations; lia.
Qed.

Lemma quoted_ok s : Forall byte_ok (quoted s).
Proof.
  unfold quoted. constructor; [done|]. apply Forall_app. split; [|by repeat constructor].
  apply Forall_bind. eapply Forall_impl; [apply bytes_of_ok|]. apply escaped_ok.
Qed.

Lemma member_text_ok kv : flat_member kv.2 = true -> Forall byte_ok (member_text kv).
Proof.
  intros Hv. apply Forall_app. split; [apply quoted_ok|]. constructor; [done|].
  destruct kv as [k [| |[n| |]| | |]]; try done; simpl; [apply bytes_of_ok|apply quoted_ok].
Qed.

Lemma separated_ok l : Forall (Forall byte_ok) l -> Forall byte_ok (separated l).
Proof.
  intros Hl. induction Hl as [|x l Hx Hl IH]; [done|]. simpl. destruct l; [done|].
  apply Forall_app. split; [done|]. by constructor.
Qed.

Lemma length_members_tokens m : (length m <= length (members_tokens m))%nat.
Proof.
  induction m as [|kv m IH]; [done|]. destruct m as [|kv' m]; [simpl; lia|].
  change (members_tokens (kv :: kv' :: m)) with
    (member_tokens kv ++ Punct COMMA :: members_tokens (kv' :: m)).
  rewrite length_app. simpl in *. lia.
Qed.

Lemma value_object depth m :
  NoDup m.*1 ->
  value (S depth) (Punct LBRACE :: members_tokens m ++ [Punct RBRACE]) = Some (JObject m, []).
Proof.
  intros Hnd. destruct m as [|kv m]; [done|].
  assert (members (value depth) (length (members_tokens (kv :: m) ++ [Punct RBRACE])) []
    (members_tokens (kv :: m) ++ [Punct RBRACE]) = Some (kv :: m, [])) as Hread.
  { apply members_read; [done..|]. pose proof (length_members_tokens (kv :: m)).
    rewrite length_app. lia. }
  destruct m as [|kv' m]; cbn [members_tokens member_tokens app value] in *; by rewrite Hread.
Qed.

Lemma read_nested_write depth v : flat v -> read_nested (S depth) (write v) = Some v.
Proof.
  destruct v as [| | | | |m]; try done. intros [Hnd Hm]. unfold read_nested, write.
  assert (Hok : Forall byte_ok (print (JObject m))).
  { simpl. constructor; [done|]. apply Forall_app. split; [|by repeat constructor].
    apply separated_ok, Forall_fmap. eapply Forall_impl; [exact Hm|]. apply member_text_ok. }
  rewrite bytes_of_string by done.
  assert (lex (length (print (JObject m))) (print (JObject m))
    = Some (Punct LBRACE :: members_tokens m ++ [Punct RBRACE])) as ->.
  { change (print (JObject m)) with (LBRACE :: separated (member_text <$> m) ++ [RBRACE]).
    cbn [length]. apply lex_punct; [done|]. rewrite length_app. by apply lex_members. }
  cbn [mbind option_bind]. by rewrite value_object.
Qed.

#[export] Instance json : JsonText := {| json_parse := read; value_to_string := write |}.
#[export] Instance json_laws : JsonTextLaws json.
Proof. intros v. apply (read_nested_write 126). Qed.

(** JSON written with an apostrophe for the double quote. *)
Definition apostrophes (s : string) : string :=
  string_of ((fun c => if c =? 39 then QUOTE else c) <$> bytes_of s).

Example read_samples :
  read <$> (apostrophes <$> [" { 'a' : [1, -2, true, null], 'b\u00e9\n' : {} } "; "[[]]"; "01"; "1.5"; "[1,]";
    "{'a':1,'a':2}"; "'\ud83d\ude00'"]) =
  [Some (JObject [("a", JArray [JNumber (PosInt 1); JNumber (NegInt (-2)); JBool true; JNull]);
                  (string_of [98; 195; 169; 10], JObject [])]);
   Some (JArray [JArray []]); None; None; None; Some (JObject [("a", JNumber (PosInt 2))]);
   Some (JString (string_of [240; 159; 152; 128]))].
Proof. vm_compute. reflexivity. Qed.

Example write_sample :
  write (JObject [("k", JArray [JString "x"; JNumber (PosInt 10)]); ("l", JBool false)]) =
  apostrophes "{'k':['x',10],'l':false}".
Proof. vm_compute. reflexivity. Qed.
End Rfc8259.
