(* ===== verification/Types.v ===== *)
(** * Wire types ([crates/types/src/lib.rs])

    One record per struct of the wire-type crate, with the decoder [de_T] and the
    serialiser [ser_T] its derive attributes declare: the JSON name of each field
    ([rename], [rename_all]), which fields default, and which structs keep unknown
    fields ([flatten]).  The last section proves the round trips. *)

From S2P Require Import Prelude Json.
Open Scope string_scope.
Open Scope Z_scope.

Definition ADDRESS_HRP : string := "lig".
Definition PUBKEY_HRP : string := "lpk".
Definition SCHEMA_HRP : string := "lsc".
Definition ATTESTOR_SET_HRP : string := "las".
Definition PAYLOAD_HASH_HRP : string := "lph".

Definition ser_uint (n : Z) : Value := JNumber (PosInt n).
Definition ser_i64 (n : Z) : Value := JNumber (if n <? 0 then NegInt n else PosInt n).
Definition ser_value (v : Value) : Value := v.
Definition ser_option {A} (ser : A -> Value) (o : option A) : Value :=
  match o with Some a => ser a | None => JNull end.
Definition ser_list {A} (ser : A -> Value) (l : list A) : Value := JArray (ser <$> l).

(** *** Round trips of the field types *)

Create HintDb wire discriminated.

Definition option_ok {A} (P : A -> Prop) (o : option A) : Prop :=
  match o with Some a => P a | None => True end.

(** A serialised value that is never [null] can sit under an [Option]. *)
Definition not_null (v : Value) : Prop := v <> JNull.

Lemma rt_uint max n : 0 <= n -> n <= max -> de_uint max (ser_uint n) = Some n.
Proof. intros Hn H. simpl. destruct (Z.leb_spec 0 n), (Z.leb_spec n max); done || lia. Qed.

Lemma rt_i64 n : in_i64 n -> de_i64 (ser_i64 n) = Some n.
Proof.
  intros H. unfold ser_i64. destruct (n <? 0) eqn:E; simpl; [done|].
  destruct (n <=? i64_max) eqn:E'; [done|lia_int].
Qed.

Lemma rt_option {A} (de : Value -> option A) ser (o : option A) :
  option_ok (fun a => de (ser a) = Some a /\ not_null (ser a)) o ->
  de_option de (ser_option ser o) = Some o.
Proof.
  destruct o as [a|]; simpl; [|done]. intros [H Hn].
  unfold de_option, not_null in *. destruct (ser a); rewrite ?H; done.
Qed.

Lemma rt_list {A} (de : Value -> option A) ser (l : list A) :
  Forall (fun a => de (ser a) = Some a) l -> de_list de (ser_list ser l) = Some l.
Proof.
  intros H. unfold de_list, ser_list.
  apply mapM_Some. by apply Forall2_fmap_l, Forall_Forall2_diag.
Qed.

Lemma rt_strings (l : list string) : de_list de_string (ser_list JString l) = Some l.
Proof. apply rt_list. by apply Forall_true. Qed.

Lemma rt_option_uint max (o : option Z) :
  option_ok (fun y => 0 <= y <= max) o -> de_option (de_uint max) (ser_option ser_uint o) = Some o.
Proof.
  intros H. apply rt_option. destruct o; simpl in *; [|done]. split; [by apply rt_uint; lia|done].
Qed.

Lemma rt_option_i64 (o : option Z) :
  option_ok in_i64 o -> de_option de_i64 (ser_option ser_i64 o) = Some o.
Proof.
  intros H. apply rt_option. destruct o; simpl in *; [|done].
  split; [by apply rt_i64|]. unfold ser_i64. by case_match.
Qed.

Lemma rt_option_string (o : option string) :
  de_option de_string (ser_option JString o) = Some o.
Proof. by apply rt_option; destruct o. Qed.

#[export] Hint Resolve rt_uint rt_i64 rt_strings rt_option_uint rt_option_i64
  rt_option_string : wire.

Lemma bind_read {A B} (m : option A) a (k : A -> option B) r :
  m = Some a -> k a = r -> m ≫= k = r.
Proof. by intros ->. Qed.

Ltac wire_field :=
  first [ solve [eauto with wire nocore]
        | apply rt_list; eapply Forall_impl; [eassumption|simpl; eauto with wire nocore]
        | apply rt_list; apply Forall_true; eauto with wire nocore ].

(** [wire_rt] proves the round trip of one struct: it reads the fields of the literal
    object and closes each field with the [wire] hints. *)
Ltac wire_rt :=
  cbn [struct_fields fmap list_fmap];
  unfold de_u8, de_u16, de_u32, de_u64, of_key;
  cbn -[de_uint de_i64 de_list de_option ser_uint ser_i64 ser_list ser_option];
  intros;
  repeat match goal with H : _ /\ _ |- _ => destruct H end;
  repeat (eapply bind_read; [wire_field|]); reflexivity.

(** [ClusterHealth], with [rename_all = "snake_case"]. *)
Inductive ClusterHealth : Set :=
| Healthy
| Degraded
| Leaderless
| Unreachable. (* [ClusterHealth::Unknown] *)

#[export] Instance ClusterHealth_eq_dec : EqDecision ClusterHealth.
Proof. solve_decision. Defined.

Definition ser_ClusterHealth (h : ClusterHealth) : Value :=
  JString match h with
          | Healthy => "healthy"
          | Degraded => "degraded"
          | Leaderless => "leaderless"
          | Unreachable => "unknown"
          end.

Definition de_ClusterHealth (v : Value) : option ClusterHealth :=
  match v with
  | JString "healthy" => Some Healthy
  | JString "degraded" => Some Degraded
  | JString "leaderless" => Some Leaderless
  | JString "unknown" => Some Unreachable
  | _ => None
  end.

Lemma rt_ClusterHealth h : de_ClusterHealth (ser_ClusterHealth h) = Some h.
Proof. by destruct h. Qed.
#[global] Arguments de_ClusterHealth : simpl never.
#[global] Arguments ser_ClusterHealth : simpl never.
#[export] Hint Resolve rt_ClusterHealth : wire.

Record RollupInfo : Set := {
  info_chain_id : string;
  info_chain_hash : string;
  info_version : string
}.

Definition de_RollupInfo (v : Value) : option RollupInfo :=
  match struct_fields ["chain_id"; "chain_hash"; "version"] v with
  | Some [x_chain_id; x_chain_hash; x_version] =>
      x_chain_id ← field de_string x_chain_id;
      x_chain_hash ← field de_string x_chain_hash;
      x_version ← field de_string x_version;
            Some {| info_chain_id := x_chain_id; info_chain_hash := x_chain_hash; info_version
          := x_version |}
  | _ => None
  end.

Definition ser_RollupInfo (x : RollupInfo) : Value :=
    JObject [("chain_id", JString x.(info_chain_id)); ("chain_hash", JString
      x.(info_chain_hash)); ("version", JString x.(info_version))].

#[global] Arguments de_RollupInfo : simpl never.
#[global] Arguments ser_RollupInfo : simpl never.

Definition ok_RollupInfo (x : RollupInfo) : Prop :=
  True.

Lemma rt_RollupInfo x : ok_RollupInfo x -> de_RollupInfo (ser_RollupInfo x) = Some x.
Proof. destruct x; unfold ok_RollupInfo, de_RollupInfo, ser_RollupInfo. wire_rt. Qed.
#[export] Hint Resolve rt_RollupInfo : wire.

Record SyncStatus : Set := {
  ss_synced : bool;
  ss_synced_da_height : option Z;
  ss_target_da_height : option Z
}.

Definition de_SyncStatus (v : Value) : option SyncStatus :=
  match struct_fields ["synced"; "synced_da_height"; "target_da_height"] v with
  | Some [x_synced; x_synced_da_height; x_target_da_height] =>
      x_synced ← field de_bool x_synced;
      x_synced_da_height ← field_default None (de_option de_u64) x_synced_da_height;
      x_target_da_height ← field_default None (de_option de_u64) x_target_da_height;
            Some {| ss_synced := x_synced; ss_synced_da_height := x_synced_da_height;
          ss_target_da_height := x_target_da_height |}
  | _ => None
  end.

Definition ser_SyncStatus (x : SyncStatus) : Value :=
    JObject [("synced", JBool x.(ss_synced)); ("synced_da_height", (ser_option ser_uint)
      x.(ss_synced_da_height)); ("target_da_height", (ser_option ser_uint)
      x.(ss_target_da_height))].

#[global] Arguments de_SyncStatus : simpl never.
#[global] Arguments ser_SyncStatus : simpl never.

Definition ok_SyncStatus (x : SyncStatus) : Prop :=
    option_ok (fun y => 0 <= y <= u64_max) x.(ss_synced_da_height) /\ option_ok (fun y => 0 <=
      y <= u64_max) x.(ss_target_da_height).

Lemma rt_SyncStatus x : ok_SyncStatus x -> de_SyncStatus (ser_SyncStatus x) = Some x.
Proof. destruct x; unfold ok_SyncStatus, de_SyncStatus, ser_SyncStatus. wire_rt. Qed.
#[export] Hint Resolve rt_SyncStatus : wire.

Record ClusterNode : Set := {
  cn_node_id : string;
  cn_is_leader : bool;
  cn_last_heartbeat_age_ms : Z
}.

Definition de_ClusterNode (v : Value) : option ClusterNode :=
  match struct_fields ["node_id"; "is_leader"; "last_heartbeat_age_ms"] v with
  | Some [x_node_id; x_is_leader; x_last_heartbeat_age_ms] =>
      x_node_id ← field de_string x_node_id;
      x_is_leader ← field de_bool x_is_leader;
      x_last_heartbeat_age_ms ← field de_i64 x_last_heartbeat_age_ms;
            Some {| cn_node_id := x_node_id; cn_is_leader := x_is_leader;
          cn_last_heartbeat_age_ms := x_last_heartbeat_age_ms |}
  | _ => None
  end.

Definition ser_ClusterNode (x : ClusterNode) : Value :=
    JObject [("node_id", JString x.(cn_node_id)); ("is_leader", JBool x.(cn_is_leader));
      ("last_heartbeat_age_ms", ser_i64 x.(cn_last_heartbeat_age_ms))].

#[global] Arguments de_ClusterNode : simpl never.
#[global] Arguments ser_ClusterNode : simpl never.

Definition ok_ClusterNode (x : ClusterNode) : Prop :=
  in_i64 x.(cn_last_heartbeat_age_ms).

Lemma rt_ClusterNode x : ok_ClusterNode x -> de_ClusterNode (ser_ClusterNode x) = Some x.
Proof. destruct x; unfold ok_ClusterNode, de_ClusterNode, ser_ClusterNode. wire_rt. Qed.
#[export] Hint Resolve rt_ClusterNode : wire.

Record ClusterTopology : Set := {
  ct_nodes : list ClusterNode;
  ct_leader_node_id : option string;
  ct_leader_acquired_at_epoch_ms : option Z;
  ct_generated_at_epoch_ms : Z;
  ct_cluster_health : ClusterHealth
}.

Definition de_ClusterTopology (v : Value) : option ClusterTopology :=
    match struct_fields ["nodes"; "leader_node_id"; "leader_acquired_at_epoch_ms";
      "generated_at_epoch_ms"; "cluster_health"] v with
    | Some [x_nodes; x_leader_node_id; x_leader_acquired_at_epoch_ms; x_generated_at_epoch_ms;
      x_cluster_health] =>
      x_nodes ← field (de_list de_ClusterNode) x_nodes;
      x_leader_node_id ← field_opt de_string x_leader_node_id;
      x_leader_acquired_at_epoch_ms ← field_opt de_i64 x_leader_acquired_at_epoch_ms;
      x_generated_at_epoch_ms ← field de_i64 x_generated_at_epoch_ms;
      x_cluster_health ← field de_ClusterHealth x_cluster_health;
            Some {| ct_nodes := x_nodes; ct_leader_node_id := x_leader_node_id;
          ct_leader_acquired_at_epoch_ms := x_leader_acquired_at_epoch_ms;
          ct_generated_at_epoch_ms := x_generated_at_epoch_ms; ct_cluster_health :=
          x_cluster_health |}
  | _ => None
  end.

Definition ser_ClusterTopology (x : ClusterTopology) : Value :=
    JObject [("nodes", (ser_list ser_ClusterNode) x.(ct_nodes)); ("leader_node_id",
      (ser_option JString) x.(ct_leader_node_id)); ("leader_acquired_at_epoch_ms", (ser_option
      ser_i64) x.(ct_leader_acquired_at_epoch_ms)); ("generated_at_epoch_ms", ser_i64
      x.(ct_generated_at_epoch_ms)); ("cluster_health", ser_ClusterHealth
      x.(ct_cluster_health))].

#[global] Arguments de_ClusterTopology : simpl never.
#[global] Arguments ser_ClusterTopology : simpl never.

Definition ok_ClusterTopology (x : ClusterTopology) : Prop :=
    Forall (fun y => ok_ClusterNode y) x.(ct_nodes) /\ option_ok (fun y => in_i64 y)
      x.(ct_leader_acquired_at_epoch_ms) /\ in_i64 x.(ct_generated_at_epoch_ms).

Lemma rt_ClusterTopology x : ok_ClusterTopology x -> de_ClusterTopology (ser_ClusterTopology
    x) = Some x.
Proof. destruct x; unfold ok_ClusterTopology, de_ClusterTopology, ser_ClusterTopology.
    wire_rt. Qed.
#[export] Hint Resolve rt_ClusterTopology : wire.

Record ChainClusterNode : Set := {
  ccn_node_id : string;
  ccn_address : string;
  ccn_is_leader : bool;
  ccn_last_heartbeat_age_ms : Z
}.

Definition de_ChainClusterNode (v : Value) : option ChainClusterNode :=
  match struct_fields ["node_id"; "address"; "is_leader"; "last_heartbeat_age_ms"] v with
  | Some [x_node_id; x_address; x_is_leader; x_last_heartbeat_age_ms] =>
      x_node_id ← field de_string x_node_id;
      x_address ← field de_string x_address;
      x_is_leader ← field de_bool x_is_leader;
      x_last_heartbeat_age_ms ← field de_i64 x_last_heartbeat_age_ms;
            Some {| ccn_node_id := x_node_id; ccn_address := x_address; ccn_is_leader :=
          x_is_leader; ccn_last_heartbeat_age_ms := x_last_heartbeat_age_ms |}
  | _ => None
  end.

Definition ser_ChainClusterNode (x : ChainClusterNode) : Value :=
    JObject [("node_id", JString x.(ccn_node_id)); ("address", JString x.(ccn_address));
      ("is_leader", JBool x.(ccn_is_leader)); ("last_heartbeat_age_ms", ser_i64
      x.(ccn_last_heartbeat_age_ms))].

#[global] Arguments de_ChainClusterNode : simpl never.
#[global] Arguments ser_ChainClusterNode : simpl never.

Definition ok_ChainClusterNode (x : ChainClusterNode) : Prop :=
  in_i64 x.(ccn_last_heartbeat_age_ms).

Lemma rt_ChainClusterNode x : ok_ChainClusterNode x -> de_ChainClusterNode
    (ser_ChainClusterNode x) = Some x.
Proof. destruct x; unfold ok_ChainClusterNode, de_ChainClusterNode, ser_ChainClusterNode.
    wire_rt. Qed.
#[export] Hint Resolve rt_ChainClusterNode : wire.

Record ChainClusterTopology : Set := {
  cct_nodes : list ChainClusterNode;
  cct_leader_node_id : option string;
  cct_leader_acquired_at_epoch_ms : option Z;
  cct_generated_at_epoch_ms : Z
}.

Definition de_ChainClusterTopology (v : Value) : option ChainClusterTopology :=
    match struct_fields ["nodes"; "leader_node_id"; "leader_acquired_at_epoch_ms";
      "generated_at_epoch_ms"] v with
  | Some [x_nodes; x_leader_node_id; x_leader_acquired_at_epoch_ms; x_generated_at_epoch_ms] =>
      x_nodes ← field (de_list de_ChainClusterNode) x_nodes;
      x_leader_node_id ← field_opt de_string x_leader_node_id;
      x_leader_acquired_at_epoch_ms ← field_opt de_i64 x_leader_acquired_at_epoch_ms;
      x_generated_at_epoch_ms ← field de_i64 x_generated_at_epoch_ms;
            Some {| cct_nodes := x_nodes; cct_leader_node_id := x_leader_node_id;
          cct_leader_acquired_at_epoch_ms := x_leader_acquired_at_epoch_ms;
          cct_generated_at_epoch_ms := x_generated_at_epoch_ms |}
  | _ => None
  end.

Definition ser_ChainClusterTopology (x : ChainClusterTopology) : Value :=
    JObject [("nodes", (ser_list ser_ChainClusterNode) x.(cct_nodes)); ("leader_node_id",
      (ser_option JString) x.(cct_leader_node_id)); ("leader_acquired_at_epoch_ms",
      (ser_option ser_i64) x.(cct_leader_acquired_at_epoch_ms)); ("generated_at_epoch_ms",
      ser_i64 x.(cct_generated_at_epoch_ms))].

#[global] Arguments de_ChainClusterTopology : simpl never.
#[global] Arguments ser_ChainClusterTopology : simpl never.

Definition ok_ChainClusterTopology (x : ChainClusterTopology) : Prop :=
    Forall (fun y => ok_ChainClusterNode y) x.(cct_nodes) /\ option_ok (fun y => in_i64 y)
      x.(cct_leader_acquired_at_epoch_ms) /\ in_i64 x.(cct_generated_at_epoch_ms).

Lemma rt_ChainClusterTopology x : ok_ChainClusterTopology x -> de_ChainClusterTopology
    (ser_ChainClusterTopology x) = Some x.
Proof. destruct x; unfold ok_ChainClusterTopology, de_ChainClusterTopology,
    ser_ChainClusterTopology. wire_rt. Qed.
#[export] Hint Resolve rt_ChainClusterTopology : wire.

Record Schema : Set := {
  schema_id : string;
  schema_owner : string;
  schema_name : string;
  schema_version : Z;
  schema_attestor_set : string;
  schema_fee_routing_bps : Z;
  schema_fee_routing_addr : option string
}.

Definition de_Schema (v : Value) : option Schema :=
    match struct_fields ["id"; "owner"; "name"; "version"; "attestor_set"; "fee_routing_bps";
      "fee_routing_addr"] v with
    | Some [x_id; x_owner; x_name; x_version; x_attestor_set; x_fee_routing_bps;
      x_fee_routing_addr] =>
      x_id ← field de_string x_id;
      x_owner ← field de_string x_owner;
      x_name ← field de_string x_name;
      x_version ← field de_u32 x_version;
      x_attestor_set ← field de_string x_attestor_set;
      x_fee_routing_bps ← field de_u16 x_fee_routing_bps;
      x_fee_routing_addr ← field_opt de_string x_fee_routing_addr;
            Some {| schema_id := x_id; schema_owner := x_owner; schema_name := x_name;
          schema_version := x_version; schema_attestor_set := x_attestor_set;
          schema_fee_routing_bps := x_fee_routing_bps; schema_fee_routing_addr :=
          x_fee_routing_addr |}
  | _ => None
  end.

Definition ser_Schema (x : Schema) : Value :=
    JObject [("id", JString x.(schema_id)); ("owner", JString x.(schema_owner)); ("name",
      JString x.(schema_name)); ("version", ser_uint x.(schema_version)); ("attestor_set",
      JString x.(schema_attestor_set)); ("fee_routing_bps", ser_uint
      x.(schema_fee_routing_bps)); ("fee_routing_addr", (ser_option JString)
      x.(schema_fee_routing_addr))].

#[global] Arguments de_Schema : simpl never.
#[global] Arguments ser_Schema : simpl never.

Definition ok_Schema (x : Schema) : Prop :=
  0 <= x.(schema_version) <= u32_max /\ 0 <= x.(schema_fee_routing_bps) <= u16_max.

Lemma rt_Schema x : ok_Schema x -> de_Schema (ser_Schema x) = Some x.
Proof. destruct x; unfold ok_Schema, de_Schema, ser_Schema. wire_rt. Qed.
#[export] Hint Resolve rt_Schema : wire.

Record SchemaResponse : Set := {
  sr_schema : Schema
}.

Definition de_SchemaResponse (v : Value) : option SchemaResponse :=
  match struct_fields ["schema"] v with
  | Some [x_schema] =>
      x_schema ← field de_Schema x_schema;
      Some {| sr_schema := x_schema |}
  | _ => None
  end.

Definition ser_SchemaResponse (x : SchemaResponse) : Value :=
  JObject [("schema", ser_Schema x.(sr_schema))].

#[global] Arguments de_SchemaResponse : simpl never.
#[global] Arguments ser_SchemaResponse : simpl never.

Definition ok_SchemaResponse (x : SchemaResponse) : Prop :=
  ok_Schema x.(sr_schema).

Lemma rt_SchemaResponse x : ok_SchemaResponse x -> de_SchemaResponse (ser_SchemaResponse x) =
    Some x.
Proof. destruct x; unfold ok_SchemaResponse, de_SchemaResponse, ser_SchemaResponse. wire_rt.
    Qed.
#[export] Hint Resolve rt_SchemaResponse : wire.

Record AttestorSet : Set := {
  aset_id : string;
  aset_members : list string;
  aset_threshold : Z
}.

Definition de_AttestorSet (v : Value) : option AttestorSet :=
  match struct_fields ["id"; "members"; "threshold"] v with
  | Some [x_id; x_members; x_threshold] =>
      x_id ← field de_string x_id;
      x_members ← field (de_list de_string) x_members;
      x_threshold ← field de_u32 x_threshold;
      Some {| aset_id := x_id; aset_members := x_members; aset_threshold := x_threshold |}
  | _ => None
  end.

Definition ser_AttestorSet (x : AttestorSet) : Value :=
    JObject [("id", JString x.(aset_id)); ("members", (ser_list JString) x.(aset_members));
      ("threshold", ser_uint x.(aset_threshold))].

#[global] Arguments de_AttestorSet : simpl never.
#[global] Arguments ser_AttestorSet : simpl never.

Definition ok_AttestorSet (x : AttestorSet) : Prop :=
  0 <= x.(aset_threshold) <= u32_max.

Lemma rt_AttestorSet x : ok_AttestorSet x -> de_AttestorSet (ser_AttestorSet x) = Some x.
Proof. destruct x; unfold ok_AttestorSet, de_AttestorSet, ser_AttestorSet. wire_rt. Qed.
#[export] Hint Resolve rt_AttestorSet : wire.

Record AttestorSetResponse : Set := {
  asr_attestor_set : AttestorSet
}.

Definition de_AttestorSetResponse (v : Value) : option AttestorSetResponse :=
  match struct_fields ["attestor_set"] v with
  | Some [x_attestor_set] =>
      x_attestor_set ← field de_AttestorSet x_attestor_set;
      Some {| asr_attestor_set := x_attestor_set |}
  | _ => None
  end.

Definition ser_AttestorSetResponse (x : AttestorSetResponse) : Value :=
  JObject [("attestor_set", ser_AttestorSet x.(asr_attestor_set))].

#[global] Arguments de_AttestorSetResponse : simpl never.
#[global] Arguments ser_AttestorSetResponse : simpl never.

Definition ok_AttestorSetResponse (x : AttestorSetResponse) : Prop :=
  ok_AttestorSet x.(asr_attestor_set).

Lemma rt_AttestorSetResponse x : ok_AttestorSetResponse x -> de_AttestorSetResponse
    (ser_AttestorSetResponse x) = Some x.
Proof. destruct x; unfold ok_AttestorSetResponse, de_AttestorSetResponse,
    ser_AttestorSetResponse. wire_rt. Qed.
#[export] Hint Resolve rt_AttestorSetResponse : wire.

Record AttestorSignature : Set := {
  as_pubkey : string;
  as_sig : string
}.

Definition de_AttestorSignature (v : Value) : option AttestorSignature :=
  match struct_fields ["pubkey"; "sig"] v with
  | Some [x_pubkey; x_sig] =>
      x_pubkey ← field de_string x_pubkey;
      x_sig ← field de_string x_sig;
      Some {| as_pubkey := x_pubkey; as_sig := x_sig |}
  | _ => None
  end.

Definition ser_AttestorSignature (x : AttestorSignature) : Value :=
  JObject [("pubkey", JString x.(as_pubkey)); ("sig", JString x.(as_sig))].

#[global] Arguments de_AttestorSignature : simpl never.
#[global] Arguments ser_AttestorSignature : simpl never.

Definition ok_AttestorSignature (x : AttestorSignature) : Prop :=
  True.

Lemma rt_AttestorSignature x : ok_AttestorSignature x -> de_AttestorSignature
    (ser_AttestorSignature x) = Some x.
Proof. destruct x; unfold ok_AttestorSignature, de_AttestorSignature, ser_AttestorSignature.
    wire_rt. Qed.
#[export] Hint Resolve rt_AttestorSignature : wire.

Record Attestation : Set := {
  att_schema_id : string;
  att_payload_hash : string;
  att_submitter : string;
  att_timestamp : Z;
  att_signatures : list AttestorSignature
}.

Definition de_Attestation (v : Value) : option Attestation :=
    match struct_fields ["schema_id"; "payload_hash"; "submitter"; "timestamp"; "signatures"]
      v with
  | Some [x_schema_id; x_payload_hash; x_submitter; x_timestamp; x_signatures] =>
      x_schema_id ← field de_string x_schema_id;
      x_payload_hash ← field de_string x_payload_hash;
      x_submitter ← field de_string x_submitter;
      x_timestamp ← field de_u64 x_timestamp;
      x_signatures ← field (de_list de_AttestorSignature) x_signatures;
            Some {| att_schema_id := x_schema_id; att_payload_hash := x_payload_hash;
          att_submitter := x_submitter; att_timestamp := x_timestamp; att_signatures :=
          x_signatures |}
  | _ => None
  end.

Definition ser_Attestation (x : Attestation) : Value :=
    JObject [("schema_id", JString x.(att_schema_id)); ("payload_hash", JString
      x.(att_payload_hash)); ("submitter", JString x.(att_submitter)); ("timestamp", ser_uint
      x.(att_timestamp)); ("signatures", (ser_list ser_AttestorSignature)
      x.(att_signatures))].

#[global] Arguments de_Attestation : simpl never.
#[global] Arguments ser_Attestation : simpl never.

Definition ok_Attestation (x : Attestation) : Prop :=
    0 <= x.(att_timestamp) <= u64_max /\ Forall (fun y => ok_AttestorSignature y)
      x.(att_signatures).

Lemma rt_Attestation x : ok_Attestation x -> de_Attestation (ser_Attestation x) = Some x.
Proof. destruct x; unfold ok_Attestation, de_Attestation, ser_Attestation. wire_rt. Qed.
#[export] Hint Resolve rt_Attestation : wire.

Record AttestationResponse : Set := {
  ar_attestation : Attestation
}.

Definition de_AttestationResponse (v : Value) : option AttestationResponse :=
  match struct_fields ["attestation"] v with
  | Some [x_attestation] =>
      x_attestation ← field de_Attestation x_attestation;
      Some {| ar_attestation := x_attestation |}
  | _ => None
  end.

Definition ser_AttestationResponse (x : AttestationResponse) : Value :=
  JObject [("attestation", ser_Attestation x.(ar_attestation))].

#[global] Arguments de_AttestationResponse : simpl never.
#[global] Arguments ser_AttestationResponse : simpl never.

Definition ok_AttestationResponse (x : AttestationResponse) : Prop :=
  ok_Attestation x.(ar_attestation).

Lemma rt_AttestationResponse x : ok_AttestationResponse x -> de_AttestationResponse
    (ser_AttestationResponse x) = Some x.
Proof. destruct x; unfold ok_AttestationResponse, de_AttestationResponse,
    ser_AttestationResponse. wire_rt. Qed.
#[export] Hint Resolve rt_AttestationResponse : wire.

Record BankBalance : Set := {
  bb_amount : string;
  bb_token_id : string
}.

Definition de_BankBalance (v : Value) : option BankBalance :=
  match struct_fields ["amount"; "tokenId"] v with
  | Some [x_amount; x_token_id] =>
      x_amount ← field de_string x_amount;
      x_token_id ← field de_string x_token_id;
      Some {| bb_amount := x_amount; bb_token_id := x_token_id |}
  | _ => None
  end.

Definition ser_BankBalance (x : BankBalance) : Value :=
  JObject [("amount", JString x.(bb_amount)); ("tokenId", JString x.(bb_token_id))].

#[global] Arguments de_BankBalance : simpl never.
#[global] Arguments ser_BankBalance : simpl never.

Definition ok_BankBalance (x : BankBalance) : Prop :=
  True.

Lemma rt_BankBalance x : ok_BankBalance x -> de_BankBalance (ser_BankBalance x) = Some x.
Proof. destruct x; unfold ok_BankBalance, de_BankBalance, ser_BankBalance. wire_rt. Qed.
#[export] Hint Resolve rt_BankBalance : wire.

Record BankBalanceResponse : Set := {
  bbr_data : BankBalance
}.

Definition de_BankBalanceResponse (v : Value) : option BankBalanceResponse :=
  match struct_fields ["data"] v with
  | Some [x_data] =>
      x_data ← field de_BankBalance x_data;
      Some {| bbr_data := x_data |}
  | _ => None
  end.

Definition ser_BankBalanceResponse (x : BankBalanceResponse) : Value :=
  JObject [("data", ser_BankBalance x.(bbr_data))].

#[global] Arguments de_BankBalanceResponse : simpl never.
#[global] Arguments ser_BankBalanceResponse : simpl never.

Definition ok_BankBalanceResponse (x : BankBalanceResponse) : Prop :=
  ok_BankBalance x.(bbr_data).

Lemma rt_BankBalanceResponse x : ok_BankBalanceResponse x -> de_BankBalanceResponse
    (ser_BankBalanceResponse x) = Some x.
Proof. destruct x; unfold ok_BankBalanceResponse, de_BankBalanceResponse,
    ser_BankBalanceResponse. wire_rt. Qed.
#[export] Hint Resolve rt_BankBalanceResponse : wire.

Record Uint64Range : Set := {
  rng_start : Z;
  rng_end : Z
}.

Definition de_Uint64Range (v : Value) : option Uint64Range :=
  match struct_fields ["start"; "end"] v with
  | Some [x_start; x_end] =>
      x_start ← field de_u64 x_start;
      x_end ← field de_u64 x_end;
      Some {| rng_start := x_start; rng_end := x_end |}
  | _ => None
  end.

Definition ser_Uint64Range (x : Uint64Range) : Value :=
  JObject [("start", ser_uint x.(rng_start)); ("end", ser_uint x.(rng_end))].

#[global] Arguments de_Uint64Range : simpl never.
#[global] Arguments ser_Uint64Range : simpl never.

Definition ok_Uint64Range (x : Uint64Range) : Prop :=
  0 <= x.(rng_start) <= u64_max /\ 0 <= x.(rng_end) <= u64_max.

Lemma rt_Uint64Range x : ok_Uint64Range x -> de_Uint64Range (ser_Uint64Range x) = Some x.
Proof. destruct x; unfold ok_Uint64Range, de_Uint64Range, ser_Uint64Range. wire_rt. Qed.
#[export] Hint Resolve rt_Uint64Range : wire.

Record SlotResponse : Set := {
  slot_number : Z;
  slot_hash : string;
  slot_prev_hash : option string;
  slot_timestamp : option Z;
  slot_state_root : option string;
  slot_batch_count : option Z;
  slot_tx_count : option Z;
  slot_batch_range : option Uint64Range;
  slot_finality_status : option string;
  slot_raw : list (string * Value)
}.

Definition de_SlotResponse (v : Value) : option SlotResponse :=
    match flatten_fields ["number"; "hash"; "prev_hash"; "timestamp"; "state_root";
      "batch_count"; "tx_count"; "batch_range"; "finality_status"] v with
    | Some ([x_number; x_hash; x_prev_hash; x_timestamp; x_state_root; x_batch_count;
      x_tx_count; x_batch_range; x_finality_status], raw) =>
      x_number ← field de_u64 x_number;
      x_hash ← field de_string x_hash;
      x_prev_hash ← field_default None (de_option de_string) x_prev_hash;
      x_timestamp ← field_default None (de_option de_u64) x_timestamp;
      x_state_root ← field_default None (de_option de_string) x_state_root;
      x_batch_count ← field_default None (de_option de_u64) x_batch_count;
      x_tx_count ← field_default None (de_option de_u64) x_tx_count;
      x_batch_range ← field_default None (de_option de_Uint64Range) x_batch_range;
      x_finality_status ← field_default None (de_option de_string) x_finality_status;
            Some {| slot_number := x_number; slot_hash := x_hash; slot_prev_hash :=
          x_prev_hash; slot_timestamp := x_timestamp; slot_state_root := x_state_root;
          slot_batch_count := x_batch_count; slot_tx_count := x_tx_count; slot_batch_range :=
          x_batch_range; slot_finality_status := x_finality_status; slot_raw := raw |}
  | _ => None
  end.

Definition ser_SlotResponse (x : SlotResponse) : Value :=
    JObject ([("number", ser_uint x.(slot_number)); ("hash", JString x.(slot_hash));
      ("prev_hash", (ser_option JString) x.(slot_prev_hash)); ("timestamp", (ser_option
      ser_uint) x.(slot_timestamp)); ("state_root", (ser_option JString) x.(slot_state_root));
      ("batch_count", (ser_option ser_uint) x.(slot_batch_count)); ("tx_count", (ser_option
      ser_uint) x.(slot_tx_count)); ("batch_range", (ser_option ser_Uint64Range)
      x.(slot_batch_range)); ("finality_status", (ser_option JString)
      x.(slot_finality_status))] ++ x.(slot_raw)).

#[global] Arguments de_SlotResponse : simpl never.
#[global] Arguments ser_SlotResponse : simpl never.

Record TxResponse : Set := {
  txr_hash : string;
  txr_slot_number : option Z;
  txr_status : option string;
  txr_raw : list (string * Value)
}.

Definition de_TxResponse (v : Value) : option TxResponse :=
  match flatten_fields ["hash"; "slot_number"; "status"] v with
  | Some ([x_hash; x_slot_number; x_status], raw) =>
      x_hash ← field de_string x_hash;
      x_slot_number ← field_default None (de_option de_u64) x_slot_number;
      x_status ← field_default None (de_option de_string) x_status;
            Some {| txr_hash := x_hash; txr_slot_number := x_slot_number; txr_status :=
          x_status; txr_raw := raw |}
  | _ => None
  end.

Definition ser_TxResponse (x : TxResponse) : Value :=
    JObject ([("hash", JString x.(txr_hash)); ("slot_number", (ser_option ser_uint)
      x.(txr_slot_number)); ("status", (ser_option JString) x.(txr_status))] ++ x.(txr_raw)).

#[global] Arguments de_TxResponse : simpl never.
#[global] Arguments ser_TxResponse : simpl never.

Record FullyBakedTx : Set := {
  fbt_data : string;
  fbt_sequencing_data : option string
}.

Definition de_FullyBakedTx (v : Value) : option FullyBakedTx :=
  match struct_fields ["data"; "sequencing_data"] v with
  | Some [x_data; x_sequencing_data] =>
      x_data ← field de_string x_data;
      x_sequencing_data ← field_default None (de_option de_string) x_sequencing_data;
      Some {| fbt_data := x_data; fbt_sequencing_data := x_sequencing_data |}
  | _ => None
  end.

Definition ser_FullyBakedTx (x : FullyBakedTx) : Value :=
    JObject [("data", JString x.(fbt_data)); ("sequencing_data", (ser_option JString)
      x.(fbt_sequencing_data))].

#[global] Arguments de_FullyBakedTx : simpl never.
#[global] Arguments ser_FullyBakedTx : simpl never.

Definition ok_FullyBakedTx (x : FullyBakedTx) : Prop :=
  True.

Lemma rt_FullyBakedTx x : ok_FullyBakedTx x -> de_FullyBakedTx (ser_FullyBakedTx x) = Some x.
Proof. destruct x; unfold ok_FullyBakedTx, de_FullyBakedTx, ser_FullyBakedTx. wire_rt. Qed.
#[export] Hint Resolve rt_FullyBakedTx : wire.

Record TxReceipt : Set := {
  rcpt_result : string;
  rcpt_data : Value
}.

Definition de_TxReceipt (v : Value) : option TxReceipt :=
  match struct_fields ["result"; "data"] v with
  | Some [x_result; x_data] =>
      x_result ← field de_string x_result;
      x_data ← field de_value x_data;
      Some {| rcpt_result := x_result; rcpt_data := x_data |}
  | _ => None
  end.

Definition ser_TxReceipt (x : TxReceipt) : Value :=
  JObject [("result", JString x.(rcpt_result)); ("data", ser_value x.(rcpt_data))].

#[global] Arguments de_TxReceipt : simpl never.
#[global] Arguments ser_TxReceipt : simpl never.

Definition ok_TxReceipt (x : TxReceipt) : Prop :=
  True.

Lemma rt_TxReceipt x : ok_TxReceipt x -> de_TxReceipt (ser_TxReceipt x) = Some x.
Proof. destruct x; unfold ok_TxReceipt, de_TxReceipt, ser_TxReceipt. wire_rt. Qed.
#[export] Hint Resolve rt_TxReceipt : wire.

Record ModuleRef : Set := {
  mr_type : string;
  mr_name : string
}.

Definition de_ModuleRef (v : Value) : option ModuleRef :=
  match struct_fields ["type"; "name"] v with
  | Some [x_type; x_name] =>
      x_type ← field_default ""%string de_string x_type;
      x_name ← field de_string x_name;
      Some {| mr_type := x_type; mr_name := x_name |}
  | _ => None
  end.

Definition ser_ModuleRef (x : ModuleRef) : Value :=
  JObject [("type", JString x.(mr_type)); ("name", JString x.(mr_name))].

#[global] Arguments de_ModuleRef : simpl never.
#[global] Arguments ser_ModuleRef : simpl never.

Definition ok_ModuleRef (x : ModuleRef) : Prop :=
  True.

Lemma rt_ModuleRef x : ok_ModuleRef x -> de_ModuleRef (ser_ModuleRef x) = Some x.
Proof. destruct x; unfold ok_ModuleRef, de_ModuleRef, ser_ModuleRef. wire_rt. Qed.
#[export] Hint Resolve rt_ModuleRef : wire.

Record LedgerEvent : Set := {
  ev_type : string;
  ev_number : Z;
  ev_key : string;
  ev_value : Value;
  ev_module : ModuleRef;
  ev_tx_hash : string
}.

Definition de_LedgerEvent (v : Value) : option LedgerEvent :=
  match struct_fields ["type"; "number"; "key"; "value"; "module"; "tx_hash"] v with
  | Some [x_type; x_number; x_key; x_value; x_module; x_tx_hash] =>
      x_type ← field de_string x_type;
      x_number ← field de_u64 x_number;
      x_key ← field de_string x_key;
      x_value ← field de_value x_value;
      x_module ← field de_ModuleRef x_module;
      x_tx_hash ← field de_string x_tx_hash;
            Some {| ev_type := x_type; ev_number := x_number; ev_key := x_key; ev_value :=
          x_value; ev_module := x_module; ev_tx_hash := x_tx_hash |}
  | _ => None
  end.

Definition ser_LedgerEvent (x : LedgerEvent) : Value :=
    JObject [("type", JString x.(ev_type)); ("number", ser_uint x.(ev_number)); ("key",
      JString x.(ev_key)); ("value", ser_value x.(ev_value)); ("module", ser_ModuleRef
      x.(ev_module)); ("tx_hash", JString x.(ev_tx_hash))].

#[global] Arguments de_LedgerEvent : simpl never.
#[global] Arguments ser_LedgerEvent : simpl never.

Definition ok_LedgerEvent (x : LedgerEvent) : Prop :=
  0 <= x.(ev_number) <= u64_max /\ ok_ModuleRef x.(ev_module).

Lemma rt_LedgerEvent x : ok_LedgerEvent x -> de_LedgerEvent (ser_LedgerEvent x) = Some x.
Proof. destruct x; unfold ok_LedgerEvent, de_LedgerEvent, ser_LedgerEvent. wire_rt. Qed.
#[export] Hint Resolve rt_LedgerEvent : wire.

Record LedgerTx : Set := {
  tx_type : string;
  tx_hash : string;
  tx_number : Z;
  tx_event_range : Uint64Range;
  tx_body : FullyBakedTx;
  tx_receipt : TxReceipt;
  tx_events : list LedgerEvent;
  tx_batch_number : Z
}.

Definition de_LedgerTx (v : Value) : option LedgerTx :=
    match struct_fields ["type"; "hash"; "number"; "event_range"; "body"; "receipt"; "events";
      "batch_number"] v with
    | Some [x_type; x_hash; x_number; x_event_range; x_body; x_receipt; x_events;
      x_batch_number] =>
      x_type ← field de_string x_type;
      x_hash ← field de_string x_hash;
      x_number ← field de_u64 x_number;
      x_event_range ← field de_Uint64Range x_event_range;
      x_body ← field de_FullyBakedTx x_body;
      x_receipt ← field de_TxReceipt x_receipt;
      x_events ← field_default [] (de_list de_LedgerEvent) x_events;
      x_batch_number ← field de_u64 x_batch_number;
            Some {| tx_type := x_type; tx_hash := x_hash; tx_number := x_number;
          tx_event_range := x_event_range; tx_body := x_body; tx_receipt := x_receipt;
          tx_events := x_events; tx_batch_number := x_batch_number |}
  | _ => None
  end.

Definition ser_LedgerTx (x : LedgerTx) : Value :=
    JObject [("type", JString x.(tx_type)); ("hash", JString x.(tx_hash)); ("number", ser_uint
      x.(tx_number)); ("event_range", ser_Uint64Range x.(tx_event_range)); ("body",
      ser_FullyBakedTx x.(tx_body)); ("receipt", ser_TxReceipt x.(tx_receipt)); ("events",
      (ser_list ser_LedgerEvent) x.(tx_events)); ("batch_number", ser_uint
      x.(tx_batch_number))].

#[global] Arguments de_LedgerTx : simpl never.
#[global] Arguments ser_LedgerTx : simpl never.

Definition ok_LedgerTx (x : LedgerTx) : Prop :=
    0 <= x.(tx_number) <= u64_max /\ ok_Uint64Range x.(tx_event_range) /\ ok_FullyBakedTx
      x.(tx_body) /\ ok_TxReceipt x.(tx_receipt) /\ Forall (fun y => ok_LedgerEvent y)
      x.(tx_events) /\ 0 <= x.(tx_batch_number) <= u64_max.

Lemma rt_LedgerTx x : ok_LedgerTx x -> de_LedgerTx (ser_LedgerTx x) = Some x.
Proof. destruct x; unfold ok_LedgerTx, de_LedgerTx, ser_LedgerTx. wire_rt. Qed.
#[export] Hint Resolve rt_LedgerTx : wire.

Record LedgerBatch : Set := {
  batch_type : string;
  batch_number : Z;
  batch_hash : string;
  batch_slot_number : Z;
  batch_tx_range : Uint64Range;
  batch_raw : list (string * Value)
}.

Definition de_LedgerBatch (v : Value) : option LedgerBatch :=
  match flatten_fields ["type"; "number"; "hash"; "slot_number"; "tx_range"] v with
  | Some ([x_type; x_number; x_hash; x_slot_number; x_tx_range], raw) =>
      x_type ← field de_string x_type;
      x_number ← field de_u64 x_number;
      x_hash ← field de_string x_hash;
      x_slot_number ← field de_u64 x_slot_number;
      x_tx_range ← field de_Uint64Range x_tx_range;
            Some {| batch_type := x_type; batch_number := x_number; batch_hash := x_hash;
          batch_slot_number := x_slot_number; batch_tx_range := x_tx_range; batch_raw := raw
          |}
  | _ => None
  end.

Definition ser_LedgerBatch (x : LedgerBatch) : Value :=
    JObject ([("type", JString x.(batch_type)); ("number", ser_uint x.(batch_number));
      ("hash", JString x.(batch_hash)); ("slot_number", ser_uint x.(batch_slot_number));
      ("tx_range", ser_Uint64Range x.(batch_tx_range))] ++ x.(batch_raw)).

#[global] Arguments de_LedgerBatch : simpl never.
#[global] Arguments ser_LedgerBatch : simpl never.

Record MultiAddress : Set := {
  ma_user : string
}.

Definition de_MultiAddress (v : Value) : option MultiAddress :=
  match struct_fields ["user"] v with
  | Some [x_user] =>
      x_user ← field de_string x_user;
      Some {| ma_user := x_user |}
  | _ => None
  end.

Definition ser_MultiAddress (x : MultiAddress) : Value :=
  JObject [("user", JString x.(ma_user))].

#[global] Arguments de_MultiAddress : simpl never.
#[global] Arguments ser_MultiAddress : simpl never.

Definition ok_MultiAddress (x : MultiAddress) : Prop :=
  True.

Lemma rt_MultiAddress x : ok_MultiAddress x -> de_MultiAddress (ser_MultiAddress x) = Some x.
Proof. destruct x; unfold ok_MultiAddress, de_MultiAddress, ser_MultiAddress. wire_rt. Qed.
#[export] Hint Resolve rt_MultiAddress : wire.

Record Coins : Set := {
  coins_amount : string;
  coins_token_id : string
}.

Definition de_Coins (v : Value) : option Coins :=
  match struct_fields ["amount"; "token_id"] v with
  | Some [x_amount; x_token_id] =>
      x_amount ← field de_string x_amount;
      x_token_id ← field de_string x_token_id;
      Some {| coins_amount := x_amount; coins_token_id := x_token_id |}
  | _ => None
  end.

Definition ser_Coins (x : Coins) : Value :=
  JObject [("amount", JString x.(coins_amount)); ("token_id", JString x.(coins_token_id))].

#[global] Arguments de_Coins : simpl never.
#[global] Arguments ser_Coins : simpl never.

Definition ok_Coins (x : Coins) : Prop :=
  True.

Lemma rt_Coins x : ok_Coins x -> de_Coins (ser_Coins x) = Some x.
Proof. destruct x; unfold ok_Coins, de_Coins, ser_Coins. wire_rt. Qed.
#[export] Hint Resolve rt_Coins : wire.

Record BankTransferDetails : Set := {
  btd_from : MultiAddress;
  btd_to : MultiAddress;
  btd_coins : Coins
}.

Definition de_BankTransferDetails (v : Value) : option BankTransferDetails :=
  match struct_fields ["from"; "to"; "coins"] v with
  | Some [x_from; x_to; x_coins] =>
      x_from ← field de_MultiAddress x_from;
      x_to ← field de_MultiAddress x_to;
      x_coins ← field de_Coins x_coins;
      Some {| btd_from := x_from; btd_to := x_to; btd_coins := x_coins |}
  | _ => None
  end.

Definition ser_BankTransferDetails (x : BankTransferDetails) : Value :=
    JObject [("from", ser_MultiAddress x.(btd_from)); ("to", ser_MultiAddress x.(btd_to));
      ("coins", ser_Coins x.(btd_coins))].

#[global] Arguments de_BankTransferDetails : simpl never.
#[global] Arguments ser_BankTransferDetails : simpl never.

Definition ok_BankTransferDetails (x : BankTransferDetails) : Prop :=
  ok_MultiAddress x.(btd_from) /\ ok_MultiAddress x.(btd_to) /\ ok_Coins x.(btd_coins).

Lemma rt_BankTransferDetails x : ok_BankTransferDetails x -> de_BankTransferDetails
    (ser_BankTransferDetails x) = Some x.
Proof. destruct x; unfold ok_BankTransferDetails, de_BankTransferDetails,
    ser_BankTransferDetails. wire_rt. Qed.
#[export] Hint Resolve rt_BankTransferDetails : wire.

Record BankTokenTransferredEvent : Set := {
  btte_token_transferred : BankTransferDetails
}.

Definition de_BankTokenTransferredEvent (v : Value) : option BankTokenTransferredEvent :=
  match struct_fields ["token_transferred"] v with
  | Some [x_token_transferred] =>
      x_token_transferred ← field de_BankTransferDetails x_token_transferred;
      Some {| btte_token_transferred := x_token_transferred |}
  | _ => None
  end.

Definition ser_BankTokenTransferredEvent (x : BankTokenTransferredEvent) : Value :=
  JObject [("token_transferred", ser_BankTransferDetails x.(btte_token_transferred))].

#[global] Arguments de_BankTokenTransferredEvent : simpl never.
#[global] Arguments ser_BankTokenTransferredEvent : simpl never.

Definition ok_BankTokenTransferredEvent (x : BankTokenTransferredEvent) : Prop :=
  ok_BankTransferDetails x.(btte_token_transferred).

Lemma rt_BankTokenTransferredEvent x : ok_BankTokenTransferredEvent x ->
    de_BankTokenTransferredEvent (ser_BankTokenTransferredEvent x) = Some x.
Proof. destruct x; unfold ok_BankTokenTransferredEvent, de_BankTokenTransferredEvent,
    ser_BankTokenTransferredEvent. wire_rt. Qed.
#[export] Hint Resolve rt_BankTokenTransferredEvent : wire.

Record AttestorSetRegisteredDetails : Set := {
  asrd_attestor_set_id : string;
  asrd_members : list string;
  asrd_threshold : Z;
  asrd_registered_by : string
}.

Definition de_AttestorSetRegisteredDetails (v : Value) : option AttestorSetRegisteredDetails :=
  match struct_fields ["attestor_set_id"; "members"; "threshold"; "registered_by"] v with
  | Some [x_attestor_set_id; x_members; x_threshold; x_registered_by] =>
      x_attestor_set_id ← field de_string x_attestor_set_id;
      x_members ← field (de_list de_string) x_members;
      x_threshold ← field de_u8 x_threshold;
      x_registered_by ← field de_string x_registered_by;
            Some {| asrd_attestor_set_id := x_attestor_set_id; asrd_members := x_members;
          asrd_threshold := x_threshold; asrd_registered_by := x_registered_by |}
  | _ => None
  end.

Definition ser_AttestorSetRegisteredDetails (x : AttestorSetRegisteredDetails) : Value :=
    JObject [("attestor_set_id", JString x.(asrd_attestor_set_id)); ("members", (ser_list
      JString) x.(asrd_members)); ("threshold", ser_uint x.(asrd_threshold));
      ("registered_by", JString x.(asrd_registered_by))].

#[global] Arguments de_AttestorSetRegisteredDetails : simpl never.
#[global] Arguments ser_AttestorSetRegisteredDetails : simpl never.

Definition ok_AttestorSetRegisteredDetails (x : AttestorSetRegisteredDetails) : Prop :=
  0 <= x.(asrd_threshold) <= u8_max.

Lemma rt_AttestorSetRegisteredDetails x : ok_AttestorSetRegisteredDetails x ->
    de_AttestorSetRegisteredDetails (ser_AttestorSetRegisteredDetails x) = Some x.
Proof. destruct x; unfold ok_AttestorSetRegisteredDetails, de_AttestorSetRegisteredDetails,
    ser_AttestorSetRegisteredDetails. wire_rt. Qed.
#[export] Hint Resolve rt_AttestorSetRegisteredDetails : wire.

Record AttestationAttestorSetRegisteredEvent : Set := {
  aasre_attestor_set_registered : AttestorSetRegisteredDetails
}.

Definition de_AttestationAttestorSetRegisteredEvent (v : Value) : option
    AttestationAttestorSetRegisteredEvent :=
  match struct_fields ["AttestorSetRegistered"] v with
  | Some [x_attestor_set_registered] =>
            x_attestor_set_registered ← field de_AttestorSetRegisteredDetails
          x_attestor_set_registered;
      Some {| aasre_attestor_set_registered := x_attestor_set_registered |}
  | _ => None
  end.

Definition ser_AttestationAttestorSetRegisteredEvent (x :
    AttestationAttestorSetRegisteredEvent) : Value :=
    JObject [("AttestorSetRegistered", ser_AttestorSetRegisteredDetails
      x.(aasre_attestor_set_registered))].

#[global] Arguments de_AttestationAttestorSetRegisteredEvent : simpl never.
#[global] Arguments ser_AttestationAttestorSetRegisteredEvent : simpl never.

Definition ok_AttestationAttestorSetRegisteredEvent (x :
    AttestationAttestorSetRegisteredEvent) : Prop :=
  ok_AttestorSetRegisteredDetails x.(aasre_attestor_set_registered).

Lemma rt_AttestationAttestorSetRegisteredEvent x : ok_AttestationAttestorSetRegisteredEvent x
    -> de_AttestationAttestorSetRegisteredEvent (ser_AttestationAttestorSetRegisteredEvent x)
    = Some x.
Proof. destruct x; unfold ok_AttestationAttestorSetRegisteredEvent,
    de_AttestationAttestorSetRegisteredEvent, ser_AttestationAttestorSetRegisteredEvent.
    wire_rt. Qed.
#[export] Hint Resolve rt_AttestationAttestorSetRegisteredEvent : wire.

Record SchemaRegisteredDetails : Set := {
  srd_schema_id : string;
  srd_name : string;
  srd_version : Z;
  srd_owner : string;
  srd_attestor_set_id : string;
  srd_fee_routing_bps : Z;
  srd_fee_routing_addr : option string;
  srd_payload_shape_hash : Value
}.

Definition de_SchemaRegisteredDetails (v : Value) : option SchemaRegisteredDetails :=
    match struct_fields ["schema_id"; "name"; "version"; "owner"; "attestor_set_id";
      "fee_routing_bps"; "fee_routing_addr"; "payload_shape_hash"] v with
    | Some [x_schema_id; x_name; x_version; x_owner; x_attestor_set_id; x_fee_routing_bps;
      x_fee_routing_addr; x_payload_shape_hash] =>
      x_schema_id ← field de_string x_schema_id;
      x_name ← field de_string x_name;
      x_version ← field de_u32 x_version;
      x_owner ← field de_string x_owner;
      x_attestor_set_id ← field de_string x_attestor_set_id;
      x_fee_routing_bps ← field de_u16 x_fee_routing_bps;
      x_fee_routing_addr ← field_default None (de_option de_string) x_fee_routing_addr;
      x_payload_shape_hash ← field de_value x_payload_shape_hash;
            Some {| srd_schema_id := x_schema_id; srd_name := x_name; srd_version :=
          x_version; srd_owner := x_owner; srd_attestor_set_id := x_attestor_set_id;
          srd_fee_routing_bps := x_fee_routing_bps; srd_fee_routing_addr :=
          x_fee_routing_addr; srd_payload_shape_hash := x_payload_shape_hash |}
  | _ => None
  end.

Definition ser_SchemaRegisteredDetails (x : SchemaRegisteredDetails) : Value :=
    JObject [("schema_id", JString x.(srd_schema_id)); ("name", JString x.(srd_name));
      ("version", ser_uint x.(srd_version)); ("owner", JString x.(srd_owner));
      ("attestor_set_id", JString x.(srd_attestor_set_id)); ("fee_routing_bps", ser_uint
      x.(srd_fee_routing_bps)); ("fee_routing_addr", (ser_option JString)
      x.(srd_fee_routing_addr)); ("payload_shape_hash", ser_value
      x.(srd_payload_shape_hash))].

#[global] Arguments de_SchemaRegisteredDetails : simpl never.
#[global] Arguments ser_SchemaRegisteredDetails : simpl never.

Definition ok_SchemaRegisteredDetails (x : SchemaRegisteredDetails) : Prop :=
  0 <= x.(srd_version) <= u32_max /\ 0 <= x.(srd_fee_routing_bps) <= u16_max.

Lemma rt_SchemaRegisteredDetails x : ok_SchemaRegisteredDetails x ->
    de_SchemaRegisteredDetails (ser_SchemaRegisteredDetails x) = Some x.
Proof. destruct x; unfold ok_SchemaRegisteredDetails, de_SchemaRegisteredDetails,
    ser_SchemaRegisteredDetails. wire_rt. Qed.
#[export] Hint Resolve rt_SchemaRegisteredDetails : wire.

Record AttestationSchemaRegisteredEvent : Set := {
  asre_schema_registered : SchemaRegisteredDetails
}.

Definition de_AttestationSchemaRegisteredEvent (v : Value) : option
    AttestationSchemaRegisteredEvent :=
  match struct_fields ["SchemaRegistered"] v with
  | Some [x_schema_registered] =>
      x_schema_registered ← field de_SchemaRegisteredDetails x_schema_registered;
      Some {| asre_schema_registered := x_schema_registered |}
  | _ => None
  end.

Definition ser_AttestationSchemaRegisteredEvent (x : AttestationSchemaRegisteredEvent) : Value
    :=
  JObject [("SchemaRegistered", ser_SchemaRegisteredDetails x.(asre_schema_registered))].

#[global] Arguments de_AttestationSchemaRegisteredEvent : simpl never.
#[global] Arguments ser_AttestationSchemaRegisteredEvent : simpl never.

Definition ok_AttestationSchemaRegisteredEvent (x : AttestationSchemaRegisteredEvent) : Prop :=
  ok_SchemaRegisteredDetails x.(asre_schema_registered).

Lemma rt_AttestationSchemaRegisteredEvent x : ok_AttestationSchemaRegisteredEvent x ->
    de_AttestationSchemaRegisteredEvent (ser_AttestationSchemaRegisteredEvent x) = Some x.
Proof. destruct x; unfold ok_AttestationSchemaRegisteredEvent,
    de_AttestationSchemaRegisteredEvent, ser_AttestationSchemaRegisteredEvent. wire_rt. Qed.
#[export] Hint Resolve rt_AttestationSchemaRegisteredEvent : wire.

Record AttestationSubmittedDetails : Set := {
  asd_schema_id : string;
  asd_payload_hash : string;
  asd_submitter : string;
  asd_signature_count : Z
}.

Definition de_AttestationSubmittedDetails (v : Value) : option AttestationSubmittedDetails :=
  match struct_fields ["schema_id"; "payload_hash"; "submitter"; "signature_count"] v with
  | Some [x_schema_id; x_payload_hash; x_submitter; x_signature_count] =>
      x_schema_id ← field de_string x_schema_id;
      x_payload_hash ← field de_string x_payload_hash;
      x_submitter ← field de_string x_submitter;
      x_signature_count ← field de_u32 x_signature_count;
            Some {| asd_schema_id := x_schema_id; asd_payload_hash := x_payload_hash;
          asd_submitter := x_submitter; asd_signature_count := x_signature_count |}
  | _ => None
  end.

Definition ser_AttestationSubmittedDetails (x : AttestationSubmittedDetails) : Value :=
    JObject [("schema_id", JString x.(asd_schema_id)); ("payload_hash", JString
      x.(asd_payload_hash)); ("submitter", JString x.(asd_submitter)); ("signature_count",
      ser_uint x.(asd_signature_count))].

#[global] Arguments de_AttestationSubmittedDetails : simpl never.
#[global] Arguments ser_AttestationSubmittedDetails : simpl never.

Definition ok_AttestationSubmittedDetails (x : AttestationSubmittedDetails) : Prop :=
  0 <= x.(asd_signature_count) <= u32_max.

Lemma rt_AttestationSubmittedDetails x : ok_AttestationSubmittedDetails x ->
    de_AttestationSubmittedDetails (ser_AttestationSubmittedDetails x) = Some x.
Proof. destruct x; unfold ok_AttestationSubmittedDetails, de_AttestationSubmittedDetails,
    ser_AttestationSubmittedDetails. wire_rt. Qed.
#[export] Hint Resolve rt_AttestationSubmittedDetails : wire.

Record AttestationAttestationSubmittedEvent : Set := {
  aase_attestation_submitted : AttestationSubmittedDetails
}.

Definition de_AttestationAttestationSubmittedEvent (v : Value) : option
    AttestationAttestationSubmittedEvent :=
  match struct_fields ["AttestationSubmitted"] v with
  | Some [x_attestation_submitted] =>
      x_attestation_submitted ← field de_AttestationSubmittedDetails x_attestation_submitted;
      Some {| aase_attestation_submitted := x_attestation_submitted |}
  | _ => None
  end.

Definition ser_AttestationAttestationSubmittedEvent (x : AttestationAttestationSubmittedEvent)
    : Value :=
    JObject [("AttestationSubmitted", ser_AttestationSubmittedDetails
      x.(aase_attestation_submitted))].

#[global] Arguments de_AttestationAttestationSubmittedEvent : simpl never.
#[global] Arguments ser_AttestationAttestationSubmittedEvent : simpl never.

Definition ok_AttestationAttestationSubmittedEvent (x : AttestationAttestationSubmittedEvent)
    : Prop :=
  ok_AttestationSubmittedDetails x.(aase_attestation_submitted).

Lemma rt_AttestationAttestationSubmittedEvent x : ok_AttestationAttestationSubmittedEvent x ->
    de_AttestationAttestationSubmittedEvent (ser_AttestationAttestationSubmittedEvent x) =
    Some x.
Proof. destruct x; unfold ok_AttestationAttestationSubmittedEvent,
    de_AttestationAttestationSubmittedEvent, ser_AttestationAttestationSubmittedEvent.
    wire_rt. Qed.
#[export] Hint Resolve rt_AttestationAttestationSubmittedEvent : wire.

Record BountyRecord : Set := {
  bounty_poster : string;
  bounty_board_schema_id : string;
  bounty_pool : string;
  bounty_per_attestation : string;
  bounty_acceptance : Value;
  bounty_expiry_da_height : Z;
  bounty_dispute_window_blocks : Z;
  bounty_status : string
}.

Definition de_BountyRecord (v : Value) : option BountyRecord :=
    match struct_fields ["poster"; "board_schema_id"; "pool"; "per_attestation"; "acceptance";
      "expiry_da_height"; "dispute_window_blocks"; "status"] v with
    | Some [x_poster; x_board_schema_id; x_pool; x_per_attestation; x_acceptance;
      x_expiry_da_height; x_dispute_window_blocks; x_status] =>
      x_poster ← field de_string x_poster;
      x_board_schema_id ← field de_string x_board_schema_id;
      x_pool ← field de_string x_pool;
      x_per_attestation ← field de_string x_per_attestation;
      x_acceptance ← field de_value x_acceptance;
      x_expiry_da_height ← field de_u64 x_expiry_da_height;
      x_dispute_window_blocks ← field de_u32 x_dispute_window_blocks;
      x_status ← field de_string x_status;
            Some {| bounty_poster := x_poster; bounty_board_schema_id := x_board_schema_id;
          bounty_pool := x_pool; bounty_per_attestation := x_per_attestation;
          bounty_acceptance := x_acceptance; bounty_expiry_da_height := x_expiry_da_height;
          bounty_dispute_window_blocks := x_dispute_window_blocks; bounty_status := x_status
          |}
  | _ => None
  end.

Definition ser_BountyRecord (x : BountyRecord) : Value :=
    JObject [("poster", JString x.(bounty_poster)); ("board_schema_id", JString
      x.(bounty_board_schema_id)); ("pool", JString x.(bounty_pool)); ("per_attestation",
      JString x.(bounty_per_attestation)); ("acceptance", ser_value x.(bounty_acceptance));
      ("expiry_da_height", ser_uint x.(bounty_expiry_da_height)); ("dispute_window_blocks",
      ser_uint x.(bounty_dispute_window_blocks)); ("status", JString x.(bounty_status))].

#[global] Arguments de_BountyRecord : simpl never.
#[global] Arguments ser_BountyRecord : simpl never.

Definition ok_BountyRecord (x : BountyRecord) : Prop :=
    0 <= x.(bounty_expiry_da_height) <= u64_max /\ 0 <= x.(bounty_dispute_window_blocks) <=
      u32_max.

Lemma rt_BountyRecord x : ok_BountyRecord x -> de_BountyRecord (ser_BountyRecord x) = Some x.
Proof. destruct x; unfold ok_BountyRecord, de_BountyRecord, ser_BountyRecord. wire_rt. Qed.
#[export] Hint Resolve rt_BountyRecord : wire.

Record BountyResponse : Set := {
  br_bounty : BountyRecord
}.

Definition de_BountyResponse (v : Value) : option BountyResponse :=
  match struct_fields ["bounty"] v with
  | Some [x_bounty] =>
      x_bounty ← field de_BountyRecord x_bounty;
      Some {| br_bounty := x_bounty |}
  | _ => None
  end.

Definition ser_BountyResponse (x : BountyResponse) : Value :=
  JObject [("bounty", ser_BountyRecord x.(br_bounty))].

#[global] Arguments de_BountyResponse : simpl never.
#[global] Arguments ser_BountyResponse : simpl never.

Definition ok_BountyResponse (x : BountyResponse) : Prop :=
  ok_BountyRecord x.(br_bounty).

Lemma rt_BountyResponse x : ok_BountyResponse x -> de_BountyResponse (ser_BountyResponse x) =
    Some x.
Proof. destruct x; unfold ok_BountyResponse, de_BountyResponse, ser_BountyResponse. wire_rt.
    Qed.
#[export] Hint Resolve rt_BountyResponse : wire.

Record BountyPostedDetails : Set := {
  bpd_bounty_id : string;
  bpd_poster : string;
  bpd_pool : string
}.

Definition de_BountyPostedDetails (v : Value) : option BountyPostedDetails :=
  match struct_fields ["bounty_id"; "poster"; "pool"] v with
  | Some [x_bounty_id; x_poster; x_pool] =>
      x_bounty_id ← field de_string x_bounty_id;
      x_poster ← field de_string x_poster;
      x_pool ← field de_string x_pool;
      Some {| bpd_bounty_id := x_bounty_id; bpd_poster := x_poster; bpd_pool := x_pool |}
  | _ => None
  end.

Definition ser_BountyPostedDetails (x : BountyPostedDetails) : Value :=
    JObject [("bounty_id", JString x.(bpd_bounty_id)); ("poster", JString x.(bpd_poster));
      ("pool", JString x.(bpd_pool))].

#[global] Arguments de_BountyPostedDetails : simpl never.
#[global] Arguments ser_BountyPostedDetails : simpl never.

Definition ok_BountyPostedDetails (x : BountyPostedDetails) : Prop :=
  True.

Lemma rt_BountyPostedDetails x : ok_BountyPostedDetails x -> de_BountyPostedDetails
    (ser_BountyPostedDetails x) = Some x.
Proof. destruct x; unfold ok_BountyPostedDetails, de_BountyPostedDetails,
    ser_BountyPostedDetails. wire_rt. Qed.
#[export] Hint Resolve rt_BountyPostedDetails : wire.

Record BountyPostedEvent : Set := {
  bpe_bounty_posted : BountyPostedDetails
}.

Definition de_BountyPostedEvent (v : Value) : option BountyPostedEvent :=
  match struct_fields ["BountyPosted"] v with
  | Some [x_bounty_posted] =>
      x_bounty_posted ← field de_BountyPostedDetails x_bounty_posted;
      Some {| bpe_bounty_posted := x_bounty_posted |}
  | _ => None
  end.

Definition ser_BountyPostedEvent (x : BountyPostedEvent) : Value :=
  JObject [("BountyPosted", ser_BountyPostedDetails x.(bpe_bounty_posted))].

#[global] Arguments de_BountyPostedEvent : simpl never.
#[global] Arguments ser_BountyPostedEvent : simpl never.

Definition ok_BountyPostedEvent (x : BountyPostedEvent) : Prop :=
  ok_BountyPostedDetails x.(bpe_bounty_posted).

Lemma rt_BountyPostedEvent x : ok_BountyPostedEvent x -> de_BountyPostedEvent
    (ser_BountyPostedEvent x) = Some x.
Proof. destruct x; unfold ok_BountyPostedEvent, de_BountyPostedEvent, ser_BountyPostedEvent.
    wire_rt. Qed.
#[export] Hint Resolve rt_BountyPostedEvent : wire.

Record BountyClaimedDetails : Set := {
  bcd_bounty_id : string;
  bcd_attestation_id : string;
  bcd_payout : string;
  bcd_attester : string
}.

Definition de_BountyClaimedDetails (v : Value) : option BountyClaimedDetails :=
  match struct_fields ["bounty_id"; "attestation_id"; "payout"; "attester"] v with
  | Some [x_bounty_id; x_attestation_id; x_payout; x_attester] =>
      x_bounty_id ← field de_string x_bounty_id;
      x_attestation_id ← field de_string x_attestation_id;
      x_payout ← field de_string x_payout;
      x_attester ← field de_string x_attester;
            Some {| bcd_bounty_id := x_bounty_id; bcd_attestation_id := x_attestation_id;
          bcd_payout := x_payout; bcd_attester := x_attester |}
  | _ => None
  end.

Definition ser_BountyClaimedDetails (x : BountyClaimedDetails) : Value :=
    JObject [("bounty_id", JString x.(bcd_bounty_id)); ("attestation_id", JString
      x.(bcd_attestation_id)); ("payout", JString x.(bcd_payout)); ("attester", JString
      x.(bcd_attester))].

#[global] Arguments de_BountyClaimedDetails : simpl never.
#[global] Arguments ser_BountyClaimedDetails : simpl never.

Definition ok_BountyClaimedDetails (x : BountyClaimedDetails) : Prop :=
  True.

Lemma rt_BountyClaimedDetails x : ok_BountyClaimedDetails x -> de_BountyClaimedDetails
    (ser_BountyClaimedDetails x) = Some x.
Proof. destruct x; unfold ok_BountyClaimedDetails, de_BountyClaimedDetails,
    ser_BountyClaimedDetails. wire_rt. Qed.
#[export] Hint Resolve rt_BountyClaimedDetails : wire.

Record BountyClaimedEvent : Set := {
  bce_bounty_claimed : BountyClaimedDetails
}.

Definition de_BountyClaimedEvent (v : Value) : option BountyClaimedEvent :=
  match struct_fields ["BountyClaimed"] v with
  | Some [x_bounty_claimed] =>
      x_bounty_claimed ← field de_BountyClaimedDetails x_bounty_claimed;
      Some {| bce_bounty_claimed := x_bounty_claimed |}
  | _ => None
  end.

Definition ser_BountyClaimedEvent (x : BountyClaimedEvent) : Value :=
  JObject [("BountyClaimed", ser_BountyClaimedDetails x.(bce_bounty_claimed))].

#[global] Arguments de_BountyClaimedEvent : simpl never.
#[global] Arguments ser_BountyClaimedEvent : simpl never.

Definition ok_BountyClaimedEvent (x : BountyClaimedEvent) : Prop :=
  ok_BountyClaimedDetails x.(bce_bounty_claimed).

Lemma rt_BountyClaimedEvent x : ok_BountyClaimedEvent x -> de_BountyClaimedEvent
    (ser_BountyClaimedEvent x) = Some x.
Proof. destruct x; unfold ok_BountyClaimedEvent, de_BountyClaimedEvent,
    ser_BountyClaimedEvent. wire_rt. Qed.
#[export] Hint Resolve rt_BountyClaimedEvent : wire.

Record BountyDisputedDetails : Set := {
  bdd_bounty_id : string;
  bdd_attestation_id : string;
  bdd_disputer : string;
  bdd_bond : string
}.

Definition de_BountyDisputedDetails (v : Value) : option BountyDisputedDetails :=
  match struct_fields ["bounty_id"; "attestation_id"; "disputer"; "bond"] v with
  | Some [x_bounty_id; x_attestation_id; x_disputer; x_bond] =>
      x_bounty_id ← field de_string x_bounty_id;
      x_attestation_id ← field de_string x_attestation_id;
      x_disputer ← field de_string x_disputer;
      x_bond ← field de_string x_bond;
            Some {| bdd_bounty_id := x_bounty_id; bdd_attestation_id := x_attestation_id;
          bdd_disputer := x_disputer; bdd_bond := x_bond |}
  | _ => None
  end.

Definition ser_BountyDisputedDetails (x : BountyDisputedDetails) : Value :=
    JObject [("bounty_id", JString x.(bdd_bounty_id)); ("attestation_id", JString
      x.(bdd_attestation_id)); ("disputer", JString x.(bdd_disputer)); ("bond", JString
      x.(bdd_bond))].

#[global] Arguments de_BountyDisputedDetails : simpl never.
#[global] Arguments ser_BountyDisputedDetails : simpl never.

Definition ok_BountyDisputedDetails (x : BountyDisputedDetails) : Prop :=
  True.

Lemma rt_BountyDisputedDetails x : ok_BountyDisputedDetails x -> de_BountyDisputedDetails
    (ser_BountyDisputedDetails x) = Some x.
Proof. destruct x; unfold ok_BountyDisputedDetails, de_BountyDisputedDetails,
    ser_BountyDisputedDetails. wire_rt. Qed.
#[export] Hint Resolve rt_BountyDisputedDetails : wire.

Record BountyDisputedEvent : Set := {
  bde_bounty_disputed : BountyDisputedDetails
}.

Definition de_BountyDisputedEvent (v : Value) : option BountyDisputedEvent :=
  match struct_fields ["BountyDisputed"] v with
  | Some [x_bounty_disputed] =>
      x_bounty_disputed ← field de_BountyDisputedDetails x_bounty_disputed;
      Some {| bde_bounty_disputed := x_bounty_disputed |}
  | _ => None
  end.

Definition ser_BountyDisputedEvent (x : BountyDisputedEvent) : Value :=
  JObject [("BountyDisputed", ser_BountyDisputedDetails x.(bde_bounty_disputed))].

#[global] Arguments de_BountyDisputedEvent : simpl never.
#[global] Arguments ser_BountyDisputedEvent : simpl never.

Definition ok_BountyDisputedEvent (x : BountyDisputedEvent) : Prop :=
  ok_BountyDisputedDetails x.(bde_bounty_disputed).

Lemma rt_BountyDisputedEvent x : ok_BountyDisputedEvent x -> de_BountyDisputedEvent
    (ser_BountyDisputedEvent x) = Some x.
Proof. destruct x; unfold ok_BountyDisputedEvent, de_BountyDisputedEvent,
    ser_BountyDisputedEvent. wire_rt. Qed.
#[export] Hint Resolve rt_BountyDisputedEvent : wire.

Record DisputeResolvedDetails : Set := {
  drd_bounty_id : string;
  drd_attestation_id : string;
  drd_decision : string;
  drd_bond_recipient : string
}.

Definition de_DisputeResolvedDetails (v : Value) : option DisputeResolvedDetails :=
  match struct_fields ["bounty_id"; "attestation_id"; "decision"; "bond_recipient"] v with
  | Some [x_bounty_id; x_attestation_id; x_decision; x_bond_recipient] =>
      x_bounty_id ← field de_string x_bounty_id;
      x_attestation_id ← field de_string x_attestation_id;
      x_decision ← field de_string x_decision;
      x_bond_recipient ← field de_string x_bond_recipient;
            Some {| drd_bounty_id := x_bounty_id; drd_attestation_id := x_attestation_id;
          drd_decision := x_decision; drd_bond_recipient := x_bond_recipient |}
  | _ => None
  end.

Definition ser_DisputeResolvedDetails (x : DisputeResolvedDetails) : Value :=
    JObject [("bounty_id", JString x.(drd_bounty_id)); ("attestation_id", JString
      x.(drd_attestation_id)); ("decision", JString x.(drd_decision)); ("bond_recipient",
      JString x.(drd_bond_recipient))].

#[global] Arguments de_DisputeResolvedDetails : simpl never.
#[global] Arguments ser_DisputeResolvedDetails : simpl never.

Definition ok_DisputeResolvedDetails (x : DisputeResolvedDetails) : Prop :=
  True.

Lemma rt_DisputeResolvedDetails x : ok_DisputeResolvedDetails x -> de_DisputeResolvedDetails
    (ser_DisputeResolvedDetails x) = Some x.
Proof. destruct x; unfold ok_DisputeResolvedDetails, de_DisputeResolvedDetails,
    ser_DisputeResolvedDetails. wire_rt. Qed.
#[export] Hint Resolve rt_DisputeResolvedDetails : wire.

Record DisputeResolvedEvent : Set := {
  dre_dispute_resolved : DisputeResolvedDetails
}.

Definition de_DisputeResolvedEvent (v : Value) : option DisputeResolvedEvent :=
  match struct_fields ["DisputeResolved"] v with
  | Some [x_dispute_resolved] =>
      x_dispute_resolved ← field de_DisputeResolvedDetails x_dispute_resolved;
      Some {| dre_dispute_resolved := x_dispute_resolved |}
  | _ => None
  end.

Definition ser_DisputeResolvedEvent (x : DisputeResolvedEvent) : Value :=
  JObject [("DisputeResolved", ser_DisputeResolvedDetails x.(dre_dispute_resolved))].

#[global] Arguments de_DisputeResolvedEvent : simpl never.
#[global] Arguments ser_DisputeResolvedEvent : simpl never.

Definition ok_DisputeResolvedEvent (x : DisputeResolvedEvent) : Prop :=
  ok_DisputeResolvedDetails x.(dre_dispute_resolved).

Lemma rt_DisputeResolvedEvent x : ok_DisputeResolvedEvent x -> de_DisputeResolvedEvent
    (ser_DisputeResolvedEvent x) = Some x.
Proof. destruct x; unfold ok_DisputeResolvedEvent, de_DisputeResolvedEvent,
    ser_DisputeResolvedEvent. wire_rt. Qed.
#[export] Hint Resolve rt_DisputeResolvedEvent : wire.

Record BountyExpiredDetails : Set := {
  bed_bounty_id : string;
  bed_refunded_to_poster : string
}.

Definition de_BountyExpiredDetails (v : Value) : option BountyExpiredDetails :=
  match struct_fields ["bounty_id"; "refunded_to_poster"] v with
  | Some [x_bounty_id; x_refunded_to_poster] =>
      x_bounty_id ← field de_string x_bounty_id;
      x_refunded_to_poster ← field de_string x_refunded_to_poster;
      Some {| bed_bounty_id := x_bounty_id; bed_refunded_to_poster := x_refunded_to_poster |}
  | _ => None
  end.

Definition ser_BountyExpiredDetails (x : BountyExpiredDetails) : Value :=
    JObject [("bounty_id", JString x.(bed_bounty_id)); ("refunded_to_poster", JString
      x.(bed_refunded_to_poster))].

#[global] Arguments de_BountyExpiredDetails : simpl never.
#[global] Arguments ser_BountyExpiredDetails : simpl never.

Definition ok_BountyExpiredDetails (x : BountyExpiredDetails) : Prop :=
  True.

Lemma rt_BountyExpiredDetails x : ok_BountyExpiredDetails x -> de_BountyExpiredDetails
    (ser_BountyExpiredDetails x) = Some x.
Proof. destruct x; unfold ok_BountyExpiredDetails, de_BountyExpiredDetails,
    ser_BountyExpiredDetails. wire_rt. Qed.
#[export] Hint Resolve rt_BountyExpiredDetails : wire.

Record BountyExpiredEvent : Set := {
  bee_bounty_expired : BountyExpiredDetails
}.

Definition de_BountyExpiredEvent (v : Value) : option BountyExpiredEvent :=
  match struct_fields ["BountyExpired"] v with
  | Some [x_bounty_expired] =>
      x_bounty_expired ← field de_BountyExpiredDetails x_bounty_expired;
      Some {| bee_bounty_expired := x_bounty_expired |}
  | _ => None
  end.

Definition ser_BountyExpiredEvent (x : BountyExpiredEvent) : Value :=
  JObject [("BountyExpired", ser_BountyExpiredDetails x.(bee_bounty_expired))].

#[global] Arguments de_BountyExpiredEvent : simpl never.
#[global] Arguments ser_BountyExpiredEvent : simpl never.

Definition ok_BountyExpiredEvent (x : BountyExpiredEvent) : Prop :=
  ok_BountyExpiredDetails x.(bee_bounty_expired).

Lemma rt_BountyExpiredEvent x : ok_BountyExpiredEvent x -> de_BountyExpiredEvent
    (ser_BountyExpiredEvent x) = Some x.
Proof. destruct x; unfold ok_BountyExpiredEvent, de_BountyExpiredEvent,
    ser_BountyExpiredEvent. wire_rt. Qed.
#[export] Hint Resolve rt_BountyExpiredEvent : wire.

Record BountyFinalisedDetails : Set := {
  bfd_bounty_id : string;
  bfd_swept_to_poster : string
}.

Definition de_BountyFinalisedDetails (v : Value) : option BountyFinalisedDetails :=
  match struct_fields ["bounty_id"; "swept_to_poster"] v with
  | Some [x_bounty_id; x_swept_to_poster] =>
      x_bounty_id ← field de_string x_bounty_id;
      x_swept_to_poster ← field de_string x_swept_to_poster;
      Some {| bfd_bounty_id := x_bounty_id; bfd_swept_to_poster := x_swept_to_poster |}
  | _ => None
  end.

Definition ser_BountyFinalisedDetails (x : BountyFinalisedDetails) : Value :=
    JObject [("bounty_id", JString x.(bfd_bounty_id)); ("swept_to_poster", JString
      x.(bfd_swept_to_poster))].

#[global] Arguments de_BountyFinalisedDetails : simpl never.
#[global] Arguments ser_BountyFinalisedDetails : simpl never.

Definition ok_BountyFinalisedDetails (x : BountyFinalisedDetails) : Prop :=
  True.

Lemma rt_BountyFinalisedDetails x : ok_BountyFinalisedDetails x -> de_BountyFinalisedDetails
    (ser_BountyFinalisedDetails x) = Some x.
Proof. destruct x; unfold ok_BountyFinalisedDetails, de_BountyFinalisedDetails,
    ser_BountyFinalisedDetails. wire_rt. Qed.
#[export] Hint Resolve rt_BountyFinalisedDetails : wire.

Record BountyFinalisedEvent : Set := {
  bfe_bounty_finalised : BountyFinalisedDetails
}.

Definition de_BountyFinalisedEvent (v : Value) : option BountyFinalisedEvent :=
  match struct_fields ["BountyFinalised"] v with
  | Some [x_bounty_finalised] =>
      x_bounty_finalised ← field de_BountyFinalisedDetails x_bounty_finalised;
      Some {| bfe_bounty_finalised := x_bounty_finalised |}
  | _ => None
  end.

Definition ser_BountyFinalisedEvent (x : BountyFinalisedEvent) : Value :=
  JObject [("BountyFinalised", ser_BountyFinalisedDetails x.(bfe_bounty_finalised))].

#[global] Arguments de_BountyFinalisedEvent : simpl never.
#[global] Arguments ser_BountyFinalisedEvent : simpl never.

Definition ok_BountyFinalisedEvent (x : BountyFinalisedEvent) : Prop :=
  ok_BountyFinalisedDetails x.(bfe_bounty_finalised).

Lemma rt_BountyFinalisedEvent x : ok_BountyFinalisedEvent x -> de_BountyFinalisedEvent
    (ser_BountyFinalisedEvent x) = Some x.
Proof. destruct x; unfold ok_BountyFinalisedEvent, de_BountyFinalisedEvent,
    ser_BountyFinalisedEvent. wire_rt. Qed.
#[export] Hint Resolve rt_BountyFinalisedEvent : wire.

Record ContractRecord : Set := {
  contract_poster : string;
  contract_arbiter : string;
  contract_criteria_doc_hash : Value;
  contract_pool : string;
  contract_expiry_da_height : Z;
  contract_dispute_window_blocks : Z;
  contract_arbiter_fee_bps : Z;
  contract_status : string
}.

Definition de_ContractRecord (v : Value) : option ContractRecord :=
    match struct_fields ["poster"; "arbiter"; "criteria_doc_hash"; "pool"; "expiry_da_height";
      "dispute_window_blocks"; "arbiter_fee_bps"; "status"] v with
    | Some [x_poster; x_arbiter; x_criteria_doc_hash; x_pool; x_expiry_da_height;
      x_dispute_window_blocks; x_arbiter_fee_bps; x_status] =>
      x_poster ← field de_string x_poster;
      x_arbiter ← field de_string x_arbiter;
      x_criteria_doc_hash ← field de_value x_criteria_doc_hash;
      x_pool ← field de_string x_pool;
      x_expiry_da_height ← field de_u64 x_expiry_da_height;
      x_dispute_window_blocks ← field de_u32 x_dispute_window_blocks;
      x_arbiter_fee_bps ← field de_u16 x_arbiter_fee_bps;
      x_status ← field de_string x_status;
            Some {| contract_poster := x_poster; contract_arbiter := x_arbiter;
          contract_criteria_doc_hash := x_criteria_doc_hash; contract_pool := x_pool;
          contract_expiry_da_height := x_expiry_da_height; contract_dispute_window_blocks :=
          x_dispute_window_blocks; contract_arbiter_fee_bps := x_arbiter_fee_bps;
          contract_status := x_status |}
  | _ => None
  end.

Definition ser_ContractRecord (x : ContractRecord) : Value :=
    JObject [("poster", JString x.(contract_poster)); ("arbiter", JString
      x.(contract_arbiter)); ("criteria_doc_hash", ser_value x.(contract_criteria_doc_hash));
      ("pool", JString x.(contract_pool)); ("expiry_da_height", ser_uint
      x.(contract_expiry_da_height)); ("dispute_window_blocks", ser_uint
      x.(contract_dispute_window_blocks)); ("arbiter_fee_bps", ser_uint
      x.(contract_arbiter_fee_bps)); ("status", JString x.(contract_status))].

#[global] Arguments de_ContractRecord : simpl never.
#[global] Arguments ser_ContractRecord : simpl never.

Definition ok_ContractRecord (x : ContractRecord) : Prop :=
    0 <= x.(contract_expiry_da_height) <= u64_max /\ 0 <= x.(contract_dispute_window_blocks)
      <= u32_max /\ 0 <= x.(contract_arbiter_fee_bps) <= u16_max.

Lemma rt_ContractRecord x : ok_ContractRecord x -> de_ContractRecord (ser_ContractRecord x) =
    Some x.
Proof. destruct x; unfold ok_ContractRecord, de_ContractRecord, ser_ContractRecord. wire_rt.
    Qed.
#[export] Hint Resolve rt_ContractRecord : wire.

Record ContractResponse : Set := {
  cr_contract : ContractRecord
}.

Definition de_ContractResponse (v : Value) : option ContractResponse :=
  match struct_fields ["contract"] v with
  | Some [x_contract] =>
      x_contract ← field de_ContractRecord x_contract;
      Some {| cr_contract := x_contract |}
  | _ => None
  end.

Definition ser_ContractResponse (x : ContractResponse) : Value :=
  JObject [("contract", ser_ContractRecord x.(cr_contract))].

#[global] Arguments de_ContractResponse : simpl never.
#[global] Arguments ser_ContractResponse : simpl never.

Definition ok_ContractResponse (x : ContractResponse) : Prop :=
  ok_ContractRecord x.(cr_contract).

Lemma rt_ContractResponse x : ok_ContractResponse x -> de_ContractResponse
    (ser_ContractResponse x) = Some x.
Proof. destruct x; unfold ok_ContractResponse, de_ContractResponse, ser_ContractResponse.
    wire_rt. Qed.
#[export] Hint Resolve rt_ContractResponse : wire.

Record ContractPostedDetails : Set := {
  cpd_contract_id : string;
  cpd_poster : string;
  cpd_arbiter : string;
  cpd_pool : string
}.

Definition de_ContractPostedDetails (v : Value) : option ContractPostedDetails :=
  match struct_fields ["contract_id"; "poster"; "arbiter"; "pool"] v with
  | Some [x_contract_id; x_poster; x_arbiter; x_pool] =>
      x_contract_id ← field de_string x_contract_id;
      x_poster ← field de_string x_poster;
      x_arbiter ← field de_string x_arbiter;
      x_pool ← field de_string x_pool;
            Some {| cpd_contract_id := x_contract_id; cpd_poster := x_poster; cpd_arbiter :=
          x_arbiter; cpd_pool := x_pool |}
  | _ => None
  end.

Definition ser_ContractPostedDetails (x : ContractPostedDetails) : Value :=
    JObject [("contract_id", JString x.(cpd_contract_id)); ("poster", JString x.(cpd_poster));
      ("arbiter", JString x.(cpd_arbiter)); ("pool", JString x.(cpd_pool))].

#[global] Arguments de_ContractPostedDetails : simpl never.
#[global] Arguments ser_ContractPostedDetails : simpl never.

Definition ok_ContractPostedDetails (x : ContractPostedDetails) : Prop :=
  True.

Lemma rt_ContractPostedDetails x : ok_ContractPostedDetails x -> de_ContractPostedDetails
    (ser_ContractPostedDetails x) = Some x.
Proof. destruct x; unfold ok_ContractPostedDetails, de_ContractPostedDetails,
    ser_ContractPostedDetails. wire_rt. Qed.
#[export] Hint Resolve rt_ContractPostedDetails : wire.

Record ContractPostedEvent : Set := {
  cpe_contract_posted : ContractPostedDetails
}.

Definition de_ContractPostedEvent (v : Value) : option ContractPostedEvent :=
  match struct_fields ["ContractPosted"] v with
  | Some [x_contract_posted] =>
      x_contract_posted ← field de_ContractPostedDetails x_contract_posted;
      Some {| cpe_contract_posted := x_contract_posted |}
  | _ => None
  end.

Definition ser_ContractPostedEvent (x : ContractPostedEvent) : Value :=
  JObject [("ContractPosted", ser_ContractPostedDetails x.(cpe_contract_posted))].

#[global] Arguments de_ContractPostedEvent : simpl never.
#[global] Arguments ser_ContractPostedEvent : simpl never.

Definition ok_ContractPostedEvent (x : ContractPostedEvent) : Prop :=
  ok_ContractPostedDetails x.(cpe_contract_posted).

Lemma rt_ContractPostedEvent x : ok_ContractPostedEvent x -> de_ContractPostedEvent
    (ser_ContractPostedEvent x) = Some x.
Proof. destruct x; unfold ok_ContractPostedEvent, de_ContractPostedEvent,
    ser_ContractPostedEvent. wire_rt. Qed.
#[export] Hint Resolve rt_ContractPostedEvent : wire.

Record WorkerCommittedDetails : Set := {
  wcd_contract_id : string;
  wcd_worker : string;
  wcd_commit_hash : Value;
  wcd_bond : string
}.

Definition de_WorkerCommittedDetails (v : Value) : option WorkerCommittedDetails :=
  match struct_fields ["contract_id"; "worker"; "commit_hash"; "bond"] v with
  | Some [x_contract_id; x_worker; x_commit_hash; x_bond] =>
      x_contract_id ← field de_string x_contract_id;
      x_worker ← field de_string x_worker;
      x_commit_hash ← field_default JNull de_value x_commit_hash;
      x_bond ← field de_string x_bond;
            Some {| wcd_contract_id := x_contract_id; wcd_worker := x_worker; wcd_commit_hash
          := x_commit_hash; wcd_bond := x_bond |}
  | _ => None
  end.

Definition ser_WorkerCommittedDetails (x : WorkerCommittedDetails) : Value :=
    JObject [("contract_id", JString x.(wcd_contract_id)); ("worker", JString x.(wcd_worker));
      ("commit_hash", ser_value x.(wcd_commit_hash)); ("bond", JString x.(wcd_bond))].

#[global] Arguments de_WorkerCommittedDetails : simpl never.
#[global] Arguments ser_WorkerCommittedDetails : simpl never.

Definition ok_WorkerCommittedDetails (x : WorkerCommittedDetails) : Prop :=
  True.

Lemma rt_WorkerCommittedDetails x : ok_WorkerCommittedDetails x -> de_WorkerCommittedDetails
    (ser_WorkerCommittedDetails x) = Some x.
Proof. destruct x; unfold ok_WorkerCommittedDetails, de_WorkerCommittedDetails,
    ser_WorkerCommittedDetails. wire_rt. Qed.
#[export] Hint Resolve rt_WorkerCommittedDetails : wire.

Record WorkerCommittedEvent : Set := {
  wce_worker_committed : WorkerCommittedDetails
}.

Definition de_WorkerCommittedEvent (v : Value) : option WorkerCommittedEvent :=
  match struct_fields ["WorkerCommitted"] v with
  | Some [x_worker_committed] =>
      x_worker_committed ← field de_WorkerCommittedDetails x_worker_committed;
      Some {| wce_worker_committed := x_worker_committed |}
  | _ => None
  end.

Definition ser_WorkerCommittedEvent (x : WorkerCommittedEvent) : Value :=
  JObject [("WorkerCommitted", ser_WorkerCommittedDetails x.(wce_worker_committed))].

#[global] Arguments de_WorkerCommittedEvent : simpl never.
#[global] Arguments ser_WorkerCommittedEvent : simpl never.

Definition ok_WorkerCommittedEvent (x : WorkerCommittedEvent) : Prop :=
  ok_WorkerCommittedDetails x.(wce_worker_committed).

Lemma rt_WorkerCommittedEvent x : ok_WorkerCommittedEvent x -> de_WorkerCommittedEvent
    (ser_WorkerCommittedEvent x) = Some x.
Proof. destruct x; unfold ok_WorkerCommittedEvent, de_WorkerCommittedEvent,
    ser_WorkerCommittedEvent. wire_rt. Qed.
#[export] Hint Resolve rt_WorkerCommittedEvent : wire.

Record ContractDeliveredDetails : Set := {
  cdd_contract_id : string;
  cdd_worker : string;
  cdd_deliverable_attestation_id : string
}.

Definition de_ContractDeliveredDetails (v : Value) : option ContractDeliveredDetails :=
  match struct_fields ["contract_id"; "worker"; "deliverable_attestation_id"] v with
  | Some [x_contract_id; x_worker; x_deliverable_attestation_id] =>
      x_contract_id ← field de_string x_contract_id;
      x_worker ← field de_string x_worker;
      x_deliverable_attestation_id ← field de_string x_deliverable_attestation_id;
            Some {| cdd_contract_id := x_contract_id; cdd_worker := x_worker;
          cdd_deliverable_attestation_id := x_deliverable_attestation_id |}
  | _ => None
  end.

Definition ser_ContractDeliveredDetails (x : ContractDeliveredDetails) : Value :=
    JObject [("contract_id", JString x.(cdd_contract_id)); ("worker", JString x.(cdd_worker));
      ("deliverable_attestation_id", JString x.(cdd_deliverable_attestation_id))].

#[global] Arguments de_ContractDeliveredDetails : simpl never.
#[global] Arguments ser_ContractDeliveredDetails : simpl never.

Definition ok_ContractDeliveredDetails (x : ContractDeliveredDetails) : Prop :=
  True.

Lemma rt_ContractDeliveredDetails x : ok_ContractDeliveredDetails x ->
    de_ContractDeliveredDetails (ser_ContractDeliveredDetails x) = Some x.
Proof. destruct x; unfold ok_ContractDeliveredDetails, de_ContractDeliveredDetails,
    ser_ContractDeliveredDetails. wire_rt. Qed.
#[export] Hint Resolve rt_ContractDeliveredDetails : wire.

Record ContractDeliveredEvent : Set := {
  cde_contract_delivered : ContractDeliveredDetails
}.

Definition de_ContractDeliveredEvent (v : Value) : option ContractDeliveredEvent :=
  match struct_fields ["ContractDelivered"] v with
  | Some [x_contract_delivered] =>
      x_contract_delivered ← field de_ContractDeliveredDetails x_contract_delivered;
      Some {| cde_contract_delivered := x_contract_delivered |}
  | _ => None
  end.

Definition ser_ContractDeliveredEvent (x : ContractDeliveredEvent) : Value :=
  JObject [("ContractDelivered", ser_ContractDeliveredDetails x.(cde_contract_delivered))].

#[global] Arguments de_ContractDeliveredEvent : simpl never.
#[global] Arguments ser_ContractDeliveredEvent : simpl never.

Definition ok_ContractDeliveredEvent (x : ContractDeliveredEvent) : Prop :=
  ok_ContractDeliveredDetails x.(cde_contract_delivered).

Lemma rt_ContractDeliveredEvent x : ok_ContractDeliveredEvent x -> de_ContractDeliveredEvent
    (ser_ContractDeliveredEvent x) = Some x.
Proof. destruct x; unfold ok_ContractDeliveredEvent, de_ContractDeliveredEvent,
    ser_ContractDeliveredEvent. wire_rt. Qed.
#[export] Hint Resolve rt_ContractDeliveredEvent : wire.

Record DeliveryAcceptedDetails : Set := {
  dad_contract_id : string;
  dad_worker : string;
  dad_payout : string
}.

Definition de_DeliveryAcceptedDetails (v : Value) : option DeliveryAcceptedDetails :=
  match struct_fields ["contract_id"; "worker"; "payout"] v with
  | Some [x_contract_id; x_worker; x_payout] =>
      x_contract_id ← field de_string x_contract_id;
      x_worker ← field de_string x_worker;
      x_payout ← field de_string x_payout;
            Some {| dad_contract_id := x_contract_id; dad_worker := x_worker; dad_payout :=
          x_payout |}
  | _ => None
  end.

Definition ser_DeliveryAcceptedDetails (x : DeliveryAcceptedDetails) : Value :=
    JObject [("contract_id", JString x.(dad_contract_id)); ("worker", JString x.(dad_worker));
      ("payout", JString x.(dad_payout))].

#[global] Arguments de_DeliveryAcceptedDetails : simpl never.
#[global] Arguments ser_DeliveryAcceptedDetails : simpl never.

Definition ok_DeliveryAcceptedDetails (x : DeliveryAcceptedDetails) : Prop :=
  True.

Lemma rt_DeliveryAcceptedDetails x : ok_DeliveryAcceptedDetails x ->
    de_DeliveryAcceptedDetails (ser_DeliveryAcceptedDetails x) = Some x.
Proof. destruct x; unfold ok_DeliveryAcceptedDetails, de_DeliveryAcceptedDetails,
    ser_DeliveryAcceptedDetails. wire_rt. Qed.
#[export] Hint Resolve rt_DeliveryAcceptedDetails : wire.

Record DeliveryAcceptedEvent : Set := {
  dae_delivery_accepted : DeliveryAcceptedDetails
}.

Definition de_DeliveryAcceptedEvent (v : Value) : option DeliveryAcceptedEvent :=
  match struct_fields ["DeliveryAccepted"] v with
  | Some [x_delivery_accepted] =>
      x_delivery_accepted ← field de_DeliveryAcceptedDetails x_delivery_accepted;
      Some {| dae_delivery_accepted := x_delivery_accepted |}
  | _ => None
  end.

Definition ser_DeliveryAcceptedEvent (x : DeliveryAcceptedEvent) : Value :=
  JObject [("DeliveryAccepted", ser_DeliveryAcceptedDetails x.(dae_delivery_accepted))].

#[global] Arguments de_DeliveryAcceptedEvent : simpl never.
#[global] Arguments ser_DeliveryAcceptedEvent : simpl never.

Definition ok_DeliveryAcceptedEvent (x : DeliveryAcceptedEvent) : Prop :=
  ok_DeliveryAcceptedDetails x.(dae_delivery_accepted).

Lemma rt_DeliveryAcceptedEvent x : ok_DeliveryAcceptedEvent x -> de_DeliveryAcceptedEvent
    (ser_DeliveryAcceptedEvent x) = Some x.
Proof. destruct x; unfold ok_DeliveryAcceptedEvent, de_DeliveryAcceptedEvent,
    ser_DeliveryAcceptedEvent. wire_rt. Qed.
#[export] Hint Resolve rt_DeliveryAcceptedEvent : wire.

Record DeliveryRejectedDetails : Set := {
  drd2_contract_id : string;
  drd2_worker : string;
  drd2_reason : string
}.

Definition de_DeliveryRejectedDetails (v : Value) : option DeliveryRejectedDetails :=
  match struct_fields ["contract_id"; "worker"; "reason"] v with
  | Some [x_contract_id; x_worker; x_reason] =>
      x_contract_id ← field de_string x_contract_id;
      x_worker ← field de_string x_worker;
      x_reason ← field de_string x_reason;
            Some {| drd2_contract_id := x_contract_id; drd2_worker := x_worker; drd2_reason :=
          x_reason |}
  | _ => None
  end.

Definition ser_DeliveryRejectedDetails (x : DeliveryRejectedDetails) : Value :=
    JObject [("contract_id", JString x.(drd2_contract_id)); ("worker", JString
      x.(drd2_worker)); ("reason", JString x.(drd2_reason))].

#[global] Arguments de_DeliveryRejectedDetails : simpl never.
#[global] Arguments ser_DeliveryRejectedDetails : simpl never.

Definition ok_DeliveryRejectedDetails (x : DeliveryRejectedDetails) : Prop :=
  True.

Lemma rt_DeliveryRejectedDetails x : ok_DeliveryRejectedDetails x ->
    de_DeliveryRejectedDetails (ser_DeliveryRejectedDetails x) = Some x.
Proof. destruct x; unfold ok_DeliveryRejectedDetails, de_DeliveryRejectedDetails,
    ser_DeliveryRejectedDetails. wire_rt. Qed.
#[export] Hint Resolve rt_DeliveryRejectedDetails : wire.

Record DeliveryRejectedEvent : Set := {
  dre2_delivery_rejected : DeliveryRejectedDetails
}.

Definition de_DeliveryRejectedEvent (v : Value) : option DeliveryRejectedEvent :=
  match struct_fields ["DeliveryRejected"] v with
  | Some [x_delivery_rejected] =>
      x_delivery_rejected ← field de_DeliveryRejectedDetails x_delivery_rejected;
      Some {| dre2_delivery_rejected := x_delivery_rejected |}
  | _ => None
  end.

Definition ser_DeliveryRejectedEvent (x : DeliveryRejectedEvent) : Value :=
  JObject [("DeliveryRejected", ser_DeliveryRejectedDetails x.(dre2_delivery_rejected))].

#[global] Arguments de_DeliveryRejectedEvent : simpl never.
#[global] Arguments ser_DeliveryRejectedEvent : simpl never.

Definition ok_DeliveryRejectedEvent (x : DeliveryRejectedEvent) : Prop :=
  ok_DeliveryRejectedDetails x.(dre2_delivery_rejected).

Lemma rt_DeliveryRejectedEvent x : ok_DeliveryRejectedEvent x -> de_DeliveryRejectedEvent
    (ser_DeliveryRejectedEvent x) = Some x.
Proof. destruct x; unfold ok_DeliveryRejectedEvent, de_DeliveryRejectedEvent,
    ser_DeliveryRejectedEvent. wire_rt. Qed.
#[export] Hint Resolve rt_DeliveryRejectedEvent : wire.

Record ContractDisputeResolvedDetails : Set := {
  cdrd_contract_id : string;
  cdrd_decision : string;
  cdrd_winner : string
}.

Definition de_ContractDisputeResolvedDetails (v : Value) : option
    ContractDisputeResolvedDetails :=
  match struct_fields ["contract_id"; "decision"; "winner"] v with
  | Some [x_contract_id; x_decision; x_winner] =>
      x_contract_id ← field de_string x_contract_id;
      x_decision ← field de_string x_decision;
      x_winner ← field de_string x_winner;
            Some {| cdrd_contract_id := x_contract_id; cdrd_decision := x_decision;
          cdrd_winner := x_winner |}
  | _ => None
  end.

Definition ser_ContractDisputeResolvedDetails (x : ContractDisputeResolvedDetails) : Value :=
    JObject [("contract_id", JString x.(cdrd_contract_id)); ("decision", JString
      x.(cdrd_decision)); ("winner", JString x.(cdrd_winner))].

#[global] Arguments de_ContractDisputeResolvedDetails : simpl never.
#[global] Arguments ser_ContractDisputeResolvedDetails : simpl never.

Definition ok_ContractDisputeResolvedDetails (x : ContractDisputeResolvedDetails) : Prop :=
  True.

Lemma rt_ContractDisputeResolvedDetails x : ok_ContractDisputeResolvedDetails x ->
    de_ContractDisputeResolvedDetails (ser_ContractDisputeResolvedDetails x) = Some x.
Proof. destruct x; unfold ok_ContractDisputeResolvedDetails,
    de_ContractDisputeResolvedDetails, ser_ContractDisputeResolvedDetails. wire_rt. Qed.
#[export] Hint Resolve rt_ContractDisputeResolvedDetails : wire.

Record ContractDisputeResolvedEvent : Set := {
  cdre_contract_dispute_resolved : ContractDisputeResolvedDetails
}.

Definition de_ContractDisputeResolvedEvent (v : Value) : option ContractDisputeResolvedEvent :=
  match struct_fields ["ContractDisputeResolved"] v with
  | Some [x_contract_dispute_resolved] =>
            x_contract_dispute_resolved ← field de_ContractDisputeResolvedDetails
          x_contract_dispute_resolved;
      Some {| cdre_contract_dispute_resolved := x_contract_dispute_resolved |}
  | _ => None
  end.

Definition ser_ContractDisputeResolvedEvent (x : ContractDisputeResolvedEvent) : Value :=
    JObject [("ContractDisputeResolved", ser_ContractDisputeResolvedDetails
      x.(cdre_contract_dispute_resolved))].

#[global] Arguments de_ContractDisputeResolvedEvent : simpl never.
#[global] Arguments ser_ContractDisputeResolvedEvent : simpl never.

Definition ok_ContractDisputeResolvedEvent (x : ContractDisputeResolvedEvent) : Prop :=
  ok_ContractDisputeResolvedDetails x.(cdre_contract_dispute_resolved).

Lemma rt_ContractDisputeResolvedEvent x : ok_ContractDisputeResolvedEvent x ->
    de_ContractDisputeResolvedEvent (ser_ContractDisputeResolvedEvent x) = Some x.
Proof. destruct x; unfold ok_ContractDisputeResolvedEvent, de_ContractDisputeResolvedEvent,
    ser_ContractDisputeResolvedEvent. wire_rt. Qed.
#[export] Hint Resolve rt_ContractDisputeResolvedEvent : wire.

Record ContractCancelledDetails : Set := {
  ccd_contract_id : string;
  ccd_refunded_to_poster : string
}.

Definition de_ContractCancelledDetails (v : Value) : option ContractCancelledDetails :=
  match struct_fields ["contract_id"; "refunded_to_poster"] v with
  | Some [x_contract_id; x_refunded_to_poster] =>
      x_contract_id ← field de_string x_contract_id;
      x_refunded_to_poster ← field de_string x_refunded_to_poster;
            Some {| ccd_contract_id := x_contract_id; ccd_refunded_to_poster :=
          x_refunded_to_poster |}
  | _ => None
  end.

Definition ser_ContractCancelledDetails (x : ContractCancelledDetails) : Value :=
    JObject [("contract_id", JString x.(ccd_contract_id)); ("refunded_to_poster", JString
      x.(ccd_refunded_to_poster))].

#[global] Arguments de_ContractCancelledDetails : simpl never.
#[global] Arguments ser_ContractCancelledDetails : simpl never.

Definition ok_ContractCancelledDetails (x : ContractCancelledDetails) : Prop :=
  True.

Lemma rt_ContractCancelledDetails x : ok_ContractCancelledDetails x ->
    de_ContractCancelledDetails (ser_ContractCancelledDetails x) = Some x.
Proof. destruct x; unfold ok_ContractCancelledDetails, de_ContractCancelledDetails,
    ser_ContractCancelledDetails. wire_rt. Qed.
#[export] Hint Resolve rt_ContractCancelledDetails : wire.

Record ContractCancelledEvent : Set := {
  cce_contract_cancelled : ContractCancelledDetails
}.

Definition de_ContractCancelledEvent (v : Value) : option ContractCancelledEvent :=
  match struct_fields ["ContractCancelled"] v with
  | Some [x_contract_cancelled] =>
      x_contract_cancelled ← field de_ContractCancelledDetails x_contract_cancelled;
      Some {| cce_contract_cancelled := x_contract_cancelled |}
  | _ => None
  end.

Definition ser_ContractCancelledEvent (x : ContractCancelledEvent) : Value :=
  JObject [("ContractCancelled", ser_ContractCancelledDetails x.(cce_contract_cancelled))].

#[global] Arguments de_ContractCancelledEvent : simpl never.
#[global] Arguments ser_ContractCancelledEvent : simpl never.

Definition ok_ContractCancelledEvent (x : ContractCancelledEvent) : Prop :=
  ok_ContractCancelledDetails x.(cce_contract_cancelled).

Lemma rt_ContractCancelledEvent x : ok_ContractCancelledEvent x -> de_ContractCancelledEvent
    (ser_ContractCancelledEvent x) = Some x.
Proof. destruct x; unfold ok_ContractCancelledEvent, de_ContractCancelledEvent,
    ser_ContractCancelledEvent. wire_rt. Qed.
#[export] Hint Resolve rt_ContractCancelledEvent : wire.

Record ContractExpiredDetails : Set := {
  ced_contract_id : string;
  ced_refunded_to_poster : string
}.

Definition de_ContractExpiredDetails (v : Value) : option ContractExpiredDetails :=
  match struct_fields ["contract_id"; "refunded_to_poster"] v with
  | Some [x_contract_id; x_refunded_to_poster] =>
      x_contract_id ← field de_string x_contract_id;
      x_refunded_to_poster ← field de_string x_refunded_to_poster;
            Some {| ced_contract_id := x_contract_id; ced_refunded_to_poster :=
          x_refunded_to_poster |}
  | _ => None
  end.

Definition ser_ContractExpiredDetails (x : ContractExpiredDetails) : Value :=
    JObject [("contract_id", JString x.(ced_contract_id)); ("refunded_to_poster", JString
      x.(ced_refunded_to_poster))].

#[global] Arguments de_ContractExpiredDetails : simpl never.
#[global] Arguments ser_ContractExpiredDetails : simpl never.

Definition ok_ContractExpiredDetails (x : ContractExpiredDetails) : Prop :=
  True.

Lemma rt_ContractExpiredDetails x : ok_ContractExpiredDetails x -> de_ContractExpiredDetails
    (ser_ContractExpiredDetails x) = Some x.
Proof. destruct x; unfold ok_ContractExpiredDetails, de_ContractExpiredDetails,
    ser_ContractExpiredDetails. wire_rt. Qed.
#[export] Hint Resolve rt_ContractExpiredDetails : wire.

Record ContractExpiredEvent : Set := {
  cee_contract_expired : ContractExpiredDetails
}.

Definition de_ContractExpiredEvent (v : Value) : option ContractExpiredEvent :=
  match struct_fields ["ContractExpired"] v with
  | Some [x_contract_expired] =>
      x_contract_expired ← field de_ContractExpiredDetails x_contract_expired;
      Some {| cee_contract_expired := x_contract_expired |}
  | _ => None
  end.

Definition ser_ContractExpiredEvent (x : ContractExpiredEvent) : Value :=
  JObject [("ContractExpired", ser_ContractExpiredDetails x.(cee_contract_expired))].

#[global] Arguments de_ContractExpiredEvent : simpl never.
#[global] Arguments ser_ContractExpiredEvent : simpl never.

Definition ok_ContractExpiredEvent (x : ContractExpiredEvent) : Prop :=
  ok_ContractExpiredDetails x.(cee_contract_expired).

Lemma rt_ContractExpiredEvent x : ok_ContractExpiredEvent x -> de_ContractExpiredEvent
    (ser_ContractExpiredEvent x) = Some x.
Proof. destruct x; unfold ok_ContractExpiredEvent, de_ContractExpiredEvent,
    ser_ContractExpiredEvent. wire_rt. Qed.
#[export] Hint Resolve rt_ContractExpiredEvent : wire.


