(* ===== verification/AttestationId.v ===== *)
(** * Attestation ids ([crates/indexer/src/attestation_id.rs])

    The canonical [lat1...] id of a [(schema_id, payload_hash)] pair, over the interfaces
    [Bech32] and [Sha256] of [Standards]; evaluated with bech32m and SHA-256. *)

From S2P Require Import Prelude Standards Bech32m Sha2.
Open Scope string_scope.
Open Scope list_scope.
Open Scope Z_scope.

Definition HRP_SCHEMA : string := "lsc".
Definition HRP_PAYLOAD : string := "lph".
Definition HRP_ATTESTATION : string := "lat".

(** Parametrised by the error types of the bech32 crate. *)
Inductive AttestationIdError {DecErr EncErr : Type} :=
| Bech32Decode (field : string) (source : DecErr)
| HrpMismatch (field expected got : string)
| LengthMismatch (field : string) (got : nat)
| Bech32Encode (source : EncErr).
Arguments AttestationIdError : clear implicits.

Section AttestationId.
Context `{B : Bech32} `{H : Sha256}.

Definition decode_hash32 (s expected_hrp field : string)
  : result (AttestationIdError DecodeError EncodeError) (list Z) :=
  '(hrp, data) ← map_err (Bech32Decode field) (bech32_decode s);
  if negb (String.eqb hrp expected_hrp)
  then Err (HrpMismatch field expected_hrp hrp)
  else if negb (length data =? 32)%nat
  then Err (LengthMismatch field (length data))
  else Ok data.

(** [Hrp::parse("lat").expect(..)] panics when the literal does not parse. *)
Definition compute_attestation_id (schema_id payload_hash : string)
  : outcome (result (AttestationIdError DecodeError EncodeError) string) :=
  match (s ← decode_hash32 schema_id HRP_SCHEMA "schema_id";
         p ← decode_hash32 payload_hash HRP_PAYLOAD "payload_hash";
         Ok (s, p)) with
  | Err e => Done (Err e)
  | Ok (s, p) =>
      match hrp_parse HRP_ATTESTATION with
      | None => Panicked
      | Some hrp => Done (map_err Bech32Encode (bech32_encode hrp (sha256 (s ++ p))))
      end
  end.

Lemma ours_known h : h ∈ [HRP_SCHEMA; HRP_PAYLOAD; HRP_ATTESTATION] -> h ∈ known_hrps.
Proof. unfold known_hrps, HRP_SCHEMA, HRP_PAYLOAD, HRP_ATTESTATION. set_solver. Qed.
#[local] Hint Resolve ours_known : core.

(** The parser uses the result as [Result]; a panic would end the ingest task. *)
Context `{BL : !Bech32Laws B}.

Lemma decode_hash32_inv s hrp field d :
  decode_hash32 s hrp field = Ok d -> bech32_decode s = Ok (hrp, d) /\ length d = 32%nat.
Proof.
  unfold decode_hash32. destruct (bech32_decode s) as [[h data]|e]; simpl; [|done].
  destruct (String.eqb_spec h hrp); simpl; [subst|done].
  destruct (length data =? 32)%nat eqn:E; simpl; [|done].
  intros [= <-]. by apply Nat.eqb_eq in E.
Qed.

Lemma decode_hash32_encoded hrp field d s :
  hrp ∈ known_hrps -> bech32_encode hrp d = Ok s -> length d = 32%nat ->
  decode_hash32 s hrp field = Ok d.
Proof.
  intros Hh He Hd. unfold decode_hash32. rewrite (bech32_decode_encode _ _ _ Hh He). simpl.
  by rewrite String.eqb_refl, Hd.
Qed.

Lemma compute_attestation_id_run s p d1 d2 :
  decode_hash32 s HRP_SCHEMA "schema_id" = Ok d1 ->
  decode_hash32 p HRP_PAYLOAD "payload_hash" = Ok d2 ->
  compute_attestation_id s p =
    Done (map_err Bech32Encode (bech32_encode HRP_ATTESTATION (sha256 (d1 ++ d2)))).
Proof.
  intros H1 H2. unfold compute_attestation_id. rewrite H1. simpl. rewrite H2. simpl.
  rewrite hrp_parse_known; [done|]. apply ours_known. set_solver.
Qed.

Lemma compute_attestation_id_no_panic s p : compute_attestation_id s p <> Panicked.
Proof.
  unfold compute_attestation_id.
  destruct (mbind _ _) as [[]|]; [|done].
  rewrite hrp_parse_known; [done|]. apply ours_known. set_solver.
Qed.

Context `{HL : !Sha256Laws H}.

(** The id of a well-formed pair is the bech32m [lat] encoding of the SHA-256 of
    the 64 raw bytes [schema || payload]; the function never fails on such a pair. *)
Theorem compute_attestation_id_spec sb pb schema_id payload_hash :
  length sb = 32%nat -> length pb = 32%nat ->
  bech32_encode HRP_SCHEMA sb = Ok schema_id ->
  bech32_encode HRP_PAYLOAD pb = Ok payload_hash ->
  exists id,
    compute_attestation_id schema_id payload_hash = Done (Ok id) /\
    bech32_decode id = Ok (HRP_ATTESTATION, sha256 (sb ++ pb)).
Proof.
  intros Hs Hp Es Ep.
  destruct (bech32_encode_ok HRP_ATTESTATION (sha256 (sb ++ pb))) as [id Hid].
  { apply ours_known. set_solver. }
  { by rewrite sha256_length. }
  { apply sha256_bytes. }
  exists id. split; [|apply bech32_decode_encode; [apply ours_known; set_solver|done]].
  rewrite (compute_attestation_id_run _ _ sb pb)
    by (apply decode_hash32_encoded; [apply ours_known; set_solver|done..]).
  by rewrite Hid.
Qed.

(** Two pairs that share an id carry the same 64 bytes or exhibit a SHA-256
    collision: the derivation itself (concatenation order, HRP tags, fixed lengths)
    confuses nothing. *)
Theorem attestation_id_collision s1 p1 s2 p2 id :
  compute_attestation_id s1 p1 = Done (Ok id) ->
  compute_attestation_id s2 p2 = Done (Ok id) ->
  (exists sb pb,
      bech32_decode s1 = Ok (HRP_SCHEMA, sb) /\ bech32_decode s2 = Ok (HRP_SCHEMA, sb) /\
      bech32_decode p1 = Ok (HRP_PAYLOAD, pb) /\ bech32_decode p2 = Ok (HRP_PAYLOAD, pb)) \/
  (exists m1 m2, m1 <> m2 /\ length m1 = 64%nat /\ length m2 = 64%nat /\
                 sha256 m1 = sha256 m2).
Proof.
  intros H1 H2.
  assert (forall s p, compute_attestation_id s p = Done (Ok id) ->
    exists sb pb, bech32_decode s = Ok (HRP_SCHEMA, sb) /\
      bech32_decode p = Ok (HRP_PAYLOAD, pb) /\
      length sb = 32%nat /\ length pb = 32%nat /\
      bech32_decode id = Ok (HRP_ATTESTATION, sha256 (sb ++ pb))) as Hinv.
  { intros s p Hc.
    destruct (decode_hash32 s HRP_SCHEMA "schema_id") as [sb|] eqn:Es;
      [|unfold compute_attestation_id in Hc; by rewrite Es in Hc].
    destruct (decode_hash32 p HRP_PAYLOAD "payload_hash") as [pb|] eqn:Ep;
      [|unfold compute_attestation_id in Hc; by rewrite Es in Hc; simpl in Hc; rewrite Ep in Hc].
    rewrite (compute_attestation_id_run _ _ sb pb Es Ep) in Hc.
    apply decode_hash32_inv in Es as [Es ?]. apply decode_hash32_inv in Ep as [Ep ?].
    destruct (bech32_encode _ _) eqn:Eid; simplify_eq/=.
    exists sb, pb. split_and!; [done..|].
    apply bech32_decode_encode; [apply ours_known; set_solver|done]. }
  destruct (Hinv _ _ H1) as (sb1 & pb1 & ? & ? & ? & ? & Hd1).
  destruct (Hinv _ _ H2) as (sb2 & pb2 & ? & ? & ? & ? & Hd2).
  destruct (decide (sb1 ++ pb1 = sb2 ++ pb2)) as [Heq|Hne].
  - left. apply app_inj_1 in Heq as [-> ->]; [|congruence]. by exists sb2, pb2.
  - right. exists (sb1 ++ pb1), (sb2 ++ pb2).
    rewrite !length_app. split_and!; [done|lia|lia|congruence].
Qed.

(** The error of a malformed pair names the first offending field: the schema is
    examined before the payload hash, its encoding before its HRP before its length. *)
Theorem compute_attestation_id_errors schema_id payload_hash e :
  compute_attestation_id schema_id payload_hash = Done (Err e) ->
  match e with
  | Bech32Decode f src =>
      (f = "schema_id" /\ bech32_decode schema_id = Err src) \/
      (f = "payload_hash" /\ bech32_decode payload_hash = Err src)
  | HrpMismatch f exp got =>
      got <> exp /\
      ((f = "schema_id" /\ exp = HRP_SCHEMA /\
          exists d, bech32_decode schema_id = Ok (got, d)) \/
       (f = "payload_hash" /\ exp = HRP_PAYLOAD /\
          exists d, bech32_decode payload_hash = Ok (got, d)))
  | LengthMismatch f n =>
      n <> 32%nat /\
      ((f = "schema_id" /\
          exists d, bech32_decode schema_id = Ok (HRP_SCHEMA, d) /\ length d = n) \/
       (f = "payload_hash" /\
          exists d, bech32_decode payload_hash = Ok (HRP_PAYLOAD, d) /\ length d = n))
  | Bech32Encode _ => False
  end.
Proof.
  assert (forall s hrp f, decode_hash32 s hrp f = Err e ->
    match e with
    | Bech32Decode f' src => f' = f /\ bech32_decode s = Err src
    | HrpMismatch f' exp got => f' = f /\ exp = hrp /\ got <> hrp /\
                                exists d, bech32_decode s = Ok (got, d)
    | LengthMismatch f' n => f' = f /\ n <> 32%nat /\
                             exists d, bech32_decode s = Ok (hrp, d) /\ length d = n
    | Bech32Encode _ => False
    end) as Hone.
  { intros s hrp f. unfold decode_hash32.
    destruct (bech32_decode s) as [[h d]|er]; simpl; [|by intros [= <-]].
    destruct (String.eqb_spec h hrp); simpl; [subst|intros [= <-]; eauto 10].
    destruct (Nat.eqb_spec (length d) 32); simpl; [done|intros [= <-]; eauto 10]. }
  intros Hc.
  destruct (decode_hash32 schema_id HRP_SCHEMA "schema_id") as [sb|e1] eqn:Es.
  - destruct (decode_hash32 payload_hash HRP_PAYLOAD "payload_hash") as [pb|e2] eqn:Ep.
    + rewrite (compute_attestation_id_run _ _ _ _ Es Ep) in Hc.
      destruct (bech32_encode_ok HRP_ATTESTATION (sha256 (sb ++ pb))) as [id Hid];
        [apply ours_known; set_solver|by rewrite sha256_length|apply sha256_bytes|].
      by rewrite Hid in Hc.
    + unfold compute_attestation_id in Hc. rewrite Es in Hc. simpl in Hc.
      rewrite Ep in Hc. simplify_eq/=. apply Hone in Ep. destruct e; destruct_and?; subst; eauto 10.
  - unfold compute_attestation_id in Hc. rewrite Es in Hc. simplify_eq/=.
    apply Hone in Es. destruct e; destruct_and?; subst; eauto 10.
Qed.
End AttestationId.

(** ** At concrete inputs

    The ids are computed with bech32m and SHA-256 themselves. *)

Section Witnesses.
#[local] Existing Instances Bip350.bech32m Bip350.bech32m_laws Fips180.sha2 Fips180.sha2_laws.

Definition bytes32 (b : Z) : list Z := replicate 32 b.
Definition bech (h : string) (b : Z) : string :=
  match bech32_encode h (bytes32 b) with Ok s => s | Err _ => "" end.

Lemma compute_attestation_id_spec_witness :
  exists id,
    compute_attestation_id (bech HRP_SCHEMA 1) (bech HRP_PAYLOAD 2) = Done (Ok id) /\
    bech32_decode id = Ok (HRP_ATTESTATION, sha256 (bytes32 1 ++ bytes32 2)).
Proof.
  apply (compute_attestation_id_spec (bytes32 1) (bytes32 2)); vm_compute; reflexivity.
Defined.

Lemma attestation_id_collision_witness :
  (exists sb pb,
      bech32_decode (bech HRP_SCHEMA 1) = Ok (HRP_SCHEMA, sb) /\
      bech32_decode (bech HRP_SCHEMA 1) = Ok (HRP_SCHEMA, sb) /\
      bech32_decode (bech HRP_PAYLOAD 2) = Ok (HRP_PAYLOAD, pb) /\
      bech32_decode (bech HRP_PAYLOAD 2) = Ok (HRP_PAYLOAD, pb)) \/
  (exists m1 m2, m1 <> m2 /\ length m1 = 64%nat /\ length m2 = 64%nat /\
                 sha256 m1 = sha256 m2).
Proof.
  assert (compute_attestation_id (bech HRP_SCHEMA 1) (bech HRP_PAYLOAD 2) =
          Done (Ok "lat1lqv2l5m6dhpmeyhmg3e3qyf8wqrdknh6d6gz8nt5drqzxdwj9fxshmvnff")) as Hid
    by (vm_compute; reflexivity).
  exact (attestation_id_collision _ _ _ _ _ Hid Hid).
Defined.

Lemma compute_attestation_id_errors_witness :
  7%nat <> 32%nat /\
  (("payload_hash" = "schema_id" /\
      exists d, bech32_decode (bech HRP_SCHEMA 1) = Ok (HRP_SCHEMA, d) /\ length d = 7%nat) \/
   ("payload_hash" = "payload_hash" /\
      exists d, bech32_decode "lph1q5zs2pg9q5zsp7neuf" = Ok (HRP_PAYLOAD, d) /\ length d = 7%nat)).
Proof.
  apply (compute_attestation_id_errors (bech HRP_SCHEMA 1) "lph1q5zs2pg9q5zsp7neuf"
           (LengthMismatch "payload_hash" 7)).
  vm_compute. reflexivity.
Defined.
End Witnesses.
