(* ===== verification/Decode.v ===== *)
(** * Transaction bodies ([crates/indexer/src/decode.rs])

    The byte reader that recovers the signer and the nonce from a persisted
    transaction body, next to the wire layout its module documentation gives
    ([encode_inner], [wrap]), against which it is proved. *)

From S2P Require Import Prelude Standards Bech32m Sha2 Base64 AttestationId.
Import Rfc4648 (standard_encode, standard_decode).
Open Scope string_scope.
Open Scope list_scope.
Open Scope Z_scope.

Definition HRP_ADDRESS : string := "lig".
Definition HRP_PUBKEY : string := "lpk".
Definition V0_TAG : Z := 0.
Definition SIG_LEN : nat := 64.
Definition PUBKEY_LEN : nat := 32.
Definition ADDRESS_LEN : nat := 28.
Definition INNER_PUBKEY_START : nat := 1 + SIG_LEN.
Definition INNER_PUBKEY_END : nat := INNER_PUBKEY_START + PUBKEY_LEN.
Definition WRAPPER_LEN : nat := 5.
Definition CHAIN_ID_LEN : nat := 8.
Definition MAX_FEE_LEN : nat := 16.
Definition PRIORITY_FEE_LEN : nat := 8.
Definition UNIQ_NONCE_LEN : nat := 8.
Definition UNIQ_TAG_NONCE : Z := 0.
Definition GAS_NONE_TAG : Z := 0.
Definition GAS_SOME_TAG : Z := 1.
Definition GAS_SOME_WIDTH : nat := 16.

Record DecodedTxBody := {
  sender : string;
  sender_pubkey : string;
  nonce : option Z
}.

(** [usize::checked_sub]. *)
Definition checked_sub (a b : nat) : option nat :=
  if (b <=? a)%nat then Some (a - b)%nat else None.

(** [<[u8; n]>::try_from(l).ok()] followed by [u64::from_le_bytes]. *)
Definition from_le_array (n : nat) (l : list Z) : option Z :=
  if (length l =? n)%nat then Some (from_le l) else None.

(** [l.get(i).copied() != Some(b)]. *)
Definition byte_differs (l : list Z) (i : nat) (b : Z) : bool :=
  match l !! i with Some x => negb (x =? b) | None => true end.

Definition strip_authenticator_wrapper (raw : list Z) : list Z :=
  if (WRAPPER_LEN <? length raw)%nat
     && negb (byte_differs raw 0 V0_TAG)
     && (from_le (take 4 (drop 1 raw)) =? Z.of_nat (length raw - WRAPPER_LEN))
     && negb (byte_differs raw WRAPPER_LEN V0_TAG)
  then drop WRAPPER_LEN raw
  else raw.

(** The body of the [for gas_field_len in [1, 1 + GAS_SOME_WIDTH]] loop; [continue]
    is the recursive call. *)
Fixpoint parse_nonce_shapes (inner : list Z) (shapes : list nat) : outcome (option Z) :=
  match shapes with
  | [] => Done None
  | gas_field_len :: rest =>
      let m := length inner in
      let expect_gas_tag :=
        if (gas_field_len =? 1)%nat then GAS_NONE_TAG else GAS_SOME_TAG in
      let details_len :=
        (PRIORITY_FEE_LEN + MAX_FEE_LEN + gas_field_len + CHAIN_ID_LEN)%nat in
      match checked_sub m (CHAIN_ID_LEN + gas_field_len) with
      | None => parse_nonce_shapes inner rest
      | Some gas_tag_off =>
          match checked_sub m (details_len + (1 + UNIQ_NONCE_LEN)) with
          | None => parse_nonce_shapes inner rest
          | Some uniq_tag_off =>
              if (uniq_tag_off <? INNER_PUBKEY_END)%nat
              then parse_nonce_shapes inner rest
              else if byte_differs inner gas_tag_off expect_gas_tag
              then parse_nonce_shapes inner rest
              else if byte_differs inner uniq_tag_off UNIQ_TAG_NONCE
              then parse_nonce_shapes inner rest
              else
                let nonce_off := (uniq_tag_off + 1)%nat in
                bs ← slice nonce_off (nonce_off + UNIQ_NONCE_LEN) inner;
                Done (from_le_array 8 bs)
          end
      end
  end.

Definition parse_nonce (inner : list Z) (expected_chain_id : Z) : outcome (option Z) :=
  let m := length inner in
  if (m <? CHAIN_ID_LEN)%nat then Done None
  else
    tail ← slice (m - CHAIN_ID_LEN) m inner;
    match from_le_array 8 tail with
    | None => Done None
    | Some chain_id =>
        if negb (chain_id =? expected_chain_id) then Done None
        else parse_nonce_shapes inner [1; 1 + GAS_SOME_WIDTH]%nat
    end.

#[local] Arguments parse_nonce_shapes : simpl never.
#[local] Arguments parse_nonce : simpl never.

(** The wire layout of the module documentation: what a client signs and the chain
    persists. *)
Record SignedTx := {
  stx_sig : list Z; stx_pub_key : list Z; stx_call : list Z; stx_nonce : Z;
  stx_bips : Z; stx_max_fee : Z; stx_gas : option (Z * Z); stx_chain_id : Z }.

Definition signed_tx_ok (t : SignedTx) : Prop :=
  length (stx_sig t) = SIG_LEN /\ length (stx_pub_key t) = PUBKEY_LEN /\
  Forall byte_ok (stx_pub_key t) /\
  in_u64 (stx_nonce t) /\ in_u64 (stx_bips t) /\ in_u128 (stx_max_fee t) /\
  in_u64 (stx_chain_id t) /\
  match stx_gas t with Some (g1, g2) => in_u64 g1 /\ in_u64 g2 | None => True end.

Definition encode_gas (g : option (Z * Z)) : list Z :=
  match g with
  | None => [GAS_NONE_TAG]
  | Some (g1, g2) => GAS_SOME_TAG :: to_le 8 g1 ++ to_le 8 g2
  end.

Definition encode_inner (t : SignedTx) : list Z :=
  (V0_TAG :: stx_sig t) ++ stx_pub_key t ++ stx_call t ++
  [UNIQ_TAG_NONCE] ++ to_le 8 (stx_nonce t) ++ to_le 8 (stx_bips t) ++
  to_le 16 (stx_max_fee t) ++ encode_gas (stx_gas t) ++ to_le 8 (stx_chain_id t).

Definition wrap (inner : list Z) : list Z :=
  V0_TAG :: to_le 4 (Z.of_nat (length inner)) ++ inner.

(** The persisted body: wrapped, or bare when its first bytes cannot be taken for a
    wrapper. *)
Definition body_bytes (t : SignedTx) (raw : list Z) : Prop :=
  (raw = wrap (encode_inner t) /\ Z.of_nat (length (encode_inner t)) <= u32_max) \/
  (raw = encode_inner t /\
   from_le (take 4 (stx_sig t)) <> Z.of_nat (length (encode_inner t) - WRAPPER_LEN)).

Section Decode.
Context `{B : Bech32} (base64_decode : string -> option (list Z)).

Definition encode_bech32m (hrp_str : string) (data : list Z) : option string :=
  hrp ← hrp_parse hrp_str;
  result_ok (bech32_encode hrp data).

Definition decode_tx_body (body_b64 : string) (expected_chain_id : Z)
  : outcome (option DecodedTxBody) :=
  let body_b64 := trim body_b64 in
  if String.eqb body_b64 "" then Done None
  else match base64_decode body_b64 with
  | None => Done None
  | Some raw =>
      let inner := strip_authenticator_wrapper raw in
      if byte_differs inner 0 V0_TAG || (length inner <? INNER_PUBKEY_END)%nat
      then Done None
      else
        pubkey ← slice INNER_PUBKEY_START INNER_PUBKEY_END inner;
        addr ← slice 0 ADDRESS_LEN pubkey;
        match encode_bech32m HRP_ADDRESS addr with
        | None => Done None
        | Some sender =>
            match encode_bech32m HRP_PUBKEY pubkey with
            | None => Done None
            | Some sender_pubkey =>
                nonce ← parse_nonce inner expected_chain_id;
                Done (Some {| sender := sender; sender_pubkey := sender_pubkey;
                              nonce := nonce |})
            end
        end
  end.
End Decode.

(** ** The reader against the layout *)

Lemma checked_sub_some a b : (b <= a)%nat -> checked_sub a b = Some (a - b)%nat.
Proof. intros H. unfold checked_sub. by rewrite (proj2 (Nat.leb_le b a)). Qed.

Lemma checked_sub_inv a b c : checked_sub a b = Some c -> (b <= a)%nat /\ c = (a - b)%nat.
Proof. unfold checked_sub. destruct (Nat.leb_spec b a); [|done]. intros [= <-]. done. Qed.

Lemma byte_differs_false l i b : byte_differs l i b = false <-> l !! i = Some b.
Proof.
  unfold byte_differs. destruct (l !! i) as [x|]; [|done].
  destruct (Z.eqb_spec x b); simpl; split; congruence.
Qed.

Lemma byte_differs_app l1 l2 b i :
  i = length l1 -> byte_differs (l1 ++ b :: l2) i b = false.
Proof. intros ->. apply byte_differs_false. by apply list_lookup_middle. Qed.

Lemma from_le_array_to_le z : in_u64 z -> from_le_array 8 (to_le 8 z) = Some z.
Proof.
  intros H. unfold from_le_array. rewrite length_to_le. simpl (_ =? _)%nat.
  rewrite from_to_le; [done|]. change (256 ^ Z.of_nat 8) with 18446744073709551616. lia_int.
Qed.

(** Once the guards of one gas shape hold, the nonce read is the eight bytes after the
    uniqueness tag. *)
Lemma parse_nonce_shape_hit inner gas rest pre ns post :
  inner = pre ++ UNIQ_TAG_NONCE :: ns ++ post ->
  length ns = UNIQ_NONCE_LEN ->
  (length post = PRIORITY_FEE_LEN + MAX_FEE_LEN + gas + CHAIN_ID_LEN)%nat ->
  (INNER_PUBKEY_END <= length pre)%nat ->
  byte_differs inner (length inner - (CHAIN_ID_LEN + gas))
    (if (gas =? 1)%nat then GAS_NONE_TAG else GAS_SOME_TAG) = false ->
  parse_nonce_shapes inner (gas :: rest) = Done (from_le_array 8 ns).
Proof.
  intros -> Hns Hpost Hpre Hgas.
  unfold UNIQ_NONCE_LEN, PRIORITY_FEE_LEN, MAX_FEE_LEN, CHAIN_ID_LEN in *.
  assert (length (pre ++ UNIQ_TAG_NONCE :: ns ++ post)
          = (length pre + 1 + 8 + (8 + 16 + gas + 8))%nat) as Hm.
  { rewrite length_app. simpl. rewrite length_app. lia. }
  unfold parse_nonce_shapes; fold parse_nonce_shapes.
  unfold UNIQ_NONCE_LEN, PRIORITY_FEE_LEN, MAX_FEE_LEN, CHAIN_ID_LEN.
  rewrite Hm in Hgas |- *. rewrite !checked_sub_some by lia.
  replace (length pre + 1 + 8 + (8 + 16 + gas + 8) - (8 + 16 + gas + 8 + (1 + 8)))%nat
    with (length pre) by lia.
  destruct (Nat.ltb_spec (length pre) INNER_PUBKEY_END); [lia|].
  rewrite Hgas, byte_differs_app by done.
  replace (pre ++ UNIQ_TAG_NONCE :: ns ++ post)
    with ((pre ++ [UNIQ_TAG_NONCE]) ++ ns ++ post) by (rewrite <- app_assoc; done).
  rewrite (slice_app _ ns post) by (rewrite length_app; unfold UNIQ_NONCE_LEN; simpl; lia). done.
Qed.

Lemma parse_nonce_shapes_total inner shapes :
  exists r, parse_nonce_shapes inner shapes = Done r.
Proof.
  induction shapes as [|g rest IH]; [by eexists|].
  unfold parse_nonce_shapes; fold parse_nonce_shapes.
  destruct (checked_sub _ _); [|done].
  destruct (checked_sub (length inner) (_ + (1 + _))) as [u|] eqn:Hu; [|done].
  destruct (_ <? INNER_PUBKEY_END)%nat; [done|].
  do 2 (destruct (byte_differs _ _ _); [done|]).
  apply checked_sub_inv in Hu as [Hle ->].
  rewrite slice_done by (unfold UNIQ_NONCE_LEN in *; lia). simpl. by eexists.
Qed.

Lemma parse_nonce_total inner cid : exists r, parse_nonce inner cid = Done r.
Proof.
  unfold parse_nonce. destruct (Nat.ltb_spec (length inner) CHAIN_ID_LEN); [by eexists|].
  rewrite slice_done by (unfold CHAIN_ID_LEN in *; lia). simpl.
  destruct (from_le_array _ _); [|by eexists].
  destruct (negb _); [by eexists|]. apply parse_nonce_shapes_total.
Qed.

(** The chain id is the last field; a body of another chain has no nonce. *)
Lemma parse_nonce_chain body z cid :
  in_u64 z ->
  parse_nonce (body ++ to_le 8 z) cid =
  if z =? cid then parse_nonce_shapes (body ++ to_le 8 z) [1; 1 + GAS_SOME_WIDTH]%nat
  else Done None.
Proof.
  intros Hz. unfold parse_nonce, CHAIN_ID_LEN.
  rewrite length_app, length_to_le.
  destruct (Nat.ltb_spec (length body + 8) 8); [lia|].
  assert (slice (length body + 8 - 8) (length body + 8) (body ++ to_le 8 z)
          = Done (to_le 8 z)) as ->.
  { rewrite <- (app_nil_r (to_le 8 z)) at 1. apply slice_app; [lia|].
    rewrite length_to_le. lia. }
  change (Done (to_le 8 z) ≫= ?k) with (k (to_le 8 z)). cbv beta.
  rewrite from_le_array_to_le by done. by destruct (z =? cid).
Qed.

Lemma strip_body t raw :
  length (stx_sig t) = SIG_LEN -> body_bytes t raw ->
  strip_authenticator_wrapper raw = encode_inner t.
Proof.
  unfold SIG_LEN. intros Hsig [[-> Hlen]|[-> Hne]]; unfold strip_authenticator_wrapper, WRAPPER_LEN in *.
  - set (n := encode_inner t) in *.
    assert (exists x r, n = V0_TAG :: r /\ x = length r) as (x & r & Hn & Hx).
    { eexists _, _. split; [unfold n, encode_inner; simpl; reflexivity|done]. }
    assert (length (wrap n) = (5 + length n)%nat) as Hl.
    { unfold wrap. simpl. lia. }
    rewrite Hl.
    assert (from_le (take 4 (drop 1 (wrap n))) = Z.of_nat (length n)) as Hpre.
    { unfold wrap. change (drop 1 (?a :: ?l)) with l.
      rewrite take_app_length' by (by rewrite length_to_le). apply from_to_le.
      change (256 ^ Z.of_nat 4) with 4294967296. lia_int. }
    assert (wrap n !! 5%nat = Some V0_TAG) as H5.
    { unfold wrap. rewrite Hn. reflexivity. }
    rewrite Hpre.
    destruct (Nat.ltb_spec 5 (5 + length n)); [|rewrite Hn in *; simpl in *; lia].
    rewrite (proj2 (byte_differs_false (wrap n) 0 V0_TAG)) by done.
    rewrite (proj2 (byte_differs_false (wrap n) 5 V0_TAG)) by done.
    replace (5 + length n - 5)%nat with (length n) by lia. rewrite Z.eqb_refl. simpl.
    reflexivity.
  - assert (take 4 (drop 1 (encode_inner t)) = take 4 (stx_sig t)) as ->.
    { unfold encode_inner. rewrite <- app_comm_cons. change (drop 1 (?a :: ?l)) with l.
      by rewrite take_app_le by lia. }
    rewrite (proj2 (Z.eqb_neq _ _) Hne). by rewrite andb_false_r, andb_false_l.
Qed.

Lemma length_encode_inner t :
  signed_tx_ok t ->
  length (encode_inner t) =
  (97 + length (stx_call t) + 1 + 8 + 8 + 16 + length (encode_gas (stx_gas t)) + 8)%nat.
Proof.
  intros (Hs & Hp & _). unfold encode_inner, SIG_LEN, PUBKEY_LEN in *.
  rewrite !length_app, !length_to_le. simpl. lia.
Qed.

Lemma encode_inner_pubkey t :
  signed_tx_ok t ->
  slice INNER_PUBKEY_START INNER_PUBKEY_END (encode_inner t) = Done (stx_pub_key t).
Proof.
  intros (Hs & Hp & _). unfold encode_inner, INNER_PUBKEY_START, INNER_PUBKEY_END.
  unfold INNER_PUBKEY_START, SIG_LEN, PUBKEY_LEN in *.
  apply slice_app; simpl; lia.
Qed.

(** The runtime call and everything before it. *)
Definition encode_front (t : SignedTx) : list Z :=
  (V0_TAG :: stx_sig t) ++ stx_pub_key t ++ stx_call t.

Lemma encode_inner_split t :
  encode_inner t =
  (encode_front t ++ [UNIQ_TAG_NONCE] ++ to_le 8 (stx_nonce t) ++ to_le 8 (stx_bips t) ++
   to_le 16 (stx_max_fee t) ++ encode_gas (stx_gas t)) ++ to_le 8 (stx_chain_id t).
Proof. unfold encode_inner, encode_front. by rewrite <- !app_assoc. Qed.

Lemma length_encode_front t :
  signed_tx_ok t -> length (encode_front t) = (97 + length (stx_call t))%nat.
Proof.
  intros (Hs & Hp & _). unfold encode_front, SIG_LEN, PUBKEY_LEN in *.
  rewrite !length_app. simpl. lia.
Qed.

(** With no gas limit the nonce read is the nonce signed. *)
Lemma parse_nonce_gas_none t :
  signed_tx_ok t -> stx_gas t = None ->
  parse_nonce (encode_inner t) (stx_chain_id t) = Done (Some (stx_nonce t)).
Proof.
  intros Hok Hgas. pose proof Hok as (Hs & Hp & _ & Hn & _ & _ & Hc & _).
  pose proof (length_encode_front _ Hok) as Hf.
  pose proof (length_encode_inner _ Hok) as Hl.
  rewrite encode_inner_split, parse_nonce_chain, Z.eqb_refl by done.
  rewrite <- encode_inner_split.
  erewrite (parse_nonce_shape_hit _ 1 _ (encode_front t) (to_le 8 (stx_nonce t))
    (to_le 8 (stx_bips t) ++ to_le 16 (stx_max_fee t) ++ encode_gas (stx_gas t) ++
     to_le 8 (stx_chain_id t))).
  - by rewrite from_le_array_to_le.
  - by rewrite encode_inner_split, <- !app_assoc.
  - apply length_to_le.
  - rewrite !length_app, !length_to_le, Hgas. reflexivity.
  - rewrite Hf. unfold INNER_PUBKEY_END, INNER_PUBKEY_START, SIG_LEN, PUBKEY_LEN. lia.
  - rewrite Hl, encode_inner_split, Hgas. apply byte_differs_false.
    change ((if (1 =? 1)%nat then GAS_NONE_TAG else GAS_SOME_TAG)) with GAS_NONE_TAG.
    unfold encode_gas. set (x := to_le 8 (stx_chain_id t)).
    replace ((_ ++ _) ++ x) with ((encode_front t ++ [UNIQ_TAG_NONCE] ++
      to_le 8 (stx_nonce t) ++ to_le 8 (stx_bips t) ++ to_le 16 (stx_max_fee t)) ++
      GAS_NONE_TAG :: x) by (rewrite <- !app_assoc; done).
    apply list_lookup_middle.
    rewrite !length_app, !length_to_le, Hf. unfold CHAIN_ID_LEN. simpl. lia.
Qed.

Lemma to_le_8_top z : 0 <= z < 256 ^ 7 -> to_le 8 z = to_le 7 z ++ [0].
Proof.
  intros Hz. change (to_le 8 z) with (to_le (7 + 1) z). rewrite to_le_app. f_equal. simpl.
  rewrite Z.div_small by exact Hz. done.
Qed.

(** With a gas limit whose last byte is zero, and a priority fee below [2^56], the
    gas-less shape matches first: what is read as the nonce is the low half of the
    maximal fee. *)
Lemma parse_nonce_gas_some t g1 g2 :
  signed_tx_ok t -> stx_gas t = Some (g1, g2) ->
  g2 < 256 ^ 7 -> stx_bips t < 256 ^ 7 ->
  parse_nonce (encode_inner t) (stx_chain_id t) =
  Done (Some (stx_max_fee t mod 256 ^ 8)).
Proof.
  intros Hok Hgas Hg2 Hb. pose proof Hok as (Hs & Hp & _ & Hn & Hbr & Hfr & Hc & Hg).
  rewrite Hgas in Hg. destruct Hg as [Hr1 Hr2].
  pose proof (length_encode_front _ Hok) as Hf.
  pose proof (length_encode_inner _ Hok) as Hl.
  rewrite encode_inner_split, parse_nonce_chain, Z.eqb_refl by done.
  rewrite <- encode_inner_split.
  erewrite (parse_nonce_shape_hit _ 1 _
    (encode_front t ++ [UNIQ_TAG_NONCE] ++ to_le 8 (stx_nonce t) ++ to_le 7 (stx_bips t))
    (to_le 8 (stx_max_fee t))
    (to_le 8 (stx_max_fee t / 256 ^ 8) ++ encode_gas (stx_gas t) ++
     to_le 8 (stx_chain_id t))).
  - unfold from_le_array. rewrite length_to_le. simpl (_ =? _)%nat. cbv iota.
    rewrite from_to_le_mod by apply Hfr. done.
  - rewrite encode_inner_split, (to_le_8_top (stx_bips t)) by (destruct Hbr; done).
    change (to_le 16 (stx_max_fee t)) with (to_le (8 + 8) (stx_max_fee t)).
    rewrite to_le_app. by rewrite <- !app_assoc.
  - apply length_to_le.
  - rewrite !length_app, !length_to_le, Hgas. reflexivity.
  - rewrite !length_app, Hf.
    unfold INNER_PUBKEY_END, INNER_PUBKEY_START, SIG_LEN, PUBKEY_LEN. lia.
  - rewrite Hl, encode_inner_split, Hgas. apply byte_differs_false.
    unfold encode_gas. rewrite (to_le_8_top g2) by (destruct Hr2; done).
    change ((if (1 =? 1)%nat then GAS_NONE_TAG else GAS_SOME_TAG)) with 0.
    set (x := to_le 8 (stx_chain_id t)).
    replace ((_ ++ _) ++ x) with ((encode_front t ++ [UNIQ_TAG_NONCE] ++
      to_le 8 (stx_nonce t) ++ to_le 8 (stx_bips t) ++ to_le 16 (stx_max_fee t) ++
      [GAS_SOME_TAG] ++ to_le 8 g1 ++ to_le 7 g2) ++ 0 :: x)
      by (rewrite <- !app_assoc; done).
    apply list_lookup_middle.
    rewrite !length_app, !length_to_le, Hf. unfold CHAIN_ID_LEN. simpl. lia.
Qed.

Lemma parse_nonce_shapes_long inner shapes n :
  parse_nonce_shapes inner shapes = Done (Some n) -> (105 <= length inner)%nat.
Proof.
  induction shapes as [|g rest IH]; [done|].
  unfold parse_nonce_shapes; fold parse_nonce_shapes.
  destruct (checked_sub _ _); [|done].
  destruct (checked_sub (length inner) (_ + (1 + _))) as [u|] eqn:Hu; [|done].
  destruct (Nat.ltb_spec u INNER_PUBKEY_END) as [|Hge]; [done|].
  do 2 (destruct (byte_differs _ _ _); [done|]). intros _.
  apply checked_sub_inv in Hu as [Hle ->].
  unfold INNER_PUBKEY_END, INNER_PUBKEY_START, SIG_LEN, PUBKEY_LEN, UNIQ_NONCE_LEN,
    CHAIN_ID_LEN in *. lia.
Qed.

Lemma parse_nonce_chain_inv inner cid r :
  parse_nonce inner cid = Done r -> r <> None ->
  (105 <= length inner)%nat /\ from_le (drop (length inner - 8) inner) = cid.
Proof.
  unfold parse_nonce, CHAIN_ID_LEN.
  destruct (Nat.ltb_spec (length inner) 8); [by intros [= <-]|].
  rewrite slice_done by lia. simpl.
  destruct r as [n|]; [|done]. intros Hr _.
  rewrite take_ge in Hr by (rewrite length_drop; lia).
  unfold from_le_array in Hr. destruct (_ =? _)%nat; [|done].
  destruct (Z.eqb_spec (from_le (drop (length inner - 8) inner)) cid); [|done].
  by apply parse_nonce_shapes_long in Hr.
Qed.

Lemma decode_tx_body_finishes `{Bech32} base64_decode s cid :
  exists r, decode_tx_body base64_decode s cid = Done r.
Proof.
  unfold decode_tx_body.
  destruct (String.eqb (trim s) ""); [by eexists|].
  destruct (base64_decode (trim s)) as [raw|]; [|by eexists].
  set (inner := strip_authenticator_wrapper raw).
  destruct (byte_differs inner 0 V0_TAG); simpl; [by eexists|].
  destruct (Nat.ltb_spec (length inner) INNER_PUBKEY_END) as [|Hlen]; [by eexists|].
  rewrite slice_done by (split; [by apply Nat.leb_le|done]). simpl mbind.
  rewrite slice_done.
  2: { split; [unfold ADDRESS_LEN; lia|]. rewrite length_take, length_drop.
       unfold INNER_PUBKEY_END, INNER_PUBKEY_START, SIG_LEN, PUBKEY_LEN, ADDRESS_LEN in *.
       lia. }
  simpl mbind.
  destruct (encode_bech32m HRP_ADDRESS _); [|by eexists].
  destruct (encode_bech32m HRP_PUBKEY _); [|by eexists].
  destruct (parse_nonce_total inner cid) as [r ->]. by eexists.
Qed.

Section DecodeTheorems.
Context `{B : Bech32} `{BL : !Bech32Laws B} (base64_decode : string -> option (list Z)).

Lemma encode_bech32m_known h data :
  h ∈ ["lig"; "lpk"] -> (length data <= 32)%nat -> Forall byte_ok data ->
  exists s, encode_bech32m h data = Some s /\ bech32_decode s = Ok (h, data).
Proof.
  intros Hh Hl Hd. assert (h ∈ known_hrps) as Hh' by (unfold known_hrps; set_solver).
  destruct (bech32_encode_ok h data Hh' Hl Hd) as [s Hs].
  exists s. split; [|by apply bech32_decode_encode].
  unfold encode_bech32m. rewrite (hrp_parse_known _ Hh'). simpl. by rewrite Hs.
Qed.

(** What the reader returns on a body in the documented layout. *)
Lemma decode_tx_body_layout s t raw cid :
  signed_tx_ok t -> base64_decode (trim s) = Some raw -> trim s <> "" ->
  body_bytes t raw ->
  exists d r,
    decode_tx_body base64_decode s cid = Done (Some d) /\
    bech32_decode (sender d) = Ok (HRP_ADDRESS, take ADDRESS_LEN (stx_pub_key t)) /\
    bech32_decode (sender_pubkey d) = Ok (HRP_PUBKEY, stx_pub_key t) /\
    parse_nonce (encode_inner t) cid = Done r /\ nonce d = r.
Proof.
  intros Hok Hraw Hne Hbody. pose proof Hok as (Hs & Hp & Hbytes & _).
  unfold PUBKEY_LEN in Hp.
  destruct (encode_bech32m_known HRP_ADDRESS (take ADDRESS_LEN (stx_pub_key t)))
    as (a & Ha & Hda); [set_solver|rewrite length_take; lia|by apply Forall_take|].
  destruct (encode_bech32m_known HRP_PUBKEY (stx_pub_key t)) as (p & Hpk & Hdp);
    [set_solver|lia|done|].
  destruct (parse_nonce_total (encode_inner t) cid) as [r Hr].
  eexists {| sender := a; sender_pubkey := p; nonce := r |}, r. simpl.
  split_and!; [|done..].
  unfold decode_tx_body. rewrite (proj2 (String.eqb_neq _ _) Hne), Hraw.
  rewrite (strip_body t) by done.
  rewrite (proj2 (byte_differs_false _ _ _)) by done.
  rewrite length_encode_inner by done.
  destruct (Nat.ltb_spec (97 + length (stx_call t) + 1 + 8 + 8 + 16 +
    length (encode_gas (stx_gas t)) + 8) INNER_PUBKEY_END) as [Hlt|_].
  { unfold INNER_PUBKEY_END, INNER_PUBKEY_START, SIG_LEN, PUBKEY_LEN in Hlt. lia. }
  simpl orb. cbv iota. rewrite encode_inner_pubkey by done. simpl mbind.
  rewrite slice_done by (unfold ADDRESS_LEN; lia). simpl mbind.
  change (take _ (drop 0 ?l)) with (take ADDRESS_LEN l).
  by rewrite Ha, Hpk, Hr.
Qed.

(** C33: a body in the documented layout, wrapped or bare, decodes to the address and key
    of the signer, whatever its gas limit; and to the nonce that was signed when the body
    has no gas limit, which the reader documents as the only form on the chain.  With a gas
    limit the nonce is not found: for a limit and a priority fee below 2^56 the reader
    reports the low 64 bits of the maximal fee in its place. *)
Theorem decode_tx_body_roundtrip s t raw :
  signed_tx_ok t -> trim s <> "" -> base64_decode (trim s) = Some raw -> body_bytes t raw ->
  exists d,
    decode_tx_body base64_decode s (stx_chain_id t) = Done (Some d) /\
    bech32_decode (sender d) = Ok (HRP_ADDRESS, take ADDRESS_LEN (stx_pub_key t)) /\
    bech32_decode (sender_pubkey d) = Ok (HRP_PUBKEY, stx_pub_key t) /\
    match stx_gas t with
    | None => nonce d = Some (stx_nonce t)
    | Some (_, g2) =>
        g2 < 256 ^ 7 -> stx_bips t < 256 ^ 7 -> nonce d = Some (stx_max_fee t mod 256 ^ 8)
    end.
Proof.
  intros Hok Hne Hraw Hbody.
  destruct (decode_tx_body_layout s t raw (stx_chain_id t))
    as (d & r & Hd & Hs & Hp & Hr & Hn); [done..|].
  exists d. split_and!; [done..|]. rewrite Hn. destruct (stx_gas t) as [[g1 g2]|] eqn:Hgas.
  - intros Hg2 Hb. rewrite (parse_nonce_gas_some t g1 g2) in Hr by done. congruence.
  - rewrite parse_nonce_gas_none in Hr by done. congruence.
Qed.

(** On any text whatever the reader finishes (no slice panics); a result it
    returns is the front-anchored signer, the same for every chain id, and a body of
    another chain has no nonce. *)
Theorem decode_tx_body_total s :
  exists f : Z -> option DecodedTxBody,
    (forall cid, decode_tx_body base64_decode s cid = Done (f cid)) /\
    (forall c1 c2, sender <$> f c1 = sender <$> f c2 /\
                   sender_pubkey <$> f c1 = sender_pubkey <$> f c2) /\
    (forall cid d raw, f cid = Some d -> base64_decode (trim s) = Some raw ->
       let inner := strip_authenticator_wrapper raw in
       (97 <= length inner)%nat /\
       (nonce d <> None -> (105 <= length inner)%nat /\
          from_le (drop (length inner - 8) inner) = cid)).
Proof.
  unfold decode_tx_body.
  destruct (String.eqb (trim s) ""); [by exists (fun _ => None)|].
  destruct (base64_decode (trim s)) as [raw|]; [|by exists (fun _ => None)].
  set (inner := strip_authenticator_wrapper raw).
  destruct (byte_differs inner 0 V0_TAG); simpl; [by exists (fun _ => None)|].
  destruct (Nat.ltb_spec (length inner) INNER_PUBKEY_END) as [|Hlen];
    [by exists (fun _ => None)|].
  rewrite slice_done by (split; [by apply Nat.leb_le|done]). simpl mbind.
  rewrite slice_done.
  2: { split; [unfold ADDRESS_LEN; lia|]. rewrite length_take, length_drop.
       unfold INNER_PUBKEY_END, INNER_PUBKEY_START, SIG_LEN, PUBKEY_LEN, ADDRESS_LEN in *.
       lia. }
  simpl mbind.
  destruct (encode_bech32m HRP_ADDRESS _); [|by exists (fun _ => None)].
  destruct (encode_bech32m HRP_PUBKEY _); [|by exists (fun _ => None)].
  exists (fun cid => match parse_nonce inner cid with
    | Done n => Some {| sender := s0; sender_pubkey := s1; nonce := n |}
    | Panicked => None end).
  split_and!.
  - intros cid. destruct (parse_nonce_total inner cid) as [r ->]. done.
  - intros c1 c2. destruct (parse_nonce_total inner c1) as [r1 ->].
    by destruct (parse_nonce_total inner c2) as [r2 ->].
  - intros cid d raw' Hd [= <-]. split; [exact Hlen|].
    fold inner. destruct (parse_nonce_total inner cid) as [r Hr].
    rewrite Hr in Hd. injection Hd as <-. simpl. intros Hr'.
    by apply parse_nonce_chain_inv in Hr.
Qed.
End DecodeTheorems.

(** ** Witnesses *)

Definition signed_sample (gas : option (Z * Z)) : SignedTx :=
  {| stx_sig := replicate 64 7; stx_pub_key := replicate 32 9; stx_call := [1; 2; 3];
     stx_nonce := 42; stx_bips := 10; stx_max_fee := 100000; stx_gas := gas;
     stx_chain_id := 4242 |}.

Lemma signed_sample_ok gas :
  match gas with Some (g1, g2) => in_u64 g1 /\ in_u64 g2 | None => True end ->
  signed_tx_ok (signed_sample gas).
Proof.
  intros H. unfold signed_tx_ok. split_and!; try done.
  by repeat constructor.
Qed.

Section DecodeWitnesses.
#[local] Existing Instance Bip350.bech32m.
#[local] Existing Instance Bip350.bech32m_laws.

Lemma decode_tx_body_roundtrip_witness :
  let decoded gas := decode_tx_body standard_decode
    (standard_encode (wrap (encode_inner (signed_sample gas)))) 4242 in
  (exists d, decoded None = Done (Some d) /\
    bech32_decode (sender d) = Ok (HRP_ADDRESS, replicate 28 9) /\
    bech32_decode (sender_pubkey d) = Ok (HRP_PUBKEY, replicate 32 9) /\ nonce d = Some 42) /\
  exists d, decoded (Some (1000, 1000)) = Done (Some d) /\
    bech32_decode (sender d) = Ok (HRP_ADDRESS, replicate 28 9) /\
    bech32_decode (sender_pubkey d) = Ok (HRP_PUBKEY, replicate 32 9) /\
    (1000 < 256 ^ 7 -> 10 < 256 ^ 7 -> nonce d = Some 100000).
Proof.
  split.
  - apply (decode_tx_body_roundtrip standard_decode _ (signed_sample None)
             (wrap (encode_inner (signed_sample None)))).
    + by apply signed_sample_ok.
    + vm_compute. discriminate.
    + vm_compute. reflexivity.
    + left. split; [reflexivity|]. vm_compute. discriminate.
  - apply (decode_tx_body_roundtrip standard_decode _ (signed_sample (Some (1000, 1000)))
             (wrap (encode_inner (signed_sample (Some (1000, 1000)))))).
    + apply signed_sample_ok. int_consts. lia.
    + vm_compute. discriminate.
    + vm_compute. reflexivity.
    + left. split; [reflexivity|]. vm_compute. discriminate.
Defined.

Lemma decode_tx_body_total_witness :
  exists f : Z -> option DecodedTxBody,
    (forall cid, decode_tx_body standard_decode "not base64" cid = Done (f cid)) /\
    (forall c1 c2, sender <$> f c1 = sender <$> f c2).
Proof.
  destruct (decode_tx_body_total standard_decode "not base64") as (f & Hf & Hs & _).
  exists f. split; [exact Hf|]. intros c1 c2. apply Hs.
Defined.
End DecodeWitnesses.
