(* ===== verification/Parser.v ===== *)
(** * The transaction classifier ([crates/indexer/src/parser.rs])

    Lifts the events of a ledger transaction into an [IndexerTx]: attestation events
    first, then bounty, contract and bank events. *)

From S2P Require Import Prelude Json Types Standards Bech32m Sha2 AttestationId.
Open Scope string_scope.
Open Scope list_scope.
Open Scope Z_scope.

Definition KEY_BANK_TOKEN_TRANSFERRED : string := "Bank/TokenTransferred".
Definition KEY_BOUNTY_POSTED : string := "Bounty/BountyPosted".
Definition KEY_BOUNTY_CLAIMED : string := "Bounty/BountyClaimed".
Definition KEY_BOUNTY_DISPUTED : string := "Bounty/BountyDisputed".
Definition KEY_BOUNTY_DISPUTE_RESOLVED : string := "Bounty/DisputeResolved".
Definition KEY_BOUNTY_EXPIRED : string := "Bounty/BountyExpired".
Definition KEY_BOUNTY_FINALISED : string := "Bounty/BountyFinalised".
Definition KEY_CONTRACT_POSTED : string := "Contracts/ContractPosted".
Definition KEY_CONTRACT_WORKER_COMMITTED : string := "Contracts/WorkerCommitted".
Definition KEY_CONTRACT_DELIVERED : string := "Contracts/ContractDelivered".
Definition KEY_CONTRACT_DELIVERY_ACCEPTED : string := "Contracts/DeliveryAccepted".
Definition KEY_CONTRACT_DELIVERY_REJECTED : string := "Contracts/DeliveryRejected".
Definition KEY_CONTRACT_DISPUTE_RESOLVED : string := "Contracts/ContractDisputeResolved".
Definition KEY_CONTRACT_CANCELLED : string := "Contracts/ContractCancelled".
Definition KEY_CONTRACT_EXPIRED : string := "Contracts/ContractExpired".
Definition KEY_ATTESTATION_ATTESTOR_SET_REGISTERED : string :=
  "AttestationModule/AttestorSetRegistered".
Definition KEY_ATTESTATION_SCHEMA_REGISTERED : string := "AttestationModule/SchemaRegistered".
Definition KEY_ATTESTATION_ATTESTATION_SUBMITTED : string :=
  "AttestationModule/AttestationSubmitted".

Inductive TxOutcome : Set := Committed | Reverted | Skipped.

#[export] Instance TxOutcome_eq_dec : EqDecision TxOutcome.
Proof. solve_decision. Defined.

Definition outcome_of (receipt_result : string) : TxOutcome :=
  if String.eqb receipt_result "successful" then Committed
  else if String.eqb receipt_result "reverted" then Reverted
  else Skipped.

Record IndexerTransfer : Set := {
  tr_from : string;
  tr_to : string;
  tr_amount_nano : string;
  tr_token_id : string
}.

Record IndexerRegisterAttestorSet : Set := {
  ras_attestor_set_id : string;
  ras_members : list string;
  ras_threshold : Z;
  ras_registered_by : string
}.

Record IndexerRegisterSchema : Set := {
  rs_schema_id : string;
  rs_name : string;
  rs_version : Z;
  rs_owner : string;
  rs_attestor_set_id : string;
  rs_fee_routing_bps : Z;
  rs_fee_routing_addr : option string;
  rs_payload_shape_hash : string
}.

Record IndexerSubmitAttestation : Set := {
  sa_id : string;
  sa_schema_id : string;
  sa_payload_hash : string;
  sa_submitter : string;
  sa_signature_count : Z
}.

Module BountyEventKind.
Inductive BountyEventKind : Set :=
| Posted
| Claimed (count : Z) (total_payout : string)
| Disputed
| DisputeResolved
| Expired
| Finalised.
End BountyEventKind.

Module ContractEventKind.
Inductive ContractEventKind : Set :=
| Posted
| Committed
| Delivered
| Accepted
| Rejected
| DisputeResolved
| Cancelled
| Expired.
End ContractEventKind.

Abbreviation BountyEventKind := BountyEventKind.BountyEventKind.
Abbreviation ContractEventKind := ContractEventKind.ContractEventKind.

Inductive IndexerTx : Set :=
| Transfer (t : IndexerTransfer)
| RegisterAttestorSet (r : IndexerRegisterAttestorSet)
| RegisterSchema (r : IndexerRegisterSchema)
| SubmitAttestation (a : IndexerSubmitAttestation)
| BountyEvent (bounty_id : string) (kind : BountyEventKind)
| ContractEvent (contract_id : string) (kind : ContractEventKind)
| Unknown (event_keys : list string).

Record ClassifiedTx : Set := {
  ctx_hash : string;
  ctx_batch_number : Z;
  ctx_global_tx_number : Z;
  ctx_outcome : TxOutcome;
  ctx_kind : IndexerTx
}.

(** [Option::get_or_insert]. *)
Definition get_or_insert {A} (o : option A) (a : A) : option A :=
  match o with Some x => Some x | None => Some a end.

(** ** Bounty events *)

(** The mutable locals of [classify_bounty_events]. *)
Record BountyScan : Set := {
  bs_first : option (string * BountyEventKind);
  bs_claim_count : Z;
  bs_claim_total : Z;
  bs_saw_claim : bool
}.

Definition bounty_scan_init : BountyScan :=
  {| bs_first := None; bs_claim_count := 0; bs_claim_total := 0; bs_saw_claim := false |}.

Definition scan_first (s : BountyScan) (id : string) (k : BountyEventKind) : BountyScan :=
  {| bs_first := get_or_insert s.(bs_first) (id, k);
     bs_claim_count := s.(bs_claim_count); bs_claim_total := s.(bs_claim_total);
     bs_saw_claim := s.(bs_saw_claim) |}.

(** The loop body; [claim_count += 1] wraps at 32 bits. *)
Definition bounty_scan_step (s : BountyScan) (ev : LedgerEvent) : BountyScan :=
  let key := ev.(ev_key) in
  let v := ev.(ev_value) in
  if String.eqb key KEY_BOUNTY_POSTED then
    match de_BountyPostedEvent v with
    | Some p => scan_first s p.(bpe_bounty_posted).(bpd_bounty_id) BountyEventKind.Posted
    | None => s
    end
  else if String.eqb key KEY_BOUNTY_CLAIMED then
    match de_BountyClaimedEvent v with
    | Some p =>
        let d := p.(bce_bounty_claimed) in
        {| bs_first := get_or_insert s.(bs_first) (d.(bcd_bounty_id), BountyEventKind.Posted);
           bs_claim_count := as_u32 (s.(bs_claim_count) + 1);
           bs_claim_total :=
             match parse_uint u128_max d.(bcd_payout) with
             | Some v => saturating_add u128_max s.(bs_claim_total) v
             | None => s.(bs_claim_total)
             end;
           bs_saw_claim := true |}
    | None => s
    end
  else if String.eqb key KEY_BOUNTY_DISPUTED then
    match de_BountyDisputedEvent v with
    | Some p => scan_first s p.(bde_bounty_disputed).(bdd_bounty_id) BountyEventKind.Disputed
    | None => s
    end
  else if String.eqb key KEY_BOUNTY_DISPUTE_RESOLVED then
    match de_DisputeResolvedEvent v with
    | Some p =>
        scan_first s p.(dre_dispute_resolved).(drd_bounty_id) BountyEventKind.DisputeResolved
    | None => s
    end
  else if String.eqb key KEY_BOUNTY_EXPIRED then
    match de_BountyExpiredEvent v with
    | Some p => scan_first s p.(bee_bounty_expired).(bed_bounty_id) BountyEventKind.Expired
    | None => s
    end
  else if String.eqb key KEY_BOUNTY_FINALISED then
    match de_BountyFinalisedEvent v with
    | Some p => scan_first s p.(bfe_bounty_finalised).(bfd_bounty_id) BountyEventKind.Finalised
    | None => s
    end
  else s.

Definition classify_bounty_events (events : list LedgerEvent) : option IndexerTx :=
  let s := fold_left bounty_scan_step events bounty_scan_init in
  match s.(bs_first) with
  | None => None
  | Some (bounty_id, kind) =>
      let kind :=
        if s.(bs_saw_claim)
        then BountyEventKind.Claimed s.(bs_claim_count) (to_string s.(bs_claim_total))
        else kind in
      Some (BountyEvent bounty_id kind)
  end.

(** ** Contract events *)

Definition contract_scan_step (first : option (string * ContractEventKind))
    (ev : LedgerEvent) : option (string * ContractEventKind) :=
  let key := ev.(ev_key) in
  let v := ev.(ev_value) in
  if String.eqb key KEY_CONTRACT_POSTED then
    match de_ContractPostedEvent v with
    | Some p => get_or_insert first
        (p.(cpe_contract_posted).(cpd_contract_id), ContractEventKind.Posted)
    | None => first
    end
  else if String.eqb key KEY_CONTRACT_WORKER_COMMITTED then
    match de_WorkerCommittedEvent v with
    | Some p => get_or_insert first
        (p.(wce_worker_committed).(wcd_contract_id), ContractEventKind.Committed)
    | None => first
    end
  else if String.eqb key KEY_CONTRACT_DELIVERED then
    match de_ContractDeliveredEvent v with
    | Some p => get_or_insert first
        (p.(cde_contract_delivered).(cdd_contract_id), ContractEventKind.Delivered)
    | None => first
    end
  else if String.eqb key KEY_CONTRACT_DELIVERY_ACCEPTED then
    match de_DeliveryAcceptedEvent v with
    | Some p => get_or_insert first
        (p.(dae_delivery_accepted).(dad_contract_id), ContractEventKind.Accepted)
    | None => first
    end
  else if String.eqb key KEY_CONTRACT_DELIVERY_REJECTED then
    match de_DeliveryRejectedEvent v with
    | Some p => get_or_insert first
        (p.(dre2_delivery_rejected).(drd2_contract_id), ContractEventKind.Rejected)
    | None => first
    end
  else if String.eqb key KEY_CONTRACT_DISPUTE_RESOLVED then
    match de_ContractDisputeResolvedEvent v with
    | Some p => get_or_insert first
        (p.(cdre_contract_dispute_resolved).(cdrd_contract_id),
         ContractEventKind.DisputeResolved)
    | None => first
    end
  else if String.eqb key KEY_CONTRACT_CANCELLED then
    match de_ContractCancelledEvent v with
    | Some p => get_or_insert first
        (p.(cce_contract_cancelled).(ccd_contract_id), ContractEventKind.Cancelled)
    | None => first
    end
  else if String.eqb key KEY_CONTRACT_EXPIRED then
    match de_ContractExpiredEvent v with
    | Some p => get_or_insert first
        (p.(cee_contract_expired).(ced_contract_id), ContractEventKind.Expired)
    | None => first
    end
  else first.

Definition classify_contract_events (events : list LedgerEvent) : option IndexerTx :=
  '(contract_id, kind) ← fold_left contract_scan_step events None;
  Some (ContractEvent contract_id kind).

(** ** Bank events *)

Fixpoint classify_bank_events (events : list LedgerEvent) : option IndexerTx :=
  match events with
  | [] => None
  | ev :: rest =>
      if String.eqb ev.(ev_key) KEY_BANK_TOKEN_TRANSFERRED then
        match de_BankTokenTransferredEvent ev.(ev_value) with
        | Some p =>
            let d := p.(btte_token_transferred) in
            Some (Transfer {|
              tr_from := d.(btd_from).(ma_user); tr_to := d.(btd_to).(ma_user);
              tr_amount_nano := d.(btd_coins).(coins_amount);
              tr_token_id := d.(btd_coins).(coins_token_id) |})
        | None => classify_bank_events rest
        end
      else classify_bank_events rest
  end.

(** ** The whole classifier *)

Section Parser.
(** [value_to_string] is serde_json's compact printer ([Value::to_string]). *)
Context `{B : Bech32} `{H : Sha256} (value_to_string : Value -> string).

Fixpoint classify_attestation_events (events : list LedgerEvent)
  : outcome (option IndexerTx) :=
  match events with
  | [] => Done None
  | ev :: rest =>
      let key := ev.(ev_key) in
      let v := ev.(ev_value) in
      if String.eqb key KEY_ATTESTATION_ATTESTOR_SET_REGISTERED then
        match de_AttestationAttestorSetRegisteredEvent v with
        | Some p =>
            let d := p.(aasre_attestor_set_registered) in
            Done (Some (RegisterAttestorSet {|
              ras_attestor_set_id := d.(asrd_attestor_set_id);
              ras_members := d.(asrd_members); ras_threshold := d.(asrd_threshold);
              ras_registered_by := d.(asrd_registered_by) |}))
        | None => classify_attestation_events rest
        end
      else if String.eqb key KEY_ATTESTATION_SCHEMA_REGISTERED then
        match de_AttestationSchemaRegisteredEvent v with
        | Some p =>
            let d := p.(asre_schema_registered) in
            Done (Some (RegisterSchema {|
              rs_schema_id := d.(srd_schema_id); rs_name := d.(srd_name);
              rs_version := d.(srd_version); rs_owner := d.(srd_owner);
              rs_attestor_set_id := d.(srd_attestor_set_id);
              rs_fee_routing_bps := d.(srd_fee_routing_bps);
              rs_fee_routing_addr := d.(srd_fee_routing_addr);
              rs_payload_shape_hash :=
                match d.(srd_payload_shape_hash) with
                | JString s => s
                | other => value_to_string other
                end |}))
        | None => classify_attestation_events rest
        end
      else if String.eqb key KEY_ATTESTATION_ATTESTATION_SUBMITTED then
        match de_AttestationAttestationSubmittedEvent v with
        | Some p =>
            let d := p.(aase_attestation_submitted) in
            match compute_attestation_id d.(asd_schema_id) d.(asd_payload_hash) with
            | Panicked => Panicked
            | Done (Ok id) =>
                Done (Some (SubmitAttestation {|
                  sa_id := id; sa_schema_id := d.(asd_schema_id);
                  sa_payload_hash := d.(asd_payload_hash);
                  sa_submitter := d.(asd_submitter);
                  sa_signature_count := d.(asd_signature_count) |}))
            | Done (Err _) => classify_attestation_events rest
            end
        | None => classify_attestation_events rest
        end
      else classify_attestation_events rest
  end.

Definition classify_events (events : list LedgerEvent) : outcome IndexerTx :=
  pass1 ← classify_attestation_events events;
  match pass1 with
  | Some kind => Done kind
  | None =>
      match classify_bounty_events events with
      | Some bounty => Done bounty
      | None =>
          match classify_contract_events events with
          | Some contract => Done contract
          | None =>
              match classify_bank_events events with
              | Some transfer => Done transfer
              | None => Done (Unknown (ev_key <$> events))
              end
          end
      end
  end.

Definition classify_tx (tx : LedgerTx) (events : list LedgerEvent)
  : outcome (option ClassifiedTx) :=
  let outcome := outcome_of tx.(tx_receipt).(rcpt_result) in
  if decide (outcome = Skipped) then Done None
  else
    kind ← classify_events events;
    Done (Some {|
      ctx_hash := tx.(tx_hash); ctx_batch_number := tx.(tx_batch_number);
      ctx_global_tx_number := tx.(tx_number); ctx_outcome := outcome;
      ctx_kind := kind |}).
End Parser.

(** ** What the chain emits

    The events of the three semantic modules and of the bank, each with the key and
    the JSON value the chain emits for it and the transaction kind it stands for. *)
Inductive WireEvent : Type :=
| WAttestorSet (d : AttestorSetRegisteredDetails)
| WSchema (d : SchemaRegisteredDetails)
| WSubmitted (d : AttestationSubmittedDetails) (id : string)
| WBountyPosted (d : BountyPostedDetails)
| WBountyClaimed (d : BountyClaimedDetails)
| WBountyDisputed (d : BountyDisputedDetails)
| WBountyDisputeResolved (d : DisputeResolvedDetails)
| WBountyExpired (d : BountyExpiredDetails)
| WBountyFinalised (d : BountyFinalisedDetails)
| WContractPosted (d : ContractPostedDetails)
| WWorkerCommitted (d : WorkerCommittedDetails)
| WContractDelivered (d : ContractDeliveredDetails)
| WDeliveryAccepted (d : DeliveryAcceptedDetails)
| WDeliveryRejected (d : DeliveryRejectedDetails)
| WContractDisputeResolved (d : ContractDisputeResolvedDetails)
| WContractCancelled (d : ContractCancelledDetails)
| WContractExpired (d : ContractExpiredDetails)
| WTransfer (d : BankTransferDetails).

Definition wire_value (w : WireEvent) : Value :=
  match w with
  | WAttestorSet d => ser_AttestationAttestorSetRegisteredEvent
      {| aasre_attestor_set_registered := d |}
  | WSchema d => ser_AttestationSchemaRegisteredEvent {| asre_schema_registered := d |}
  | WSubmitted d _ => ser_AttestationAttestationSubmittedEvent
      {| aase_attestation_submitted := d |}
  | WBountyPosted d => ser_BountyPostedEvent {| bpe_bounty_posted := d |}
  | WBountyClaimed d => ser_BountyClaimedEvent {| bce_bounty_claimed := d |}
  | WBountyDisputed d => ser_BountyDisputedEvent {| bde_bounty_disputed := d |}
  | WBountyDisputeResolved d => ser_DisputeResolvedEvent {| dre_dispute_resolved := d |}
  | WBountyExpired d => ser_BountyExpiredEvent {| bee_bounty_expired := d |}
  | WBountyFinalised d => ser_BountyFinalisedEvent {| bfe_bounty_finalised := d |}
  | WContractPosted d => ser_ContractPostedEvent {| cpe_contract_posted := d |}
  | WWorkerCommitted d => ser_WorkerCommittedEvent {| wce_worker_committed := d |}
  | WContractDelivered d => ser_ContractDeliveredEvent {| cde_contract_delivered := d |}
  | WDeliveryAccepted d => ser_DeliveryAcceptedEvent {| dae_delivery_accepted := d |}
  | WDeliveryRejected d => ser_DeliveryRejectedEvent {| dre2_delivery_rejected := d |}
  | WContractDisputeResolved d => ser_ContractDisputeResolvedEvent
      {| cdre_contract_dispute_resolved := d |}
  | WContractCancelled d => ser_ContractCancelledEvent {| cce_contract_cancelled := d |}
  | WContractExpired d => ser_ContractExpiredEvent {| cee_contract_expired := d |}
  | WTransfer d => ser_BankTokenTransferredEvent {| btte_token_transferred := d |}
  end.

(** The key the chain emits beside it: the module's name and the variant's, where the
    variant is the one the value is tagged with, in camel case. *)
Definition emitter (w : WireEvent) : string :=
  match w with
  | WAttestorSet _ | WSchema _ | WSubmitted _ _ => "AttestationModule"
  | WBountyPosted _ | WBountyClaimed _ | WBountyDisputed _ | WBountyDisputeResolved _
  | WBountyExpired _ | WBountyFinalised _ => "Bounty"
  | WContractPosted _ | WWorkerCommitted _ | WContractDelivered _ | WDeliveryAccepted _
  | WDeliveryRejected _ | WContractDisputeResolved _ | WContractCancelled _
  | WContractExpired _ => "Contracts"
  | WTransfer _ => "Bank"
  end.

Definition tag (v : Value) : string :=
  match v with JObject ((name, _) :: _) => name | _ => "" end.

Definition upper (c : ascii) : ascii :=
  let n := N_of_ascii c in if ((97 <=? n) && (n <=? 122))%N then ascii_of_N (n - 32) else c.
Fixpoint camel_case (start : bool) (s : string) : string :=
  match s with
  | EmptyString => EmptyString
  | String "_" rest => camel_case true rest
  | String c rest => String (if start then upper c else c) (camel_case false rest)
  end.

Definition wire_key (w : WireEvent) : string :=
  (emitter w ++ "/" ++ camel_case true (tag (wire_value w)))%string.

(** 1 for the attestation kinds, 2 bounty, 3 contract, 4 transfer, 5 unknown. *)
Definition kind_rank (k : IndexerTx) : nat :=
  match k with
  | RegisterAttestorSet _ | RegisterSchema _ | SubmitAttestation _ => 1
  | BountyEvent _ _ => 2
  | ContractEvent _ _ => 3
  | Transfer _ => 4
  | Unknown _ => 5
  end.

Section Wire.
Context `{B : Bech32} `{H : Sha256} (value_to_string : Value -> string).

(** Integers in range, and for a submission the id its pair derives to. *)
Definition wire_ok (w : WireEvent) : Prop :=
  match w with
  | WAttestorSet d => ok_AttestorSetRegisteredDetails d
  | WSchema d => ok_SchemaRegisteredDetails d
  | WSubmitted d id =>
      ok_AttestationSubmittedDetails d /\
      compute_attestation_id d.(asd_schema_id) d.(asd_payload_hash) = Done (Ok id)
  | WBountyPosted d => ok_BountyPostedDetails d
  | WBountyClaimed d => ok_BountyClaimedDetails d
  | WBountyDisputed d => ok_BountyDisputedDetails d
  | WBountyDisputeResolved d => ok_DisputeResolvedDetails d
  | WBountyExpired d => ok_BountyExpiredDetails d
  | WBountyFinalised d => ok_BountyFinalisedDetails d
  | WContractPosted d => ok_ContractPostedDetails d
  | WWorkerCommitted d => ok_WorkerCommittedDetails d
  | WContractDelivered d => ok_ContractDeliveredDetails d
  | WDeliveryAccepted d => ok_DeliveryAcceptedDetails d
  | WDeliveryRejected d => ok_DeliveryRejectedDetails d
  | WContractDisputeResolved d => ok_ContractDisputeResolvedDetails d
  | WContractCancelled d => ok_ContractCancelledDetails d
  | WContractExpired d => ok_ContractExpiredDetails d
  | WTransfer d => ok_BankTransferDetails d
  end.

Definition claim_amount (d : BountyClaimedDetails) : Z :=
  match parse_uint u128_max d.(bcd_payout) with Some v => v | None => 0 end.

Definition wire_tx (w : WireEvent) : IndexerTx :=
  match w with
  | WAttestorSet d => RegisterAttestorSet {|
      ras_attestor_set_id := d.(asrd_attestor_set_id); ras_members := d.(asrd_members);
      ras_threshold := d.(asrd_threshold); ras_registered_by := d.(asrd_registered_by) |}
  | WSchema d => RegisterSchema {|
      rs_schema_id := d.(srd_schema_id); rs_name := d.(srd_name);
      rs_version := d.(srd_version); rs_owner := d.(srd_owner);
      rs_attestor_set_id := d.(srd_attestor_set_id);
      rs_fee_routing_bps := d.(srd_fee_routing_bps);
      rs_fee_routing_addr := d.(srd_fee_routing_addr);
      rs_payload_shape_hash :=
        match d.(srd_payload_shape_hash) with
        | JString s => s | other => value_to_string other end |}
  | WSubmitted d id => SubmitAttestation {|
      sa_id := id; sa_schema_id := d.(asd_schema_id);
      sa_payload_hash := d.(asd_payload_hash); sa_submitter := d.(asd_submitter);
      sa_signature_count := d.(asd_signature_count) |}
  | WBountyPosted d => BountyEvent d.(bpd_bounty_id) BountyEventKind.Posted
  | WBountyClaimed d => BountyEvent d.(bcd_bounty_id)
      (BountyEventKind.Claimed 1 (to_string (claim_amount d)))
  | WBountyDisputed d => BountyEvent d.(bdd_bounty_id) BountyEventKind.Disputed
  | WBountyDisputeResolved d => BountyEvent d.(drd_bounty_id) BountyEventKind.DisputeResolved
  | WBountyExpired d => BountyEvent d.(bed_bounty_id) BountyEventKind.Expired
  | WBountyFinalised d => BountyEvent d.(bfd_bounty_id) BountyEventKind.Finalised
  | WContractPosted d => ContractEvent d.(cpd_contract_id) ContractEventKind.Posted
  | WWorkerCommitted d => ContractEvent d.(wcd_contract_id) ContractEventKind.Committed
  | WContractDelivered d => ContractEvent d.(cdd_contract_id) ContractEventKind.Delivered
  | WDeliveryAccepted d => ContractEvent d.(dad_contract_id) ContractEventKind.Accepted
  | WDeliveryRejected d => ContractEvent d.(drd2_contract_id) ContractEventKind.Rejected
  | WContractDisputeResolved d =>
      ContractEvent d.(cdrd_contract_id) ContractEventKind.DisputeResolved
  | WContractCancelled d => ContractEvent d.(ccd_contract_id) ContractEventKind.Cancelled
  | WContractExpired d => ContractEvent d.(ced_contract_id) ContractEventKind.Expired
  | WTransfer d => Transfer {|
      tr_from := d.(btd_from).(ma_user); tr_to := d.(btd_to).(ma_user);
      tr_amount_nano := d.(btd_coins).(coins_amount);
      tr_token_id := d.(btd_coins).(coins_token_id) |}
  end.

(** [ev] carries [w]. *)
Definition carries (ev : LedgerEvent) (w : WireEvent) : Prop :=
  ev.(ev_key) = wire_key w /\ ev.(ev_value) = wire_value w /\ wire_ok w.

Definition is_transfer_event (ev : LedgerEvent) : Prop :=
  ev.(ev_key) = KEY_BANK_TOKEN_TRANSFERRED.
End Wire.

(** The chain's keys are the constants the classifier compares with. *)
Definition listed_key (w : WireEvent) : string :=
  match w with
  | WAttestorSet _ => KEY_ATTESTATION_ATTESTOR_SET_REGISTERED
  | WSchema _ => KEY_ATTESTATION_SCHEMA_REGISTERED
  | WSubmitted _ _ => KEY_ATTESTATION_ATTESTATION_SUBMITTED
  | WBountyPosted _ => KEY_BOUNTY_POSTED
  | WBountyClaimed _ => KEY_BOUNTY_CLAIMED
  | WBountyDisputed _ => KEY_BOUNTY_DISPUTED
  | WBountyDisputeResolved _ => KEY_BOUNTY_DISPUTE_RESOLVED
  | WBountyExpired _ => KEY_BOUNTY_EXPIRED
  | WBountyFinalised _ => KEY_BOUNTY_FINALISED
  | WContractPosted _ => KEY_CONTRACT_POSTED
  | WWorkerCommitted _ => KEY_CONTRACT_WORKER_COMMITTED
  | WContractDelivered _ => KEY_CONTRACT_DELIVERED
  | WDeliveryAccepted _ => KEY_CONTRACT_DELIVERY_ACCEPTED
  | WDeliveryRejected _ => KEY_CONTRACT_DELIVERY_REJECTED
  | WContractDisputeResolved _ => KEY_CONTRACT_DISPUTE_RESOLVED
  | WContractCancelled _ => KEY_CONTRACT_CANCELLED
  | WContractExpired _ => KEY_CONTRACT_EXPIRED
  | WTransfer _ => KEY_BANK_TOKEN_TRANSFERRED
  end.

Lemma wire_key_listed w : wire_key w = listed_key w.
Proof. by destruct w. Qed.

(** [wire_dispatch] resolves the key comparisons of a step on an event that carries a
    known [w], and reads its value back. *)
Ltac wire_dispatch Hk Hv :=
  rewrite ?Hk, ?Hv; simpl;
  rewrite ?rt_AttestationAttestorSetRegisteredEvent, ?rt_AttestationSchemaRegisteredEvent,
    ?rt_AttestationAttestationSubmittedEvent, ?rt_BountyPostedEvent, ?rt_BountyClaimedEvent,
    ?rt_BountyDisputedEvent, ?rt_DisputeResolvedEvent, ?rt_BountyExpiredEvent,
    ?rt_BountyFinalisedEvent, ?rt_ContractPostedEvent, ?rt_WorkerCommittedEvent,
    ?rt_ContractDeliveredEvent, ?rt_DeliveryAcceptedEvent, ?rt_DeliveryRejectedEvent,
    ?rt_ContractDisputeResolvedEvent, ?rt_ContractCancelledEvent, ?rt_ContractExpiredEvent,
    ?rt_BankTokenTransferredEvent by done;
  simpl.

Section ParserFacts.
Context `{B : Bech32} `{H : Sha256} (value_to_string : Value -> string).

(** Bank events do not disturb the semantic passes. *)
Lemma attestation_skips_bank pre l :
  Forall is_transfer_event pre ->
  classify_attestation_events value_to_string (pre ++ l) =
  classify_attestation_events value_to_string l.
Proof. induction 1 as [|ev pre Hk _ IH]; simpl; [done|]. by rewrite Hk. Qed.

Lemma bounty_step_bank ev s : is_transfer_event ev -> bounty_scan_step s ev = s.
Proof. intros Hk. unfold bounty_scan_step. by rewrite Hk. Qed.

Lemma contract_step_bank ev s : is_transfer_event ev -> contract_scan_step s ev = s.
Proof. intros Hk. unfold contract_scan_step. by rewrite Hk. Qed.

(** [get_or_insert] never empties a filled slot. *)
Lemma bounty_step_keeps s ev :
  is_Some s.(bs_first) -> is_Some (bounty_scan_step s ev).(bs_first).
Proof.
  intros [x Hx]. unfold bounty_scan_step, scan_first.
  repeat case_match; simpl; rewrite ?Hx; eauto.
Qed.

Lemma contract_step_keeps s ev : is_Some s -> is_Some (contract_scan_step s ev).
Proof.
  intros [x ->]. unfold contract_scan_step. repeat case_match; simpl; eauto.
Qed.

Lemma bounty_step_hit s ev w :
  carries ev w -> kind_rank (wire_tx value_to_string w) = 2%nat ->
  is_Some (bounty_scan_step s ev).(bs_first).
Proof.
  intros (Hk & Hv & Hok) Hr. rewrite wire_key_listed in Hk. unfold bounty_scan_step, scan_first.
  destruct w; try discriminate Hr; wire_dispatch Hk Hv; destruct (bs_first s); simpl; eauto.
Qed.

Lemma contract_step_hit s ev w :
  carries ev w -> kind_rank (wire_tx value_to_string w) = 3%nat ->
  is_Some (contract_scan_step s ev).
Proof.
  intros (Hk & Hv & Hok) Hr. rewrite wire_key_listed in Hk. unfold contract_scan_step.
  destruct w; try discriminate Hr; wire_dispatch Hk Hv; destruct s; simpl; eauto.
Qed.

Lemma attestation_hit events ev w :
  ev ∈ events -> carries ev w -> kind_rank (wire_tx value_to_string w) = 1%nat ->
  classify_attestation_events value_to_string events <> Done None.
Proof.
  intros Hin (Hk & Hv & Hok) Hr. rewrite wire_key_listed in Hk.
  induction Hin as [events|y ev events _ IH]; simpl.
  - destruct w; try discriminate Hr; destruct_and?; wire_dispatch Hk Hv; try done.
    destruct Hok as [? Hid]. wire_dispatch Hk Hv. by rewrite Hid.
  - repeat case_match; try done; by apply IH.
Qed.

Lemma attestation_rank events k :
  classify_attestation_events value_to_string events = Done (Some k) -> kind_rank k = 1%nat.
Proof.
  induction events as [|ev events IH]; simpl; [done|].
  repeat case_match; intros; simplify_eq/=; auto.
Qed.

Lemma bank_hit events ev w :
  ev ∈ events -> carries ev w -> kind_rank (wire_tx value_to_string w) = 4%nat ->
  is_Some (classify_bank_events events).
Proof.
  intros Hin (Hk & Hv & Hok) Hr. rewrite wire_key_listed in Hk.
  induction Hin as [events|y ev events _ IH]; simpl.
  - destruct w; try discriminate Hr. wire_dispatch Hk Hv. eauto.
  - repeat case_match; eauto.
Qed.

Lemma bank_rank events k : classify_bank_events events = Some k -> kind_rank k = 4%nat.
Proof.
  induction events as [|ev events IH]; simpl; [done|].
  repeat case_match; intros; simplify_eq/=; auto.
Qed.

Lemma bounty_hit events ev w :
  ev ∈ events -> carries ev w -> kind_rank (wire_tx value_to_string w) = 2%nat ->
  exists id k, classify_bounty_events events = Some (BountyEvent id k).
Proof.
  intros Hin Hw Hr. unfold classify_bounty_events.
  assert (is_Some (bs_first (fold_left bounty_scan_step events bounty_scan_init)))
    as [[id k] ->].
  { apply (fold_left_reaches bounty_scan_step (fun s => is_Some (bs_first s)) _ ev); auto.
    - intros. by apply bounty_step_keeps.
    - intros. by eapply bounty_step_hit. }
  eauto.
Qed.

Lemma contract_hit events ev w :
  ev ∈ events -> carries ev w -> kind_rank (wire_tx value_to_string w) = 3%nat ->
  exists id k, classify_contract_events events = Some (ContractEvent id k).
Proof.
  intros Hin Hw Hr. unfold classify_contract_events.
  assert (is_Some (fold_left contract_scan_step events None)) as [[id k] ->].
  { apply (fold_left_reaches contract_scan_step is_Some _ ev); auto.
    - intros. by apply contract_step_keeps.
    - intros. by eapply contract_step_hit. }
  simpl. eauto.
Qed.

Lemma classify_bounty_rank events k :
  classify_bounty_events events = Some k -> kind_rank k = 2%nat.
Proof.
  unfold classify_bounty_events. destruct (bs_first _) as [[]|]; [|done].
  by intros [= <-].
Qed.

Lemma classify_contract_rank events k :
  classify_contract_events events = Some k -> kind_rank k = 3%nat.
Proof.
  unfold classify_contract_events. destruct (fold_left _ _ _) as [[]|]; [|done].
  by intros [= <-].
Qed.

(** Semantic events win.  Whatever the other events of the transaction and their
    order, the kind reported never ranks below that of any event present: a
    registration that also pays a fee is not a transfer, and only a transaction
    without a single recognisable event is unknown. *)
Theorem classify_events_precedence events k ev w :
  classify_events value_to_string events = Done k ->
  ev ∈ events -> carries ev w ->
  (kind_rank k <= kind_rank (wire_tx value_to_string w))%nat.
Proof.
  intros Hk Hin Hw. unfold classify_events in Hk.
  destruct (classify_attestation_events value_to_string events) as [[a|]|] eqn:E1;
    simpl in Hk; simplify_eq.
  { rewrite (attestation_rank _ _ E1). destruct w; simpl; lia. }
  assert (kind_rank (wire_tx value_to_string w) <> 1%nat) as N1
    by (intros ?; by eapply attestation_hit).
  destruct (classify_bounty_events events) as [b|] eqn:E2; simplify_eq.
  { rewrite (classify_bounty_rank _ _ E2). destruct w; simpl in *; lia. }
  assert (kind_rank (wire_tx value_to_string w) <> 2%nat) as N2.
  { intros ?. destruct (bounty_hit events ev w) as (? & ? & ?); congruence. }
  destruct (classify_contract_events events) as [c|] eqn:E3; simplify_eq.
  { rewrite (classify_contract_rank _ _ E3). destruct w; simpl in *; lia. }
  assert (kind_rank (wire_tx value_to_string w) <> 3%nat) as N3.
  { intros ?. destruct (contract_hit events ev w) as (? & ? & ?); congruence. }
  destruct (classify_bank_events events) as [t|] eqn:E4; simplify_eq.
  { rewrite (bank_rank _ _ E4). destruct w; simpl in *; lia. }
  assert (kind_rank (wire_tx value_to_string w) <> 4%nat) as N4.
  { intros ?. destruct (bank_hit events ev w) as [? ?]; congruence. }
  destruct w; simpl in *; lia.
Qed.

Lemma bounty_skips_bank pre ev post :
  Forall is_transfer_event pre -> Forall is_transfer_event post ->
  fold_left bounty_scan_step (pre ++ ev :: post) bounty_scan_init =
  bounty_scan_step bounty_scan_init ev.
Proof.
  intros Hpre Hpost. rewrite fold_left_app. simpl.
  rewrite (fold_left_idle _ pre), (fold_left_idle _ post); [done|..];
    (intros y Hy; apply bounty_step_bank; revert y Hy; by apply Forall_forall).
Qed.

Lemma contract_skips_bank pre ev post :
  Forall is_transfer_event pre -> Forall is_transfer_event post ->
  fold_left contract_scan_step (pre ++ ev :: post) None = contract_scan_step None ev.
Proof.
  intros Hpre Hpost. rewrite fold_left_app. simpl.
  rewrite (fold_left_idle _ pre), (fold_left_idle _ post); [done|..];
    (intros y Hy; apply contract_step_bank; revert y Hy; by apply Forall_forall).
Qed.

Lemma attestation_skips_all events :
  Forall is_transfer_event events ->
  classify_attestation_events value_to_string events = Done None.
Proof. intros He. by rewrite <- (app_nil_r events), attestation_skips_bank. Qed.

Lemma claim_amount_range d : 0 <= claim_amount d <= u128_max.
Proof.
  unfold claim_amount. case_match eqn:E; [by apply parse_uint_range in E|lia_int].
Qed.

Lemma bank_skips_unreadable pre l :
  Forall (fun x => de_BankTokenTransferredEvent x.(ev_value) = None) pre ->
  classify_bank_events (pre ++ l) = classify_bank_events l.
Proof. induction 1 as [|ev pre Hx _ IH]; simpl; [done|]. rewrite Hx. by case_match. Qed.

Lemma semantic_recognised pre ev post w :
  carries ev w -> kind_rank (wire_tx value_to_string w) <> 4%nat ->
  Forall is_transfer_event pre -> Forall is_transfer_event post ->
  classify_events value_to_string (pre ++ ev :: post) =
  Done (wire_tx value_to_string w).
Proof.
  intros (Hk & Hv & Hok) Hr Hpre Hpost. rewrite wire_key_listed in Hk.
  unfold classify_events, classify_bounty_events, classify_contract_events.
  rewrite attestation_skips_bank, bounty_skips_bank, contract_skips_bank by done.
  destruct w; try done; simpl classify_attestation_events; rewrite Hk, Hv; simpl.
  all: try (rewrite attestation_skips_all by done; simpl).
  all: unfold bounty_scan_step, contract_scan_step, scan_first; simpl.
  all: try solve [wire_dispatch Hk Hv; done].
  - destruct Hok as [? Hid]. wire_dispatch Hk Hv. by rewrite Hid.
  - wire_dispatch Hk Hv. pose proof (claim_amount_range d) as Hr'.
    unfold claim_amount in *. destruct (parse_uint u128_max (bcd_payout d)) as [v|]; [|done].
    unfold saturating_add. by rewrite Z.min_r by lia.
Qed.

Lemma transfer_recognised pre ev post d :
  carries ev (WTransfer d) ->
  Forall (fun x => de_BankTokenTransferredEvent x.(ev_value) = None) pre ->
  Forall is_transfer_event pre -> Forall is_transfer_event post ->
  classify_events value_to_string (pre ++ ev :: post) =
  Done (wire_tx value_to_string (WTransfer d)).
Proof.
  intros (Hk & Hv & Hok) Hun Hpre Hpost. rewrite wire_key_listed in Hk.
  assert (is_transfer_event ev) as Hev by exact Hk.
  unfold classify_events, classify_bounty_events, classify_contract_events.
  rewrite attestation_skips_all by (apply Forall_app_2; [done|by constructor]).
  rewrite bounty_skips_bank, contract_skips_bank by done.
  rewrite bounty_step_bank, contract_step_bank by done. simpl.
  rewrite bank_skips_unreadable by done. simpl. by wire_dispatch Hk Hv.
Qed.

(** C30: whatever event the chain emits, with the key of its module and variant and the
    JSON of its fields, the transaction is classified by it, with exactly the fields the
    chain serialised: an event of the attestation, bounty or contract module among any
    number of bank transfers (fees, escrow deposits, payouts) and in any position, and a
    transfer when the transaction has transfers only and no readable one comes before. *)
Theorem classify_events_recognises pre ev post w :
  carries ev w -> Forall is_transfer_event pre -> Forall is_transfer_event post ->
  (kind_rank (wire_tx value_to_string w) = 4%nat ->
   Forall (fun x => de_BankTokenTransferredEvent x.(ev_value) = None) pre) ->
  classify_events value_to_string (pre ++ ev :: post) =
  Done (wire_tx value_to_string w).
Proof.
  intros Hw Hpre Hpost Hun.
  destruct (decide (kind_rank (wire_tx value_to_string w) = 4%nat)) as [Hr|];
    [|by apply semantic_recognised].
  destruct w; try discriminate Hr. by apply transfer_recognised; auto.
Qed.

(** *** Claim accounting *)

(** The claims of a transaction: the claim events that decode. *)
Definition claims (events : list LedgerEvent) : list BountyClaimedDetails :=
  omap (fun ev => if String.eqb ev.(ev_key) KEY_BOUNTY_CLAIMED
                  then bce_bounty_claimed <$> de_BountyClaimedEvent ev.(ev_value)
                  else None) events.

#[local] Arguments claims : simpl never.

Definition claims_total (l : list BountyClaimedDetails) : Z :=
  foldr (fun d acc => claim_amount d + acc) 0 l.

Lemma claims_total_nonneg l : 0 <= claims_total l.
Proof.
  induction l as [|d l IH]; simpl; [lia|]. pose proof (claim_amount_range d). lia.
Qed.

Lemma claims_total_app l1 l2 :
  claims_total (l1 ++ l2) = claims_total l1 + claims_total l2.
Proof. induction l1 as [|d l1 IH]; simpl; [done|]. rewrite IH. lia. Qed.

Lemma claims_cons ev events :
  claims (ev :: events) = claims [ev] ++ claims events.
Proof. unfold claims. simpl. by case_match. Qed.

Lemma bounty_step_claims s ev :
  0 <= s.(bs_claim_count) -> s.(bs_claim_count) + 1 <= u32_max ->
  0 <= s.(bs_claim_total) <= u128_max ->
  let s' := bounty_scan_step s ev in
  s'.(bs_claim_count) = s.(bs_claim_count) + Z.of_nat (length (claims [ev])) /\
  s'.(bs_claim_total) = Z.min u128_max (s.(bs_claim_total) + claims_total (claims [ev])) /\
  s'.(bs_saw_claim) = s.(bs_saw_claim) || (0 <? length (claims [ev]))%nat.
Proof.
  intros Hc Hc' Ht. unfold claims, bounty_scan_step, scan_first. simpl.
  destruct (String.eqb_spec (ev_key ev) KEY_BOUNTY_CLAIMED) as [->|Hne].
  - simpl. destruct (de_BountyClaimedEvent (ev_value ev)) as [[d]|]; simpl.
    2: { rewrite orb_false_r. split_and!; [lia|lia|done]. }
    rewrite as_u32_id by lia_int. rewrite orb_true_r. pose proof (claim_amount_range d).
    unfold claim_amount, saturating_add in *.
    destruct (parse_uint _ _); split_and!; try done; lia.
  - simpl. rewrite orb_false_r, Z.add_0_r, Z.add_0_r.
    rewrite Z.min_r by lia.
    repeat case_match; done.
Qed.

Lemma bounty_fold_claims events s :
  0 <= s.(bs_claim_count) ->
  s.(bs_claim_count) + Z.of_nat (length events) <= u32_max ->
  0 <= s.(bs_claim_total) <= u128_max ->
  let s' := fold_left bounty_scan_step events s in
  s'.(bs_claim_count) = s.(bs_claim_count) + Z.of_nat (length (claims events)) /\
  s'.(bs_claim_total) = Z.min u128_max (s.(bs_claim_total) + claims_total (claims events)) /\
  s'.(bs_saw_claim) = s.(bs_saw_claim) || (0 <? length (claims events))%nat.
Proof.
  revert s. induction events as [|ev events IH]; intros s Hc Hl Ht; simpl in *.
  { rewrite orb_false_r, !Z.add_0_r, Z.min_r by lia. done. }
  destruct (bounty_step_claims s ev) as (E1 & E2 & E3); [lia_int|lia_int|done|].
  assert (length (claims [ev]) <= 1)%nat as Hone by (unfold claims; simpl; case_match; simpl; lia).
  pose proof (claims_total_nonneg (claims [ev])).
  pose proof (claims_total_nonneg (claims events)).
  destruct (IH (bounty_scan_step s ev)) as (F1 & F2 & F3); [lia|lia|lia_int|].
  rewrite F1, F2, F3, E1, E2, E3, (claims_cons ev events), length_app, claims_total_app.
  split_and!; [lia|lia_int|].
  rewrite <- orb_assoc. f_equal.
  by destruct (claims [ev]).
Qed.

Lemma claims_hit events :
  claims events <> [] ->
  is_Some (bs_first (fold_left bounty_scan_step events bounty_scan_init)).
Proof.
  intros Hne. destruct (claims events) as [|d l] eqn:E; [done|].
  assert (d ∈ claims events) as Hin by (rewrite E; left).
  unfold claims in Hin. apply list_elem_of_omap in Hin as (ev & Hev & Hd).
  apply (fold_left_reaches bounty_scan_step (fun s => is_Some (bs_first s)) _ ev);
    [intros; by apply bounty_step_keeps| |done].
  intros s. destruct (String.eqb_spec (ev_key ev) KEY_BOUNTY_CLAIMED) as [Hk|]; [|done].
  destruct (de_BountyClaimedEvent (ev_value ev)) as [[d']|] eqn:Hd'; [|done].
  unfold bounty_scan_step. rewrite Hk, Hd'. simpl. destruct (bs_first s); simpl; eauto.
Qed.

(** Claim accounting.  When a transaction carries a decodable bounty claim, its
    bounty kind is [Claimed] with the exact number of claim events and, as text, their
    summed payouts saturated at the top of u128 (a payout that is not a u128 counts
    as zero); without one it is never [Claimed]. *)
Theorem classify_bounty_claims events :
  Z.of_nat (length events) <= u32_max ->
  match classify_bounty_events events with
  | Some (BountyEvent _ (BountyEventKind.Claimed count total_payout)) =>
      claims events <> [] /\ count = Z.of_nat (length (claims events)) /\
      parse_uint u128_max total_payout =
        Some (Z.min u128_max (claims_total (claims events)))
  | _ => claims events = []
  end.
Proof.
  intros Hl. unfold classify_bounty_events.
  destruct (bounty_fold_claims events bounty_scan_init) as (Hc & Ht & Hs);
    [done|done|done|].
  pose proof (claims_hit events) as Hhit.
  assert (forall id k, bs_first (fold_left bounty_scan_step events bounty_scan_init)
            = Some (id, k) -> forall n t, k <> BountyEventKind.Claimed n t) as Hno.
  { apply (fold_left_keeps bounty_scan_step (fun s => forall id k, bs_first s = Some (id, k)
      -> forall n t, k <> BountyEventKind.Claimed n t)); [done|].
    intros s ev _ IHs id k. unfold bounty_scan_step, scan_first.
    repeat case_match; try (by apply IHs); simpl;
      (destruct (bs_first s) as [[]|] eqn:Ef; simpl; [by intros; simplify_eq; eauto|];
       by intros; simplify_eq). }
  destruct (fold_left bounty_scan_step events bounty_scan_init) as [f n t b].
  simpl in *. pose proof (claims_total_nonneg (claims events)).
  destruct f as [[id k]|].
  2: { destruct (claims events); [done|]. by destruct Hhit. }
  rewrite Hs, Hc, Ht. destruct (claims events) as [|d l] eqn:E; simpl.
  - specialize (Hno id k eq_refl). destruct k; try done. by destruct (Hno count total_payout).
  - split_and!; [done|done|]. rewrite Z.add_0_l. apply parse_uint_to_string.
    simpl in *. lia_int.
Qed.

Lemma classify_events_finishes events `{BL : !Bech32Laws B} :
  exists k, classify_events value_to_string events = Done k.
Proof.
  unfold classify_events.
  assert (exists r, classify_attestation_events value_to_string events = Done r)
    as [[a|] ->]; [|simpl; eauto|simpl; repeat case_match; eauto].
  induction events as [|ev events IH]; simpl; [by eexists|].
  repeat case_match; eauto. exfalso. by eapply compute_attestation_id_no_panic.
Qed.

Lemma classify_tx_finishes tx events `{BL : !Bech32Laws B} :
  exists r, classify_tx value_to_string tx events = Done r.
Proof.
  unfold classify_tx. destruct (classify_events_finishes events) as [k ->].
  case_decide; simpl; eauto.
Qed.

(** A transaction is dropped exactly when its receipt is neither [successful] nor
    [reverted] (an unknown result fails closed); otherwise the classified transaction
    carries the ledger's hash, numbers and mapped outcome, whatever the events. *)
Theorem classify_tx_outcome tx events `{BL : !Bech32Laws B} :
  let result := tx.(tx_receipt).(rcpt_result) in
  (classify_tx value_to_string tx events = Done None <->
     result <> "successful" /\ result <> "reverted") /\
  (result = "successful" \/ result = "reverted" ->
     exists c, classify_tx value_to_string tx events = Done (Some c) /\
       ctx_hash c = tx.(tx_hash) /\ ctx_batch_number c = tx.(tx_batch_number) /\
       ctx_global_tx_number c = tx.(tx_number) /\
       ctx_outcome c = (if String.eqb result "successful" then Committed else Reverted)).
Proof.
  destruct (classify_events_finishes events) as [k Hk].
  unfold classify_tx, outcome_of. rewrite Hk. simpl.
  set (r := rcpt_result (tx_receipt tx)).
  destruct (String.eqb_spec r "successful"), (String.eqb_spec r "reverted");
    destruct (decide _); try done; subst; split; try (by split; intros; destruct_and?);
    intros; eauto 10; naive_solver.
Qed.
End ParserFacts.

(** ** Witnesses *)

Section ParserWitnesses.
#[local] Existing Instance Bip350.bech32m.
#[local] Existing Instance Bip350.bech32m_laws.
#[local] Existing Instance Fips180.sha2.

Definition mk_event (k : string) (v : Value) : LedgerEvent :=
  {| ev_type := "event"; ev_number := 0; ev_key := k; ev_value := v;
     ev_module := {| mr_type := "moduleRef"; mr_name := "m" |}; ev_tx_hash := "0xab" |}.

Definition sample_claim (payout : string) : BountyClaimedDetails :=
  {| bcd_bounty_id := "lbt1x"; bcd_attestation_id := "lat1x"; bcd_payout := payout;
     bcd_attester := "lig1x" |}.

Definition claim_event (payout : string) : LedgerEvent :=
  mk_event "Bounty/BountyClaimed" (wire_value (WBountyClaimed (sample_claim payout))).

Definition sample_transfer : BankTransferDetails :=
  {| btd_from := {| ma_user := "lig1a" |}; btd_to := {| ma_user := "lig1b" |};
     btd_coins := {| coins_amount := "7"; coins_token_id := "token_1" |} |}.
Definition transfer_event : LedgerEvent :=
  mk_event "Bank/TokenTransferred" (wire_value (WTransfer sample_transfer)).

Definition fee_event : LedgerEvent := mk_event KEY_BANK_TOKEN_TRANSFERRED JNull.

Definition toy_print (_ : Value) : string := "{}".

Lemma classify_events_precedence_witness :
  (kind_rank (BountyEvent "lbt1x" (BountyEventKind.Claimed 1 "25"))
   <= kind_rank (wire_tx toy_print (WBountyClaimed (sample_claim "25"))))%nat.
Proof.
  apply (classify_events_precedence toy_print [fee_event; claim_event "25"] _
           (claim_event "25")).
  - vm_compute. reflexivity.
  - right. left.
  - repeat split.
Defined.

(** A claim between two fees, and a plain transfer. *)
Lemma classify_events_recognises_witness :
  classify_events toy_print ([fee_event] ++ claim_event "25" :: [fee_event]) =
    Done (BountyEvent "lbt1x" (BountyEventKind.Claimed 1 "25")) /\
  classify_events toy_print ([] ++ transfer_event :: [fee_event]) =
    Done (Transfer {| tr_from := "lig1a"; tr_to := "lig1b"; tr_amount_nano := "7";
                      tr_token_id := "token_1" |}).
Proof.
  split.
  - apply (classify_events_recognises toy_print [fee_event] (claim_event "25") [fee_event]
             (WBountyClaimed (sample_claim "25")));
      [repeat split|repeat constructor|repeat constructor|discriminate].
  - apply (classify_events_recognises toy_print [] transfer_event [fee_event]
             (WTransfer sample_transfer));
      [repeat split|constructor|repeat constructor|constructor].
Defined.

Lemma classify_bounty_claims_witness :
  match classify_bounty_events [claim_event "25"; fee_event; claim_event "17"] with
  | Some (BountyEvent _ (BountyEventKind.Claimed count total_payout)) =>
      claims [claim_event "25"; fee_event; claim_event "17"] <> [] /\
      count = 2 /\
      parse_uint u128_max total_payout =
        Some (Z.min u128_max (claims_total (claims [claim_event "25"; fee_event;
                                                    claim_event "17"])))
  | _ => claims [claim_event "25"; fee_event; claim_event "17"] = []
  end.
Proof. apply (classify_bounty_claims [claim_event "25"; fee_event; claim_event "17"]). done.
Defined.

Definition sample_tx (res : string) : LedgerTx :=
  {| tx_type := "tx"; tx_hash := "0xab"; tx_number := 5;
     tx_event_range := {| rng_start := 0; rng_end := 1 |};
     tx_body := {| fbt_data := ""; fbt_sequencing_data := None |};
     tx_receipt := {| rcpt_result := res; rcpt_data := JNull |};
     tx_events := []; tx_batch_number := 1 |}.

Lemma classify_tx_outcome_witness :
  exists c, classify_tx toy_print (sample_tx "reverted") [claim_event "25"] = Done (Some c) /\
    ctx_hash c = "0xab" /\ ctx_batch_number c = 1 /\ ctx_global_tx_number c = 5 /\
    ctx_outcome c = Reverted.
Proof.
  apply (classify_tx_outcome toy_print (sample_tx "reverted") [claim_event "25"]).
  right. reflexivity.
Defined.
End ParserWitnesses.
