(* ===== verification/Schema.v ===== *)
(** * The Postgres schema ([migrations/*.sql])

    One record per table, tables as finite maps keyed by their primary key (or by the
    unique index the statements arbitrate on), and the constraints of the migrations
    as decidable checks.  [db_ok] is their conjunction over a whole database. *)

From S2P Require Import Prelude Json.
From stdpp Require Export fin_maps.
Open Scope string_scope.
Open Scope list_scope.
Open Scope Z_scope.

(** Times are milliseconds since the epoch; a nullable column is an [option]. *)

Record SlotRow := {
  sl_hash : string; sl_prev_hash : option string; sl_state_root : option string;
  sl_timestamp : Z; sl_batch_count : Z; sl_tx_count : Z; sl_proposer : option string;
  sl_finality_status : option string; sl_finalized_at : option Z; sl_raw : Value;
  sl_da_block_height : option Z; sl_indexed_at : Z }.

Record TxRow := {
  tr_slot : Z; tr_position : Z; tr_sender : option string;
  tr_sender_pubkey : option string; tr_nonce : option Z; tr_fee_paid_nano : option Z;
  tr_protocol_fee_nano : option Z; tr_kind : string; tr_details : Value; tr_raw : Value;
  tr_outcome : string; tr_revert_reason : option string; tr_indexed_at : Z }.

Record AttestorSetRow := {
  as_members : Value; as_threshold : Z; as_registered_at_slot : Z;
  as_registered_at_tx : string; as_registered_at_timestamp : Z; as_schema_count : Z;
  as_indexed_at : Z }.

Record SchemaRow := {
  sc_name : string; sc_version : Z; sc_owner : string; sc_attestor_set_id : string;
  sc_fee_routing_bps : Z; sc_fee_routing_addr : option string;
  sc_payload_shape_hash : string; sc_registered_at_slot : Z; sc_registered_at_tx : string;
  sc_registered_at_timestamp : Z; sc_attestation_count : Z; sc_indexed_at : Z }.

Record AttestationRow := {
  at_schema_id : string; at_payload_hash : string; at_submitter : string;
  at_submitter_pubkey : option string; at_submitted_at_slot : Z;
  at_submitted_at_tx : string; at_submitted_at_timestamp : Z; at_signature_count : Z;
  at_indexed_at : Z }.

Record AddressRow := {
  ad_txs_sent_count : Z; ad_txs_received_count : Z;
  ad_first_seen_slot : option Z; ad_first_seen_tx : option string;
  ad_first_seen_timestamp : option Z;
  ad_last_seen_slot : option Z; ad_last_seen_tx : option string;
  ad_last_seen_timestamp : option Z;
  ad_schemas_owned_count : Z; ad_attestor_member_count : Z; ad_indexed_at : Z }.

Record BountyRow := {
  bo_poster : string; bo_board_schema_id : string; bo_pool_nano : string;
  bo_per_attestation_nano : string; bo_escrow_remaining_nano : string; bo_status : string;
  bo_acceptance : Value; bo_expiry_da_height : Z; bo_dispute_window_blocks : Z;
  bo_posted_at_slot : Z; bo_posted_at_tx : string; bo_posted_at_timestamp : Z;
  bo_claim_count : Z; bo_last_claim_at_slot : option Z }.

Record ContractRow := {
  co_poster : string; co_arbiter : string; co_criteria_doc_hash : string;
  co_pool_nano : string; co_escrow_remaining_nano : string; co_arbiter_fee_bps : Z;
  co_status : string; co_expiry_da_height : Z; co_dispute_window_blocks : Z;
  co_posted_at_slot : Z; co_posted_at_tx : string; co_posted_at_timestamp : Z }.

Record DB := {
  slots : gmap Z SlotRow;
  transactions : gmap string TxRow;
  attestor_sets : gmap string AttestorSetRow;
  schemas : gmap string SchemaRow;
  attestations : gmap string AttestationRow;
  address_summaries : gmap string AddressRow;
  bounties : gmap string BountyRow;
  contracts : gmap string ContractRow;
  indexer_state : gmap string string
}.

Definition empty_db : DB :=
  {| slots := ∅; transactions := ∅; attestor_sets := ∅; schemas := ∅; attestations := ∅;
     address_summaries := ∅; bounties := ∅; contracts := ∅; indexer_state := ∅ |}.

Definition with_slots (t : gmap Z SlotRow) (d : DB) : DB :=
  {| slots := t; transactions := d.(transactions); attestor_sets := d.(attestor_sets);
     schemas := d.(schemas); attestations := d.(attestations);
     address_summaries := d.(address_summaries); bounties := d.(bounties);
     contracts := d.(contracts); indexer_state := d.(indexer_state) |}.
Definition with_transactions (t : gmap string TxRow) (d : DB) : DB :=
  {| slots := d.(slots); transactions := t; attestor_sets := d.(attestor_sets);
     schemas := d.(schemas); attestations := d.(attestations);
     address_summaries := d.(address_summaries); bounties := d.(bounties);
     contracts := d.(contracts); indexer_state := d.(indexer_state) |}.
Definition with_attestor_sets (t : gmap string AttestorSetRow) (d : DB) : DB :=
  {| slots := d.(slots); transactions := d.(transactions); attestor_sets := t;
     schemas := d.(schemas); attestations := d.(attestations);
     address_summaries := d.(address_summaries); bounties := d.(bounties);
     contracts := d.(contracts); indexer_state := d.(indexer_state) |}.
Definition with_schemas (t : gmap string SchemaRow) (d : DB) : DB :=
  {| slots := d.(slots); transactions := d.(transactions);
     attestor_sets := d.(attestor_sets); schemas := t; attestations := d.(attestations);
     address_summaries := d.(address_summaries); bounties := d.(bounties);
     contracts := d.(contracts); indexer_state := d.(indexer_state) |}.
Definition with_attestations (t : gmap string AttestationRow) (d : DB) : DB :=
  {| slots := d.(slots); transactions := d.(transactions);
     attestor_sets := d.(attestor_sets); schemas := d.(schemas); attestations := t;
     address_summaries := d.(address_summaries); bounties := d.(bounties);
     contracts := d.(contracts); indexer_state := d.(indexer_state) |}.
Definition with_address_summaries (t : gmap string AddressRow) (d : DB) : DB :=
  {| slots := d.(slots); transactions := d.(transactions);
     attestor_sets := d.(attestor_sets); schemas := d.(schemas);
     attestations := d.(attestations); address_summaries := t; bounties := d.(bounties);
     contracts := d.(contracts); indexer_state := d.(indexer_state) |}.
Definition with_bounties (t : gmap string BountyRow) (d : DB) : DB :=
  {| slots := d.(slots); transactions := d.(transactions);
     attestor_sets := d.(attestor_sets); schemas := d.(schemas);
     attestations := d.(attestations); address_summaries := d.(address_summaries);
     bounties := t; contracts := d.(contracts); indexer_state := d.(indexer_state) |}.
Definition with_contracts (t : gmap string ContractRow) (d : DB) : DB :=
  {| slots := d.(slots); transactions := d.(transactions);
     attestor_sets := d.(attestor_sets); schemas := d.(schemas);
     attestations := d.(attestations); address_summaries := d.(address_summaries);
     bounties := d.(bounties); contracts := t; indexer_state := d.(indexer_state) |}.
Definition with_indexer_state (t : gmap string string) (d : DB) : DB :=
  {| slots := d.(slots); transactions := d.(transactions);
     attestor_sets := d.(attestor_sets); schemas := d.(schemas);
     attestations := d.(attestations); address_summaries := d.(address_summaries);
     bounties := d.(bounties); contracts := d.(contracts); indexer_state := t |}.

(** ** Constraints

    Row constraints ([CHECK]) are Boolean functions named after the migration's
    constraint; references and uniqueness quantify over the database. *)

Definition one_of (s : string) (l : list string) : bool := bool_decide (s ∈ l).

Definition transactions_kind_known (kind : string) : bool :=
  one_of kind ["transfer"; "register_attestor_set"; "register_schema";
               "submit_attestation"; "bounty_event"; "contract_event"; "unknown"].
Definition transactions_outcome_known (outcome : string) : bool :=
  one_of outcome ["committed"; "reverted"].
Definition transactions_revert_reason_consistent (outcome : string)
    (revert_reason : option string) : bool :=
  (String.eqb outcome "reverted" && bool_decide (is_Some revert_reason))
  || (String.eqb outcome "committed" && bool_decide (revert_reason = None)).

Definition tx_row_ok (r : TxRow) : bool :=
  transactions_kind_known r.(tr_kind) && transactions_outcome_known r.(tr_outcome)
  && transactions_revert_reason_consistent r.(tr_outcome) r.(tr_revert_reason).

Definition attestor_set_row_ok (r : AttestorSetRow) : bool :=
  (1 <=? r.(as_threshold)) && (r.(as_threshold) <=? 64) && (0 <=? r.(as_schema_count)).

Definition schema_row_ok (r : SchemaRow) : bool :=
  (0 <=? r.(sc_fee_routing_bps)) && (r.(sc_fee_routing_bps) <=? 10000)
  && (((0 <? r.(sc_fee_routing_bps)) && bool_decide (is_Some r.(sc_fee_routing_addr)))
      || ((r.(sc_fee_routing_bps) =? 0) && bool_decide (r.(sc_fee_routing_addr) = None)))
  && (0 <=? r.(sc_attestation_count)).

Definition attestation_row_ok (r : AttestationRow) : bool := 1 <=? r.(at_signature_count).

Definition all_or_nothing (a : option Z) (b : option string) (c : option Z) : bool :=
  match a, b, c with
  | None, None, None | Some _, Some _, Some _ => true
  | _, _, _ => false
  end.

Definition address_row_ok (r : AddressRow) : bool :=
  (0 <=? r.(ad_txs_sent_count)) && (0 <=? r.(ad_txs_received_count))
  && (0 <=? r.(ad_schemas_owned_count)) && (0 <=? r.(ad_attestor_member_count))
  && all_or_nothing r.(ad_first_seen_slot) r.(ad_first_seen_tx) r.(ad_first_seen_timestamp)
  && all_or_nothing r.(ad_last_seen_slot) r.(ad_last_seen_tx) r.(ad_last_seen_timestamp).

Definition bounty_row_ok (r : BountyRow) : bool :=
  one_of r.(bo_status) ["open"; "exhausted"; "expired"; "cancelled"; "finalised"].

Definition contract_row_ok (r : ContractRow) : bool :=
  one_of r.(co_status) ["open"; "committed"; "delivered"; "accepted"; "rejected";
                        "disputed"; "cancelled"; "expired"].

(** [REFERENCES]. *)
Definition has_slot (d : DB) (h : Z) : Prop := is_Some (d.(slots) !! h).
Definition has_tx (d : DB) (h : string) : Prop := is_Some (d.(transactions) !! h).
Definition has_attestor_set (d : DB) (i : string) : Prop := is_Some (d.(attestor_sets) !! i).
Definition has_schema (d : DB) (i : string) : Prop := is_Some (d.(schemas) !! i).

Definition tx_refs (d : DB) (r : TxRow) : Prop := has_slot d r.(tr_slot).
Definition attestor_set_refs (d : DB) (r : AttestorSetRow) : Prop :=
  has_slot d r.(as_registered_at_slot) /\ has_tx d r.(as_registered_at_tx).
Definition schema_refs (d : DB) (r : SchemaRow) : Prop :=
  has_attestor_set d r.(sc_attestor_set_id) /\ has_slot d r.(sc_registered_at_slot) /\
  has_tx d r.(sc_registered_at_tx).
Definition attestation_refs (d : DB) (r : AttestationRow) : Prop :=
  has_schema d r.(at_schema_id) /\ has_slot d r.(at_submitted_at_slot) /\
  has_tx d r.(at_submitted_at_tx).
Definition bounty_refs (d : DB) (r : BountyRow) : Prop := has_schema d r.(bo_board_schema_id).

#[export] Instance tx_refs_dec d r : Decision (tx_refs d r).
Proof. unfold tx_refs, has_slot. apply _. Defined.
#[export] Instance attestor_set_refs_dec d r : Decision (attestor_set_refs d r).
Proof. unfold attestor_set_refs, has_slot, has_tx. apply _. Defined.
#[export] Instance schema_refs_dec d r : Decision (schema_refs d r).
Proof. unfold schema_refs, has_attestor_set, has_slot, has_tx. apply _. Defined.
#[export] Instance attestation_refs_dec d r : Decision (attestation_refs d r).
Proof. unfold attestation_refs, has_schema, has_slot, has_tx. apply _. Defined.
#[export] Instance bounty_refs_dec d r : Decision (bounty_refs d r).
Proof. unfold bounty_refs, has_schema. apply _. Defined.

(** [UNIQUE] beside the key: no other row of the table has the same columns. *)
Definition unique_in {K V A} `{Countable K} `{EqDecision A} (key : V -> A)
    (k : K) (v : V) (t : gmap K V) : Prop :=
  map_Forall (fun k' v' => k' = k \/ key v' <> key v) t.

#[export] Instance unique_in_dec {K V A} `{Countable K} `{EqDecision A} (key : V -> A) (k : K) v t :
  Decision (unique_in key k v t).
Proof. unfold unique_in. apply _. Defined.

Definition slot_position (r : TxRow) : Z * Z := (r.(tr_slot), r.(tr_position)).
Definition owner_name_version (r : SchemaRow) : string * string * Z :=
  (r.(sc_owner), r.(sc_name), r.(sc_version)).
Definition attestation_pkey (r : AttestationRow) : string * string * string :=
  (r.(at_schema_id), r.(at_payload_hash), r.(at_submitted_at_tx)).

Definition table_unique {K V A} `{Countable K} (key : V -> A) (t : gmap K V) : Prop :=
  forall k1 k2 v1 v2, t !! k1 = Some v1 -> t !! k2 = Some v2 -> key v1 = key v2 -> k1 = k2.

Lemma table_unique_insert {K V A} `{Countable K} `{EqDecision A} (key : V -> A) t (k : K) v :
  table_unique key t -> unique_in key k v t -> table_unique key (<[k := v]> t).
Proof.
  intros Ht Hu k1 k2 v1 v2. rewrite !lookup_insert.
  destruct (decide (k = k1)), (decide (k = k2)); subst; try done; intros H1 H2 He;
    simplify_eq.
  - destruct (Hu _ _ H2) as [|Hn]; congruence.
  - destruct (Hu _ _ H1) as [|Hn]; congruence.
  - by eapply Ht.
Qed.

(** A database that satisfies every constraint of the migrations. *)
Record db_ok (d : DB) : Prop := {
  ok_tx_rows : map_Forall (fun _ r => tx_row_ok r = true) d.(transactions);
  ok_tx_refs : map_Forall (fun _ r => tx_refs d r) d.(transactions);
  ok_tx_unique : table_unique slot_position d.(transactions);
  ok_set_rows : map_Forall (fun _ r => attestor_set_row_ok r = true) d.(attestor_sets);
  ok_set_refs : map_Forall (fun _ r => attestor_set_refs d r) d.(attestor_sets);
  ok_schema_rows : map_Forall (fun _ r => schema_row_ok r = true) d.(schemas);
  ok_schema_refs : map_Forall (fun _ r => schema_refs d r) d.(schemas);
  ok_schema_unique : table_unique owner_name_version d.(schemas);
  ok_att_rows : map_Forall (fun _ r => attestation_row_ok r = true) d.(attestations);
  ok_att_refs : map_Forall (fun _ r => attestation_refs d r) d.(attestations);
  ok_att_unique : table_unique attestation_pkey d.(attestations);
  ok_address_rows : map_Forall (fun _ r => address_row_ok r = true) d.(address_summaries);
  ok_bounty_rows : map_Forall (fun _ r => bounty_row_ok r = true) d.(bounties);
  ok_bounty_refs : map_Forall (fun _ r => bounty_refs d r) d.(bounties);
  ok_contract_rows : map_Forall (fun _ r => contract_row_ok r = true) d.(contracts)
}.

Lemma db_ok_empty : db_ok empty_db.
Proof. split; try apply map_Forall_empty; intros k1 k2 v1 v2 H; done. Qed.
