(* ===== verification/Io.v ===== *)
(** * Effects

    The indexer is two tasks that send HTTP requests and SQL statements.  [Env] answers
    one of them: what the node replies, what [NOW()] reads, which statements the database
    loses, and what the other task did to the database since the last statement; nothing
    is assumed about it.  [IO] threads the database and a tick; a computation may panic.
    [evolves R] is a rely-guarantee judgement: if the other task only makes [R]-steps, so
    does the program, whatever the environment answers. *)

From S2P Require Import Prelude Schema.
Open Scope Z_scope.

(** A statement may be refused before it runs, or run and its acknowledgement be lost. *)
Inductive Fault := NoFault | Refused | AckLost.

Inductive HttpReply := NoReply | Reply (status : Z) (body : string).

Record Env := {
  env_http : nat -> option string -> string -> HttpReply;
  env_now : nat -> Z;
  env_fault : nat -> Fault;
  env_other : nat -> DB -> DB
}.

Record World := { w_db : DB; w_tick : nat }.

Definition IO (A : Type) : Type := Env -> World -> outcome A * World.

#[export] Instance io_ret : MRet IO := fun _ a _ w => (Done a, w).
#[export] Instance io_bind : MBind IO := fun _ _ k m e w =>
  match m e w with
  | (Done a, w') => k a e w'
  | (Panicked, w') => (Panicked, w')
  end.

Definition lift {A} (o : outcome A) : IO A := fun _ w => (o, w).

Definition tick (w : World) : World := {| w_db := w.(w_db); w_tick := S w.(w_tick) |}.

(** [GET url], with an optional bearer token. *)
Definition http_get (token : option string) (url : string) : IO HttpReply :=
  fun e w => (Done (e.(env_http) w.(w_tick) token url), tick w).

(** [Utc::now()], and the clock a loop sleeps on. *)
Definition io_now : IO Z := fun e w => (Done (e.(env_now) w.(w_tick)), tick w).

Inductive DbError :=
| ConnectionLost
| CheckViolation
| ForeignKeyViolation
| UniqueViolation
| NumericValueOutOfRange
| InvalidText.

(** A statement reads [NOW()] and the database and gives the new database and a
    result, or an error and no change. *)
Definition Stmt (A : Type) : Type := Z -> DB -> result DbError (A * DB).

Definition exec {A} (s : Stmt A) : IO (result DbError A) :=
  fun e w =>
    let d := e.(env_other) w.(w_tick) w.(w_db) in
    let same := {| w_db := d; w_tick := S w.(w_tick) |} in
    match e.(env_fault) w.(w_tick) with
    | Refused => (Done (Err ConnectionLost), same)
    | f =>
        match s (e.(env_now) w.(w_tick)) d with
        | Err err => (Done (Err err), same)
        | Ok (a, d') =>
            let w' := {| w_db := d'; w_tick := S w.(w_tick) |} in
            match f with
            | AckLost => (Done (Err ConnectionLost), w')
            | _ => (Done (Ok a), w')
            end
        end
    end.

(** ** Lifting invariants to programs *)

(** [R] relates the database before a program to the database after it, whatever the
    environment answers. *)
Definition rely (R : relation DB) (e : Env) : Prop := forall t d, R d (e.(env_other) t d).

Definition evolves {A} (R : relation DB) (m : IO A) : Prop :=
  forall e w, rely R e -> R w.(w_db) (m e w).2.(w_db).

Definition stmt_evolves {A} (R : relation DB) (s : Stmt A) : Prop :=
  forall now d a d', s now d = Ok (a, d') -> R d d'.

(** An invariant is the relation "if it held before, it holds after". *)
Definition keeping (P : DB -> Prop) : relation DB := fun d d' => P d -> P d'.
Abbreviation keeps P := (evolves (keeping P)).
Abbreviation stmt_keeps P := (stmt_evolves (keeping P)).

#[export] Instance keeping_preorder P : PreOrder (keeping P).
Proof. split; unfold keeping; [by intros d|intros x y z; auto]. Qed.

(** Whenever the program gives a value, [P] holds of it. *)
Definition gives {A} (P : A -> Prop) (m : IO A) : Prop :=
  forall e w a w', m e w = (Done a, w') -> P a.

Lemma gives_ret {A} (P : A -> Prop) a : P a -> gives P (mret a).
Proof. intros Hp e w a' w' [= <- <-]. done. Qed.
Lemma gives_bind {A B} (P : B -> Prop) (m : IO A) (k : A -> IO B) :
  (forall a, gives P (k a)) -> gives P (m ≫= k).
Proof.
  intros Hk e w b w'. unfold mbind, io_bind. destruct (m e w) as [[a|] w1]; [apply Hk|done].
Qed.

Create HintDb io discriminated.

Section Evolves.
Context (R : relation DB) `{!PreOrder R}.

Lemma evolves_ret {A} (a : A) : evolves R (mret a : IO A).
Proof. intros e w _. simpl. reflexivity. Qed.

Lemma evolves_lift {A} (o : outcome A) : evolves R (lift o).
Proof. intros e w _. simpl. reflexivity. Qed.

Lemma evolves_bind {A B} (m : IO A) (k : A -> IO B) :
  evolves R m -> (forall a, evolves R (k a)) -> evolves R (m ≫= k).
Proof.
  intros Hm Hk e w He. unfold mbind, io_bind. specialize (Hm e w He).
  destruct (m e w) as [[a|] w']; simpl in *; [|done].
  etrans; [done|by apply Hk].
Qed.

(** What holds of the value a program gives. *)
Lemma evolves_bind_gives {A B} (P : A -> Prop) (m : IO A) (k : A -> IO B) :
  evolves R m -> gives P m -> (forall a, P a -> evolves R (k a)) -> evolves R (m ≫= k).
Proof.
  intros Hm Hg Hk e w He. unfold mbind, io_bind. specialize (Hm e w He).
  specialize (Hg e w). destruct (m e w) as [[a|] w']; simpl in *; [|done].
  etrans; [done|]. apply Hk; [by eapply Hg|done].
Qed.

Lemma evolves_http t url : evolves R (http_get t url).
Proof. intros e w _. simpl. reflexivity. Qed.

Lemma evolves_now : evolves R io_now.
Proof. intros e w _. simpl. reflexivity. Qed.

Lemma evolves_exec {A} (s : Stmt A) : stmt_evolves R s -> evolves R (exec s).
Proof.
  intros Hs e w He. unfold exec.
  pose proof (He (w_tick w) (w_db w)) as Ho.
  destruct (env_fault e (w_tick w)); simpl; try done;
    (destruct (s _ _) as [[a d]|err] eqn:E; simpl; [|done]);
    (etrans; [exact Ho|]; by eapply Hs).
Qed.
End Evolves.

#[export] Hint Resolve evolves_ret evolves_lift evolves_http evolves_now : io.

(** [io_steps] walks through a program: binds, matches and the hints of the database
    [io]; what remains are the programs no hint covers. *)
Ltac io_steps :=
  repeat first
    [ progress intros
    | solve [eauto with io nocore typeclass_instances]
    | apply evolves_bind; [try apply _| |]
    | progress (cbv beta iota zeta)
    | case_match ].

(** *** Runs

    An environment without faults and without a second writer. *)
Definition calm (e : Env) : Prop :=
  (forall t, e.(env_fault) t = NoFault) /\ (forall t d, e.(env_other) t d = d).

Lemma exec_calm {A} (s : Stmt A) e w :
  calm e ->
  exec s e w =
  match s (e.(env_now) w.(w_tick)) w.(w_db) with
  | Err err => (Done (Err err), {| w_db := w.(w_db); w_tick := S w.(w_tick) |})
  | Ok (a, d) => (Done (Ok a), {| w_db := d; w_tick := S w.(w_tick) |})
  end.
Proof. intros [Hf Ho]. unfold exec. rewrite Hf, Ho. by destruct (s _ _) as [[]|]. Qed.


Lemma io_bind_done {A B} (m : IO A) (k : A -> IO B) e w a w' :
  m e w = (Done a, w') -> (m ≫= k) e w = k a e w'.
Proof. intros H. unfold mbind, io_bind. by rewrite H. Qed.

(** *** Panics *)

Definition no_panic {A} (m : IO A) : Prop := forall e w, exists a w', m e w = (Done a, w').

Lemma no_panic_ret {A} (a : A) : no_panic (mret a : IO A).
Proof. intros e w. by eexists _, _. Qed.

Lemma no_panic_bind {A B} (m : IO A) (k : A -> IO B) :
  no_panic m -> (forall a, no_panic (k a)) -> no_panic (m ≫= k).
Proof.
  intros Hm Hk e w. destruct (Hm e w) as (a & w' & Ha).
  rewrite (io_bind_done _ _ _ _ _ _ Ha). apply Hk.
Qed.

Lemma no_panic_lift {A} (o : outcome A) : o <> Panicked -> no_panic (lift o).
Proof. intros Ho e w. unfold lift. destruct o; [eauto|done]. Qed.

Lemma no_panic_http t u : no_panic (http_get t u).
Proof. intros e w. by eexists _, _. Qed.

Lemma no_panic_exec {A} (s : Stmt A) : no_panic (exec s).
Proof.
  intros e w. unfold exec.
  destruct (env_fault _ _); [|by eexists _, _|]; destruct (s _ _) as [[]|]; by eexists _, _.
Qed.

#[export] Hint Resolve no_panic_ret no_panic_http no_panic_exec : io.

(** *** Queries

    A [SELECT] reads the tables as the writers have left them by then, or fails. *)
Definition query {A} (f : DB -> A) : IO (result DbError A) := exec (fun _ d => Ok (f d, d)).

Lemma query_evolves R `{!PreOrder R} {A} (f : DB -> A) : evolves R (query f).
Proof. apply evolves_exec; [done|]. intros now d a d' [= _ <-]. reflexivity. Qed.

Lemma query_ret_evolves R `{!PreOrder R} {A B} (f : DB -> A) (k : result DbError A -> B) :
  evolves R (r ← query f; mret (k r)).
Proof.
  apply evolves_bind; [done|by apply query_evolves|]. intros r. by apply evolves_ret.
Qed.

Lemma query_calm {A} (f : DB -> A) e w :
  calm e -> query f e w = (Done (Ok (f w.(w_db))), tick w).
Proof. intros He. unfold query. by rewrite exec_calm. Qed.
