(* ===== verification/Db.v ===== *)
(** * Database statements ([crates/indexer/src/db.rs])

    Each helper of the Rust file, with the SQL text it executes translated onto the
    tables of [Schema]: the proposed row, the row constraints, the conflict arm, the
    references.  A statement either gives the new database or an error and no change. *)

From S2P Require Import Prelude Json Types Standards AttestationId Decode Parser Schema Io.
From stdpp Require Import sorting.
Open Scope string_scope.
Open Scope list_scope.
Open Scope Z_scope.

Definition KEY_LAST_INDEXED_HEIGHT : string := "last_indexed_height".
Definition KEY_CHAIN_ID : string := "chain_id".
Definition KEY_CHAIN_HASH : string := "chain_hash".
Definition KEY_NODE_VERSION : string := "node_version".

(** ** The pieces of a statement *)

(** [INSERT ... ON CONFLICT (key) DO UPDATE]: the row constraints are checked on the
    proposed row before arbitration and on the row that is stored. *)
Definition upsert {K V} `{Countable K} (row_ok : V -> bool) (k : K) (proposed : V)
    (on_conflict : V -> result DbError V) (t : gmap K V) : result DbError V :=
  if row_ok proposed then
    match t !! k with
    | None => Ok proposed
    | Some old =>
        row ← on_conflict old;
        if row_ok row then Ok row else Err CheckViolation
    end
  else Err CheckViolation.

Definition require (P : Prop) `{Decision P} (e : DbError) : result DbError unit :=
  if decide P then Ok tt else Err e.

(** [UPDATE ... WHERE key = k]: no row, no change. *)
Definition update_key {K V} `{Countable K} (row_ok : V -> bool) (k : K)
    (set : V -> result DbError V) (t : gmap K V) : result DbError (gmap K V) :=
  match t !! k with
  | None => Ok t
  | Some old =>
      row ← set old;
      if row_ok row then Ok (<[k := row]> t) else Err CheckViolation
  end.

(** Integer columns overflow with an error. *)
Definition sql_add (min max a b : Z) : result DbError Z :=
  if (min <=? a + b) && (a + b <=? max) then Ok (a + b) else Err NumericValueOutOfRange.
Definition add_int4 : Z -> Z -> result DbError Z := sql_add i32_min i32_max.
Definition add_int8 : Z -> Z -> result DbError Z := sql_add i64_min i64_max.

(** [COALESCE(a, b)]. *)
Definition coalesce {A} (a b : option A) : option A :=
  match a with Some _ => a | None => b end.

Definition no_check {V} (_ : V) : bool := true.

(** [SELECT] leaves the database alone. *)
Definition select {A} (f : DB -> A) : Stmt A := fun _ d => Ok (f d, d).

(** Postgres arithmetic on [NUMERIC] texts: [(a::numeric - b::numeric)::text], [None]
    when a text is not a number. *)
Class PgNumeric := numeric_sub : string -> string -> option string.
Definition numeric_max : Z := 10 ^ 1000.
Class PgNumericLaws (N : PgNumeric) :=
  numeric_sub_int a b :
    Z.abs a <= numeric_max -> Z.abs b <= numeric_max ->
    numeric_sub (to_string a) (to_string b) = Some (to_string (a - b)).

(** chrono's [Utc.timestamp_millis_opt(ms).single()], as milliseconds. *)
Class Chrono := timestamp_millis_opt : Z -> option Z.

(** ** indexer_state *)

Definition upsert_state (key value : string) : Stmt unit := fun _ d =>
  Ok (tt, with_indexer_state (<[key := value]> d.(indexer_state)) d).

(** The three upserts run in one transaction. *)
Definition write_chain_identity (info : RollupInfo) : Stmt unit := fun now d =>
  '(_, d1) ← upsert_state KEY_CHAIN_ID info.(info_chain_id) now d;
  '(_, d2) ← upsert_state KEY_CHAIN_HASH info.(info_chain_hash) now d1;
  upsert_state KEY_NODE_VERSION info.(info_version) now d2.

Definition read_last_indexed_height : Stmt (option Z) :=
  select (fun d => s ← d.(indexer_state) !! KEY_LAST_INDEXED_HEIGHT; parse_uint u64_max s).

Definition write_last_indexed_height (height : Z) : Stmt unit :=
  upsert_state KEY_LAST_INDEXED_HEIGHT (to_string height).

(** ** slots *)

Definition FINALIZED : string := "finalized".
Definition PENDING : string := "pending".

Section Slots.
Context `{Chrono}.

Definition slot_timestamp_of (slot : SlotResponse) : Z :=
  match (ms ← slot.(slot_timestamp); timestamp_millis_opt (as_i64 ms)) with
  | Some t => t
  | None => 0
  end.

Definition slot_proposed (slot : SlotResponse) (prev_hash proposer : option string)
    (da_block_height : option Z) (now : Z) : SlotRow :=
  {| sl_hash := slot.(slot_hash); sl_prev_hash := prev_hash;
     sl_state_root := slot.(slot_state_root); sl_timestamp := slot_timestamp_of slot;
     sl_batch_count := as_i32 (default 0 slot.(slot_batch_count));
     sl_tx_count := as_i32 (default 0 slot.(slot_tx_count)); sl_proposer := proposer;
     sl_finality_status := slot.(slot_finality_status);
     sl_finalized_at :=
       if decide (slot.(slot_finality_status) = Some FINALIZED) then Some now else None;
     sl_raw := ser_SlotResponse slot; sl_da_block_height := da_block_height;
     sl_indexed_at := now |}.

(** The conflict arm: [new] is [EXCLUDED], [old] the stored row. *)
Definition slot_merge (now : Z) (new old : SlotRow) : SlotRow :=
  {| sl_hash := new.(sl_hash);
     sl_prev_hash := coalesce new.(sl_prev_hash) old.(sl_prev_hash);
     sl_state_root := new.(sl_state_root); sl_timestamp := new.(sl_timestamp);
     sl_batch_count := new.(sl_batch_count); sl_tx_count := new.(sl_tx_count);
     sl_proposer := coalesce new.(sl_proposer) old.(sl_proposer);
     sl_finality_status := new.(sl_finality_status);
     sl_finalized_at :=
       if decide (old.(sl_finality_status) <> Some FINALIZED /\
                  new.(sl_finality_status) = Some FINALIZED)
       then Some now else old.(sl_finalized_at);
     sl_raw := new.(sl_raw);
     sl_da_block_height := coalesce new.(sl_da_block_height) old.(sl_da_block_height);
     sl_indexed_at := now |}.

Definition upsert_slot_stmt (slot : SlotResponse) (prev_hash proposer : option string)
    (da_block_height : option Z) : Stmt unit := fun now d =>
  let k := as_i64 slot.(slot_number) in
  let new := slot_proposed slot prev_hash proposer da_block_height now in
  row ← upsert no_check k new (fun old => Ok (slot_merge now new old)) d.(slots);
  Ok (tt, with_slots (<[k := row]> d.(slots)) d).

(** The chain's [prev_hash], or the stored hash of the slot below; a failed lookup
    reads as none. *)
Definition upsert_slot (slot : SlotResponse) (proposer : option string)
    (da_block_height : option Z) : IO (result DbError unit) :=
  prev_hash ←
    match slot.(slot_prev_hash) with
    | Some h => mret (Some h)
    | None =>
        if 0 <? slot.(slot_number) then
          r ← exec (select (fun d =>
                sl_hash <$> d.(slots) !! as_i64 (slot.(slot_number) - 1)));
          mret (result_ok r ≫= id)
        else mret None
    end;
  exec (upsert_slot_stmt slot prev_hash proposer da_block_height).
End Slots.

Definition flip_pending_stmt (height : Z) : Stmt Z := fun now d =>
  let k := as_i64 height in
  match d.(slots) !! k with
  | Some r =>
      if decide (r.(sl_finality_status) = Some PENDING) then
        Ok (1, with_slots (<[k := {|
          sl_hash := r.(sl_hash); sl_prev_hash := r.(sl_prev_hash);
          sl_state_root := r.(sl_state_root); sl_timestamp := r.(sl_timestamp);
          sl_batch_count := r.(sl_batch_count); sl_tx_count := r.(sl_tx_count);
          sl_proposer := r.(sl_proposer); sl_finality_status := Some FINALIZED;
          sl_finalized_at := Some now; sl_raw := r.(sl_raw);
          sl_da_block_height := r.(sl_da_block_height); sl_indexed_at := now |}]>
          d.(slots)) d)
      else Ok (0, d)
  | None => Ok (0, d)
  end.

(** The loop returns at the first error; what was flipped stays flipped. *)
Fixpoint flip_pending_loop (rechecked : list (Z * option string)) (flipped : Z)
  : IO (result DbError Z) :=
  match rechecked with
  | [] => mret (Ok flipped)
  | (height, status) :: rest =>
      if decide (status = Some FINALIZED) then
        r ← exec (flip_pending_stmt height);
        match r with
        | Err e => mret (Err e)
        | Ok n => flip_pending_loop rest (flipped + n)
        end
      else flip_pending_loop rest flipped
  end.

Definition flip_pending_slots (rechecked : list (Z * option string))
  : IO (result DbError Z) :=
  match rechecked with
  | [] => mret (Ok 0)
  | _ => flip_pending_loop rechecked 0
  end.

(** [ORDER BY height ASC]. *)
Definition pending_slot_heights : Stmt (list Z) :=
  select (fun d =>
    as_u64 <$> merge_sort Z.le
      ((map_to_list (filter (fun kv : Z * SlotRow => kv.2.(sl_finality_status) = Some PENDING)
                       d.(slots))).*1)).

(** ** transactions *)

Definition bounty_event_kind_label (kind : BountyEventKind) : string :=
  match kind with
  | BountyEventKind.Posted => "posted"
  | BountyEventKind.Claimed _ _ => "claimed"
  | BountyEventKind.Disputed => "disputed"
  | BountyEventKind.DisputeResolved => "dispute_resolved"
  | BountyEventKind.Expired => "expired"
  | BountyEventKind.Finalised => "finalised"
  end.

Definition contract_event_kind_label (kind : ContractEventKind) : string :=
  match kind with
  | ContractEventKind.Posted => "posted"
  | ContractEventKind.Committed => "committed"
  | ContractEventKind.Delivered => "delivered"
  | ContractEventKind.Accepted => "accepted"
  | ContractEventKind.Rejected => "rejected"
  | ContractEventKind.DisputeResolved => "dispute_resolved"
  | ContractEventKind.Cancelled => "cancelled"
  | ContractEventKind.Expired => "expired"
  end.

Definition jstrings (l : list string) : Value := JArray (JString <$> l).

(** The [(kind, details)] pair. *)
Definition kind_details (k : IndexerTx) : string * Value :=
  match k with
  | Transfer t =>
      ("transfer", JObject [("from", JString t.(tr_from)); ("to", JString t.(tr_to));
         ("amount_nano", JString t.(tr_amount_nano)); ("token_id", JString t.(tr_token_id))])
  | RegisterAttestorSet r =>
      ("register_attestor_set", JObject [
         ("attestor_set_id", JString r.(ras_attestor_set_id));
         ("members", jstrings r.(ras_members)); ("threshold", ser_uint r.(ras_threshold))])
  | RegisterSchema r =>
      ("register_schema", JObject [
         ("schema_id", JString r.(rs_schema_id)); ("name", JString r.(rs_name));
         ("version", ser_uint r.(rs_version));
         ("attestor_set_id", JString r.(rs_attestor_set_id));
         ("fee_routing_bps", ser_uint r.(rs_fee_routing_bps));
         ("fee_routing_addr", ser_option JString r.(rs_fee_routing_addr));
         ("payload_shape_hash", JString r.(rs_payload_shape_hash))])
  | SubmitAttestation a =>
      ("submit_attestation", JObject [
         ("schema_id", JString a.(sa_schema_id)); ("payload_hash", JString a.(sa_payload_hash));
         ("signature_count", ser_uint a.(sa_signature_count))])
  | BountyEvent bounty_id kind =>
      let d := [("bounty_id", JString bounty_id);
                ("event", JString (bounty_event_kind_label kind))] in
      ("bounty_event", JObject
         match kind with
         | BountyEventKind.Claimed count total_payout =>
             obj_set "total_payout_nano" (JString total_payout)
               (obj_set "claim_count" (ser_uint count) d)
         | _ => d
         end)
  | ContractEvent contract_id kind =>
      ("contract_event", JObject [("contract_id", JString contract_id);
         ("event", JString (contract_event_kind_label kind))])
  | Unknown event_keys => ("unknown", JObject [("event_keys", jstrings event_keys)])
  end.

Definition event_sender (k : IndexerTx) : option string :=
  match k with
  | Transfer t => Some t.(tr_from)
  | RegisterAttestorSet r => Some r.(ras_registered_by)
  | RegisterSchema r => Some r.(rs_owner)
  | SubmitAttestation a => Some a.(sa_submitter)
  | _ => None
  end.

Definition protocol_fee_nano (k : IndexerTx) : option Z :=
  match k with
  | Transfer _ => Some 0
  | RegisterAttestorSet _ => Some 50000000
  | RegisterSchema _ => Some 100000000
  | SubmitAttestation _ => Some 100000
  | _ => None
  end.

Definition tx_proposed (c : ClassifiedTx) (slot_height position_in_block : Z)
    (raw_event_keys : list string) (decoded : option DecodedTxBody)
    (outcome : string) (now : Z) : TxRow :=
  {| tr_slot := as_i64 slot_height; tr_position := position_in_block;
     tr_sender := coalesce (Decode.sender <$> decoded) (event_sender c.(ctx_kind));
     tr_sender_pubkey := Decode.sender_pubkey <$> decoded;
     tr_nonce := clamp_i64 <$> (decoded ≫= Decode.nonce);
     tr_fee_paid_nano := Some 0; tr_protocol_fee_nano := protocol_fee_nano c.(ctx_kind);
     tr_kind := (kind_details c.(ctx_kind)).1; tr_details := (kind_details c.(ctx_kind)).2;
     tr_raw := JObject [("batch_number", ser_uint c.(ctx_batch_number));
                        ("global_tx_number", ser_uint c.(ctx_global_tx_number));
                        ("event_keys", jstrings raw_event_keys)];
     tr_outcome := outcome; tr_revert_reason := None; tr_indexed_at := now |}.

Definition tx_merge (now : Z) (new old : TxRow) : TxRow :=
  {| tr_slot := new.(tr_slot); tr_position := new.(tr_position);
     tr_sender := coalesce new.(tr_sender) old.(tr_sender);
     tr_sender_pubkey := coalesce new.(tr_sender_pubkey) old.(tr_sender_pubkey);
     tr_nonce := coalesce new.(tr_nonce) old.(tr_nonce);
     tr_fee_paid_nano := new.(tr_fee_paid_nano);
     tr_protocol_fee_nano := new.(tr_protocol_fee_nano); tr_kind := new.(tr_kind);
     tr_details := new.(tr_details); tr_raw := new.(tr_raw); tr_outcome := new.(tr_outcome);
     tr_revert_reason := old.(tr_revert_reason); tr_indexed_at := now |}.

Definition insert_transaction_stmt (c : ClassifiedTx) (slot_height position_in_block : Z)
    (raw_event_keys : list string) (decoded : option DecodedTxBody) (outcome : string)
  : Stmt unit := fun now d =>
  let new := tx_proposed c slot_height position_in_block raw_event_keys decoded outcome now in
  row ← upsert tx_row_ok c.(ctx_hash) new (fun old => Ok (tx_merge now new old))
          d.(transactions);
  _ ← require (unique_in slot_position c.(ctx_hash) row d.(transactions)) UniqueViolation;
  _ ← require (tx_refs d row) ForeignKeyViolation;
  Ok (tt, with_transactions (<[c.(ctx_hash) := row]> d.(transactions)) d).

(** [Skipped] returns before any statement. *)
Definition insert_transaction (c : ClassifiedTx) (slot_height position_in_block : Z)
    (raw_event_keys : list string) (decoded : option DecodedTxBody)
  : IO (result DbError unit) :=
  match c.(ctx_outcome) with
  | Committed => exec (insert_transaction_stmt c slot_height position_in_block
                         raw_event_keys decoded "committed")
  | Reverted => exec (insert_transaction_stmt c slot_height position_in_block
                        raw_event_keys decoded "reverted")
  | Skipped => mret (Ok tt)
  end.

(** ** attestor_sets, schemas, attestations *)

Definition insert_attestor_set (r : IndexerRegisterAttestorSet) (tx_hash : string)
    (slot_height timestamp : Z) : Stmt unit := fun now d =>
  let new := {| as_members := jstrings r.(ras_members); as_threshold := r.(ras_threshold);
    as_registered_at_slot := as_i64 slot_height; as_registered_at_tx := tx_hash;
    as_registered_at_timestamp := timestamp; as_schema_count := 0; as_indexed_at := now |} in
  row ← upsert attestor_set_row_ok r.(ras_attestor_set_id) new
    (fun old => Ok {| as_members := new.(as_members); as_threshold := new.(as_threshold);
       as_registered_at_slot := new.(as_registered_at_slot);
       as_registered_at_tx := new.(as_registered_at_tx);
       as_registered_at_timestamp := new.(as_registered_at_timestamp);
       as_schema_count := old.(as_schema_count); as_indexed_at := now |})
    d.(attestor_sets);
  _ ← require (attestor_set_refs d row) ForeignKeyViolation;
  Ok (tt, with_attestor_sets (<[r.(ras_attestor_set_id) := row]> d.(attestor_sets)) d).

Definition schema_touch (now : Z) (s : SchemaRow) : SchemaRow :=
  {| sc_name := s.(sc_name); sc_version := s.(sc_version); sc_owner := s.(sc_owner);
     sc_attestor_set_id := s.(sc_attestor_set_id);
     sc_fee_routing_bps := s.(sc_fee_routing_bps);
     sc_fee_routing_addr := s.(sc_fee_routing_addr);
     sc_payload_shape_hash := s.(sc_payload_shape_hash);
     sc_registered_at_slot := s.(sc_registered_at_slot);
     sc_registered_at_tx := s.(sc_registered_at_tx);
     sc_registered_at_timestamp := s.(sc_registered_at_timestamp);
     sc_attestation_count := s.(sc_attestation_count); sc_indexed_at := now |}.

Definition insert_schema (r : IndexerRegisterSchema) (tx_hash : string)
    (slot_height timestamp : Z) : Stmt unit := fun now d =>
  let new := {| sc_name := r.(rs_name); sc_version := clamp_i32 r.(rs_version);
    sc_owner := r.(rs_owner); sc_attestor_set_id := r.(rs_attestor_set_id);
    sc_fee_routing_bps := r.(rs_fee_routing_bps);
    sc_fee_routing_addr := r.(rs_fee_routing_addr);
    sc_payload_shape_hash := r.(rs_payload_shape_hash);
    sc_registered_at_slot := as_i64 slot_height; sc_registered_at_tx := tx_hash;
    sc_registered_at_timestamp := timestamp; sc_attestation_count := 0;
    sc_indexed_at := now |} in
  row ← upsert schema_row_ok r.(rs_schema_id) new (fun old => Ok (schema_touch now old))
    d.(schemas);
  _ ← require (unique_in owner_name_version r.(rs_schema_id) row d.(schemas)) UniqueViolation;
  _ ← require (schema_refs d row) ForeignKeyViolation;
  Ok (tt, with_schemas (<[r.(rs_schema_id) := row]> d.(schemas)) d).

Definition insert_attestation (a : IndexerSubmitAttestation) (tx_hash : string)
    (slot_height timestamp : Z) : Stmt unit := fun now d =>
  let new := {| at_schema_id := a.(sa_schema_id); at_payload_hash := a.(sa_payload_hash);
    at_submitter := a.(sa_submitter); at_submitter_pubkey := None;
    at_submitted_at_slot := as_i64 slot_height; at_submitted_at_tx := tx_hash;
    at_submitted_at_timestamp := timestamp;
    at_signature_count := clamp_i32 a.(sa_signature_count); at_indexed_at := now |} in
  row ← upsert attestation_row_ok a.(sa_id) new
    (fun old => Ok {| at_schema_id := old.(at_schema_id);
       at_payload_hash := old.(at_payload_hash); at_submitter := old.(at_submitter);
       at_submitter_pubkey := old.(at_submitter_pubkey);
       at_submitted_at_slot := old.(at_submitted_at_slot);
       at_submitted_at_tx := old.(at_submitted_at_tx);
       at_submitted_at_timestamp := old.(at_submitted_at_timestamp);
       at_signature_count := new.(at_signature_count); at_indexed_at := now |})
    d.(attestations);
  _ ← require (unique_in attestation_pkey a.(sa_id) row d.(attestations)) UniqueViolation;
  _ ← require (attestation_refs d row) ForeignKeyViolation;
  Ok (tt, with_attestations (<[a.(sa_id) := row]> d.(attestations)) d).

(** ** bounties *)

Definition map_bounty_status (chain_status : string) : string :=
  if String.eqb chain_status "Open" then "open"
  else if String.eqb chain_status "Exhausted" then "exhausted"
  else if String.eqb chain_status "Expired" then "expired"
  else if String.eqb chain_status "Cancelled" then "cancelled"
  else if String.eqb chain_status "Finalised" then "finalised"
  else "open".

Definition bounty_merge (new old : BountyRow) : BountyRow :=
  {| bo_poster := new.(bo_poster); bo_board_schema_id := new.(bo_board_schema_id);
     bo_pool_nano := new.(bo_pool_nano);
     bo_per_attestation_nano := new.(bo_per_attestation_nano);
     bo_escrow_remaining_nano := old.(bo_escrow_remaining_nano);
     bo_status := new.(bo_status); bo_acceptance := new.(bo_acceptance);
     bo_expiry_da_height := new.(bo_expiry_da_height);
     bo_dispute_window_blocks := new.(bo_dispute_window_blocks);
     bo_posted_at_slot := old.(bo_posted_at_slot); bo_posted_at_tx := old.(bo_posted_at_tx);
     bo_posted_at_timestamp := old.(bo_posted_at_timestamp);
     bo_claim_count := old.(bo_claim_count);
     bo_last_claim_at_slot := old.(bo_last_claim_at_slot) |}.

Definition upsert_bounty (id : string) (record : BountyRecord) (posted_at_slot : Z)
    (posted_at_tx : string) (posted_at_timestamp : Z) : Stmt unit := fun _ d =>
  let new := {| bo_poster := record.(bounty_poster);
    bo_board_schema_id := record.(bounty_board_schema_id);
    bo_pool_nano := record.(bounty_pool);
    bo_per_attestation_nano := record.(bounty_per_attestation);
    bo_escrow_remaining_nano := record.(bounty_pool);
    bo_status := map_bounty_status record.(bounty_status);
    bo_acceptance := record.(bounty_acceptance);
    bo_expiry_da_height := as_i64 record.(bounty_expiry_da_height);
    bo_dispute_window_blocks := clamp_i32 record.(bounty_dispute_window_blocks);
    bo_posted_at_slot := as_i64 posted_at_slot; bo_posted_at_tx := posted_at_tx;
    bo_posted_at_timestamp := posted_at_timestamp; bo_claim_count := 0;
    bo_last_claim_at_slot := None |} in
  row ← upsert bounty_row_ok id new (fun old => Ok (bounty_merge new old)) d.(bounties);
  _ ← require (bounty_refs d row) ForeignKeyViolation;
  Ok (tt, with_bounties (<[id := row]> d.(bounties)) d).

Definition with_escrow (escrow : string) (claim_count : Z) (last : option Z) (b : BountyRow)
  : BountyRow :=
  {| bo_poster := b.(bo_poster); bo_board_schema_id := b.(bo_board_schema_id);
     bo_pool_nano := b.(bo_pool_nano); bo_per_attestation_nano := b.(bo_per_attestation_nano);
     bo_escrow_remaining_nano := escrow; bo_status := b.(bo_status);
     bo_acceptance := b.(bo_acceptance); bo_expiry_da_height := b.(bo_expiry_da_height);
     bo_dispute_window_blocks := b.(bo_dispute_window_blocks);
     bo_posted_at_slot := b.(bo_posted_at_slot); bo_posted_at_tx := b.(bo_posted_at_tx);
     bo_posted_at_timestamp := b.(bo_posted_at_timestamp); bo_claim_count := claim_count;
     bo_last_claim_at_slot := last |}.

Definition apply_bounty_claim `{PgNumeric} (id total_payout : string) (count slot : Z)
  : Stmt unit := fun _ d =>
  t ← update_key bounty_row_ok id
    (fun b => match numeric_sub b.(bo_escrow_remaining_nano) total_payout with
      | None => Err InvalidText
      | Some escrow =>
          n ← add_int4 b.(bo_claim_count) count;
          Ok (with_escrow escrow n (Some (as_i64 slot)) b)
      end) d.(bounties);
  Ok (tt, with_bounties t d).

Definition set_bounty_escrow_zero (id : string) : Stmt unit := fun _ d =>
  t ← update_key bounty_row_ok id
    (fun b => Ok (with_escrow "0" b.(bo_claim_count) b.(bo_last_claim_at_slot) b)) d.(bounties);
  Ok (tt, with_bounties t d).

(** ** contracts *)

Definition map_contract_status (chain_status : string) : string :=
  if String.eqb chain_status "Open" then "open"
  else if String.eqb chain_status "Committed" then "committed"
  else if String.eqb chain_status "Delivered" then "delivered"
  else if String.eqb chain_status "Accepted" then "accepted"
  else if String.eqb chain_status "Rejected" then "rejected"
  else if String.eqb chain_status "Disputed" then "disputed"
  else if String.eqb chain_status "Cancelled" then "cancelled"
  else if String.eqb chain_status "Expired" then "expired"
  else "open".

(** [print] is serde_json's [Value::to_string]. *)
Definition stringify_criteria_doc_hash (print : Value -> string) (v : Value) : string :=
  match v with JString s => s | other => print other end.

Definition contract_merge (new old : ContractRow) : ContractRow :=
  {| co_poster := new.(co_poster); co_arbiter := new.(co_arbiter);
     co_criteria_doc_hash := new.(co_criteria_doc_hash); co_pool_nano := new.(co_pool_nano);
     co_escrow_remaining_nano := old.(co_escrow_remaining_nano);
     co_arbiter_fee_bps := new.(co_arbiter_fee_bps); co_status := new.(co_status);
     co_expiry_da_height := new.(co_expiry_da_height);
     co_dispute_window_blocks := new.(co_dispute_window_blocks);
     co_posted_at_slot := old.(co_posted_at_slot); co_posted_at_tx := old.(co_posted_at_tx);
     co_posted_at_timestamp := old.(co_posted_at_timestamp) |}.

Definition upsert_contract (print : Value -> string) (id : string) (record : ContractRecord)
    (posted_at_slot : Z) (posted_at_tx : string) (posted_at_timestamp : Z)
  : Stmt unit := fun _ d =>
  let new := {| co_poster := record.(contract_poster);
    co_arbiter := record.(contract_arbiter);
    co_criteria_doc_hash :=
      stringify_criteria_doc_hash print record.(contract_criteria_doc_hash);
    co_pool_nano := record.(contract_pool);
    co_escrow_remaining_nano := record.(contract_pool);
    co_arbiter_fee_bps := record.(contract_arbiter_fee_bps);
    co_status := map_contract_status record.(contract_status);
    co_expiry_da_height := as_i64 record.(contract_expiry_da_height);
    co_dispute_window_blocks := clamp_i32 record.(contract_dispute_window_blocks);
    co_posted_at_slot := as_i64 posted_at_slot; co_posted_at_tx := posted_at_tx;
    co_posted_at_timestamp := posted_at_timestamp |} in
  row ← upsert contract_row_ok id new (fun old => Ok (contract_merge new old)) d.(contracts);
  Ok (tt, with_contracts (<[id := row]> d.(contracts)) d).

Definition contract_drain (c : ContractRow) : ContractRow :=
  {| co_poster := c.(co_poster); co_arbiter := c.(co_arbiter);
     co_criteria_doc_hash := c.(co_criteria_doc_hash); co_pool_nano := c.(co_pool_nano);
     co_escrow_remaining_nano := "0"; co_arbiter_fee_bps := c.(co_arbiter_fee_bps);
     co_status := c.(co_status); co_expiry_da_height := c.(co_expiry_da_height);
     co_dispute_window_blocks := c.(co_dispute_window_blocks);
     co_posted_at_slot := c.(co_posted_at_slot); co_posted_at_tx := c.(co_posted_at_tx);
     co_posted_at_timestamp := c.(co_posted_at_timestamp) |}.

Definition set_contract_escrow_zero (id : string) : Stmt unit := fun _ d =>
  t ← update_key contract_row_ok id (fun c => Ok (contract_drain c)) d.(contracts);
  Ok (tt, with_contracts t d).

(** ** Counters *)

Definition bump_attestor_set_schema_count (attestor_set_id : string) : Stmt unit :=
  fun now d =>
  t ← update_key attestor_set_row_ok attestor_set_id
    (fun s => n ← add_int4 s.(as_schema_count) 1;
       Ok {| as_members := s.(as_members); as_threshold := s.(as_threshold);
             as_registered_at_slot := s.(as_registered_at_slot);
             as_registered_at_tx := s.(as_registered_at_tx);
             as_registered_at_timestamp := s.(as_registered_at_timestamp);
             as_schema_count := n; as_indexed_at := now |}) d.(attestor_sets);
  Ok (tt, with_attestor_sets t d).

Definition bump_schema_attestation_count (schema_id : string) : Stmt unit := fun now d =>
  t ← update_key schema_row_ok schema_id
    (fun s => n ← add_int4 s.(sc_attestation_count) 1;
       Ok {| sc_name := s.(sc_name); sc_version := s.(sc_version); sc_owner := s.(sc_owner);
             sc_attestor_set_id := s.(sc_attestor_set_id);
             sc_fee_routing_bps := s.(sc_fee_routing_bps);
             sc_fee_routing_addr := s.(sc_fee_routing_addr);
             sc_payload_shape_hash := s.(sc_payload_shape_hash);
             sc_registered_at_slot := s.(sc_registered_at_slot);
             sc_registered_at_tx := s.(sc_registered_at_tx);
             sc_registered_at_timestamp := s.(sc_registered_at_timestamp);
             sc_attestation_count := n; sc_indexed_at := now |}) d.(schemas);
  Ok (tt, with_schemas t d).

Definition bump_address_schemas_owned (owner : string) (slot_height : Z) (tx_hash : string)
    (timestamp : Z) : Stmt unit := fun now d =>
  let new := {| ad_txs_sent_count := 0; ad_txs_received_count := 0;
    ad_first_seen_slot := Some (as_i64 slot_height); ad_first_seen_tx := Some tx_hash;
    ad_first_seen_timestamp := Some timestamp;
    ad_last_seen_slot := Some (as_i64 slot_height); ad_last_seen_tx := Some tx_hash;
    ad_last_seen_timestamp := Some timestamp;
    ad_schemas_owned_count := 1; ad_attestor_member_count := 0; ad_indexed_at := now |} in
  row ← upsert address_row_ok owner new
    (fun a => n ← add_int4 a.(ad_schemas_owned_count) 1;
       Ok {| ad_txs_sent_count := a.(ad_txs_sent_count);
             ad_txs_received_count := a.(ad_txs_received_count);
             ad_first_seen_slot := a.(ad_first_seen_slot);
             ad_first_seen_tx := a.(ad_first_seen_tx);
             ad_first_seen_timestamp := a.(ad_first_seen_timestamp);
             ad_last_seen_slot := a.(ad_last_seen_slot);
             ad_last_seen_tx := a.(ad_last_seen_tx);
             ad_last_seen_timestamp := a.(ad_last_seen_timestamp);
             ad_schemas_owned_count := n;
             ad_attestor_member_count := a.(ad_attestor_member_count);
             ad_indexed_at := now |})
    d.(address_summaries);
  Ok (tt, with_address_summaries (<[owner := row]> d.(address_summaries)) d).

(** A no-op in the source. *)
Definition bump_attestor_member_count (member_pubkey : string) : IO (result DbError unit) :=
  mret (Ok tt).

(** ** address_summaries *)

Inductive AddressRole := Sender | Receiver.

(** [LEAST]/[GREATEST] ignore NULLs. *)
Definition least (a b : option Z) : option Z :=
  match a, b with Some x, Some y => Some (Z.min x y) | _, _ => coalesce a b end.
Definition greatest (a b : option Z) : option Z :=
  match a, b with Some x, Some y => Some (Z.max x y) | _, _ => coalesce a b end.

(** [WHEN a IS NULL OR b < a] (and its mirror): a comparison with NULL is not true. *)
Definition null_or_below (a b : option Z) : bool :=
  match a, b with None, _ => true | Some x, Some y => y <? x | Some _, None => false end.
Definition null_or_above (a b : option Z) : bool :=
  match a, b with None, _ => true | Some x, Some y => x <? y | Some _, None => false end.

Definition activity_merge (now : Z) (new old : AddressRow) : result DbError AddressRow :=
  sent ← add_int8 old.(ad_txs_sent_count) new.(ad_txs_sent_count);
  received ← add_int8 old.(ad_txs_received_count) new.(ad_txs_received_count);
  Ok {| ad_txs_sent_count := sent; ad_txs_received_count := received;
        ad_first_seen_slot := least old.(ad_first_seen_slot) new.(ad_first_seen_slot);
        ad_first_seen_tx :=
          if null_or_below old.(ad_first_seen_slot) new.(ad_first_seen_slot)
          then new.(ad_first_seen_tx) else old.(ad_first_seen_tx);
        ad_first_seen_timestamp :=
          if null_or_below old.(ad_first_seen_timestamp) new.(ad_first_seen_timestamp)
          then new.(ad_first_seen_timestamp) else old.(ad_first_seen_timestamp);
        ad_last_seen_slot := greatest old.(ad_last_seen_slot) new.(ad_last_seen_slot);
        ad_last_seen_tx :=
          if null_or_above old.(ad_last_seen_slot) new.(ad_last_seen_slot)
          then new.(ad_last_seen_tx) else old.(ad_last_seen_tx);
        ad_last_seen_timestamp :=
          if null_or_above old.(ad_last_seen_timestamp) new.(ad_last_seen_timestamp)
          then new.(ad_last_seen_timestamp) else old.(ad_last_seen_timestamp);
        ad_schemas_owned_count := old.(ad_schemas_owned_count);
        ad_attestor_member_count := old.(ad_attestor_member_count);
        ad_indexed_at := now |}.

Definition activity_proposed (role : AddressRole) (slot_height : Z) (tx_hash : string)
    (timestamp now : Z) : AddressRow :=
  let '(sent_inc, recv_inc) := match role with Sender => (1, 0) | Receiver => (0, 1) end in
  {| ad_txs_sent_count := sent_inc; ad_txs_received_count := recv_inc;
     ad_first_seen_slot := Some (as_i64 slot_height); ad_first_seen_tx := Some tx_hash;
     ad_first_seen_timestamp := Some timestamp;
     ad_last_seen_slot := Some (as_i64 slot_height); ad_last_seen_tx := Some tx_hash;
     ad_last_seen_timestamp := Some timestamp;
     ad_schemas_owned_count := 0; ad_attestor_member_count := 0; ad_indexed_at := now |}.

Definition upsert_address_activity (address : string) (role : AddressRole)
    (slot_height : Z) (tx_hash : string) (timestamp : Z) : Stmt unit := fun now d =>
  let new := activity_proposed role slot_height tx_hash timestamp now in
  row ← upsert address_row_ok address new (activity_merge now new) d.(address_summaries);
  Ok (tt, with_address_summaries (<[address := row]> d.(address_summaries)) d).
