(* ===== verification/DbFacts.v ===== *)
(** * What the statements guarantee

    Inversion lemmas for the pieces of a statement, then: every statement keeps the
    constraints of the schema, and the functional behaviour of each one on its insert
    and its conflict arm. *)

From S2P Require Import Prelude Json Types Standards AttestationId Decode Parser Schema Io Db.
Open Scope string_scope.
Open Scope list_scope.
Open Scope Z_scope.

(** ** Inversion *)

Lemma result_bind_ok {E A B} (m : result E A) (k : A -> result E B) b :
  m ≫= k = Ok b -> exists a, m = Ok a /\ k a = Ok b.
Proof. destruct m; simpl; [eauto|done]. Qed.

Lemma require_ok (P : Prop) `{Decision P} e u : require P e = Ok u -> P.
Proof. unfold require. by destruct (decide P). Qed.

Lemma upsert_ok {K V} `{Countable K} (ok : V -> bool) (k : K) new f t row :
  upsert ok k new f t = Ok row ->
  ok row = true /\
  ((t !! k = None /\ row = new) \/ (exists old, t !! k = Some old /\ f old = Ok row)).
Proof.
  unfold upsert. destruct (ok new) eqn:En; [|done].
  destruct (t !! k) as [old|] eqn:Ek; [|by intros [= <-]; auto].
  intros Hb. apply result_bind_ok in Hb as (r & Hf & Hr).
  destruct (ok r) eqn:Er; [|done]. simplify_eq. eauto.
Qed.

Lemma update_key_ok {K V} `{Countable K} (ok : V -> bool) (k : K) set t t' :
  update_key ok k set t = Ok t' ->
  t' = t \/ exists old row, t !! k = Some old /\ set old = Ok row /\ ok row = true /\
                            t' = <[k := row]> t.
Proof.
  unfold update_key. destruct (t !! k) as [old|] eqn:Ek; [|intros [= <-]; auto].
  intros Hb. apply result_bind_ok in Hb as (r & Hf & Hr).
  destruct (ok r) eqn:Er; [|done]. simplify_eq. eauto 10.
Qed.

Lemma sql_add_ok min max a b n : sql_add min max a b = Ok n -> n = a + b /\ min <= n <= max.
Proof.
  unfold sql_add. destruct (min <=? a + b) eqn:?, (a + b <=? max) eqn:?; simpl; try done.
  intros [= <-]. lia.
Qed.

(** [stmt_inv] inverts the successful run of a statement. *)
Ltac stmt_inv :=
  repeat match goal with
  | H : _ ≫= _ = Ok _ |- _ => apply result_bind_ok in H as (? & ? & ?)
  | H : Ok _ = Ok _ |- _ => injection H as H; subst
  | H : (_, _) = (_, _) |- _ => injection H as ? H; subst
  | H : Err _ = Ok _ |- _ => discriminate H
  | H : require _ _ = Ok _ |- _ => apply require_ok in H
  | H : upsert _ _ _ _ _ = Ok _ |- _ => apply upsert_ok in H as [? H]
  | H : update_key _ _ _ _ = Ok _ |- _ => apply update_key_ok in H
  | H : sql_add _ _ _ _ = Ok _ |- _ => apply sql_add_ok in H as [? ?]
  | H : add_int4 _ _ = Ok _ |- _ => apply sql_add_ok in H as [? ?]
  | H : add_int8 _ _ = Ok _ |- _ => apply sql_add_ok in H as [? ?]
  end.

(** ** Keeping the constraints *)

(** References survive when the tables they point to only gain keys. *)
Lemma lookup_insert_is_some {K V} `{Countable K} (t : gmap K V) i j x :
  is_Some (t !! j) -> is_Some (<[i := x]> t !! j).
Proof. intros. rewrite lookup_insert_is_Some. destruct (decide (i = j)); auto. Qed.

Create HintDb refs discriminated.
#[export] Hint Resolve lookup_insert_is_some : refs.

Ltac refs_mono :=
  eapply map_Forall_impl; [eassumption|];
  unfold tx_refs, attestor_set_refs, schema_refs, attestation_refs, bounty_refs,
    has_slot, has_tx, has_attestor_set, has_schema;
  simpl; intros; destruct_and?; split_and?; eauto with refs.

Ltac db_insert :=
  let H := fresh in
  intros H; intros; destruct H; split; simpl in *; try assumption;
  try (apply map_Forall_insert_2; [assumption|assumption]);
  try (apply table_unique_insert; [assumption|assumption]);
  try (refs_mono; fail);
  try (apply map_Forall_insert_2; [|refs_mono; fail];
       unfold tx_refs, attestor_set_refs, schema_refs, attestation_refs, bounty_refs,
         has_slot, has_tx, has_attestor_set, has_schema in *; simpl;
       destruct_and?; split_and?; eauto with refs; fail).

Lemma db_ok_slots d k r : db_ok d -> db_ok (with_slots (<[k := r]> d.(slots)) d).
Proof. db_insert. Qed.

Lemma db_ok_transactions d k r :
  db_ok d -> tx_row_ok r = true -> tx_refs d r ->
  unique_in slot_position k r d.(transactions) ->
  db_ok (with_transactions (<[k := r]> d.(transactions)) d).
Proof. db_insert. Qed.

Lemma db_ok_attestor_sets d k r :
  db_ok d -> attestor_set_row_ok r = true -> attestor_set_refs d r ->
  db_ok (with_attestor_sets (<[k := r]> d.(attestor_sets)) d).
Proof. db_insert. Qed.

Lemma db_ok_schemas d k r :
  db_ok d -> schema_row_ok r = true -> schema_refs d r ->
  unique_in owner_name_version k r d.(schemas) ->
  db_ok (with_schemas (<[k := r]> d.(schemas)) d).
Proof. db_insert. Qed.

Lemma db_ok_attestations d k r :
  db_ok d -> attestation_row_ok r = true -> attestation_refs d r ->
  unique_in attestation_pkey k r d.(attestations) ->
  db_ok (with_attestations (<[k := r]> d.(attestations)) d).
Proof. db_insert. Qed.

Lemma db_ok_addresses d k r :
  db_ok d -> address_row_ok r = true ->
  db_ok (with_address_summaries (<[k := r]> d.(address_summaries)) d).
Proof. db_insert. Qed.

Lemma db_ok_bounties d k r :
  db_ok d -> bounty_row_ok r = true -> bounty_refs d r ->
  db_ok (with_bounties (<[k := r]> d.(bounties)) d).
Proof. db_insert. Qed.

Lemma db_ok_contracts d k r :
  db_ok d -> contract_row_ok r = true ->
  db_ok (with_contracts (<[k := r]> d.(contracts)) d).
Proof. db_insert. Qed.

Lemma db_ok_state d t : db_ok d -> db_ok (with_indexer_state t d).
Proof. db_insert. Qed.

Lemma table_unique_same {K V A} `{Countable K} `{EqDecision A} (key : V -> A) (t : gmap K V) k old row :
  table_unique key t -> t !! k = Some old -> key row = key old -> unique_in key k row t.
Proof.
  intros Ht Hk He k' v' Hk'. destruct (decide (key v' = key row)) as [E|]; [left|by right].
  eapply Ht; [done..|congruence].
Qed.

(** Each statement, run on a database that satisfies the constraints, gives one that
    does. *)
Section Keeps.
Context `{Chrono} `{PgNumeric}.

Lemma select_keeps {A} (f : DB -> A) R `{!PreOrder R} : stmt_evolves R (select f).
Proof. intros now d a d' [= <- <-]. reflexivity. Qed.

Lemma upsert_state_keeps k v : stmt_keeps db_ok (upsert_state k v).
Proof. intros now d [] d' [= <-] Hok. by apply db_ok_state. Qed.

Lemma write_chain_identity_keeps info : stmt_keeps db_ok (write_chain_identity info).
Proof.
  intros now d [] d' Hs Hok. unfold write_chain_identity in Hs. simpl in Hs.
  injection Hs as <-. by do 3 apply db_ok_state.
Qed.

Lemma upsert_slot_keeps s p q h : stmt_keeps db_ok (upsert_slot_stmt s p q h).
Proof. intros now d [] d' Hs Hok. unfold upsert_slot_stmt in Hs. stmt_inv. by apply db_ok_slots. Qed.

Lemma flip_pending_keeps h : stmt_keeps db_ok (flip_pending_stmt h).
Proof.
  intros now d n d' Hs Hok. unfold flip_pending_stmt in Hs.
  repeat case_match; simplify_eq; auto. by apply db_ok_slots.
Qed.

Lemma insert_transaction_keeps c h p ks dec o :
  stmt_keeps db_ok (insert_transaction_stmt c h p ks dec o).
Proof.
  intros now d [] d' Hs Hok. unfold insert_transaction_stmt in Hs. stmt_inv.
  by apply db_ok_transactions.
Qed.

Lemma insert_attestor_set_keeps r tx h ts : stmt_keeps db_ok (insert_attestor_set r tx h ts).
Proof.
  intros now d [] d' Hs Hok. unfold insert_attestor_set in Hs. stmt_inv.
  by apply db_ok_attestor_sets.
Qed.

Lemma insert_schema_keeps r tx h ts : stmt_keeps db_ok (insert_schema r tx h ts).
Proof.
  intros now d [] d' Hs Hok. unfold insert_schema in Hs. stmt_inv.
  by apply db_ok_schemas.
Qed.

Lemma insert_attestation_keeps a tx h ts : stmt_keeps db_ok (insert_attestation a tx h ts).
Proof.
  intros now d [] d' Hs Hok. unfold insert_attestation in Hs. stmt_inv.
  by apply db_ok_attestations.
Qed.

Lemma upsert_bounty_keeps id r s tx ts : stmt_keeps db_ok (upsert_bounty id r s tx ts).
Proof.
  intros now d [] d' Hs Hok. unfold upsert_bounty in Hs. stmt_inv.
  by apply db_ok_bounties.
Qed.

Lemma upsert_contract_keeps print id r s tx ts :
  stmt_keeps db_ok (upsert_contract print id r s tx ts).
Proof.
  intros now d [] d' Hs Hok. unfold upsert_contract in Hs. stmt_inv.
  by apply db_ok_contracts.
Qed.

Lemma bump_address_keeps o h tx ts : stmt_keeps db_ok (bump_address_schemas_owned o h tx ts).
Proof.
  intros now d [] d' Hs Hok. unfold bump_address_schemas_owned in Hs. stmt_inv.
  by apply db_ok_addresses.
Qed.

Lemma upsert_activity_keeps a role h tx ts :
  stmt_keeps db_ok (upsert_address_activity a role h tx ts).
Proof.
  intros now d [] d' Hs Hok. unfold upsert_address_activity in Hs. stmt_inv.
  by apply db_ok_addresses.
Qed.

Lemma with_bounties_id d : with_bounties d.(bounties) d = d.
Proof. by destruct d. Qed.
Lemma with_contracts_id d : with_contracts d.(contracts) d = d.
Proof. by destruct d. Qed.
Lemma with_schemas_id d : with_schemas d.(schemas) d = d.
Proof. by destruct d. Qed.
Lemma with_attestor_sets_id d : with_attestor_sets d.(attestor_sets) d = d.
Proof. by destruct d. Qed.

Lemma update_bounty_keeps d id f t :
  update_key bounty_row_ok id f d.(bounties) = Ok t ->
  (forall b b', f b = Ok b' -> b'.(bo_board_schema_id) = b.(bo_board_schema_id)) ->
  db_ok d -> db_ok (with_bounties t d).
Proof.
  intros Hu Hf Hok. stmt_inv. destruct Hu as [->|(old & row & Hk & Hr & Hrow & ->)].
  - by rewrite with_bounties_id.
  - apply db_ok_bounties; [done|done|]. unfold bounty_refs. rewrite (Hf _ _ Hr).
    by apply (ok_bounty_refs _ Hok _ _ Hk).
Qed.

Lemma apply_bounty_claim_keeps id p n s : stmt_keeps db_ok (apply_bounty_claim id p n s).
Proof.
  intros now d [] d' Hs Hok. unfold apply_bounty_claim in Hs.
  apply result_bind_ok in Hs as (t & Hu & [= <-]). eapply update_bounty_keeps; [done| |done].
  intros b b' Hb. simpl in Hb. case_match; [|done]. stmt_inv. done.
Qed.

Lemma set_bounty_escrow_zero_keeps id : stmt_keeps db_ok (set_bounty_escrow_zero id).
Proof.
  intros now d [] d' Hs Hok. unfold set_bounty_escrow_zero in Hs.
  apply result_bind_ok in Hs as (t & Hu & [= <-]). eapply update_bounty_keeps; [done| |done].
  intros b b' [= <-]. done.
Qed.

Lemma set_contract_escrow_zero_keeps id : stmt_keeps db_ok (set_contract_escrow_zero id).
Proof.
  intros now d [] d' Hs Hok. unfold set_contract_escrow_zero in Hs. stmt_inv.
  destruct H1 as [->|(old & row & Hk & Hr & Hrow & ->)].
  - by rewrite with_contracts_id.
  - by apply db_ok_contracts.
Qed.

Lemma bump_set_keeps id : stmt_keeps db_ok (bump_attestor_set_schema_count id).
Proof.
  intros now d [] d' Hs Hok. unfold bump_attestor_set_schema_count in Hs. stmt_inv.
  destruct H1 as [->|(old & row & Hk & Hr & Hrow & ->)].
  - by rewrite with_attestor_sets_id.
  - stmt_inv. apply db_ok_attestor_sets; [done|done|].
    exact (ok_set_refs _ Hok _ _ Hk).
Qed.

Lemma bump_schema_keeps id : stmt_keeps db_ok (bump_schema_attestation_count id).
Proof.
  intros now d [] d' Hs Hok. unfold bump_schema_attestation_count in Hs. stmt_inv.
  destruct H1 as [->|(old & row & Hk & Hr & Hrow & ->)].
  - by rewrite with_schemas_id.
  - stmt_inv. apply db_ok_schemas; [done|done| |].
    + exact (ok_schema_refs _ Hok _ _ Hk).
    + eapply table_unique_same; [apply (ok_schema_unique _ Hok)|done|done].
Qed.
End Keeps.

(** ** The contract of the statements

    What the two tasks of the indexer promise each other: every statement they send
    makes an [R]-step.  Programs are proved against this class; its instances below
    discharge it for the constraints, for the history of the rows, and for the
    outcomes stored.  The callers promise in turn that a position is an [i32] and an
    attestation's id the one derived from its pair. *)
Definition attestation_id_ok `{Bech32} `{Sha256} (a : IndexerSubmitAttestation) : Prop :=
  compute_attestation_id a.(sa_schema_id) a.(sa_payload_hash) = Done (Ok a.(sa_id)).

Class Guarantee `{Bech32} `{Sha256} `{Chrono} `{PgNumeric} (R : relation DB) : Prop := {
  g_preorder :: PreOrder R;
  g_upsert_state k v : stmt_evolves R (upsert_state k v);
  g_write_chain_identity info : stmt_evolves R (write_chain_identity info);
  g_upsert_slot s p q h : opt_in_i64 h -> stmt_evolves R (upsert_slot_stmt s p q h);
  g_flip_pending h : stmt_evolves R (flip_pending_stmt h);
  g_insert_transaction c h p ks dec o :
    in_i32 p -> stmt_evolves R (insert_transaction_stmt c h p ks dec o);
  g_insert_attestor_set r tx h ts : stmt_evolves R (insert_attestor_set r tx h ts);
  g_insert_schema r tx h ts : stmt_evolves R (insert_schema r tx h ts);
  g_insert_attestation a tx h ts :
    attestation_id_ok a -> stmt_evolves R (insert_attestation a tx h ts);
  g_upsert_bounty id r s tx ts : stmt_evolves R (upsert_bounty id r s tx ts);
  g_apply_bounty_claim id p n s : stmt_evolves R (apply_bounty_claim id p n s);
  g_set_bounty_escrow_zero id : stmt_evolves R (set_bounty_escrow_zero id);
  g_upsert_contract print id r s tx ts :
    in_u16 r.(contract_arbiter_fee_bps) -> stmt_evolves R (upsert_contract print id r s tx ts);
  g_set_contract_escrow_zero id : stmt_evolves R (set_contract_escrow_zero id);
  g_bump_set id : stmt_evolves R (bump_attestor_set_schema_count id);
  g_bump_schema id : stmt_evolves R (bump_schema_attestation_count id);
  g_bump_address o h tx ts : stmt_evolves R (bump_address_schemas_owned o h tx ts);
  g_upsert_activity a role h tx ts :
    stmt_evolves R (upsert_address_activity a role h tx ts)
}.

#[export] Hint Resolve evolves_exec select_keeps g_preorder g_upsert_state
  g_write_chain_identity g_upsert_slot g_flip_pending g_insert_transaction
  g_insert_attestor_set g_insert_schema g_insert_attestation g_upsert_bounty
  g_apply_bounty_claim g_set_bounty_escrow_zero g_upsert_contract
  g_set_contract_escrow_zero g_bump_set g_bump_schema g_bump_address g_upsert_activity : io.

#[export] Instance db_ok_guarantee `{Bech32} `{Sha256} `{Chrono} `{PgNumeric} : Guarantee (keeping db_ok).
Proof.
  split; [apply _|..]; intros;
    eauto using upsert_state_keeps, write_chain_identity_keeps, upsert_slot_keeps,
      flip_pending_keeps, insert_transaction_keeps, insert_attestor_set_keeps,
      insert_schema_keeps, insert_attestation_keeps, upsert_bounty_keeps,
      upsert_contract_keeps, bump_address_keeps, upsert_activity_keeps,
      apply_bounty_claim_keeps, set_bounty_escrow_zero_keeps,
      set_contract_escrow_zero_keeps, bump_set_keeps, bump_schema_keeps.
Qed.

(** *** Outcomes stored *)

(** The row constraint rejects every row the statement can propose or merge for a
    reverted transaction: no revert reason is ever bound. *)
Lemma tx_row_ok_committed r : tx_row_ok r = true -> r.(tr_revert_reason) = None ->
  r.(tr_outcome) = "committed".
Proof.
  unfold tx_row_ok, transactions_revert_reason_consistent. intros Hok Hr.
  rewrite Hr in Hok. apply andb_prop in Hok as [_ Hok].
  destruct (String.eqb_spec r.(tr_outcome) "committed"); [done|].
  rewrite (bool_decide_eq_false_2 (is_Some None)) in Hok by (intros []; done).
  by rewrite andb_false_r in Hok.
Qed.

(** No statement but [insert_transaction] writes the table. *)
Ltac other_table := let Hs := fresh "Hs" in intros ?now ?d ?u ?d' Hs ?Hd;
  unfold write_chain_identity, upsert_state, upsert_slot_stmt, flip_pending_stmt,
    insert_attestor_set, insert_schema, insert_attestation, upsert_bounty,
    apply_bounty_claim, set_bounty_escrow_zero, upsert_contract,
    set_contract_escrow_zero, bump_attestor_set_schema_count,
    bump_schema_attestation_count, bump_address_schemas_owned,
    upsert_address_activity in Hs;
  repeat case_match; stmt_inv; simplify_eq/=; stmt_inv; simplify_eq/=; assumption.

Definition reverted_free (d : DB) : Prop :=
  map_Forall (fun _ r => r.(tr_outcome) = "committed" /\ r.(tr_revert_reason) = None)
    d.(transactions).

Lemma insert_transaction_inv c h p ks dec o now d u d' :
  insert_transaction_stmt c h p ks dec o now d = Ok (u, d') ->
  exists row, d' = with_transactions (<[c.(ctx_hash) := row]> d.(transactions)) d /\
    tx_row_ok row = true /\ tx_refs d row /\
    let new := tx_proposed c h p ks dec o now in
    ((d.(transactions) !! c.(ctx_hash) = None /\ row = new) \/
     (exists old, d.(transactions) !! c.(ctx_hash) = Some old /\ row = tx_merge now new old)).
Proof.
  unfold insert_transaction_stmt. intros Hs. simpl in Hs.
  apply result_bind_ok in Hs as (row & Hu & Hs).
  apply result_bind_ok in Hs as (? & _ & Hs).
  apply result_bind_ok in Hs as (? & Hr & Hs).
  apply require_ok in Hr. apply upsert_ok in Hu as [Hok Hu]. injection Hs as _ <-.
  exists row. split_and!; [done..|].
  destruct Hu as [?|(old & ? & [= <-])]; eauto.
Qed.

#[export] Instance reverted_free_guarantee `{Bech32} `{Sha256} `{Chrono} `{PgNumeric} :
  Guarantee (keeping reverted_free).
Proof.
  split; [apply _|..]; intros; try other_table.
  intros now d u d' Hs Hd.
  apply insert_transaction_inv in Hs as (row & -> & Hok & _ & Hrow).
  apply map_Forall_insert_2; [|done].
  assert (tr_revert_reason row = None) as Hr.
  { destruct Hrow as [[_ ->]|(old & Hold & ->)]; [done|]. by destruct (Hd _ _ Hold). }
  split; [by apply tx_row_ok_committed|done].
Qed.
