(* ===== verification/History.v ===== *)
(** * The history of the tables

    What the rows of the database may go through: [history] relates a database to any
    later one.  No key is lost, columns the chain recovers once are never blanked,
    identities and immutable fields are fixed, counters only grow, the observation
    window of an address only widens.  Every statement makes a [history] step. *)

From S2P Require Import Prelude Json Types Standards AttestationId Decode Parser Schema Io Db DbFacts.
Open Scope string_scope.
Open Scope list_scope.
Open Scope Z_scope.

Definition table_rel {K V} `{Countable K} (rel : relation V) (t t' : gmap K V) : Prop :=
  forall k v, t !! k = Some v -> exists v', t' !! k = Some v' /\ rel v v'.

#[export] Instance table_rel_preorder {K V} `{Countable K} (rel : relation V) :
  PreOrder rel -> PreOrder (table_rel (K := K) rel).
Proof.
  intros Hr. split.
  - intros t k v Hk. exists v. split; [done|reflexivity].
  - intros t1 t2 t3 H12 H23 k v Hk.
    destruct (H12 _ _ Hk) as (v2 & H2 & R2). destruct (H23 _ _ H2) as (v3 & H3 & R3).
    exists v3. split; [done|]. by etrans.
Qed.

Lemma table_rel_insert {K V} `{Countable K} (rel : relation V) `{!PreOrder rel}
    (t : gmap K V) k row :
  (forall old, t !! k = Some old -> rel old row) -> table_rel rel t (<[k := row]> t).
Proof.
  intros Hr k' v Hk'. rewrite lookup_insert.
  destruct (decide (k = k')) as [->|]; [eauto|]. exists v. split; [done|reflexivity].
Qed.

(** ** Columns *)

(** Once known, never blanked. *)
Definition stays_known {A} (a b : option A) : Prop := is_Some a -> is_Some b.
#[export] Instance stays_known_preorder {A} : PreOrder (@stays_known A).
Proof. split; unfold stays_known; [by intros a|intros a b c; auto]. Qed.

Lemma coalesce_known {A} (a b : option A) : stays_known b (coalesce a b).
Proof. intros [x ->]. destruct a; simpl; eauto. Qed.

(** A first sighting only moves down, a last one only up; neither is forgotten. *)
Definition moves_down (a b : option Z) : Prop :=
  forall x, a = Some x -> exists y, b = Some y /\ y <= x.
Definition moves_up (a b : option Z) : Prop :=
  forall x, a = Some x -> exists y, b = Some y /\ x <= y.
#[export] Instance moves_down_preorder : PreOrder moves_down.
Proof.
  split; [intros a x ->; exists x; split; [done|lia]|].
  intros a b c Hab Hbc x Hx. destruct (Hab _ Hx) as (y & Hy & ?).
  destruct (Hbc _ Hy) as (z & ? & ?). exists z. split; [done|lia].
Qed.
#[export] Instance moves_up_preorder : PreOrder moves_up.
Proof.
  split; [intros a x ->; exists x; split; [done|lia]|].
  intros a b c Hab Hbc x Hx. destruct (Hab _ Hx) as (y & Hy & ?).
  destruct (Hbc _ Hy) as (z & ? & ?). exists z. split; [done|lia].
Qed.

Lemma least_down a b : moves_down a (least a b).
Proof. intros x ->. destruct b; simpl; eexists; (split; [done|lia]). Qed.
Lemma greatest_up a b : moves_up a (greatest a b).
Proof. intros x ->. destruct b; simpl; eexists; (split; [done|lia]). Qed.

(** ** Rows *)

Definition slot_history (r r' : SlotRow) : Prop :=
  stays_known r.(sl_prev_hash) r'.(sl_prev_hash) /\
  stays_known r.(sl_proposer) r'.(sl_proposer) /\
  stays_known r.(sl_da_block_height) r'.(sl_da_block_height) /\
  stays_known r.(sl_finalized_at) r'.(sl_finalized_at).

Definition tx_history (r r' : TxRow) : Prop :=
  stays_known r.(tr_sender) r'.(tr_sender) /\
  stays_known r.(tr_sender_pubkey) r'.(tr_sender_pubkey) /\
  stays_known r.(tr_nonce) r'.(tr_nonce).

Definition set_history (r r' : AttestorSetRow) : Prop :=
  r.(as_schema_count) <= r'.(as_schema_count).

Definition schema_identity (r : SchemaRow) :=
  (r.(sc_name), r.(sc_version), r.(sc_owner), r.(sc_attestor_set_id),
   r.(sc_fee_routing_bps), r.(sc_fee_routing_addr), r.(sc_payload_shape_hash),
   r.(sc_registered_at_slot), r.(sc_registered_at_tx), r.(sc_registered_at_timestamp)).
Definition schema_history (r r' : SchemaRow) : Prop :=
  schema_identity r = schema_identity r' /\
  r.(sc_attestation_count) <= r'.(sc_attestation_count).

Definition attestation_identity (r : AttestationRow) :=
  (r.(at_schema_id), r.(at_payload_hash), r.(at_submitter), r.(at_submitted_at_slot),
   r.(at_submitted_at_tx), r.(at_submitted_at_timestamp)).
Definition attestation_history (r r' : AttestationRow) : Prop :=
  attestation_identity r = attestation_identity r'.

Definition address_history (r r' : AddressRow) : Prop :=
  r.(ad_txs_sent_count) <= r'.(ad_txs_sent_count) /\
  r.(ad_txs_received_count) <= r'.(ad_txs_received_count) /\
  r.(ad_schemas_owned_count) <= r'.(ad_schemas_owned_count) /\
  moves_down r.(ad_first_seen_slot) r'.(ad_first_seen_slot) /\
  moves_up r.(ad_last_seen_slot) r'.(ad_last_seen_slot).

Definition bounty_history (r r' : BountyRow) : Prop :=
  (r.(bo_posted_at_slot), r.(bo_posted_at_tx), r.(bo_posted_at_timestamp)) =
  (r'.(bo_posted_at_slot), r'.(bo_posted_at_tx), r'.(bo_posted_at_timestamp)).

Definition contract_history (r r' : ContractRow) : Prop :=
  (r.(co_posted_at_slot), r.(co_posted_at_tx), r.(co_posted_at_timestamp)) =
  (r'.(co_posted_at_slot), r'.(co_posted_at_tx), r'.(co_posted_at_timestamp)).

Ltac row_preorder :=
  split;
  [ intros r; red; split_and?; try reflexivity
  | intros r1 r2 r3 H12 H23; red in H12, H23 |- *; destruct_and?; split_and?;
    try (etrans; eassumption); try congruence; try lia ].

#[export] Instance slot_history_preorder : PreOrder slot_history.
Proof. row_preorder. Qed.
#[export] Instance tx_history_preorder : PreOrder tx_history.
Proof. row_preorder. Qed.
#[export] Instance set_history_preorder : PreOrder set_history.
Proof. row_preorder. Qed.
#[export] Instance attestation_history_preorder : PreOrder attestation_history.
Proof. row_preorder. Qed.
#[export] Instance address_history_preorder : PreOrder address_history.
Proof. row_preorder. Qed.
#[export] Instance bounty_history_preorder : PreOrder bounty_history.
Proof. row_preorder. Qed.
#[export] Instance contract_history_preorder : PreOrder contract_history.
Proof. row_preorder. Qed.
#[export] Instance schema_history_preorder : PreOrder schema_history.
Proof. row_preorder. Qed.

Record history (d d' : DB) : Prop := {
  h_slots : table_rel slot_history d.(slots) d'.(slots);
  h_transactions : table_rel tx_history d.(transactions) d'.(transactions);
  h_attestor_sets : table_rel set_history d.(attestor_sets) d'.(attestor_sets);
  h_schemas : table_rel schema_history d.(schemas) d'.(schemas);
  h_attestations : table_rel attestation_history d.(attestations) d'.(attestations);
  h_addresses : table_rel address_history d.(address_summaries) d'.(address_summaries);
  h_bounties : table_rel bounty_history d.(bounties) d'.(bounties);
  h_contracts : table_rel contract_history d.(contracts) d'.(contracts)
}.

#[export] Instance history_preorder : PreOrder history.
Proof.
  split.
  - intros d. split; reflexivity.
  - intros d1 d2 d3 [] []. split; (etrans; eassumption).
Qed.

(** The pieces of a statement, for the table it writes. *)
Lemma upsert_history {K V} `{Countable K} (rel : relation V) `{!PreOrder rel} ok (k : K)
    new f t row :
  upsert ok k new f t = Ok row ->
  (forall old r, f old = Ok r -> rel old r) -> table_rel rel t (<[k := row]> t).
Proof.
  intros Hu Hf. apply upsert_ok in Hu as [_ Hu]. apply table_rel_insert; [done|].
  intros old Hk. destruct Hu as [[? _]|(old' & Hk' & Hr)]; [congruence|].
  apply Hf. congruence.
Qed.

Lemma update_key_history {K V} `{Countable K} (rel : relation V) `{!PreOrder rel} ok (k : K)
    f t t' :
  update_key ok k f t = Ok t' ->
  (forall old r, f old = Ok r -> rel old r) -> table_rel rel t t'.
Proof.
  intros Hu Hf. apply update_key_ok in Hu as [->|(old & row & Hk & Hr & _ & ->)];
    [reflexivity|].
  apply table_rel_insert; [done|]. intros old' Hk'. apply Hf. congruence.
Qed.

(** [history_stmt] reduces a statement to what its conflict arm or update does to a row;
    the other tables are unchanged. *)
Ltac history_stmt :=
  let Hs := fresh "Hs" in
  intros ?now ?d ?u ?d' Hs;
  unfold upsert_slot_stmt, insert_attestor_set, insert_schema, insert_attestation,
    upsert_bounty, apply_bounty_claim, set_bounty_escrow_zero, upsert_contract,
    set_contract_escrow_zero, bump_attestor_set_schema_count,
    bump_schema_attestation_count, bump_address_schemas_owned,
    upsert_address_activity in Hs; cbv zeta in Hs;
  repeat match goal with
  | H : _ ≫= _ = Ok _ |- _ => apply result_bind_ok in H as (? & ? & ?)
  | H : Ok _ = Ok _ |- _ => injection H as ? H; subst
  end;
  split; simpl; try reflexivity;
  (eapply upsert_history || eapply update_key_history); try eassumption; try apply _;
  let Hr := fresh "Hr" in intros ?old ?r Hr; cbv beta in Hr; stmt_inv.

#[export] Instance history_guarantee `{Bech32} `{Sha256} `{Chrono} `{PgNumeric} : Guarantee history.
Proof.
  split; [apply _|..]; intros.
  - intros now d [] d' [= <-]. split; reflexivity.
  - intros now d [] d' Hs. unfold write_chain_identity in Hs. simpl in Hs.
    injection Hs as <-. split; reflexivity.
  - history_stmt. split_and!; [apply coalesce_known..|].
    cbn [sl_finalized_at slot_merge]. case_decide; [by intros _|reflexivity].
  - intros now d n d' Hs. unfold flip_pending_stmt in Hs.
    repeat case_match; simplify_eq; try reflexivity.
    split; simpl; try reflexivity. apply table_rel_insert; [apply _|].
    intros old Hold. simplify_eq. split_and!; simpl; try reflexivity. by intros _.
  - intros now d u d' Hs. apply insert_transaction_inv in Hs as (row & -> & _ & _ & Hrow).
    split; simpl; try reflexivity. apply table_rel_insert; [apply _|].
    intros old Hold. destruct Hrow as [[? _]|(old' & ? & ->)]; [congruence|].
    simplify_eq. split_and!; simpl; apply coalesce_known.
  - history_stmt. unfold set_history. simpl. lia.
  - history_stmt. split; [done|]. simpl. lia.
  - history_stmt. done.
  - history_stmt. done.
  - history_stmt. case_match; stmt_inv; done.
  - history_stmt. done.
  - history_stmt. done.
  - history_stmt. done.
  - history_stmt. unfold set_history. simpl. lia.
  - history_stmt. split; [done|simpl; lia].
  - history_stmt. split_and!; simpl; try lia; reflexivity.
  - history_stmt. unfold activity_merge in *. stmt_inv.
    split_and!; simpl; try apply least_down; try apply greatest_up; try lia.
    all: destruct role; simpl in *; lia.
Qed.
