(* ===== verification/Client.v ===== *)
(** * The node client ([crates/indexer/src/client.rs])

    URL composition, status handling and decoding of the node's REST replies.  The url
    and serde_json crates are the interfaces [Urls] and [JsonText]. *)

From S2P Require Import Prelude Json Types Schema Io.
Open Scope string_scope.
Open Scope list_scope.
Open Scope Z_scope.

(** [Url::parse], [Url::join] and [Url::cannot_be_a_base], on a URL's text. *)
Class Urls := {
  url_parse : string -> option string;
  url_join : string -> string -> option string;
  cannot_be_a_base : string -> bool
}.

(** The paths the client joins: relative, with no scheme and no leading slash. *)
Definition relative (path : string) : bool := String.prefix "v1/" path.

(** What the url crate documents of such a path: it joins every parsed URL, but for those
    that cannot be a base ([mailto:a], or [localhost:12346], whose scheme is [localhost]),
    which it never joins.  URLs stay below the 4 GB a [Url] can hold. *)
Class UrlsLaws (U : Urls) : Prop := {
  join_relative s b path : url_parse s = Some b -> cannot_be_a_base b = false ->
    relative path = true -> url_join b path <> None;
  join_opaque s b path : url_parse s = Some b -> cannot_be_a_base b = true ->
    relative path = true -> url_join b path = None
}.

(** [IndexerError], less the source errors it wraps for display. *)
Inductive IndexerError :=
| NodeUnreachable
| NodeBadShape (url : string)
| Database (e : DbError).

Record NodeClient := { base : string }.

(** [?] inside an [async fn] that returns [Result]. *)
Definition try {E A B} (m : IO (result E A)) (k : A -> IO (result E B)) : IO (result E B) :=
  r ← m;
  match r with Ok a => k a | Err e => mret (Err e) end.

Declare Scope io_scope.
Delimit Scope io_scope with io.
Notation "x ←? m ; k" := (try m (fun x => k))
  (at level 20, m at level 100, k at level 200, right associativity) : io_scope.
Notation "' p ←? m ; k" := (try m (fun x => match x with p => k end))
  (at level 20, p pattern, m at level 100, k at level 200, right associativity) : io_scope.
Open Scope io_scope.

Lemma evolves_try R `{!PreOrder R} {E A B} (m : IO (result E A)) (k : A -> IO (result E B)) :
  evolves R m -> (forall a, evolves R (k a)) -> evolves R (try m k).
Proof.
  intros Hm Hk. unfold try. apply evolves_bind; [done|done|].
  intros [a|e]; [apply Hk|by apply evolves_ret].
Qed.

Lemma evolves_try_gives R `{!PreOrder R} {E A B} (P : A -> Prop) (m : IO (result E A))
    (k : A -> IO (result E B)) :
  evolves R m -> gives (on_ok P) m -> (forall a, P a -> evolves R (k a)) -> evolves R (try m k).
Proof.
  intros Hm Hg Hk. unfold try. eapply evolves_bind_gives; [done|done|exact Hg|].
  intros [a|e] Ha; [by apply Hk|by apply evolves_ret].
Qed.

Lemma gives_try {E A B} (P : B -> Prop) (m : IO (result E A)) (k : A -> IO (result E B)) :
  (forall a, gives (on_ok P) (k a)) -> gives (on_ok P) (try m k).
Proof. intros Hk. apply gives_bind. intros [a|err]; [apply Hk|by apply gives_ret]. Qed.

(** [io_steps], which also goes through the [?] operator. *)
Ltac evolves_go :=
  repeat first
    [ progress intros
    | solve [eauto with io nocore typeclass_instances]
    | apply evolves_try; [apply _| |]
    | apply evolves_bind; [apply _| |]
    | progress (cbv beta iota zeta)
    | case_match ].

Definition ends_with_slash (s : string) : bool :=
  match rev (list_ascii_of_string s) with "/"%char :: _ => true | _ => false end.

Section Client.
Context `{U : Urls} `{JsonText}.

Definition new (base_url : string) : result IndexerError NodeClient :=
  let normalized := if ends_with_slash base_url then base_url else (base_url ++ "/")%string in
  match url_parse normalized with
  | Some b => Ok {| base := b |}
  | None => Err (NodeBadShape base_url)
  end.

(** [expect] on the join. *)
Definition url (self : NodeClient) (path : string) : outcome string :=
  match url_join self.(base) path with Some u => Done u | None => Panicked end.

(** A client whose base URL is a base: its requests have a URL. *)
Definition usable (c : NodeClient) : Prop :=
  exists s, url_parse s = Some c.(base) /\ cannot_be_a_base c.(base) = false.

Lemma new_parses s c : new s = Ok c -> exists t, url_parse t = Some c.(base).
Proof.
  unfold new. destruct (url_parse _) as [b|] eqn:E; [|done]. intros [= <-]. by eexists.
Qed.

Lemma new_usable s c : new s = Ok c -> cannot_be_a_base c.(base) = false -> usable c.
Proof. intros (t & Ht)%new_parses Hb. by exists t. Qed.

Lemma usable_url `{!UrlsLaws U} c path :
  usable c -> relative path = true -> exists u, url_join c.(base) path = Some u /\ url c path = Done u.
Proof.
  intros (s & Hs & Hb) Hp. pose proof (join_relative s _ path Hs Hb Hp) as Hj.
  unfold url. destruct (url_join (base c) path) as [u|]; [by exists u|done].
Qed.

Lemma opaque_url `{!UrlsLaws U} s c path :
  new s = Ok c -> cannot_be_a_base c.(base) = true -> relative path = true ->
  url c path = Panicked.
Proof.
  intros (t & Ht)%new_parses Hb Hp. unfold url. by rewrite (join_opaque t _ path Ht Hb Hp).
Qed.

Definition from_slice {A} (de : Value -> option A) (url body : string)
  : result IndexerError A :=
  match json_parse body ≫= de with
  | Some a => Ok a
  | None => Err (NodeBadShape url)
  end.

(** [fetch]: the status is not looked at. *)
Definition fetch (self : NodeClient) (url : string) : IO (result IndexerError string) :=
  reply ← http_get None url;
  match reply with
  | NoReply => mret (Err NodeUnreachable)
  | Reply _ body => mret (Ok body)
  end.

(** The shape shared by the endpoints that read a 404 as [absent]. *)
Definition get_or_404 {A} (self : NodeClient) (path : string) (absent : A)
    (de : Value -> option A) : IO (result IndexerError A) :=
  u ← lift (url self path);
  reply ← http_get None u;
  match reply with
  | NoReply => mret (Err NodeUnreachable)
  | Reply status body =>
      if status =? 404 then mret (Ok absent) else mret (from_slice de u body)
  end.

Definition rollup_info (self : NodeClient) : IO (result IndexerError RollupInfo) :=
  u ← lift (url self "v1/rollup/info");
  bytes ←? fetch self u;
  mret (from_slice de_RollupInfo u bytes).

Definition latest_slot (self : NodeClient) : IO (result IndexerError SlotResponse) :=
  u ← lift (url self "v1/ledger/slots/latest");
  bytes ←? fetch self u;
  mret (from_slice de_SlotResponse u bytes).

Definition cluster_nodes (self : NodeClient) (auth_token : option string)
  : IO (result IndexerError ChainClusterTopology) :=
  u ← lift (url self "v1/cluster/nodes");
  reply ← http_get auth_token u;
  match reply with
  | NoReply => mret (Err NodeUnreachable)
  | Reply status body =>
      if (200 <=? status) && (status <? 300)
      then mret (from_slice de_ChainClusterTopology u body)
      else mret (Err (NodeBadShape u))
  end.

Definition slot_at (self : NodeClient) (height : Z)
  : IO (result IndexerError (option SlotResponse)) :=
  get_or_404 self ("v1/ledger/slots/" ++ to_string height)%string None
    (fun v => Some <$> de_SlotResponse v).

Definition batch_at (self : NodeClient) (number : Z)
  : IO (result IndexerError (option LedgerBatch)) :=
  get_or_404 self ("v1/ledger/batches/" ++ to_string number)%string None
    (fun v => Some <$> de_LedgerBatch v).

Definition tx_at_number (self : NodeClient) (number : Z)
  : IO (result IndexerError (option LedgerTx)) :=
  get_or_404 self ("v1/ledger/txs/" ++ to_string number)%string None
    (fun v => Some <$> de_LedgerTx v).

Definition events_for_slot (self : NodeClient) (slot_height : Z)
  : IO (result IndexerError (list LedgerEvent)) :=
  get_or_404 self ("v1/ledger/slots/" ++ to_string slot_height ++ "/events")%string []
    (de_list de_LedgerEvent).

Definition bounty_at (self : NodeClient) (id : string)
  : IO (result IndexerError (option BountyRecord)) :=
  get_or_404 self ("v1/modules/bounty/bounties/" ++ id)%string None
    (fun v => (fun r => Some r.(br_bounty)) <$> de_BountyResponse v).

Definition contract_at (self : NodeClient) (id : string)
  : IO (result IndexerError (option ContractRecord)) :=
  get_or_404 self ("v1/modules/contracts/contracts/" ++ id)%string None
    (fun v => (fun r => Some r.(cr_contract)) <$> de_ContractResponse v).

(** Requests leave the database to the other task. *)
Lemma get_or_404_evolves R `{!PreOrder R} {A} self path (absent : A) de :
  evolves R (get_or_404 self path absent de).
Proof. unfold get_or_404. io_steps. Qed.

Lemma get_or_404_gives {A} (P : A -> Prop) self path absent de :
  P absent -> (forall v a, de v = Some a -> P a) -> gives (on_ok P) (get_or_404 self path absent de).
Proof.
  intros Ha Hd. unfold get_or_404. apply gives_bind. intros u. apply gives_bind.
  intros [|status body]; [by apply gives_ret|]. case_match; apply gives_ret; [done|].
  unfold from_slice. destruct (json_parse body ≫= de) as [a|] eqn:E; [|done].
  apply bind_Some in E as (v & _ & Hv). by eapply Hd.
Qed.

(** The basis points of a contract are a [u16]. *)
Definition bps_typed (o : option ContractRecord) : Prop :=
  match o with Some r => in_u16 r.(contract_arbiter_fee_bps) | None => True end.

Lemma de_ContractRecord_bps v r : de_ContractRecord v = Some r -> in_u16 r.(contract_arbiter_fee_bps).
Proof.
  unfold de_ContractRecord. repeat (case_match; try done).
  intros Hr. repeat (apply bind_Some in Hr as (? & ? & Hr)). injection Hr as <-. simpl.
  match goal with Hb : field de_u16 _ = Some _ |- _ => apply field_present in Hb as (? & ?) end.
  by eapply de_uint_range.
Qed.

Lemma contract_at_gives self id : gives (on_ok bps_typed) (contract_at self id).
Proof.
  apply get_or_404_gives; [done|]. intros v o (r & Hr & ->)%fmap_Some. revert Hr.
  unfold de_ContractResponse. repeat (case_match; try done).
  intros (c & Hc & [= <-])%bind_Some. simpl.
  apply field_present in Hc as (x & Hx). by eapply de_ContractRecord_bps.
Qed.


Lemma fetch_evolves R `{!PreOrder R} self u : evolves R (fetch self u).
Proof. unfold fetch. io_steps. Qed.

Lemma rollup_info_evolves R `{!PreOrder R} self : evolves R (rollup_info self).
Proof.
  unfold rollup_info. apply evolves_bind; [done|io_steps|intros].
  apply evolves_try; [done|by apply fetch_evolves|io_steps].
Qed.

Lemma latest_slot_evolves R `{!PreOrder R} self : evolves R (latest_slot self).
Proof.
  unfold latest_slot. apply evolves_bind; [done|io_steps|intros].
  apply evolves_try; [done|by apply fetch_evolves|io_steps].
Qed.
End Client.

#[export] Hint Resolve get_or_404_evolves rollup_info_evolves latest_slot_evolves
  evolves_try : io.
#[export] Hint Unfold slot_at batch_at tx_at_number events_for_slot bounty_at contract_at : io.
