(* ===== verification/Samples.v ===== *)
(** * Concrete environments

    One concrete function for each interface of the indexer that is no public standard (a
    base URL joined by concatenation, exact integer arithmetic for [NUMERIC]), and small
    nodes and databases to evaluate the indexer on. *)

From S2P Require Import Prelude Json JsonSyntax Types Standards AttestationId Decode Parser Schema Io Db Client.
Open Scope string_scope.
Open Scope list_scope.
Open Scope Z_scope.

(** An injective text code of a positive number, in the place of a serializer. *)
Module Toy.
Fixpoint bits (p : positive) : string :=
  match p with
  | xH => "h"
  | xO q => String "o" (bits q)
  | xI q => String "i" (bits q)
  end.

Fixpoint unbits (s : string) : option positive :=
  match s with
  | EmptyString => None
  | String "h" EmptyString => Some xH
  | String "o" r => xO <$> unbits r
  | String "i" r => xI <$> unbits r
  | String _ _ => None
  end.

Lemma unbits_bits p : unbits (bits p) = Some p.
Proof. induction p; simpl; rewrite ?IHp; done. Qed.
End Toy.

(** A URL is a text with a scheme; a relative path is appended to it, unless the scheme is
    not special and no slash follows it. *)
Module Url.
Fixpoint scheme (s : string) : option (string * string) :=
  match s with
  | EmptyString => None
  | String ":" rest => Some ("", rest)
  | String c rest => prod_map (String c) id <$> scheme rest
  end.

Definition special : list string := ["http"; "https"; "ws"; "wss"; "ftp"; "file"].

Definition opaque (s : string) : bool :=
  match scheme s with
  | Some (name, rest) => negb (bool_decide (name ∈ special)) && negb (String.prefix "/" rest)
  | None => false
  end.
End Url.

Definition urls : Urls := {|
  url_parse s := if Url.scheme s then Some s else None;
  url_join b path := if Url.opaque b then None else Some (b ++ path)%string;
  cannot_be_a_base := Url.opaque
|}.

Lemma urls_laws : UrlsLaws urls.
Proof. split; intros s b path _ Hb _; simpl in *; by rewrite Hb. Defined.

Definition parse_signed (s : string) : option Z :=
  match s with
  | String "-" rest => Z.opp <$> parse_digits rest
  | _ => parse_digits s
  end.

Definition numeric : PgNumeric := fun a b =>
  match parse_signed a, parse_signed b with
  | Some x, Some y => Some (to_string (x - y))
  | _, _ => None
  end.

Lemma parse_signed_to_string z : parse_signed (to_string z) = Some z.
Proof.
  destruct (Z.ltb_spec z 0) as [Hz|Hz].
  - assert (to_string z = String "-" (to_string (- z))) as ->.
    { unfold to_string. destruct (z <? 0) eqn:E1; [|lia]. destruct (- z <? 0) eqn:E2; [lia|].
      done. }
    cbn [parse_signed]. rewrite parse_digits_to_string by lia. simpl. f_equal. lia.
  - destruct (to_string_head z Hz) as (c & s & Hs & _ & Hm). rewrite <- (parse_digits_to_string z Hz).
    rewrite Hs. unfold parse_signed. destruct c as [[] [] [] [] [] [] [] []]; done.
Qed.

Lemma numeric_laws : PgNumericLaws numeric.
Proof.
  intros a b _ _. unfold numeric_sub, numeric. by rewrite !parse_signed_to_string.
Qed.

Definition clock : Chrono := Some.

(** ** Slots, bounties and the reader that knows them *)

Definition sample_slot (h : Z) (status : string) : SlotResponse :=
  {| slot_number := h; slot_hash := "0x0a"; slot_prev_hash := None; slot_timestamp := Some 7;
     slot_state_root := None; slot_batch_count := Some 0; slot_tx_count := None;
     slot_batch_range := None; slot_finality_status := Some status; slot_raw := [] |}.

Definition sample_info : RollupInfo :=
  {| info_chain_id := "ligate-1"; info_chain_hash := "0xcc"; info_version := "0.2" |}.

Definition sample_bounty : BountyRecord :=
  {| bounty_poster := "lig1poster"; bounty_board_schema_id := "lsc1board";
     bounty_pool := "100"; bounty_per_attestation := "25"; bounty_acceptance := JNull;
     bounty_expiry_da_height := 9; bounty_dispute_window_blocks := 2;
     bounty_status := "open" |}.

(** The bodies the node below answers. *)
Definition slot_3_body : string :=
  Eval vm_compute in Rfc8259.write (ser_SlotResponse (sample_slot 3 "pending")).
Definition slot_4_body : string :=
  Eval vm_compute in Rfc8259.write (ser_SlotResponse (sample_slot 4 "finalized")).
Definition info_body : string := Eval vm_compute in Rfc8259.write (ser_RollupInfo sample_info).
Definition bounty_body : string :=
  Eval vm_compute in Rfc8259.write (JObject [("bounty", ser_BountyRecord sample_bounty)]).

Definition sample_client : NodeClient := {| base := "http://node/" |}.

(** A database that answers, alone, and a node that serves slots 3 and 4 and a bounty. *)
Definition sample_env : Env := {|
  env_http _ _ u :=
    if (u =? "http://node/v1/ledger/slots/3")%string then Reply 200 slot_3_body
    else if (u =? "http://node/v1/ledger/slots/4")%string then Reply 200 slot_4_body
    else if (u =? "http://node/v1/ledger/slots/latest")%string then Reply 200 slot_4_body
    else if (u =? "http://node/v1/rollup/info")%string then Reply 200 info_body
    else if (u =? "http://node/v1/modules/bounty/bounties/b")%string
    then Reply 200 bounty_body
    else Reply 404 "";
  env_now t := Z.of_nat t;
  env_fault _ := NoFault;
  env_other _ d := d
|}.

Lemma sample_env_calm : calm sample_env.
Proof. by split. Qed.

Definition sample_slot_row (status : string) (stamp : option Z) : SlotRow :=
  {| sl_hash := "0x0a"; sl_prev_hash := None; sl_state_root := None; sl_timestamp := 7;
     sl_batch_count := 0; sl_tx_count := 0; sl_proposer := None;
     sl_finality_status := Some status; sl_finalized_at := stamp; sl_raw := JNull;
     sl_da_block_height := None; sl_indexed_at := 0 |}.

Definition sample_schema_row : SchemaRow :=
  {| sc_name := "board"; sc_version := 1; sc_owner := "lig1owner";
     sc_attestor_set_id := "las1set"; sc_fee_routing_bps := 0; sc_fee_routing_addr := None;
     sc_payload_shape_hash := "00"; sc_registered_at_slot := 3; sc_registered_at_tx := "0x01";
     sc_registered_at_timestamp := 7; sc_attestation_count := 0; sc_indexed_at := 0 |}.

Definition sample_bounty_row : BountyRow :=
  {| bo_poster := "lig1poster"; bo_board_schema_id := "lsc1board"; bo_pool_nano := "100";
     bo_per_attestation_nano := "25"; bo_escrow_remaining_nano := "100"; bo_status := "open";
     bo_acceptance := JNull; bo_expiry_da_height := 9; bo_dispute_window_blocks := 2;
     bo_posted_at_slot := 3; bo_posted_at_tx := "0x01"; bo_posted_at_timestamp := 7;
     bo_claim_count := 0; bo_last_claim_at_slot := None |}.

(** Slot 3 stored with finality [status], a schema, and a bounty on it. *)
Definition sample_db (status : string) (stamp : option Z) : DB :=
  with_slots {[ 3 := sample_slot_row status stamp ]}
    (with_schemas {[ "lsc1board" := sample_schema_row ]}
      (with_bounties {[ "b" := sample_bounty_row ]} empty_db)).

Definition sample_world (d : DB) : World := {| w_db := d; w_tick := 0 |}.

Definition sample_ctx (kind : IndexerTx) (outcome : TxOutcome) : ClassifiedTx :=
  {| ctx_hash := "0xab"; ctx_batch_number := 1; ctx_global_tx_number := 5;
     ctx_outcome := outcome; ctx_kind := kind |}.
