(* ===== verification/DbSpec.v ===== *)
(** * Functional behaviour of the database helpers

    What each helper of [Db] leaves in its table: the row of a transaction on both
    arms, the summary of an address after any sequence of sightings, the escrow of a
    bounty after any sequence of events, the settlement columns of a slot. *)

From S2P Require Import Prelude Json Types Standards AttestationId Decode Parser Schema Io Db DbFacts Samples.
Open Scope string_scope.
Open Scope list_scope.
Open Scope Z_scope.

(** ** transactions *)

Lemma coalesce_assoc {A} (a b c : option A) :
  coalesce (coalesce a b) c = coalesce a (coalesce b c).
Proof. by destruct a. Qed.
Lemma coalesce_none {A} (a : option A) : coalesce a None = a.
Proof. by destruct a. Qed.

Lemma kind_known k : transactions_kind_known (kind_details k).1 = true.
Proof. by destruct k. Qed.

Lemma tx_row_ok_proposed c h p ks dec now : tx_row_ok (tx_proposed c h p ks dec "committed" now) = true.
Proof. unfold tx_row_ok. simpl. by rewrite kind_known. Qed.

(** C19: a committed transaction always lands.  On a database whose slot row exists, with
    the position free and no reverted row stored, the insert succeeds on both arms; the
    signer of the decoded body wins over the address of the event, which wins over what
    an earlier insert stored; key and nonce come from the body alone and are never
    blanked, the nonce clamped to a BIGINT. *)
Theorem insert_transaction_lands c h p ks dec e w :
  calm e -> ctx_outcome c = Committed ->
  has_slot w.(w_db) (as_i64 h) -> reverted_free w.(w_db) ->
  (forall hash r, w.(w_db).(transactions) !! hash = Some r -> hash <> ctx_hash c ->
     slot_position r <> (as_i64 h, p)) ->
  let old := w.(w_db).(transactions) !! ctx_hash c in
  exists row,
    insert_transaction c h p ks dec e w =
      (Done (Ok tt),
       {| w_db := with_transactions (<[ctx_hash c := row]> w.(w_db).(transactions)) w.(w_db);
          w_tick := S w.(w_tick) |}) /\
    slot_position row = (as_i64 h, p) /\
    (tr_kind row, tr_details row) = kind_details (ctx_kind c) /\
    tr_outcome row = "committed" /\ tr_revert_reason row = None /\
    tr_sender row = coalesce (Decode.sender <$> dec)
                      (coalesce (event_sender (ctx_kind c)) (old ≫= tr_sender)) /\
    tr_sender_pubkey row = coalesce (Decode.sender_pubkey <$> dec) (old ≫= tr_sender_pubkey) /\
    tr_nonce row = coalesce (clamp_i64 <$> (dec ≫= Decode.nonce)) (old ≫= tr_nonce).
Proof.
  intros He Hc Hslot Hfree Hpos. simpl.
  set (now := env_now e (w_tick w)).
  set (new := tx_proposed c h p ks dec "committed" now).
  set (row := match transactions (w_db w) !! ctx_hash c with
              | Some old => tx_merge now new old | None => new end).
  exists row.
  assert (tr_revert_reason row = None) as Hreason.
  { unfold row. destruct (_ !! _) as [old|] eqn:Eo; [|done]. by destruct (Hfree _ _ Eo). }
  assert (tx_row_ok row = true) as Hok.
  { unfold tx_row_ok. rewrite Hreason. unfold row.
    destruct (transactions _ !! _); simpl; by rewrite kind_known. }
  assert (slot_position row = (as_i64 h, p)) as Hsp.
  { unfold row. by destruct (_ !! _). }
  split.
  - unfold insert_transaction. rewrite Hc, exec_calm by done.
    unfold insert_transaction_stmt, upsert. fold now. fold new. cbv zeta.
    unfold new at 1. rewrite tx_row_ok_proposed. fold new.
    assert ((match transactions (w_db w) !! ctx_hash c with
       | Some old => r ← Ok (tx_merge now new old);
                     if tx_row_ok r then Ok r else Err CheckViolation
       | None => Ok new end) = (Ok row : result DbError TxRow)) as ->.
    { unfold row in *. destruct (_ !! _); simpl; [by rewrite Hok|done]. }
    simpl. unfold require.
    destruct (decide (unique_in _ _ _ _)) as [|Hn].
    + destruct (decide (tx_refs _ _)) as [|Hn]; [done|]. destruct Hn.
      unfold tx_refs. injection Hsp as -> _. done.
    + destruct Hn. intros h' r Hr. destruct (decide (h' = ctx_hash c)); [by left|right].
      rewrite Hsp. by eapply Hpos.
  - split_and!; [done| | |exact Hreason|..]; unfold row, new;
      destruct (transactions _ !! _) as [old|];
      cbn [tx_merge tx_proposed tr_kind tr_details tr_outcome tr_sender tr_sender_pubkey
           tr_nonce mbind option_bind];
      rewrite ?coalesce_assoc, ?coalesce_none; try done; by destruct (kind_details _).
Qed.

(** A reverted transaction never lands.  The CHECK constraint
    [transactions_revert_reason_consistent] asks for a reason the statement never binds,
    so the insert fails for every transaction, in every environment and on every
    database, and changes nothing. *)
Theorem insert_transaction_reverted_fails c h p ks dec e w :
  ctx_outcome c = Reverted ->
  exists err,
    insert_transaction c h p ks dec e w =
      (Done (Err err),
       {| w_db := e.(env_other) w.(w_tick) w.(w_db); w_tick := S w.(w_tick) |}).
Proof.
  intros Hc. unfold insert_transaction. rewrite Hc. unfold exec.
  assert (forall now d, insert_transaction_stmt c h p ks dec "reverted" now d
            = Err CheckViolation) as Hfail.
  { intros now d. unfold insert_transaction_stmt, upsert.
    assert (tx_row_ok (tx_proposed c h p ks dec "reverted" now) = false) as ->; [|done].
    unfold tx_row_ok. by rewrite andb_false_iff; right. }
  destruct (env_fault e (w_tick w)); rewrite ?Hfail; eauto.
Qed.

(** ** address_summaries *)

(** One sighting of an address: role, slot, transaction, time. *)
Record Sighting := {
  s_role : AddressRole; s_slot : Z; s_tx : string; s_time : Z; s_now : Z }.

#[export] Instance AddressRole_eq_dec : EqDecision AddressRole.
Proof. solve_decision. Defined.

(** The statements the sightings of one address send, in order. *)
Fixpoint see (address : string) (l : list Sighting) (d : DB) : result DbError DB :=
  match l with
  | [] => Ok d
  | s :: rest =>
      '(_, d') ← upsert_address_activity address s.(s_role) s.(s_slot) s.(s_tx) s.(s_time)
                   s.(s_now) d;
      see address rest d'
  end.

Definition count_role (r : AddressRole) (l : list Sighting) : Z :=
  Z.of_nat (length (filter (fun s => s_role s = r) l)).

(** The row is the summary of the (non-empty) sightings [l]: totals per role, extreme
    slots and times, and transactions at which the extreme slots are attained. *)
Definition summarises (l : list Sighting) (r : AddressRow) : Prop :=
  r.(ad_txs_sent_count) = count_role Sender l /\
  r.(ad_txs_received_count) = count_role Receiver l /\
  (exists a b, a ∈ l /\ b ∈ l /\
     r.(ad_first_seen_slot) = Some (s_slot a) /\ r.(ad_first_seen_tx) = Some (s_tx a) /\
     r.(ad_last_seen_slot) = Some (s_slot b) /\ r.(ad_last_seen_tx) = Some (s_tx b) /\
     forall s, s ∈ l -> s_slot a <= s_slot s <= s_slot b) /\
  (exists a b, a ∈ l /\ b ∈ l /\
     r.(ad_first_seen_timestamp) = Some (s_time a) /\
     r.(ad_last_seen_timestamp) = Some (s_time b) /\
     forall s, s ∈ l -> s_time a <= s_time s <= s_time b).

Lemma count_role_snoc r l s :
  count_role r (l ++ [s]) = count_role r l + (if decide (s_role s = r) then 1 else 0).
Proof.
  unfold count_role. rewrite filter_app, length_app.
  destruct (decide (s_role s = r)).
  - rewrite filter_cons_True by done. rewrite filter_nil. simpl. lia.
  - rewrite filter_cons_False by done. rewrite filter_nil. simpl. lia.
Qed.

Lemma count_role_bounds r l : 0 <= count_role r l <= Z.of_nat (length l).
Proof. unfold count_role. split; [lia|]. apply Nat2Z.inj_le, length_filter. Qed.

(** Keeping the smaller key: one step of the running minimum, and of the maximum. *)
Lemma running_min {A} (f : A -> Z) l a s :
  a ∈ l -> (forall x, x ∈ l -> f a <= f x) ->
  let a' := if f s <? f a then s else a in
  a' ∈ l ++ [s] /\ (forall x, x ∈ l ++ [s] -> f a' <= f x) /\ f a' = Z.min (f a) (f s).
Proof.
  intros Ha Hmin a'. unfold a'. split_and!.
  - case_match; set_solver.
  - intros x [Hx| ->%list_elem_of_singleton]%elem_of_app; case_match; try lia;
      specialize (Hmin x); lia || (specialize (Hmin Hx); lia).
  - case_match; lia.
Qed.

Lemma running_max {A} (f : A -> Z) l b s :
  b ∈ l -> (forall x, x ∈ l -> f x <= f b) ->
  let b' := if f b <? f s then s else b in
  b' ∈ l ++ [s] /\ (forall x, x ∈ l ++ [s] -> f x <= f b') /\ f b' = Z.max (f b) (f s).
Proof.
  intros Hb Hmax b'. unfold b'. split_and!.
  - case_match; set_solver.
  - intros x [Hx| ->%list_elem_of_singleton]%elem_of_app; case_match; try lia;
      specialize (Hmax x); lia || (specialize (Hmax Hx); lia).
  - case_match; lia.
Qed.

Lemma summarises_snoc l r s now :
  summarises l r -> Forall (fun s => in_i64 (s_slot s)) (l ++ [s]) ->
  Z.of_nat (length l) < i64_max ->
  exists r',
    activity_merge now (activity_proposed (s_role s) (s_slot s) (s_tx s) (s_time s) now) r
      = Ok r' /\ summarises (l ++ [s]) r' /\
    r'.(ad_schemas_owned_count) = r.(ad_schemas_owned_count) /\
    r'.(ad_attestor_member_count) = r.(ad_attestor_member_count).
Proof.
  intros (Hs & Hr & (a & b & Ha & Hb & Hfs & Hft & Hls & Hlt & Hab) &
          (c & e & Hc & He & Hft' & Hlt' & Hce)) Hi Hlen.
  apply Forall_app in Hi as [_ Hi]. apply Forall_inv in Hi. simpl in Hi.
  pose proof (count_role_bounds Sender l). pose proof (count_role_bounds Receiver l).
  unfold activity_merge, activity_proposed.
  destruct (running_min s_slot l a s Ha) as (Ma & Mb & Mc); [intros; by apply Hab|].
  destruct (running_max s_slot l b s Hb) as (Na & Nb & Nc); [intros; by apply Hab|].
  destruct (running_min s_time l c s Hc) as (Oa & Ob & _); [intros; by apply Hce|].
  destruct (running_max s_time l e s He) as (Pa & Pb & _); [intros; by apply Hce|].
  unfold add_int8, sql_add.
  pose proof (count_role_snoc Sender l s) as Es. pose proof (count_role_snoc Receiver l s) as Er.
  destruct (s_role s) eqn:Erole; simpl in Es, Er; simpl;
    rewrite Hs, Hr, Hfs, Hft, Hls, Hlt, Hft', Hlt', (as_i64_id _ Hi);
    repeat match goal with |- context [(?x <=? ?y)] =>
      replace (x <=? y) with true by (symmetry; apply Z.leb_le; lia_int) end; simpl;
    (eexists; split; [reflexivity|]; split; [|done]);
    (split_and!; simpl; [by rewrite Es|by rewrite Er| |]);
    [ eexists _, _; split; [exact Ma|]; split; [exact Na|]
    | eexists _, _; split; [exact Oa|]; split; [exact Pa|]
    | eexists _, _; split; [exact Ma|]; split; [exact Na|]
    | eexists _, _; split; [exact Oa|]; split; [exact Pa|] ].
  all: split_and!; try by (rewrite ?Mc, ?Nc; reflexivity).
  all: try (destruct (s_slot s <? s_slot a); reflexivity).
  all: try (destruct (s_slot b <? s_slot s); reflexivity).
  all: try (destruct (s_time s <? s_time c); reflexivity).
  all: try (destruct (s_time e <? s_time s); reflexivity).
  all: intros x Hx; split; eauto.
Qed.

Lemma see_app address l1 l2 d : see address (l1 ++ l2) d = d' ← see address l1 d; see address l2 d'.
Proof.
  revert d. induction l1 as [|s l1 IH]; intros d; [done|]. cbn [app see].
  destruct (upsert_address_activity _ _ _ _ _ _ _) as [[[] d']|]; simpl; [apply IH|done].
Qed.

Lemma summarises_row_ok l r :
  l <> [] -> summarises l r -> 0 <= r.(ad_schemas_owned_count) ->
  0 <= r.(ad_attestor_member_count) -> address_row_ok r = true.
Proof.
  intros Hne (Hs & Hr & (a & b & _ & _ & H1 & H2 & H3 & H4 & _) &
              (c & e & _ & _ & H5 & H6 & _)) ? ?.
  pose proof (count_role_bounds Sender l). pose proof (count_role_bounds Receiver l).
  unfold address_row_ok. rewrite H1, H2, H3, H4, H5, H6, Hs, Hr.
  repeat (apply andb_true_intro; split); try apply Z.leb_le; simpl; try done; lia.
Qed.

(** C36: after any non-empty sequence of sightings of a fresh address, in whatever order
    the slots come, its row is their summary: exact totals per role, the smallest and
    largest slot and time, and a transaction seen at each extreme slot; no statement of
    the sequence fails. *)
Theorem address_summary_is_fold address l d :
  d.(address_summaries) !! address = None -> l <> [] ->
  Forall (fun s => in_i64 (s_slot s)) l -> Z.of_nat (length l) <= i64_max ->
  exists d' r, see address l d = Ok d' /\
    d'.(address_summaries) = <[address := r]> d.(address_summaries) /\ summarises l r.
Proof.
  intros Hnone Hne Hi Hlen.
  assert (exists d' r, see address l d = Ok d' /\
    d'.(address_summaries) = <[address := r]> d.(address_summaries) /\ summarises l r /\
    r.(ad_schemas_owned_count) = 0 /\ r.(ad_attestor_member_count) = 0) as (d' & r & ?);
    [|destruct_and?; eauto].
  induction l as [|s l IH] using rev_ind; [done|clear Hne].
  rewrite length_app in Hlen. simpl in Hlen. rewrite see_app.
  destruct (decide (l = [])) as [->|Hl].
  - clear IH. apply Forall_inv in Hi. simpl in Hi. simpl.
    unfold upsert_address_activity, upsert. rewrite Hnone.
    destruct s as [[] slot tx time now]; simpl; eexists _, _;
      (split; [reflexivity|]); (split; [reflexivity|]);
      (split; [|done]); simpl in Hi; unfold activity_proposed; rewrite ?(as_i64_id _ Hi);
      (split_and!; [reflexivity..| |]; do 2 eexists _; repeat (split; [left|]);
       split_and!; try reflexivity; intros s ->%list_elem_of_singleton; simpl; lia).
  - destruct IH as (d1 & r1 & -> & Ht & Hsum & Hz1 & Hz2);
      [done|by apply Forall_app in Hi as []|lia|].
    destruct (summarises_snoc l r1 s (s_now s) Hsum Hi) as (r' & Hm & Hsum' & Hy1 & Hy2);
      [lia|].
    simpl. unfold upsert_address_activity, upsert.
    rewrite Ht, lookup_insert_eq.
    assert (forall slot tx time now role, address_row_ok
              (activity_proposed role slot tx time now) = true) as -> by by intros ? ? ? ? [].
    rewrite Hm. simpl.
    rewrite (summarises_row_ok (l ++ [s]) r') by (try done; try lia; by destruct l).
    simpl. eexists _, r'. split; [reflexivity|]. split; [|split_and!; [done|lia|lia]].
    simpl. by rewrite insert_insert_eq.
Qed.

(** ** bounties *)

(** The statements the events of one bounty send: a hydrate on every event, the delta
    of a claim, the zeroing of a terminal event. *)
Inductive BountyOp :=
| Hydrate (rec : BountyRecord) (slot : Z) (tx : string) (time : Z)
| Claim (amount count slot : Z)
| Drain.

Section Bounties.
Context `{N : PgNumeric} `{NL : !PgNumericLaws N}.

Definition bounty_op (id : string) (op : BountyOp) : Stmt unit :=
  match op with
  | Hydrate rec slot tx time => upsert_bounty id rec slot tx time
  | Claim amount count slot => apply_bounty_claim id (to_string amount) count slot
  | Drain => set_bounty_escrow_zero id
  end.

Fixpoint bounty_ops (id : string) (l : list BountyOp) (d : DB) : result DbError DB :=
  match l with
  | [] => Ok d
  | op :: rest => '(_, d') ← bounty_op id op 0 d; bounty_ops id rest d'
  end.

(** The account the operations keep: escrow, number of claims. *)
Definition account_step (acc : Z * Z) (op : BountyOp) : Z * Z :=
  match op with
  | Hydrate _ _ _ _ => acc
  | Claim amount count _ => (acc.1 - amount, acc.2 + count)
  | Drain => (0, acc.2)
  end.

Definition op_ok (d : DB) (op : BountyOp) : Prop :=
  match op with
  | Hydrate rec _ _ _ => has_schema d rec.(bounty_board_schema_id)
  | Claim amount count _ => in_u128 amount /\ 0 <= count
  | Drain => True
  end.

Definition claim_counts (l : list BountyOp) : Z :=
  foldr (fun op acc => match op with Claim _ count _ => count | _ => 0 end + acc) 0 l.

Lemma map_bounty_status_known s :
  one_of (map_bounty_status s) ["open"; "exhausted"; "expired"; "cancelled"; "finalised"]
    = true.
Proof. unfold map_bounty_status. by repeat case_match. Qed.

Lemma bounty_op_row id op d r (escrow count : Z) :
  d.(bounties) !! id = Some r -> bounty_row_ok r = true -> op_ok d op ->
  r.(bo_escrow_remaining_nano) = to_string escrow -> r.(bo_claim_count) = count ->
  Z.abs escrow + u128_max <= numeric_max -> 0 <= count ->
  count + claim_counts [op] <= i32_max ->
  exists r', bounty_op id op 0 d = Ok (tt, with_bounties (<[id := r']> d.(bounties)) d) /\
    bounty_row_ok r' = true /\
    r'.(bo_escrow_remaining_nano) = to_string (account_step (escrow, count) op).1 /\
    r'.(bo_claim_count) = (account_step (escrow, count) op).2 /\
    r'.(bo_posted_at_tx) = r.(bo_posted_at_tx).
Proof.
  intros Hr Hrow Hop He Hc Hb Hc0 Hmax. destruct op as [rec slot tx time|amount n slot|];
    simpl in *.
  - unfold upsert_bounty, upsert. rewrite Hr. unfold bounty_row_ok at 1. simpl.
    rewrite map_bounty_status_known. unfold bounty_row_ok at 1. simpl.
    rewrite map_bounty_status_known. simpl. unfold require.
    destruct (decide _) as [|Hn]; [|by destruct Hn].
    simpl. eexists. split; [reflexivity|]. split_and!; try done.
    by apply map_bounty_status_known.
  - unfold apply_bounty_claim, update_key. rewrite Hr, He.
    rewrite numeric_sub_int by (destruct Hop; lia_int).
    unfold add_int4, sql_add. rewrite Hc.
    replace ((i32_min <=? count + n) && (count + n <=? i32_max)) with true.
    2: { symmetry. apply andb_true_intro. split; apply Z.leb_le; lia_int. }
    simpl. unfold bounty_row_ok in *. simpl. rewrite Hrow. simpl.
    eexists. split; [reflexivity|]. by split_and!.
  - unfold set_bounty_escrow_zero, update_key. rewrite Hr. simpl.
    unfold bounty_row_ok in *. simpl. rewrite Hrow. simpl.
    eexists. split; [reflexivity|]. by split_and!.
Qed.

Lemma claim_counts_nonneg d l : Forall (op_ok d) l -> 0 <= claim_counts l.
Proof.
  induction 1 as [|op l Hop _ IH]; simpl; [done|]. destruct op; simpl in *; lia.
Qed.

Lemma bounty_ops_row id l d r (escrow count : Z) :
  d.(bounties) !! id = Some r -> bounty_row_ok r = true -> Forall (op_ok d) l ->
  r.(bo_escrow_remaining_nano) = to_string escrow -> r.(bo_claim_count) = count ->
  Z.abs escrow + u128_max * Z.of_nat (length l) <= numeric_max ->
  0 <= count -> count + claim_counts l <= i32_max ->
  exists r', bounty_ops id l d = Ok (with_bounties (<[id := r']> d.(bounties)) d) /\
    let acc := fold_left account_step l (escrow, count) in
    r'.(bo_escrow_remaining_nano) = to_string acc.1 /\ r'.(bo_claim_count) = acc.2 /\
    r'.(bo_posted_at_tx) = r.(bo_posted_at_tx).
Proof.
  revert d r escrow count. induction l as [|op l IH]; intros d r escrow count
    Hr Hrow Hl He Hc Hb Hc0 Hmax.
  - exists r. simpl. rewrite insert_id by done. rewrite with_bounties_id. by split_and!.
  - apply Forall_cons in Hl as [Hop Hl].
    pose proof (claim_counts_nonneg _ _ Hl) as Hnn.
    change (claim_counts (op :: l)) with
      (match op with Claim _ n _ => n | _ => 0 end + claim_counts l) in Hmax.
    rewrite length_cons, Nat2Z.inj_succ in Hb.
    destruct (bounty_op_row id op d r escrow count) as (r1 & Hr1 & Hok1 & E1 & C1 & T1);
      [done..|lia_int|done|simpl; lia|].
    assert (Z.abs (account_step (escrow, count) op).1 + u128_max * Z.of_nat (length l)
            <= numeric_max /\ 0 <= (account_step (escrow, count) op).2 /\
            (account_step (escrow, count) op).2 + claim_counts l <= i32_max)
      as (B1 & B2 & B3).
    { destruct op; simpl in *; lia_int. }
    cbn [bounty_ops]. rewrite Hr1. simpl mbind.
    destruct (IH (with_bounties (<[id:=r1]> (bounties d)) d) r1
      (account_step (escrow, count) op).1 (account_step (escrow, count) op).2)
      as (r2 & H2 & E2 & C2 & T2); try done.
    { simpl. by rewrite lookup_insert_eq. }
    exists r2. split; [|simpl in *; rewrite <- surjective_pairing in E2, C2;
      split_and!; congruence].
    rewrite H2. simpl. by rewrite insert_insert_eq.
Qed.

(** C23: escrow accounting.  After the posting of a bounty with a pool of [pool] and any
    further hydrates, claims and terminal events, the escrow column is exactly the
    account: the pool less every claim since the last zeroing, printed as text (and
    below zero when claims exceed it), with the total number of claims; a hydrate never
    touches either, nor the transaction that posted the bounty. *)
Theorem bounty_escrow_account id rec slot tx time l d pool :
  d.(bounties) !! id = None -> has_schema d rec.(bounty_board_schema_id) ->
  rec.(bounty_pool) = to_string pool -> in_u128 pool ->
  Forall (op_ok d) l -> Z.of_nat (length l) <= i32_max -> claim_counts l <= i32_max ->
  exists d' r, bounty_ops id (Hydrate rec slot tx time :: l) d = Ok d' /\
    d'.(bounties) !! id = Some r /\
    let acc := fold_left account_step l (pool, 0) in
    r.(bo_escrow_remaining_nano) = to_string acc.1 /\ r.(bo_claim_count) = acc.2 /\
    r.(bo_posted_at_tx) = tx.
Proof.
  intros Hnone Hsch Hpool Hrange Hl Hlen Hcounts.
  cbn [bounty_ops bounty_op]. unfold upsert_bounty, upsert. rewrite Hnone.
  unfold bounty_row_ok at 1. simpl. rewrite map_bounty_status_known. simpl.
  unfold require. destruct (decide _) as [|Hn]; [|by destruct Hn]. simpl.
  match goal with |- context [<[id := ?row]> _] => set (r0 := row) end.
  destruct (bounty_ops_row id l (with_bounties (<[id:=r0]> (bounties d)) d) r0 pool 0)
    as (r & Hr & E & C & T); try done.
  - simpl. by rewrite lookup_insert_eq.
  - unfold bounty_row_ok. apply map_bounty_status_known.
  - assert (u128_max * (i32_max + 1) <= numeric_max) as Hm by by vm_compute.
    unfold in_u128, u128_max, i32_max in *. lia.
  - rewrite Hr. eexists _, r. split; [done|]. simpl.
    rewrite insert_insert_eq, lookup_insert_eq. by split_and!.
Qed.
End Bounties.

(** ** At concrete inputs *)

Definition sample_transfer : IndexerTx :=
  Transfer {| tr_from := "lig1a"; tr_to := "lig1b"; tr_amount_nano := "5";
              tr_token_id := "token_1x" |}.

Lemma insert_transaction_lands_witness :
  exists row, slot_position row = (3, 0) /\ tr_sender row = Some "lig1a" /\
    (insert_transaction (sample_ctx sample_transfer Committed) 3 0 [] None sample_env
       (sample_world (sample_db "pending" None))).2.(w_db).(transactions) !! "0xab" = Some row.
Proof.
  edestruct (insert_transaction_lands (sample_ctx sample_transfer Committed) 3 0 [] None
    sample_env (sample_world (sample_db "pending" None)))
    as (row & Hrun & Hpos & _ & _ & _ & Hs & _).
  - apply sample_env_calm.
  - reflexivity.
  - by eexists.
  - by intros hash r Hr.
  - by intros hash r Hr.
  - exists row. split; [exact Hpos|]. split; [exact Hs|]. rewrite Hrun.
    apply lookup_insert_eq.
Defined.

Lemma insert_transaction_reverted_fails_witness :
  exists err w',
    insert_transaction (sample_ctx sample_transfer Reverted) 3 0 [] None sample_env
      (sample_world (sample_db "pending" None)) = (Done (Err err), w').
Proof.
  edestruct (insert_transaction_reverted_fails (sample_ctx sample_transfer Reverted) 3 0 []
    None sample_env (sample_world (sample_db "pending" None)) eq_refl) as [err Herr].
  eexists _, _. exact Herr.
Defined.

Definition sample_sightings : list Sighting :=
  [{| s_role := Receiver; s_slot := 5; s_tx := "0x02"; s_time := 20; s_now := 100 |};
   {| s_role := Sender; s_slot := 3; s_tx := "0x01"; s_time := 10; s_now := 200 |}].

Lemma address_summary_is_fold_witness :
  exists d' r, see "lig1a" sample_sightings empty_db = Ok d' /\
    d'.(address_summaries) !! "lig1a" = Some r /\ summarises sample_sightings r.
Proof.
  destruct (address_summary_is_fold "lig1a" sample_sightings empty_db)
    as (d' & r & Hsee & Hd & Hr).
  - reflexivity.
  - done.
  - repeat constructor; vm_compute; congruence.
  - vm_compute; congruence.
  - exists d', r. split; [exact Hsee|]. split; [|exact Hr]. rewrite Hd. apply lookup_insert_eq.
Defined.

Lemma bounty_escrow_account_witness :
  exists d' r,
    bounty_ops (N := numeric) "c" [Hydrate sample_bounty 3 "0x01" 7; Claim 25 1 4; Claim 80 2 5]
      (sample_db "pending" None) = Ok d' /\
    d'.(bounties) !! "c" = Some r /\ r.(bo_escrow_remaining_nano) = "-5" /\
    r.(bo_claim_count) = 3.
Proof.
  destruct (bounty_escrow_account (N := numeric) (NL := numeric_laws) "c" sample_bounty 3 "0x01" 7
    [Claim 25 1 4; Claim 80 2 5] (sample_db "pending" None) 100)
    as (d' & r & Hops & Hr & He & Hc & _).
  - reflexivity.
  - by eexists.
  - reflexivity.
  - vm_compute; split; congruence.
  - repeat constructor; vm_compute; congruence.
  - vm_compute; congruence.
  - vm_compute; congruence.
  - exists d', r. by repeat split.
Defined.
