(* ===== verification/SlotSpec.v ===== *)
(** * Slots and their finality

    The settlement columns of a slot row: how the forward walk derives and preserves
    them, how the re-poll flips pending slots, and what the two do to each other. *)

From S2P Require Import Prelude Json Types Standards AttestationId Decode Parser Schema Io Db DbFacts Samples.
Open Scope string_scope.
Open Scope list_scope.
Open Scope Z_scope.

Section SlotSpec.
Context `{Chrono}.

Definition finalized (r : SlotRow) : Prop := r.(sl_finality_status) = Some FINALIZED.
Definition pending (r : SlotRow) : Prop := r.(sl_finality_status) = Some PENDING.
#[export] Instance finalized_dec r : Decision (finalized r).
Proof. unfold finalized. apply _. Defined.
#[export] Instance pending_dec r : Decision (pending r).
Proof. unfold pending. apply _. Defined.

Lemma finalized_not_pending r : finalized r -> ~ pending r.
Proof. unfold finalized, pending, FINALIZED, PENDING. congruence. Qed.

(** The previous hash a slot is written with: the chain's, else the stored hash of the
    slot below, else what the row already had. *)
Definition derived_prev_hash (slot : SlotResponse) (d : DB) (old : option SlotRow)
  : option string :=
  coalesce slot.(slot_prev_hash)
    (coalesce (if 0 <? slot.(slot_number)
               then sl_hash <$> d.(slots) !! as_i64 (slot.(slot_number) - 1) else None)
       (old ≫= sl_prev_hash)).

Lemma coalesce_none_r {A} (a : option A) : coalesce a None = a.
Proof. by destruct a. Qed.

(** What the statement stores, given the previous hash it is passed. *)
Lemma upsert_slot_stmt_row slot prev proposer da now d :
  let k := as_i64 slot.(slot_number) in
  let old := d.(slots) !! k in
  exists row,
    upsert_slot_stmt slot prev proposer da now d =
      Ok (tt, with_slots (<[k := row]> d.(slots)) d) /\
    sl_hash row = slot.(slot_hash) /\
    sl_finality_status row = slot.(slot_finality_status) /\
    sl_prev_hash row = coalesce prev (old ≫= sl_prev_hash) /\
    sl_proposer row = coalesce proposer (old ≫= sl_proposer) /\
    sl_da_block_height row = coalesce da (old ≫= sl_da_block_height) /\
    sl_finalized_at row =
      (if decide (finalized row /\ (old ≫= sl_finality_status) <> Some FINALIZED)
       then Some now else old ≫= sl_finalized_at).
Proof.
  simpl. set (new := slot_proposed slot prev proposer da now).
  exists (match slots d !! as_i64 (slot_number slot) with
          | Some old => slot_merge now new old | None => new end).
  unfold upsert_slot_stmt, upsert. cbn [no_check]. fold new.
  destruct (slots d !! as_i64 (slot_number slot)) as [r|]; cbn [mbind result_bind option_bind].
  - split; [done|]. split_and!; try done. cbn [sl_finalized_at slot_merge].
    unfold finalized. cbn [sl_finality_status slot_merge].
    destruct (decide (_ <> _ /\ _)) as [[]|], (decide (_ /\ _ <> _)) as [[]|]; try done;
      exfalso; naive_solver.
  - split; [done|]. rewrite !coalesce_none_r. split_and!; try done.
    unfold new, slot_proposed, finalized. cbn [sl_finalized_at sl_finality_status].
    destruct (decide (_ = Some FINALIZED)), (decide (_ /\ _ <> _)) as [[]|]; try done;
      exfalso; naive_solver.
Qed.

(** The row of an upserted slot.  Hash and finality are the chain's; the previous
    hash is the chain's or the stored hash of the slot below; previous hash, proposer
    and DA height keep their stored value when nothing newer is known; [finalized_at]
    is stamped exactly when the row turns finalized, and otherwise kept. *)
Theorem upsert_slot_row slot proposer da e w :
  calm e ->
  let k := as_i64 slot.(slot_number) in
  let old := w.(w_db).(slots) !! k in
  exists now row w',
    upsert_slot slot proposer da e w = (Done (Ok tt), w') /\
    w'.(w_db) = with_slots (<[k := row]> w.(w_db).(slots)) w.(w_db) /\
    sl_hash row = slot.(slot_hash) /\
    sl_finality_status row = slot.(slot_finality_status) /\
    sl_prev_hash row = derived_prev_hash slot w.(w_db) old /\
    sl_proposer row = coalesce proposer (old ≫= sl_proposer) /\
    sl_da_block_height row = coalesce da (old ≫= sl_da_block_height) /\
    sl_finalized_at row =
      (if decide (finalized row /\ (old ≫= sl_finality_status) <> Some FINALIZED)
       then Some now else old ≫= sl_finalized_at).
Proof.
  intros He k old. unfold upsert_slot, derived_prev_hash.
  destruct (slot_prev_hash slot) as [h|] eqn:Ep; [|destruct (0 <? slot_number slot)].
  - rewrite (io_bind_done _ _ e w (Some h) w) by done. rewrite exec_calm by done.
    destruct (upsert_slot_stmt_row slot (Some h) proposer da (env_now e (w_tick w)) (w_db w))
      as (row & -> & Hrow).
    destruct_and!. eexists _, row, _. split; [done|]. by split_and!.
  - set (ph := sl_hash <$> slots (w_db w) !! as_i64 (slot_number slot - 1)).
    rewrite (io_bind_done _ _ e w ph {| w_db := w_db w; w_tick := S (w_tick w) |}).
    2: { unfold mbind, io_bind. rewrite exec_calm by done. done. }
    rewrite exec_calm by done. cbn [w_db w_tick].
    destruct (upsert_slot_stmt_row slot ph proposer da
      (env_now e (S (w_tick w))) (w_db w)) as (row & -> & Hrow).
    destruct_and!. eexists _, row, _. split; [done|]. by split_and!.
  - rewrite (io_bind_done _ _ e w None w) by done. rewrite exec_calm by done.
    destruct (upsert_slot_stmt_row slot None proposer da (env_now e (w_tick w)) (w_db w))
      as (row & -> & Hrow).
    destruct_and!. eexists _, row, _. split; [done|]. by split_and!.
Qed.

(** The stamp is not written once.  When the chain, or a node restored from an older
    snapshot, reports a stored finalized slot as pending again, the upsert turns the row
    pending while keeping its stamp, and the next flip overwrites that stamp. *)
Theorem finalized_at_restamped slot prev proposer da d r t0 t1 t2 :
  let k := as_i64 slot.(slot_number) in
  d.(slots) !! k = Some r -> finalized r -> r.(sl_finalized_at) = Some t0 ->
  slot.(slot_finality_status) = Some PENDING ->
  exists d1 d2 r1 r2,
    upsert_slot_stmt slot prev proposer da t1 d = Ok (tt, d1) /\
    d1.(slots) !! k = Some r1 /\ pending r1 /\ r1.(sl_finalized_at) = Some t0 /\
    flip_pending_stmt slot.(slot_number) t2 d1 = Ok (1, d2) /\
    d2.(slots) !! k = Some r2 /\ finalized r2 /\ r2.(sl_finalized_at) = Some t2.
Proof.
  intros k Hr Hf Ht Hp.
  destruct (upsert_slot_stmt_row slot prev proposer da t1 d) as (row & Hrun & Hrow).
  fold k in Hrun, Hrow. rewrite Hr in Hrow.
  destruct Hrow as (_ & Hfin & _ & _ & _ & Hst).
  assert (pending row) as Hpen by (unfold pending; congruence).
  eexists _, _, row, _. split; [exact Hrun|].
  cbn [with_slots slots].
  split; [apply lookup_insert_eq|]. split; [done|]. split.
  { rewrite Hst. destruct (decide _) as [[Hf' _]|]; [|done].
    by destruct (finalized_not_pending row). }
  unfold flip_pending_stmt. fold k. cbn [with_slots slots].
  rewrite lookup_insert_eq. destruct (decide (sl_finality_status row = Some PENDING)) as [|Hn]; [|destruct Hn; exact Hpen].
  split; [done|]. cbn [with_slots slots].
  split; [apply lookup_insert_eq|done].
Qed.
End SlotSpec.

(** ** Flipping pending slots *)

Definition pending_slots (d : DB) : gmap Z SlotRow :=
  filter (fun kv : Z * SlotRow => pending kv.2) d.(slots).

(** A row before and after: untouched, or flipped. *)
Definition flipped_or_same (r r' : SlotRow) : Prop :=
  r' = r \/ (pending r /\ finalized r' /\ is_Some r'.(sl_finalized_at) /\
             r'.(sl_hash) = r.(sl_hash) /\ r'.(sl_prev_hash) = r.(sl_prev_hash) /\
             r'.(sl_proposer) = r.(sl_proposer)).

Lemma flip_stmt_run h now d :
  let k := as_i64 h in
  exists n d', flip_pending_stmt h now d = Ok (n, d') /\
    n + Z.of_nat (size (pending_slots d')) = Z.of_nat (size (pending_slots d)) /\
    d' = with_slots d'.(slots) d /\
    (forall r, d'.(slots) !! k = Some r -> ~ pending r) /\
    (forall j, j <> k -> d'.(slots) !! j = d.(slots) !! j) /\
    (forall r, d.(slots) !! k = Some r ->
       exists r', d'.(slots) !! k = Some r' /\ flipped_or_same r r') /\
    (d.(slots) !! k = None -> d'.(slots) !! k = None).
Proof.
  intros k. unfold flip_pending_stmt. fold k.
  destruct (slots d !! k) as [r|] eqn:Er; [destruct (decide _) as [Hp|Hn]|].
  - match goal with |- context [<[k := ?x]> _] => set (row := x) end.
    eexists 1, _. split; [reflexivity|]. simpl.
    assert (~ pending row) as Hnp by (by apply finalized_not_pending).
    split; [|split_and!].
    + unfold pending_slots. simpl. rewrite map_filter_insert_False by done.
      rewrite map_filter_delete.
      rewrite map_size_delete_Some.
      2: { exists r. by apply map_lookup_filter_Some. }
      assert (size (filter (fun kv : Z * SlotRow => pending kv.2) (slots d)) <> 0%nat).
      { apply (map_size_ne_0_lookup_2 _ k). exists r. by apply map_lookup_filter_Some. }
      lia.
    + done.
    + intros r0. rewrite lookup_insert_eq. by intros [= <-].
    + intros j Hj. by rewrite lookup_insert_ne.
    + intros r0 [= <-]. exists row. rewrite lookup_insert_eq. split; [done|].
      right. by split_and!.
    + done.
  - exists 0, d. split; [done|]. split; [lia|]. split_and!; try done.
    + by destruct d.
    + intros r0 Hr0. congruence.
    + intros r0 Hr0. exists r0. split; [congruence|by left].
  - exists 0, d. split; [done|]. split; [lia|]. split_and!; try done.
    + by destruct d.
    + intros r0 Hr0. congruence.
Qed.

Lemma flip_loop_run l n e w :
  calm e ->
  exists m w', flip_pending_loop l n e w = (Done (Ok m), w') /\
    m + Z.of_nat (size (pending_slots w'.(w_db))) =
      n + Z.of_nat (size (pending_slots w.(w_db))) /\
    (forall h r, w.(w_db).(slots) !! h = Some r ->
       exists r', w'.(w_db).(slots) !! h = Some r' /\ flipped_or_same r r' /\
         (r' <> r -> exists h0, (h0, Some FINALIZED) ∈ l /\ as_i64 h0 = h)) /\
    (forall h0 r, (h0, Some FINALIZED) ∈ l ->
       w'.(w_db).(slots) !! as_i64 h0 = Some r -> ~ pending r) /\
    (forall h, w.(w_db).(slots) !! h = None -> w'.(w_db).(slots) !! h = None).
Proof.
  intros He. revert n w. induction l as [|[h s] l IH]; intros n w.
  - exists n, w. simpl. split_and!; try done; [|set_solver].
    intros h r Hr. exists r. split_and!; [done|by left|done].
  - cbn [flip_pending_loop]. destruct (decide (s = Some FINALIZED)) as [->|Hs].
    2: { destruct (IH n w) as (m & w' & Hrun & Hm & Hrows & Hflip & Hnone).
      exists m, w'. split_and!; try done.
      - intros j r Hr. destruct (Hrows j r Hr) as (r' & ? & ? & Hin). exists r'.
        split_and!; try done. intros Hne. destruct (Hin Hne) as (h0 & ? & ?).
        exists h0. split; [by right|done].
      - intros h0 r Hin. apply elem_of_cons in Hin as [[= -> <-]|Hin]; [done|]. by apply Hflip. }
    destruct (flip_stmt_run h (env_now e (w_tick w)) (w_db w))
      as (k & d1 & Hst & Hk & _ & Hnp & Hother & Hsame & Hno).
    erewrite io_bind_done by (rewrite exec_calm, Hst by done; reflexivity).
    destruct (IH (n + k) {| w_db := d1; w_tick := S (w_tick w) |})
      as (m & w' & Hrun & Hm & Hrows & Hflip & Hnone).
    simpl in Hm, Hrows, Hnone. exists m, w'. split_and!; [done|lia|..].
    + intros j r Hr.
      assert (exists r1, slots d1 !! j = Some r1 /\ flipped_or_same r r1 /\
                (r1 <> r -> as_i64 h = j)) as (r1 & Hr1 & Hf1 & Hne1).
      { destruct (decide (j = as_i64 h)) as [->|Hj].
        - destruct (Hsame r Hr) as (r1 & ? & ?). by exists r1.
        - exists r. rewrite Hother by done. split_and!; [done|by left|done]. }
      destruct (Hrows j r1 Hr1) as (r' & Hr' & Hf' & Hne'). exists r'.
      split; [done|]. destruct Hf1 as [->|Hf1].
      * split; [done|]. intros Hne. destruct (Hne' Hne) as (h0 & ? & ?).
        exists h0. split; [by right|done].
      * destruct Hf' as [->|(Hp1 & _)].
        -- split; [by right|]. intros Hne. exists h. split; [left|by apply Hne1].
        -- exfalso. destruct Hf1 as (_ & Hf1 & _). by apply (finalized_not_pending r1).
    + intros h0 r Hin Hr. apply elem_of_cons in Hin as [[= ->]|Hin]; [|by eapply Hflip].
      destruct (slots d1 !! as_i64 h) as [r1|] eqn:Er1.
      * destruct (Hrows _ _ Er1) as (r' & Hr' & Hf & _). simplify_eq.
        destruct Hf as [->|(Hp & _)]; [by apply Hnp|]. by destruct (Hnp r1).
      * apply Hnone in Er1. congruence.
    + intros j Hj. apply Hnone. destruct (decide (j = as_i64 h)) as [->|Hj']; [by apply Hno|].
      by rewrite Hother.
Qed.

(** The flip of re-polled slots.  Every row is left alone or turned from pending to
    finalized with a stamp, hashes and proposer untouched, and only if the chain reported
    that height finalized; every such height is no longer pending; the number returned is
    exactly the number of rows that left the pending set. *)
Theorem flip_pending_slots_exact rechecked e w :
  calm e ->
  exists n w', flip_pending_slots rechecked e w = (Done (Ok n), w') /\
    n = Z.of_nat (size (pending_slots w.(w_db))) - Z.of_nat (size (pending_slots w'.(w_db))) /\
    (forall h r, w.(w_db).(slots) !! h = Some r ->
       exists r', w'.(w_db).(slots) !! h = Some r' /\ flipped_or_same r r' /\
         (r' <> r -> exists h0, (h0, Some FINALIZED) ∈ rechecked /\ as_i64 h0 = h)) /\
    (forall h0 r, (h0, Some FINALIZED) ∈ rechecked ->
       w'.(w_db).(slots) !! as_i64 h0 = Some r -> ~ pending r).
Proof.
  intros He. destruct (flip_loop_run rechecked 0 e w He)
    as (n & w' & Hrun & Hn & Hrows & Hflip & _).
  exists n, w'. split_and!; [by destruct rechecked|lia|done|done].
Qed.

(** ** At concrete inputs *)

Lemma upsert_slot_row_witness :
  exists row w',
    upsert_slot (H := clock) (sample_slot 4 "finalized") None None sample_env
      (sample_world (sample_db "pending" None)) = (Done (Ok tt), w') /\
    w'.(w_db).(slots) !! 4 = Some row /\ is_Some (sl_finalized_at row) /\
    sl_prev_hash row = Some "0x0a".
Proof.
  destruct (upsert_slot_row (H := clock) (sample_slot 4 "finalized") None None sample_env
    (sample_world (sample_db "pending" None)) sample_env_calm)
    as (now & row & w' & Hrun & Hdb & _ & Hst & Hprev & _ & _ & Hfin).
  exists row, w'. split; [exact Hrun|]. split; [rewrite Hdb; apply lookup_insert_eq|].
  split; [|rewrite Hprev; reflexivity].
  rewrite Hfin. destruct (decide _) as [|Hn]; [by eexists|].
  exfalso. apply Hn. split; [unfold finalized; rewrite Hst; reflexivity|].
  by vm_compute.
Defined.

Lemma finalized_at_restamped_witness :
  exists d1 d2 r2,
    upsert_slot_stmt (H := clock) (sample_slot 3 "pending") None None None 20
      (sample_db "finalized" (Some 10)) = Ok (tt, d1) /\
    flip_pending_stmt 3 30 d1 = Ok (1, d2) /\ d2.(slots) !! 3 = Some r2 /\
    r2.(sl_finalized_at) = Some 30.
Proof.
  destruct (finalized_at_restamped (H := clock) (sample_slot 3 "pending") None None None
    (sample_db "finalized" (Some 10)) (sample_slot_row "finalized" (Some 10)) 10 20 30)
    as (d1 & d2 & r1 & r2 & Hup & _ & _ & _ & Hflip & Hr2 & _ & Hstamp).
  - reflexivity.
  - reflexivity.
  - reflexivity.
  - reflexivity.
  - exists d1, d2, r2. by repeat split.
Defined.

Lemma flip_pending_slots_exact_witness :
  exists n w',
    flip_pending_slots [(3, Some FINALIZED)] sample_env
      (sample_world (sample_db "pending" None)) = (Done (Ok n), w') /\
    n = 1 - Z.of_nat (size (pending_slots w'.(w_db))).
Proof.
  destruct (flip_pending_slots_exact [(3, Some FINALIZED)] sample_env
    (sample_world (sample_db "pending" None)) sample_env_calm) as (n & w' & Hrun & Hn & _).
  exists n, w'. split; [exact Hrun|]. rewrite Hn. reflexivity.
Defined.
