(* ===== verification/Ingest.v ===== *)
(** * The ingest loop ([crates/indexer/src/ingest.rs])

    The two tasks of the indexer as [IO] programs over [Client] and [Db]: the forward
    walk (bootstrap, resume cursor, one pass of the main loop, the transactions of a
    slot) and the re-poll of pending slots. *)

From S2P Require Import Prelude Json Types Standards AttestationId Decode Parser Schema Io Db Client.
From stdpp Require Import list_numbers.
Open Scope string_scope.
Open Scope list_scope.
Open Scope Z_scope.
Open Scope io_scope.

(** Database errors become [IndexerError::Database]. *)
Definition db {A} (m : IO (result DbError A)) : IO (result IndexerError A) :=
  r ← m; mret (map_err Database r).

(** [if let Err(e) = m { warn!(..) }]. *)
Definition ignore {E A} (m : IO (result E A)) : IO unit := _ ← m; mret tt.

Record SlotFirstBatchFacts := {
  f_proposer : option string;
  f_da_block_height : option Z
}.
Definition no_facts : SlotFirstBatchFacts :=
  {| f_proposer := None; f_da_block_height := None |}.

Section Ingest.
Context `{B : Bech32} `{H : Sha256} `{Chrono} `{PgNumeric} `{Urls} `{JsonText}.
Context (base64_decode : string -> option (list Z)).
Context (client : NodeClient).

(** ** One transaction *)

Definition update_address_summaries (c : ClassifiedTx) (slot_height slot_timestamp : Z)
  : IO (result IndexerError unit) :=
  _ ←? match event_sender c.(ctx_kind) with
       | Some addr =>
           db (exec (upsert_address_activity addr Sender slot_height c.(ctx_hash)
                       slot_timestamp))
       | None => mret (Ok tt)
       end;
  match c.(ctx_kind) with
  | Transfer t =>
      db (exec (upsert_address_activity t.(tr_to) Receiver slot_height c.(ctx_hash)
                  slot_timestamp))
  | _ => mret (Ok tt)
  end.

Fixpoint bump_members (members : list string) : IO unit :=
  match members with
  | [] => mret tt
  | m :: rest => _ ← bump_attestor_member_count m; bump_members rest
  end.

(** The two arms that read the record from the node first. *)
Definition bounty_rows (c : ClassifiedTx) (bounty_id : string) (kind : BountyEventKind)
    (slot_height slot_timestamp : Z) : IO (result IndexerError unit) :=
  rec ←? bounty_at client bounty_id;
  match rec with
  | None => mret (Ok tt)
  | Some rec =>
      _ ←? db (exec (upsert_bounty bounty_id rec slot_height c.(ctx_hash)
                       slot_timestamp));
      match kind with
      | BountyEventKind.Claimed count total_payout =>
          _ ← ignore (exec (apply_bounty_claim bounty_id total_payout
                              (clamp_i32 count) slot_height));
          mret (Ok tt)
      | BountyEventKind.Expired | BountyEventKind.Finalised =>
          _ ← ignore (exec (set_bounty_escrow_zero bounty_id));
          mret (Ok tt)
      | BountyEventKind.Posted | BountyEventKind.Disputed
      | BountyEventKind.DisputeResolved => mret (Ok tt)
      end
  end.

Definition contract_rows (c : ClassifiedTx) (contract_id : string) (kind : ContractEventKind)
    (slot_height slot_timestamp : Z) : IO (result IndexerError unit) :=
  rec ←? contract_at client contract_id;
  match rec with
  | None => mret (Ok tt)
  | Some rec =>
      _ ←? db (exec (upsert_contract value_to_string contract_id rec slot_height
                       c.(ctx_hash) slot_timestamp));
      match kind with
      | ContractEventKind.Accepted | ContractEventKind.DisputeResolved
      | ContractEventKind.Cancelled | ContractEventKind.Expired =>
          _ ← ignore (exec (set_contract_escrow_zero contract_id));
          mret (Ok tt)
      | ContractEventKind.Posted | ContractEventKind.Committed
      | ContractEventKind.Delivered | ContractEventKind.Rejected => mret (Ok tt)
      end
  end.

Definition insert_resource_rows (c : ClassifiedTx) (slot_height slot_timestamp : Z)
  : IO (result IndexerError unit) :=
  match c.(ctx_kind) with
  | RegisterAttestorSet r =>
      _ ←? db (exec (insert_attestor_set r c.(ctx_hash) slot_height slot_timestamp));
      _ ← bump_members r.(ras_members);
      mret (Ok tt)
  | RegisterSchema r =>
      _ ←? db (exec (insert_schema r c.(ctx_hash) slot_height slot_timestamp));
      _ ← ignore (exec (bump_attestor_set_schema_count r.(rs_attestor_set_id)));
      _ ← ignore (exec (bump_address_schemas_owned r.(rs_owner) slot_height c.(ctx_hash)
                          slot_timestamp));
      mret (Ok tt)
  | SubmitAttestation a =>
      _ ←? db (exec (insert_attestation a c.(ctx_hash) slot_height slot_timestamp));
      _ ← ignore (exec (bump_schema_attestation_count a.(sa_schema_id)));
      mret (Ok tt)
  | BountyEvent bounty_id kind => bounty_rows c bounty_id kind slot_height slot_timestamp
  | ContractEvent contract_id kind => contract_rows c contract_id kind slot_height slot_timestamp
  | Transfer _ | Unknown _ => mret (Ok tt)
  end.

(** ** One slot *)

(** The body of the loop over a batch's transactions; gives the next position. *)
Definition ingest_tx (slot : SlotResponse) (slot_timestamp numeric_chain_id : Z)
    (all_events : list LedgerEvent) (position_in_slot tx_number : Z)
  : IO (result IndexerError Z) :=
  found ←? tx_at_number client tx_number;
  match found with
  | None => mret (Ok position_in_slot)
  | Some tx =>
      let tx_events := filter (fun ev => ev.(ev_tx_hash) = tx.(tx_hash)) all_events in
      let raw_event_keys := ev_key <$> tx_events in
      decoded ← lift (decode_tx_body base64_decode tx.(tx_body).(fbt_data)
                        numeric_chain_id);
      classified ← lift (classify_tx value_to_string tx tx_events);
      match classified with
      | None => mret (Ok position_in_slot)
      | Some c =>
          r ← insert_transaction c slot.(slot_number) position_in_slot raw_event_keys
                decoded;
          _ ← match r with
              | Err _ => mret tt
              | Ok _ =>
                  _ ← ignore (update_address_summaries c slot.(slot_number)
                                slot_timestamp);
                  ignore (insert_resource_rows c slot.(slot_number) slot_timestamp)
              end;
          mret (Ok (as_i32 (position_in_slot + 1)))
      end
  end.

(** A [for] loop with [?] in its body. *)
Fixpoint for_each {A} (body : Z -> A -> IO (result IndexerError Z)) (l : list A) (pos : Z)
  : IO (result IndexerError Z) :=
  match l with
  | [] => mret (Ok pos)
  | x :: rest => pos' ←? body pos x; for_each body rest pos'
  end.

(** [start..end]. *)
Definition range (r : Uint64Range) : list Z := seqZ r.(rng_start) (r.(rng_end) - r.(rng_start)).

Definition ingest_batch (slot : SlotResponse) (slot_timestamp numeric_chain_id : Z)
    (all_events : list LedgerEvent) (position_in_slot batch_number : Z)
  : IO (result IndexerError Z) :=
  found ←? batch_at client batch_number;
  match found with
  | None => mret (Ok position_in_slot)
  | Some b =>
      for_each (ingest_tx slot slot_timestamp numeric_chain_id all_events)
        (range b.(batch_tx_range)) position_in_slot
  end.

Definition ingest_slot_transactions (slot : SlotResponse) (numeric_chain_id : Z)
  : IO (result IndexerError unit) :=
  match slot.(slot_batch_range) with
  | None => mret (Ok tt)
  | Some batch_range =>
      all_events ←? events_for_slot client slot.(slot_number);
      _ ←? for_each (ingest_batch slot (slot_timestamp_of slot) numeric_chain_id all_events)
             (range batch_range) 0;
      mret (Ok tt)
  end.

Definition extract_slot_first_batch_facts (slot : SlotResponse) : IO SlotFirstBatchFacts :=
  match slot.(slot_batch_range) with
  | None => mret no_facts
  | Some batch_range =>
      r ← batch_at client batch_range.(rng_start);
      match r with
      | Ok (Some b) =>
          match obj_get "receipt" b.(batch_raw) ≫= as_object with
          | None => mret no_facts
          | Some receipt =>
              mret {| f_proposer := obj_get "da_address" receipt ≫= as_str;
                      f_da_block_height :=
                        h ← obj_get "da_block_height" receipt ≫= value_as_u64;
                        if (i64_min <=? h) && (h <=? i64_max) then Some h else None |}
          end
      | Ok None | Err _ => mret no_facts
      end
  end.

(** ** The forward walk *)

(** One pass of the bootstrap loop; [true] leaves it. *)
Definition bootstrap_step : IO bool :=
  r ← rollup_info client;
  match r with
  | Ok info =>
      w ← exec (write_chain_identity info);
      match w with Err _ => mret false | Ok _ => mret true end
  | Err _ => mret false
  end.

Definition resolve_cursor (start_height : option Z) : IO Z :=
  match start_height with
  | Some h => mret h
  | None =>
      r ← exec read_last_indexed_height;
      match r with
      | Ok (Some h) => mret (saturating_add u64_max h 1)
      | Ok None => mret 1
      | Err _ => mret 1
      end
  end.

(** What one pass of the inner [while] does to the cursor. *)
Inductive walk_result := Advance (next : Z) | Break.

Definition walk_step (numeric_chain_id h : Z) : IO walk_result :=
  r ← slot_at client h;
  match r with
  | Ok (Some slot) =>
      facts ← extract_slot_first_batch_facts slot;
      w ← upsert_slot slot facts.(f_proposer) facts.(f_da_block_height);
      match w with
      | Err _ => mret Break
      | Ok _ =>
          _ ← ignore (ingest_slot_transactions slot numeric_chain_id);
          _ ← ignore (exec (write_last_indexed_height h));
          mret (Advance (as_u64 (h + 1)))
      end
  | Ok None => mret (Advance (as_u64 (h + 1)))
  | Err _ => mret Break
  end.

(** [while next_height <= head]; [None] when the fuel runs out. *)
Fixpoint walk (fuel : nat) (numeric_chain_id head next_height : Z) : IO (option Z) :=
  if next_height <=? head then
    match fuel with
    | O => mret None
    | S fuel =>
        r ← walk_step numeric_chain_id next_height;
        match r with
        | Break => mret (Some next_height)
        | Advance next => walk fuel numeric_chain_id head next
        end
    end
  else mret (Some next_height).

Definition walk_fuel (head next_height : Z) : nat := Z.to_nat (head - next_height + 1).

(** One pass of the main loop: the new [next_height]. *)
Definition main_step (numeric_chain_id next_height : Z) : IO (option Z) :=
  r ← latest_slot client;
  match r with
  | Err _ => mret (Some next_height)
  | Ok s =>
      let head := s.(slot_number) in
      if head <? next_height then mret (Some next_height)
      else walk (walk_fuel head next_height) numeric_chain_id head next_height
  end.

(** [n] passes. *)
Fixpoint main_loop (n : nat) (numeric_chain_id next_height : Z) : IO (option Z) :=
  match n with
  | O => mret (Some next_height)
  | S n =>
      r ← main_step numeric_chain_id next_height;
      match r with
      | None => mret None
      | Some next => main_loop n numeric_chain_id next
      end
  end.

Fixpoint bootstrap (n : nat) : IO bool :=
  match n with
  | O => mret false
  | S n => ok ← bootstrap_step; if ok : bool then mret true else bootstrap n
  end.

(** The first [tries] bootstrap passes and, when one succeeds, [n] main passes. *)
Definition run (tries n : nat) (start_height : option Z) (numeric_chain_id : Z)
  : IO (option Z) :=
  ok ← bootstrap tries;
  if ok : bool then
    next_height ← resolve_cursor start_height;
    main_loop n numeric_chain_id next_height
  else mret None.

(** ** The re-poll task *)

Fixpoint observe (pending : list Z) : IO (list (Z * option string)) :=
  match pending with
  | [] => mret []
  | height :: rest =>
      r ← slot_at client height;
      obs ← observe rest;
      match r with
      | Ok (Some slot) => mret ((height, slot.(slot_finality_status)) :: obs)
      | Ok None | Err _ => mret obs
      end
  end.

(** One pass of [repoll_pending_loop]: the number it logs. *)
Definition repoll_step : IO (result DbError Z) :=
  r ← exec pending_slot_heights;
  match r with
  | Err e => mret (Err e)
  | Ok [] => mret (Ok 0)
  | Ok pending => observed ← observe pending; flip_pending_slots observed
  end.
End Ingest.
