(* ===== verification/IngestSpec.v ===== *)
(** * What the indexer guarantees

    The two tasks against the [Guarantee] interface: under any interleaving of their
    statements, any replies and any faults they keep whatever every statement keeps: the
    constraints of the schema, the history of every row, the absence of reverted rows.
    [Writers] is what the loops need of a relation; it lets a relation that some statements
    only keep behind a stored transaction be carried through them too ([Links]). *)

From S2P Require Import Prelude JsonSyntax Json Types Standards Bech32m Sha2 AttestationId Decode Parser Schema Io Db DbFacts History Client Ingest Samples.
From stdpp Require Import list_numbers.
Open Scope string_scope.
Open Scope list_scope.
Open Scope Z_scope.

Section Tasks.
Context `{B : Bech32} `{H : Sha256} `{C : Chrono} `{N : PgNumeric} `{U : Urls}
  `{J : JsonText} (base64_decode : string -> option (list Z)) (client : NodeClient).
Context (R : relation DB) `{G : !Guarantee R}.

Lemma db_evolves {A} (m : IO (result DbError A)) : evolves R m -> evolves R (db m).
Proof. intros. unfold db. io_steps. Qed.

Lemma ignore_evolves {E A} (m : IO (result E A)) : evolves R m -> evolves R (ignore m).
Proof. intros. unfold ignore. io_steps. Qed.

Lemma bump_members_evolves l : evolves R (bump_members l).
Proof. induction l; simpl; unfold bump_attestor_member_count; io_steps. Qed.

#[local] Hint Resolve db_evolves ignore_evolves bump_members_evolves : io.

Ltac go := evolves_go.

Lemma update_address_summaries_evolves c h ts : evolves R (update_address_summaries c h ts).
Proof. unfold update_address_summaries. go. Qed.

Definition ids_derived (c : ClassifiedTx) : Prop :=
  forall a, c.(ctx_kind) = SubmitAttestation a -> attestation_id_ok a.

Lemma insert_resource_rows_evolves c h ts :
  ids_derived c -> evolves R (insert_resource_rows client c h ts).
Proof.
  intros Hc. unfold insert_resource_rows, bounty_rows, contract_rows.
  destruct (ctx_kind c) eqn:Ek; try (pose proof (Hc _ Ek));
    try (eapply evolves_try_gives;
         [apply _|unfold contract_at; go|apply contract_at_gives|intros [rec|] Hrec]);
    unfold bounty_at; go.
Qed.

Lemma insert_transaction_evolves c h p ks dec :
  in_i32 p -> evolves R (insert_transaction c h p ks dec).
Proof. intros Hp. unfold insert_transaction. go. Qed.

End Tasks.

(** What the loops above the statements need of them: a transaction goes with the rows it
    stands for, which are written once it is stored. *)
Definition tx_and_rows `{Bech32} `{Sha256} `{Chrono} `{PgNumeric} `{Urls} `{JsonText} {A}
    (client : NodeClient) (c : ClassifiedTx) (h ts p : Z) (ks : list string)
    (dec : option DecodedTxBody) (a : A) : IO A :=
  r ← insert_transaction c h p ks dec;
  _ ← match r with
      | Err _ => mret tt
      | Ok _ =>
          _ ← ignore (update_address_summaries c h ts);
          ignore (insert_resource_rows client c h ts)
      end;
  mret a.

Class Writers `{Bech32} `{Sha256} `{Chrono} `{PgNumeric} `{Urls} `{JsonText}
    (R : relation DB) (client : NodeClient) : Prop := {
  w_preorder :: PreOrder R;
  w_upsert_state k v : stmt_evolves R (upsert_state k v);
  w_write_chain_identity info : stmt_evolves R (write_chain_identity info);
  w_upsert_slot s p q h : opt_in_i64 h -> stmt_evolves R (upsert_slot_stmt s p q h);
  w_flip_pending h : stmt_evolves R (flip_pending_stmt h);
  w_tx_and_rows c h ts p ks dec (a : result IndexerError Z) :
    c.(ctx_outcome) <> Skipped -> ids_derived c -> in_i32 p ->
    evolves R (tx_and_rows client c h ts p ks dec a)
}.

#[export] Instance guarantee_writers `{B : Bech32} `{H : Sha256} `{C : Chrono} `{N : PgNumeric} `{U : Urls}
    `{J : JsonText} R client : Guarantee R -> Writers R client.
Proof.
  intros G. split; [apply _|intros; apply G..|]; [done|]. intros c h ts p ks dec a _ Hc Hp.
  apply evolves_bind; [apply _|by apply insert_transaction_evolves|]. intros r.
  apply evolves_bind; [apply _| |intros; by apply evolves_ret; apply _].
  destruct r; [|by apply evolves_ret; apply _].
  apply evolves_bind; [apply _| |intros []]; apply ignore_evolves; [apply _| |apply _|].
  - by apply update_address_summaries_evolves.
  - by apply insert_resource_rows_evolves.
Qed.

Section Loops.
Context `{B : Bech32} `{H : Sha256} `{C : Chrono} `{N : PgNumeric} `{U : Urls}
  `{J : JsonText} (base64_decode : string -> option (list Z)) (client : NodeClient).
Context (R : relation DB) `{W : !Writers R client}.

Lemma w_ignore_evolves {E A} (m : IO (result E A)) : evolves R m -> evolves R (ignore m).
Proof. intros. unfold ignore. io_steps. Qed.

#[local] Hint Resolve w_ignore_evolves w_preorder w_upsert_state w_write_chain_identity
  w_upsert_slot w_flip_pending w_tx_and_rows : io.
Ltac go := evolves_go.

(** A pure step tells the program behind it how its value came about. *)
Lemma evolves_lift_eq {A A'} (o : outcome A) (k : A -> IO A') :
  (forall a, o = Done a -> evolves R (k a)) -> evolves R (lift o ≫= k).
Proof.
  intros Hk e w He. unfold mbind, io_bind, lift. destruct o as [a|]; [by apply Hk|].
  simpl. apply w_preorder.
Qed.

(** A position stays an [i32] from one transaction to the next. *)
Definition gives_position : IO (result IndexerError Z) -> Prop := gives (on_ok in_i32).

Lemma for_each_evolves {A} (body : Z -> A -> IO (result IndexerError Z)) l pos :
  in_i32 pos -> (forall p x, in_i32 p -> evolves R (body p x) /\ gives_position (body p x)) ->
  evolves R (for_each body l pos) /\ gives_position (for_each body l pos).
Proof.
  intros Hp Hb. revert pos Hp. induction l as [|x l IH]; intros pos Hp; simpl.
  - split; [by apply evolves_ret; apply _|by apply gives_ret].
  - destruct (Hb pos x Hp) as [He Hg]. split.
    + intros e w Hr. unfold try, mbind, io_bind. specialize (He e w Hr).
      destruct (body pos x e w) as [[[p'|err]|] w'] eqn:E; [|done..].
      etrans; [exact He|]. by apply IH; [exact (Hg _ _ _ _ E)|].
    + intros e w r w'. unfold try, mbind, io_bind.
      destruct (body pos x e w) as [[[p1|err]|] w1] eqn:E; [|by intros [= <- <-]|done].
      apply IH. exact (Hg _ _ _ _ E).
Qed.

Lemma attestation_events_ids evs a :
  classify_attestation_events value_to_string evs = Done (Some (SubmitAttestation a)) ->
  attestation_id_ok a.
Proof.
  induction evs as [|ev evs IH]; simpl; [done|].
  repeat case_match; try done; intros [= <-]. done.
Qed.

Lemma bank_events_no_attestation evs a : classify_bank_events evs <> Some (SubmitAttestation a).
Proof. induction evs as [|ev evs IH]; simpl; [done|]. by repeat case_match. Qed.

(** The classifier derives the id of every attestation it reports, *)
Lemma classified_ids tx evs c :
  classify_tx value_to_string tx evs = Done (Some c) -> ids_derived c.
Proof.
  unfold classify_tx. case_decide; [done|]. intros Hc a Ha.
  destruct (classify_events value_to_string evs) as [kind|] eqn:E; [|done].
  simpl in Hc. injection Hc as <-. simpl in Ha. subst kind. revert E. unfold classify_events.
  destruct (classify_attestation_events value_to_string evs) as [[kind|]|] eqn:Ea; simpl; [|..|done].
  - intros [= ->]. by eapply attestation_events_ids.
  - unfold classify_bounty_events, classify_contract_events.
    pose proof (bank_events_no_attestation evs a) as Hb.
    destruct (bs_first _) as [[bid bk]|]; [done|].
    destruct (fold_left contract_scan_step evs None) as [[cid ck]|]; [done|]. simpl.
    destruct (classify_bank_events evs) as [k|]; [|done]. congruence.
Qed.

(** and reports no skipped transaction. *)
Lemma classified_not_skipped tx evs c :
  classify_tx value_to_string tx evs = Done (Some c) -> c.(ctx_outcome) <> Skipped.
Proof.
  unfold classify_tx. case_decide; [done|].
  destruct (classify_events value_to_string evs); [|done]. by intros [= <-].
Qed.

Lemma ingest_tx_evolves slot ts cid evs pos n :
  in_i32 pos ->
  evolves R (ingest_tx base64_decode client slot ts cid evs pos n) /\
  gives_position (ingest_tx base64_decode client slot ts cid evs pos n).
Proof.
  intros Hp. unfold ingest_tx. split.
  - apply evolves_try; [apply _|unfold tx_at_number; go|]. intros [tx|]; [|go].
    apply evolves_bind; [apply _|go|]. intros dec. apply evolves_lift_eq. intros [c|] Hc; [|go].
    apply w_tx_and_rows; [by eapply classified_not_skipped|by eapply classified_ids|done].
  - apply gives_try. intros [tx|]; [|by apply gives_ret].
    repeat (apply gives_bind; intros). case_match; [|by apply gives_ret].
    repeat (apply gives_bind; intros). apply gives_ret, as_i32_range.
Qed.

Lemma ingest_batch_evolves slot ts cid evs pos n :
  in_i32 pos ->
  evolves R (ingest_batch base64_decode client slot ts cid evs pos n) /\
  gives_position (ingest_batch base64_decode client slot ts cid evs pos n).
Proof.
  intros Hp. unfold ingest_batch, batch_at. split.
  - apply evolves_try; [apply _|go|]. intros [b|]; [|go].
    apply for_each_evolves; [done|]. intros p x. apply ingest_tx_evolves.
  - apply gives_try. intros [b|]; [|by apply gives_ret].
    apply for_each_evolves; [done|]. intros p x. apply ingest_tx_evolves.
Qed.

Lemma ingest_slot_transactions_evolves slot cid :
  evolves R (ingest_slot_transactions base64_decode client slot cid).
Proof.
  unfold ingest_slot_transactions, events_for_slot. go.
  apply for_each_evolves; [done|]. intros p x. apply ingest_batch_evolves.
Qed.

Lemma facts_give slot :
  gives (fun f => opt_in_i64 f.(f_da_block_height)) (extract_slot_first_batch_facts client slot).
Proof.
  unfold extract_slot_first_batch_facts. destruct (slot_batch_range slot); [|by apply gives_ret].
  apply gives_bind. intros [[b|]|]; try by apply gives_ret.
  destruct (_ ≫= as_object) as [receipt|]; [|by apply gives_ret]. apply gives_ret. simpl.
  destruct (_ ≫= value_as_u64) as [h|]; [|done]. simpl.
  destruct (Z.leb_spec i64_min h), (Z.leb_spec h i64_max); simpl; done || by split.
Qed.

Lemma facts_evolves slot : evolves R (extract_slot_first_batch_facts client slot).
Proof. unfold extract_slot_first_batch_facts, batch_at. go. Qed.

Lemma upsert_slot_evolves slot p da : opt_in_i64 da -> evolves R (upsert_slot slot p da).
Proof. intros Hda. unfold upsert_slot. go. Qed.

#[local] Hint Resolve ingest_slot_transactions_evolves facts_evolves upsert_slot_evolves : io.

Lemma walk_step_evolves cid h : evolves R (walk_step base64_decode client cid h).
Proof.
  unfold walk_step, slot_at, write_last_indexed_height.
  apply evolves_bind; [apply _|go|]. intros [[slot|]|]; [|by go..].
  eapply evolves_bind_gives; [apply _|go|apply facts_give|]. intros facts Hda. go.
Qed.

#[local] Hint Resolve walk_step_evolves : io.

Lemma walk_evolves fuel cid head next : evolves R (walk base64_decode client fuel cid head next).
Proof. revert next. induction fuel; intros next; simpl; go. Qed.

#[local] Hint Resolve walk_evolves : io.

Lemma main_step_evolves cid next : evolves R (main_step base64_decode client cid next).
Proof. unfold main_step. go. Qed.

#[local] Hint Resolve main_step_evolves : io.

Lemma main_loop_evolves n cid next : evolves R (main_loop base64_decode client n cid next).
Proof. revert next. induction n; intros next; simpl; go. Qed.

Lemma bootstrap_evolves n : evolves R (bootstrap client n).
Proof. induction n; simpl; unfold bootstrap_step; go. Qed.

Lemma resolve_cursor_evolves s : evolves R (resolve_cursor s).
Proof. unfold resolve_cursor, read_last_indexed_height. go. Qed.

#[local] Hint Resolve main_loop_evolves bootstrap_evolves resolve_cursor_evolves : io.

Lemma run_evolves tries n s cid : evolves R (run base64_decode client tries n s cid).
Proof. unfold run. go. Qed.

Lemma observe_evolves l : evolves R (observe client l).
Proof. induction l; simpl; unfold slot_at; go. Qed.

Lemma flip_loop_evolves l n : evolves R (flip_pending_loop l n).
Proof. revert n. induction l as [|[] l IH]; intros n; simpl; go. Qed.

#[local] Hint Resolve observe_evolves flip_loop_evolves : io.

Lemma repoll_evolves : evolves R (repoll_step client).
Proof. unfold repoll_step, flip_pending_slots, pending_slot_heights. go. Qed.
End Loops.

(** ** Both tasks, interleaved *)

(** The statements of the indexer. *)
Inductive indexer_stmt `{Bech32} `{Sha256} `{Chrono} `{PgNumeric} : forall A, Stmt A -> Prop :=
| S_state k v : indexer_stmt unit (upsert_state k v)
| S_identity info : indexer_stmt unit (write_chain_identity info)
| S_slot s p q h : opt_in_i64 h -> indexer_stmt unit (upsert_slot_stmt s p q h)
| S_flip h : indexer_stmt Z (flip_pending_stmt h)
| S_tx c h p ks dec o : in_i32 p -> indexer_stmt unit (insert_transaction_stmt c h p ks dec o)
| S_set r tx h ts : indexer_stmt unit (insert_attestor_set r tx h ts)
| S_schema r tx h ts : indexer_stmt unit (insert_schema r tx h ts)
| S_attestation a tx h ts : attestation_id_ok a -> indexer_stmt unit (insert_attestation a tx h ts)
| S_bounty id r s tx ts : indexer_stmt unit (upsert_bounty id r s tx ts)
| S_claim id p n s : indexer_stmt unit (apply_bounty_claim id p n s)
| S_bounty_zero id : indexer_stmt unit (set_bounty_escrow_zero id)
| S_contract print id r s tx ts :
    in_u16 r.(contract_arbiter_fee_bps) -> indexer_stmt unit (upsert_contract print id r s tx ts)
| S_contract_zero id : indexer_stmt unit (set_contract_escrow_zero id)
| S_bump_set id : indexer_stmt unit (bump_attestor_set_schema_count id)
| S_bump_schema id : indexer_stmt unit (bump_schema_attestation_count id)
| S_bump_address o h tx ts : indexer_stmt unit (bump_address_schemas_owned o h tx ts)
| S_activity a role h tx ts : indexer_stmt unit (upsert_address_activity a role h tx ts).

(** One statement of either task, with any arguments, at any time. *)
Inductive task_step `{Bech32} `{Sha256} `{Chrono} `{PgNumeric} (d d' : DB) : Prop :=
| TaskStep A (s : Stmt A) now (a : A) : indexer_stmt A s -> s now d = Ok (a, d') -> task_step d d'.

(** Statements compose to the reachability relation of the two tasks, *)
#[export] Instance task_step_guarantee `{Bech32} `{Sha256} `{Chrono} `{PgNumeric} : Guarantee (rtc task_step).
Proof.
  split; [apply _|..].
  all: intros; match goal with |- stmt_evolves _ ?s =>
         intros now d0 a0 d0' Hrun; apply rtc_once; refine (TaskStep _ _ _ s now a0 _ Hrun) end.
  all: by constructor.
Qed.

(** and whatever every statement guarantees holds along it. *)
Lemma indexer_stmt_evolves `{Bech32} `{Sha256} `{Chrono} `{PgNumeric} R `{!Guarantee R} A (s : Stmt A) :
  indexer_stmt A s -> stmt_evolves R s.
Proof. destruct 1; eauto with io nocore typeclass_instances. Qed.

Lemma task_steps_guarantee `{Bech32} `{Sha256} `{Chrono} `{PgNumeric} R `{!Guarantee R} d d' :
  rtc task_step d d' -> R d d'.
Proof.
  induction 1 as [d|d d1 d2 [A s now a Hs Hrun] _ IH]; [reflexivity|].
  etrans; [|exact IH]. by eapply (indexer_stmt_evolves R A s Hs).
Qed.

(** An environment whose second writer is the other task. *)
Definition interleaved `{Bech32} `{Sha256} `{Chrono} `{PgNumeric} (e : Env) : Prop := rely (rtc task_step) e.

Lemma interleaved_rely `{Bech32} `{Sha256} `{Chrono} `{PgNumeric} R `{!Guarantee R} e :
  interleaved e -> rely R e.
Proof. intros He t d. apply task_steps_guarantee; [done|]. apply He. Qed.

Section Safety.
Context `{B : Bech32} `{H : Sha256} `{C : Chrono} `{N : PgNumeric} `{U : Urls}
  `{J : JsonText} (base64_decode : string -> option (list Z)) (client : NodeClient).

(** C35: rows only move forward: along the same runs no row is lost, no recovered column
    (previous hash, proposer, DA height, finality stamp, signer, key, nonce) is blanked,
    schema and attestation identities and posting facts are fixed, counters and
    observation windows only grow. *)
Theorem indexer_history tries n start cid e w :
  interleaved e ->
  history w.(w_db) (run base64_decode client tries n start cid e w).2.(w_db) /\
  history w.(w_db) (repoll_step client e w).2.(w_db).
Proof.
  intros He. pose proof (interleaved_rely history e He) as Hr. split.
  - by apply (run_evolves base64_decode client history tries n start cid e w).
  - by apply (repoll_evolves client history e w).
Qed.

(** The transactions table never holds a reverted transaction: starting from an
    empty database, no run of the indexer, interleaved in any way, ever stores one,
    although the classifier produces them and the API filters on them. *)
Theorem indexer_never_stores_reverted tries n start cid e w :
  interleaved e -> w.(w_db) = empty_db ->
  forall hash r,
    (run base64_decode client tries n start cid e w).2.(w_db).(transactions) !! hash
      = Some r -> tr_outcome r = "committed".
Proof.
  intros He Hw hash r Hr.
  pose proof (interleaved_rely (keeping reverted_free) e He) as Hrely.
  assert (reverted_free (w_db w)) as H0 by (rewrite Hw; apply map_Forall_empty).
  by destruct (run_evolves base64_decode client (keeping reverted_free) tries n start cid
    e w Hrely H0 _ _ Hr).
Qed.
End Safety.

(** ** At concrete inputs *)

Section IngestWitnesses.
#[local] Existing Instances Bip350.bech32m Fips180.sha2 clock numeric urls Rfc8259.json.

Lemma sample_env_interleaved : interleaved sample_env.
Proof. intros t d. apply rtc_refl. Defined.

(** The run of the witnesses walks slots 3 and 4. *)
Example sample_run_walks :
  (run (fun _ => None) sample_client 1 1 (Some 3) 1 sample_env (sample_world empty_db)).1
    = Done (Some 5).
Proof. vm_compute. reflexivity. Qed.

Lemma indexer_history_witness :
  history (sample_db "pending" None)
    (run (fun _ => None) sample_client 1 1 (Some 3) 1 sample_env
       (sample_world (sample_db "pending" None))).2.(w_db).
Proof.
  apply (indexer_history (fun _ => None) sample_client 1 1 (Some 3) 1 sample_env
    (sample_world (sample_db "pending" None)) sample_env_interleaved).
Defined.

Lemma indexer_never_stores_reverted_witness :
  map_Forall (fun _ r => tr_outcome r = "committed")
    (run (fun _ => None) sample_client 1 1 (Some 3) 1 sample_env
       (sample_world empty_db)).2.(w_db).(transactions).
Proof.
  intros hash r.
  apply (indexer_never_stores_reverted (fun _ => None) sample_client 1 1 (Some 3) 1
    sample_env (sample_world empty_db) sample_env_interleaved eq_refl).
Defined.
End IngestWitnesses.
