(* ===== verification/Links.v ===== *)
(** * Rows name stored transactions

    A bounty, a contract and an address summary carry the slot and the hash of the
    transaction they were seen in, and no constraint of the migrations ties these columns to
    the tables they point to.  The order of the writes does: a transaction's rows are only
    written once it is stored, and nothing stored is lost.  [evolves_from P R m] is the
    rely-guarantee judgement of [Io] for a program that starts where [P] holds. *)

From S2P Require Import Prelude JsonSyntax Json Types Standards Bech32m Sha2 AttestationId Decode Parser Schema Io Db DbFacts History Client Ingest IngestSpec Samples.
Open Scope string_scope.
Open Scope list_scope.
Open Scope Z_scope.

(** ** References no constraint declares *)

(** The transaction is stored, and so is its slot. *)
Definition noted (h : Z) (tx : string) (d : DB) : Prop := has_slot d (as_i64 h) /\ has_tx d tx.

Definition slot_link (d : DB) (o : option Z) : Prop := forall h, o = Some h -> has_slot d h.
Definition tx_link (d : DB) (o : option string) : Prop := forall h, o = Some h -> has_tx d h.

Definition bounty_links (d : DB) (r : BountyRow) : Prop :=
  has_slot d r.(bo_posted_at_slot) /\ has_tx d r.(bo_posted_at_tx) /\
  slot_link d r.(bo_last_claim_at_slot).
Definition contract_links (d : DB) (r : ContractRow) : Prop :=
  has_slot d r.(co_posted_at_slot) /\ has_tx d r.(co_posted_at_tx).
Definition address_links (d : DB) (r : AddressRow) : Prop :=
  slot_link d r.(ad_first_seen_slot) /\ tx_link d r.(ad_first_seen_tx) /\
  slot_link d r.(ad_last_seen_slot) /\ tx_link d r.(ad_last_seen_tx).

Record linked (d : DB) : Prop := {
  l_bounties : map_Forall (fun _ r => bounty_links d r) d.(bounties);
  l_contracts : map_Forall (fun _ r => contract_links d r) d.(contracts);
  l_addresses : map_Forall (fun _ r => address_links d r) d.(address_summaries)
}.

Lemma linked_empty : linked empty_db.
Proof. split; apply map_Forall_empty. Qed.

(** *** Nothing stored is lost *)

Lemma table_rel_key {K V} `{Countable K} (rel : relation V) (t t' : gmap K V) k :
  table_rel rel t t' -> is_Some (t !! k) -> is_Some (t' !! k).
Proof. intros Ht [v Hv]. destruct (Ht _ _ Hv) as (v' & -> & _). done. Qed.

Section Stable.
Context (d d' : DB) (Hh : history d d').

Lemma has_slot_stays h : has_slot d h -> has_slot d' h.
Proof. by apply (table_rel_key _ _ _ _ (h_slots _ _ Hh)). Qed.
Lemma has_tx_stays h : has_tx d h -> has_tx d' h.
Proof. by apply (table_rel_key _ _ _ _ (h_transactions _ _ Hh)). Qed.
Lemma noted_stays h tx : noted h tx d -> noted h tx d'.
Proof. intros [? ?]. split; [by apply has_slot_stays|by apply has_tx_stays]. Qed.
Lemma slot_link_stays o : slot_link d o -> slot_link d' o.
Proof. intros Hl h Ho. by apply has_slot_stays, Hl. Qed.
Lemma tx_link_stays o : tx_link d o -> tx_link d' o.
Proof. intros Hl h Ho. by apply has_tx_stays, Hl. Qed.
Lemma bounty_links_stay r : bounty_links d r -> bounty_links d' r.
Proof.
  intros (? & ? & ?).
  split_and!; [by apply has_slot_stays|by apply has_tx_stays|by apply slot_link_stays].
Qed.
Lemma contract_links_stay r : contract_links d r -> contract_links d' r.
Proof. intros [? ?]. split; [by apply has_slot_stays|by apply has_tx_stays]. Qed.
Lemma address_links_stay r : address_links d r -> address_links d' r.
Proof. intros (? & ? & ? & ?). split_and!; by (apply slot_link_stays || apply tx_link_stays). Qed.

(** A step that leaves each of the three tables alone, or writes one linked row. *)
Definition one_more {K V} `{Countable K} (link : V -> Prop) (t t' : gmap K V) : Prop :=
  t' = t \/ exists k r, t' = <[k := r]> t /\ link r.

Lemma linked_step :
  one_more (bounty_links d') d.(bounties) d'.(bounties) ->
  one_more (contract_links d') d.(contracts) d'.(contracts) ->
  one_more (address_links d') d.(address_summaries) d'.(address_summaries) ->
  linked d -> linked d'.
Proof.
  intros Hb Hc Ha [Lb Lc La].
  split; [destruct Hb as [->|(k & r & -> & Hr)]
         |destruct Hc as [->|(k & r & -> & Hr)]
         |destruct Ha as [->|(k & r & -> & Hr)]];
    try (apply map_Forall_insert_2; [exact Hr|]);
    (eapply map_Forall_impl; [eassumption|]); intros ? ?;
    [apply bounty_links_stay..|apply contract_links_stay|apply contract_links_stay
    |apply address_links_stay|apply address_links_stay].
Qed.
End Stable.

(** ** Statements *)

Section Statements.
Context `{B : Bech32} `{H : Sha256} `{C : Chrono} `{N : PgNumeric}.

(** Steps of the two tasks that keep the database linked. *)
Definition linking (d d' : DB) : Prop := rtc task_step d d' /\ (linked d -> linked d').

#[export] Instance linking_preorder : PreOrder linking.
Proof.
  split; [intros d; split; [reflexivity|done]|].
  intros d1 d2 d3 [H12 L12] [H23 L23]. split; [by etrans|auto].
Qed.

Lemma linking_history d d' : linking d d' -> history d d'.
Proof. intros [Hs _]. by apply task_steps_guarantee; [apply _|]. Qed.

(** A statement that starts where [P] holds. *)
Definition stmt_evolves_from {A} (P : DB -> Prop) (R : relation DB) (s : Stmt A) : Prop :=
  forall now d a d', P d -> s now d = Ok (a, d') -> R d d'.

Lemma stmt_linking {A} P (s : Stmt A) :
  indexer_stmt A s ->
  (forall now d a d', s now d = Ok (a, d') -> history d d' -> P d -> linked d -> linked d') ->
  stmt_evolves_from P linking s.
Proof.
  intros Hs Hl now d a d' Hp Hrun.
  assert (rtc task_step d d') as Hsteps by (apply rtc_once; by econstructor). split; [done|].
  apply (Hl _ _ _ _ Hrun); [|done]. by apply task_steps_guarantee; [apply _|].
Qed.

(** Those that write none of the three tables. *)
Ltac untouched :=
  intros now d u d' Hs Hh _; apply (linked_step d d' Hh); left; revert Hs; clear;
  unfold write_chain_identity, upsert_state, upsert_slot_stmt, flip_pending_stmt,
    insert_transaction_stmt, insert_attestor_set, insert_schema, insert_attestation,
    upsert_bounty, apply_bounty_claim, set_bounty_escrow_zero, upsert_contract,
    set_contract_escrow_zero, bump_attestor_set_schema_count, bump_schema_attestation_count,
    bump_address_schemas_owned, upsert_address_activity;
  intros Hs; repeat case_match; stmt_inv; simplify_eq/=; stmt_inv; simplify_eq/=; reflexivity.

Inductive other_stmt : forall A, Stmt A -> Prop :=
| O_state k v : other_stmt unit (upsert_state k v)
| O_identity info : other_stmt unit (write_chain_identity info)
| O_slot s p q h : opt_in_i64 h -> other_stmt unit (upsert_slot_stmt s p q h)
| O_flip h : other_stmt Z (flip_pending_stmt h)
| O_tx c h p ks dec o : in_i32 p -> other_stmt unit (insert_transaction_stmt c h p ks dec o)
| O_set r tx h ts : other_stmt unit (insert_attestor_set r tx h ts)
| O_schema r tx h ts : other_stmt unit (insert_schema r tx h ts)
| O_attestation a tx h ts : attestation_id_ok a -> other_stmt unit (insert_attestation a tx h ts)
| O_bump_set id : other_stmt unit (bump_attestor_set_schema_count id)
| O_bump_schema id : other_stmt unit (bump_schema_attestation_count id).

Lemma other_linking A (s : Stmt A) : other_stmt A s -> stmt_evolves linking s.
Proof.
  intros Hs now d a d'. apply (stmt_linking (fun _ => True)); [|clear now d a d'|done].
  - destruct Hs; by constructor.
  - destruct Hs; untouched.
Qed.

(** Those that do are sent with a transaction that is stored. *)
Lemma noted_links h tx d : noted h tx d ->
  slot_link d (Some (as_i64 h)) /\ tx_link d (Some tx).
Proof. intros [Hs Ht]. by split; intros ? [= <-]. Qed.

Ltac one_row :=
  intros now d u d' Hs Hh Hn Hl; pose proof (noted_stays d d' Hh _ _ Hn) as Hn';
  refine (linked_step d d' Hh _ _ _ Hl); revert Hs;
  unfold upsert_bounty, upsert_contract, bump_address_schemas_owned, upsert_address_activity;
  intros Hs; stmt_inv; simpl; try (by left); right; eexists _, _; (split; [reflexivity|]).

Lemma upsert_bounty_linking id r s tx ts :
  stmt_evolves_from (noted s tx) linking (upsert_bounty id r s tx ts).
Proof.
  apply stmt_linking; [constructor|]. one_row.
  match goal with Hr : _ \/ _ |- _ => destruct Hr as [[_ ->]|(old & Hold & Hrow)] end.
  - destruct Hn'. by split_and!.
  - injection Hrow as <-. exact (bounty_links_stay d _ Hh old (l_bounties d Hl _ _ Hold)).
Qed.

Lemma upsert_contract_linking print id r s tx ts :
  in_u16 r.(contract_arbiter_fee_bps) ->
  stmt_evolves_from (noted s tx) linking (upsert_contract print id r s tx ts).
Proof.
  intros Hf. apply stmt_linking; [by constructor|]. one_row.
  match goal with Hr : _ \/ _ |- _ => destruct Hr as [[_ ->]|(old & Hold & Hrow)] end.
  - destruct Hn'. by split.
  - injection Hrow as <-. exact (contract_links_stay d _ Hh old (l_contracts d Hl _ _ Hold)).
Qed.

Lemma bump_address_linking o h tx ts :
  stmt_evolves_from (noted h tx) linking (bump_address_schemas_owned o h tx ts).
Proof.
  apply stmt_linking; [constructor|]. one_row.
  match goal with Hr : _ \/ _ |- _ => destruct Hr as [[_ ->]|(old & Hold & Hrow)] end.
  - destruct (noted_links _ _ _ Hn'). by split_and!.
  - stmt_inv. exact (address_links_stay d _ Hh old (l_addresses d Hl _ _ Hold)).
Qed.

Lemma least_link d a b : slot_link d a -> slot_link d b -> slot_link d (least a b).
Proof.
  intros Ha Hb h. destruct a as [x|], b as [y|]; simpl; intros [= <-]; auto.
  destruct (Z.min_spec x y) as [[_ ->]|[_ ->]]; auto.
Qed.
Lemma greatest_link d a b : slot_link d a -> slot_link d b -> slot_link d (greatest a b).
Proof.
  intros Ha Hb h. destruct a as [x|], b as [y|]; simpl; intros [= <-]; auto.
  destruct (Z.max_spec x y) as [[_ ->]|[_ ->]]; auto.
Qed.

Lemma tx_link_if d (c : bool) a b : tx_link d a -> tx_link d b -> tx_link d (if c then a else b).
Proof. by destruct c. Qed.

Lemma upsert_activity_linking a role h tx ts :
  stmt_evolves_from (noted h tx) linking (upsert_address_activity a role h tx ts).
Proof.
  apply stmt_linking; [constructor|]. one_row. destruct (noted_links _ _ _ Hn') as [Hs Ht].
  match goal with Hr : _ \/ _ |- _ => destruct Hr as [[_ ->]|(old & Hold & Hrow)] end.
  - destruct role; by split_and!.
  - pose proof (address_links_stay d _ Hh old (l_addresses d Hl _ _ Hold)) as (? & ? & ? & ?).
    unfold activity_merge in Hrow. stmt_inv.
    destruct role; (split_and!;
      [by apply least_link|by apply tx_link_if|by apply greatest_link|by apply tx_link_if]).
Qed.

(** A claim reads the slot off the same event. *)
Lemma apply_bounty_claim_linking id p n h tx :
  stmt_evolves_from (noted h tx) linking (apply_bounty_claim id p n h).
Proof.
  apply stmt_linking; [constructor|]. intros now d u d' Hs Hh Hn Hl.
  pose proof (noted_stays d d' Hh _ _ Hn) as Hn'. refine (linked_step d d' Hh _ _ _ Hl); revert Hs;
    unfold apply_bounty_claim; intros Hs; stmt_inv; simpl; try (by left).
  match goal with Hu : _ \/ _ |- _ => destruct Hu as [->|(old & row & Hk & Hr & _ & ->)] end;
    [by left|right; eexists _, _; split; [reflexivity|]].
  case_match; [|done]. stmt_inv.
  destruct (bounty_links_stay d _ Hh old (l_bounties d Hl _ _ Hk)) as (? & ? & _).
  split_and!; [done..|]. by apply (noted_links _ _ _ Hn').
Qed.

Lemma set_bounty_escrow_zero_linking id : stmt_evolves linking (set_bounty_escrow_zero id).
Proof.
  intros now d a d'. apply (stmt_linking (fun _ => True)); [constructor| |done]. clear now d a d'.
  intros now d u d' Hs Hh _ Hl. refine (linked_step d d' Hh _ _ _ Hl); revert Hs;
    unfold set_bounty_escrow_zero; intros Hs; stmt_inv; simpl; try (by left).
  match goal with Hu : _ \/ _ |- _ => destruct Hu as [->|(old & row & Hk & Hr & _ & ->)] end;
    [by left|right; eexists _, _; split; [reflexivity|]].
  stmt_inv. exact (bounty_links_stay d _ Hh old (l_bounties d Hl _ _ Hk)).
Qed.

Lemma set_contract_escrow_zero_linking id : stmt_evolves linking (set_contract_escrow_zero id).
Proof.
  intros now d a d'. apply (stmt_linking (fun _ => True)); [constructor| |done]. clear now d a d'.
  intros now d u d' Hs Hh _ Hl. refine (linked_step d d' Hh _ _ _ Hl); revert Hs;
    unfold set_contract_escrow_zero; intros Hs; stmt_inv; simpl; try (by left).
  match goal with Hu : _ \/ _ |- _ => destruct Hu as [->|(old & row & Hk & Hr & _ & ->)] end;
    [by left|right; eexists _, _; split; [reflexivity|]].
  stmt_inv. exact (contract_links_stay d _ Hh old (l_contracts d Hl _ _ Hk)).
Qed.
End Statements.

(** ** Programs *)

Definition evolves_from {A} (P : DB -> Prop) (R : relation DB) (m : IO A) : Prop :=
  forall e w, rely R e -> P w.(w_db) -> R w.(w_db) (m e w).2.(w_db).

(** Whenever the program gives a value, [Q] holds of it and of the database left behind. *)
Definition leaves {A} (Q : A -> DB -> Prop) (m : IO A) : Prop :=
  forall e w a w', m e w = (Done a, w') -> Q a w'.(w_db).

Section From.
Context (R : relation DB) `{!PreOrder R} (P : DB -> Prop).
Context (stable : forall d d', R d d' -> P d -> P d').

Lemma from_any {A} (m : IO A) : evolves R m -> evolves_from P R m.
Proof. intros Hm e w He _. by apply Hm. Qed.

Lemma from_bind {A B} (m : IO A) (k : A -> IO B) :
  evolves_from P R m -> (forall a, evolves_from P R (k a)) -> evolves_from P R (m ≫= k).
Proof.
  intros Hm Hk e w He Hp. unfold mbind, io_bind. specialize (Hm e w He Hp).
  destruct (m e w) as [[a|] w']; simpl in *; [|done].
  etrans; [done|]. apply Hk; [done|]. by apply (stable (w_db w)).
Qed.

Lemma from_ret {A} (a : A) : evolves_from P R (mret a : IO A).
Proof. apply from_any. by apply evolves_ret. Qed.

Lemma from_exec {A} (s : Stmt A) : stmt_evolves_from P R s -> evolves_from P R (exec s).
Proof.
  intros Hs e w He Hp. unfold exec.
  pose proof (He (w_tick w) (w_db w)) as Ho. pose proof (stable _ _ Ho Hp) as Hp'.
  destruct (env_fault e (w_tick w)); simpl; try done;
    (destruct (s _ _) as [[a d]|err] eqn:E; simpl; [|done]);
    (etrans; [exact Ho|]; by eapply Hs).
Qed.

Lemma from_try {E A B} (m : IO (result E A)) (k : A -> IO (result E B)) :
  evolves_from P R m -> (forall a, evolves_from P R (k a)) -> evolves_from P R (try m k).
Proof. intros Hm Hk. apply from_bind; [done|]. intros [a|e]; [apply Hk|apply from_ret]. Qed.

Lemma from_try_gives {E A B} (Q : A -> Prop) (m : IO (result E A)) (k : A -> IO (result E B)) :
  evolves R m -> gives (on_ok Q) m -> (forall a, Q a -> evolves_from P R (k a)) ->
  evolves_from P R (try m k).
Proof.
  intros Hm Hg Hk e w He Hp. unfold try, mbind, io_bind. specialize (Hm e w He).
  specialize (Hg e w). destruct (m e w) as [[[a|err]|] w']; simpl in *; [|done..].
  etrans; [done|]. apply Hk; [by apply (Hg (Ok a) w')|done|]. by apply (stable (w_db w)).
Qed.

Lemma from_ignore {E A} (m : IO (result E A)) :
  evolves_from P R m -> evolves_from P R (ignore m).
Proof. intros Hm. apply from_bind; [done|]. intros _. apply from_ret. Qed.

Lemma from_db {A} (m : IO (result DbError A)) : evolves_from P R m -> evolves_from P R (db m).
Proof. intros Hm. apply from_bind; [done|]. intros r. apply from_ret. Qed.
End From.

(** What a program leaves behind is where the next one starts. *)
Lemma evolves_bind_leaves R `{!PreOrder R} {A B} (Q : A -> DB -> Prop) (m : IO A) (k : A -> IO B) :
  evolves R m -> leaves Q m -> (forall a, evolves_from (Q a) R (k a)) -> evolves R (m ≫= k).
Proof.
  intros Hm Hq Hk e w He. unfold mbind, io_bind. specialize (Hm e w He). specialize (Hq e w).
  destruct (m e w) as [[a|] w']; simpl in *; [|done].
  etrans; [done|]. by apply Hk; [|apply Hq].
Qed.

Section Programs.
Context `{B : Bech32} `{H : Sha256} `{C : Chrono} `{N : PgNumeric} `{U : Urls}
  `{J : JsonText} (base64_decode : string -> option (list Z)) (client : NodeClient).

Lemma noted_stable h tx d d' : linking d d' -> noted h tx d -> noted h tx d'.
Proof. intros Hl. by apply noted_stays, linking_history. Qed.

Create HintDb links discriminated.
#[local] Hint Resolve from_ret from_exec from_ignore from_db upsert_bounty_linking
  upsert_contract_linking bump_address_linking upsert_activity_linking
  apply_bounty_claim_linking : links.
Ltac from_go :=
  repeat first
    [ match goal with |- forall _, _ => intro end
    | solve [eauto with links nocore]
    | apply from_try; [apply _|apply noted_stable| |]
    | apply from_ignore; [apply _|apply noted_stable|]
    | apply from_db; [apply _|apply noted_stable|]
    | apply from_bind; [apply _|apply noted_stable| |]
    | apply from_ret; apply _
    | apply from_exec; [apply _|apply noted_stable|by eauto with links]
    | apply from_any, evolves_exec; [apply _|first [apply other_linking; by constructor
        |apply set_bounty_escrow_zero_linking|apply set_contract_escrow_zero_linking]]
    | progress (cbv beta iota zeta)
    | case_match ].

Lemma update_address_summaries_from c h ts :
  evolves_from (noted h c.(ctx_hash)) linking (update_address_summaries c h ts).
Proof. unfold update_address_summaries. from_go. Qed.

Lemma bump_members_from P l : (forall d d', linking d d' -> P d -> P d') ->
  evolves_from P linking (bump_members l).
Proof.
  intros Hp. induction l; simpl; [apply from_ret; apply _|].
  apply from_bind; [apply _|done|apply from_ret; apply _|done].
Qed.

(** The record is read first, and no request writes. *)
Lemma bounty_at_from P id : evolves_from P linking (bounty_at client id).
Proof. apply from_any. unfold bounty_at. evolves_go. Qed.

#[local] Hint Resolve bounty_at_from : links.
#[local] Hint Extern 1 (evolves_from _ _ (bump_members _)) =>
  apply bump_members_from, noted_stable : links.

Lemma insert_resource_rows_from c h ts : ids_derived c ->
  evolves_from (noted h c.(ctx_hash)) linking (insert_resource_rows client c h ts).
Proof.
  intros Hc. unfold insert_resource_rows, bounty_rows, contract_rows.
  destruct (ctx_kind c) eqn:Ek; try (pose proof (Hc _ Ek));
    try (eapply from_try_gives; [apply _|apply noted_stable|unfold contract_at; evolves_go
           |apply contract_at_gives|intros [rec|] Hrec]);
    from_go.
Qed.

(** A transaction reported stored is: its row was checked against its slot. *)
Lemma insert_transaction_notes c h p ks dec : c.(ctx_outcome) <> Skipped ->
  leaves (fun r d => r = Ok tt -> noted h c.(ctx_hash) d) (insert_transaction c h p ks dec).
Proof.
  intros Ho e w r w' Hr ->.
  assert (exists o, exec (insert_transaction_stmt c h p ks dec o) e w = (Done (Ok tt), w')) as [o Hx]
    by (unfold insert_transaction in Hr; destruct (ctx_outcome c); [eauto..|done]).
  unfold exec in Hx.
  destruct (env_fault e (w_tick w)); try discriminate Hx;
    (destruct (insert_transaction_stmt _ _ _ _ _ _ _ _) as [[[] d]|err] eqn:E; [|discriminate Hx]);
    [injection Hx as <-; simpl|discriminate Hx].
  apply insert_transaction_inv in E as (row & -> & _ & Href & Hrow). split.
  - unfold tx_refs in Href. simpl.
    destruct Hrow as [[_ ->]|(old & _ & ->)]; exact Href.
  - unfold has_tx. simpl. by rewrite lookup_insert_eq.
Qed.

#[export] Instance linking_writers : Writers linking client.
Proof.
  split; [apply _|intros; apply other_linking; by constructor..|].
  intros c h ts p ks dec a Ho Hc Hp.
  eapply evolves_bind_leaves; [apply _| |by apply insert_transaction_notes|].
  - unfold insert_transaction. destruct (ctx_outcome c); [| |by apply evolves_ret; apply _];
      (apply evolves_exec; [apply _|apply other_linking; by constructor]).
  - intros [[]|err]; [|apply from_any, evolves_ret; apply _].
    assert (forall d d', linking d d' -> (Ok tt = Ok tt :> result DbError unit -> noted h (ctx_hash c) d) ->
      Ok tt = Ok tt :> result DbError unit -> noted h (ctx_hash c) d') as Hst
      by (intros d d' Hl Hn Heq; eapply noted_stable, Hn, Heq; exact Hl).
    apply from_bind; [apply _|exact Hst| |intros; apply from_ret; apply _].
    intros e w He Hn. specialize (Hn eq_refl). revert e w He Hn.
    change (evolves_from (noted h (ctx_hash c)) linking
      (_ ← ignore (update_address_summaries c h ts); ignore (insert_resource_rows client c h ts))).
    apply from_bind; [apply _|apply noted_stable| |intros _];
      (apply from_ignore; [apply _|apply noted_stable|]).
    + apply update_address_summaries_from.
    + by apply insert_resource_rows_from.
Qed.

(** C1: The indexer never leaves a dangling reference.  The migrations tie schemas, sets and
    attestations to their slots and transactions, but not bounties, contracts and address
    summaries: the slots and transactions these name are stored all the same, on every
    database the walk or the re-poll reaches from one where all references resolve (as an
    empty one), whatever the node replies, whichever statements fail or lose their
    acknowledgement, and whatever the other task writes in between, if it makes the steps
    both tasks are shown to make.  A transaction's rows are only written once its insert is
    acknowledged, and no later write of either task removes it or its slot. *)
Theorem no_dangling_references tries n start cid e w (He : rely linking e) :
  let d1 := (run base64_decode client tries n start cid e w).2.(w_db) in
  let d2 := (repoll_step client e w).2.(w_db) in
  linking w.(w_db) d1 /\ linking w.(w_db) d2 /\
  (db_ok w.(w_db) -> linked w.(w_db) -> db_ok d1 /\ linked d1 /\ db_ok d2 /\ linked d2).
Proof.
  intros d1 d2.
  assert (linking w.(w_db) d1) as H1 by by apply (run_evolves base64_decode client linking).
  assert (linking w.(w_db) d2) as H2 by by apply (repoll_evolves client linking).
  split_and!; [done..|]. intros Hok Hl. destruct H1 as [S1 L1], H2 as [S2 L2].
  split_and!; [|by apply L1| |by apply L2];
    by apply (task_steps_guarantee (keeping db_ok) w.(w_db)).
Qed.
End Programs.

(** ** At concrete inputs *)

Section LinksWitnesses.
#[local] Existing Instances Bip350.bech32m Fips180.sha2 clock numeric urls Rfc8259.json.

(** Slot 3, with one batch of one transaction, a transfer. *)
Definition transfer_slot : SlotResponse :=
  {| slot_number := 3; slot_hash := "0x0a"; slot_prev_hash := None; slot_timestamp := Some 7;
     slot_state_root := None; slot_batch_count := Some 1; slot_tx_count := Some 1;
     slot_batch_range := Some {| rng_start := 0; rng_end := 1 |};
     slot_finality_status := Some "pending"; slot_raw := [] |}.
Definition transfer_batch : LedgerBatch :=
  {| batch_type := "batch"; batch_number := 0; batch_hash := "0x0b"; batch_slot_number := 3;
     batch_tx_range := {| rng_start := 5; rng_end := 6 |}; batch_raw := [] |}.
Definition transfer_tx : LedgerTx :=
  {| tx_type := "tx"; tx_hash := "0xab"; tx_number := 5;
     tx_event_range := {| rng_start := 0; rng_end := 1 |};
     tx_body := {| fbt_data := ""; fbt_sequencing_data := None |};
     tx_receipt := {| rcpt_result := "successful"; rcpt_data := JNull |}; tx_events := [];
     tx_batch_number := 0 |}.
Definition transfer_bodies : list (string * Value) := [
  ("v1/rollup/info", ser_RollupInfo sample_info);
  ("v1/ledger/slots/latest", ser_SlotResponse transfer_slot);
  ("v1/ledger/slots/3", ser_SlotResponse transfer_slot);
  ("v1/ledger/slots/3/events", ser_list ser_LedgerEvent [transfer_event]);
  ("v1/ledger/batches/0", ser_LedgerBatch transfer_batch);
  ("v1/ledger/txs/5", ser_LedgerTx transfer_tx)].
Definition transfer_env : Env := {|
  env_http _ _ u :=
    match find (fun b : string * Value => u =? "http://node/" ++ b.1)%string transfer_bodies with
    | Some b => Reply 200 (Rfc8259.write b.2)
    | None => Reply 404 ""
    end;
  env_now t := Z.of_nat t; env_fault _ := NoFault; env_other _ d := d |}.

Definition transferred : DB :=
  (run (fun _ => None) sample_client 1 1 (Some 3) 1 transfer_env (sample_world empty_db)).2.(w_db).

Example transfer_stored :
  (ad_first_seen_tx <$> transferred.(address_summaries) !! "lig1b") = Some (Some "0xab").
Proof. vm_compute. reflexivity. Qed.

Lemma no_dangling_references_witness : has_tx transferred "0xab".
Proof.
  assert (rely linking transfer_env) as He by (intros t d; apply linking_preorder).
  destruct (no_dangling_references (fun _ => None) sample_client 1 1 (Some 3) 1 transfer_env
    (sample_world empty_db) He) as (_ & _ & Hl).
  destruct (Hl db_ok_empty linked_empty) as (_ & [_ _ Ha] & _).
  destruct (address_summaries transferred !! "lig1b") as [r|] eqn:Hr.
  - destruct (Ha _ _ Hr) as (_ & Ht & _). apply Ht.
    assert (ad_first_seen_tx <$> address_summaries transferred !! "lig1b" = Some (Some "0xab"))
      as Hs by exact transfer_stored. rewrite Hr in Hs. by injection Hs.
  - assert (ad_first_seen_tx <$> address_summaries transferred !! "lig1b" = Some (Some "0xab"))
      as Hs by exact transfer_stored. by rewrite Hr in Hs.
Defined.
End LinksWitnesses.
