(* ===== verification/Walk.v ===== *)
(** * The forward walk

    The inner loop of the indexer: its fuel is enough, the cursor only moves forward and
    never past the head, every height it leaves behind is stored or was answered 404, a
    healthy node and database let it reach the head; and under the documented behaviour
    of the crates neither task panics. *)

From S2P Require Import Prelude JsonSyntax Json Types Standards Bech32m Sha2 AttestationId Decode Parser Schema Io Db DbFacts History Client Ingest IngestSpec SlotSpec Samples.
From stdpp Require Import list_numbers.
Open Scope string_scope.
Open Scope list_scope.
Open Scope Z_scope.

Section Panics.
Context `{B : Bech32} `{BL : !Bech32Laws B} `{H : Sha256} `{C : Chrono} `{N : PgNumeric}
  `{U : Urls} `{UL : !UrlsLaws U} `{J : JsonText} (base64_decode : string -> option (list Z))
  (client : NodeClient) (Hclient : usable client).

Lemma no_panic_try {E A B'} (m : IO (result E A)) (k : A -> IO (result E B')) :
  no_panic m -> (forall a, no_panic (k a)) -> no_panic (try m k).
Proof.
  intros Hm Hk. unfold try. apply no_panic_bind; [done|].
  intros [a|e]; [apply Hk|by apply no_panic_ret].
Qed.

Lemma url_no_panic path : relative path = true -> no_panic (lift (url client path)).
Proof.
  intros Hp. destruct (usable_url client path Hclient Hp) as (u & _ & ->). by apply no_panic_lift.
Qed.

Lemma get_or_404_no_panic {A} path (absent : A) de :
  relative path = true -> no_panic (get_or_404 client path absent de).
Proof.
  intros Hp. unfold get_or_404. apply no_panic_bind; [by apply url_no_panic|]. intros u.
  apply no_panic_bind; [apply no_panic_http|]. intros [|st body]; [apply no_panic_ret|].
  destruct (st =? 404); apply no_panic_ret.
Qed.

Lemma db_no_panic {A} (m : IO (result DbError A)) : no_panic m -> no_panic (db m).
Proof. intros. apply no_panic_bind; [done|]. intros. apply no_panic_ret. Qed.

Lemma ignore_no_panic {E A} (m : IO (result E A)) : no_panic m -> no_panic (ignore m).
Proof. intros. apply no_panic_bind; [done|]. intros. apply no_panic_ret. Qed.

Lemma fetch_no_panic u : no_panic (fetch client u).
Proof.
  apply no_panic_bind; [apply no_panic_http|]. intros []; apply no_panic_ret.
Qed.

Lemma decode_no_panic s cid : decode_tx_body base64_decode s cid <> Panicked.
Proof. destruct (decode_tx_body_finishes base64_decode s cid) as [r ->]. done. Qed.

Lemma classify_no_panic tx events : classify_tx value_to_string tx events <> Panicked.
Proof. destruct (classify_tx_finishes value_to_string tx events) as [r ->]. done. Qed.

#[local] Hint Resolve get_or_404_no_panic url_no_panic db_no_panic ignore_no_panic
  fetch_no_panic no_panic_lift decode_no_panic classify_no_panic : io.
#[local] Hint Extern 1 (relative _ = true) => reflexivity : io.

Ltac go :=
  repeat first
    [ progress intros
    | solve [eauto with io nocore typeclass_instances]
    | apply no_panic_try
    | apply no_panic_bind
    | progress (cbv beta iota zeta)
    | case_match ].

Lemma bump_members_no_panic l : no_panic (bump_members l).
Proof. induction l; simpl; unfold bump_attestor_member_count; go. Qed.

Lemma update_address_summaries_no_panic c h ts : no_panic (update_address_summaries c h ts).
Proof. unfold update_address_summaries. go. Qed.

#[local] Hint Resolve bump_members_no_panic update_address_summaries_no_panic : io.

Lemma insert_resource_rows_no_panic c h ts : no_panic (insert_resource_rows client c h ts).
Proof. unfold insert_resource_rows, bounty_rows, contract_rows, bounty_at, contract_at. go. Qed.

#[local] Hint Resolve insert_resource_rows_no_panic : io.

Lemma insert_transaction_no_panic c h p ks dec : no_panic (insert_transaction c h p ks dec).
Proof. unfold insert_transaction. go. Qed.

#[local] Hint Resolve insert_transaction_no_panic : io.

Lemma ingest_tx_no_panic slot ts cid evs pos n :
  no_panic (ingest_tx base64_decode client slot ts cid evs pos n).
Proof. unfold ingest_tx, tx_at_number. go. Qed.

Lemma for_each_no_panic {A} (body : Z -> A -> IO (result IndexerError Z)) l pos :
  (forall p x, no_panic (body p x)) -> no_panic (for_each body l pos).
Proof. intros Hb. revert pos. induction l; intros pos; simpl; go. Qed.

#[local] Hint Resolve ingest_tx_no_panic : io.

Lemma ingest_batch_no_panic slot ts cid evs pos n :
  no_panic (ingest_batch base64_decode client slot ts cid evs pos n).
Proof. unfold ingest_batch, batch_at. go. apply for_each_no_panic. go. Qed.

#[local] Hint Resolve ingest_batch_no_panic : io.

Lemma ingest_slot_transactions_no_panic slot cid :
  no_panic (ingest_slot_transactions base64_decode client slot cid).
Proof.
  unfold ingest_slot_transactions, events_for_slot. go. apply for_each_no_panic. go.
Qed.

Lemma facts_no_panic slot : no_panic (extract_slot_first_batch_facts client slot).
Proof. unfold extract_slot_first_batch_facts, batch_at. go. Qed.

Lemma upsert_slot_no_panic slot p da : no_panic (upsert_slot slot p da).
Proof. unfold upsert_slot. go. Qed.

#[local] Hint Resolve ingest_slot_transactions_no_panic facts_no_panic
  upsert_slot_no_panic : io.

Lemma walk_step_no_panic cid h : no_panic (walk_step base64_decode client cid h).
Proof. unfold walk_step, slot_at, write_last_indexed_height. go. Qed.

#[local] Hint Resolve walk_step_no_panic : io.

Lemma walk_no_panic fuel cid head next :
  no_panic (walk base64_decode client fuel cid head next).
Proof. revert next. induction fuel; intros next; simpl; go. Qed.

#[local] Hint Resolve walk_no_panic : io.

Lemma main_loop_no_panic n cid next : no_panic (main_loop base64_decode client n cid next).
Proof.
  revert next. induction n; intros next; simpl; [go|].
  unfold main_step, latest_slot. go.
Qed.

Lemma flip_loop_no_panic l n : no_panic (flip_pending_loop l n).
Proof. revert n. induction l as [|[] l IH]; intros n; simpl; go. Qed.

Lemma observe_no_panic l : no_panic (observe client l).
Proof. induction l; simpl; unfold slot_at; go. Qed.

#[local] Hint Resolve main_loop_no_panic flip_loop_no_panic observe_no_panic : io.

Lemma run_no_panic tries n start cid : no_panic (run base64_decode client tries n start cid).
Proof.
  unfold run. apply no_panic_bind.
  - induction tries; simpl; unfold bootstrap_step, rollup_info; go.
  - unfold resolve_cursor, read_last_indexed_height. go.
Qed.

Lemma repoll_no_panic : no_panic (repoll_step client).
Proof. unfold repoll_step, flip_pending_slots, pending_slot_heights. go. Qed.
End Panics.

Lemma no_panic_done {A} (m : IO A) e w : no_panic m -> (m e w).1 <> Panicked.
Proof. intros Hm. by destruct (Hm e w) as (a & w' & ->). Qed.

Section Indexer.
Context `{B : Bech32} `{BL : !Bech32Laws B} `{H : Sha256} `{C : Chrono} `{N : PgNumeric}
  `{U : Urls} `{UL : !UrlsLaws U} `{J : JsonText} (base64_decode : string -> option (list Z)).

(** C24: when the indexer panics.  The client is one that [NodeClient::new] made of the
    configured [CHAIN_RPC].  If its URL can be a base, neither task ever panics, whatever
    the node replies and the database does: no slice of a malformed body, no integer
    parse, no [expect] of the decoder, classifier and client is reachable.  If it cannot
    (as [localhost:12346], which [new] accepts), the walk panics at its first request.
    Assumed of the crates: bech32 accepts the protocol's prefixes, and what [UrlsLaws]
    says of joining a relative path. *)
Theorem indexer_never_panics chain_rpc client tries n start cid e w :
  new chain_rpc = Ok client ->
  (cannot_be_a_base client.(base) = false ->
   (run base64_decode client tries n start cid e w).1 <> Panicked /\
   (repoll_step client e w).1 <> Panicked) /\
  (cannot_be_a_base client.(base) = true ->
   (run base64_decode client (S tries) n start cid e w).1 = Panicked).
Proof.
  intros Hnew. split; intros Hb.
  - pose proof (new_usable _ _ Hnew Hb) as Hc.
    split; apply no_panic_done; [by apply run_no_panic|by apply repoll_no_panic].
  - pose proof (opaque_url chain_rpc client "v1/rollup/info" Hnew Hb eq_refl) as Hu.
    unfold run, mbind, io_bind. simpl. unfold bootstrap_step, rollup_info, mbind, io_bind, lift.
    by rewrite Hu.
Qed.
End Indexer.

Section WalkSpec.
Context `{B : Bech32} `{H : Sha256} `{C : Chrono} `{N : PgNumeric} `{U : Urls}
  `{J : JsonText} (base64_decode : string -> option (list Z)) (client : NodeClient).

Lemma bind_done_inv {A B'} (m : IO A) (k : A -> IO B') e w b w' :
  (m ≫= k) e w = (Done b, w') ->
  exists a w1, m e w = (Done a, w1) /\ k a e w1 = (Done b, w').
Proof.
  unfold mbind, io_bind. destruct (m e w) as [[a|] w1]; [eauto|]. by intros [=].
Qed.

(** A step advances by exactly one height, below the top of u64. *)
Lemma walk_step_advance cid h e w next w' :
  walk_step base64_decode client cid h e w = (Done (Advance next), w') ->
  next = as_u64 (h + 1).
Proof.
  unfold walk_step. intros Hs. apply bind_done_inv in Hs as (r & w1 & _ & Hs).
  destruct r as [[slot|]|er]; [|by injection Hs|by injection Hs].
  apply bind_done_inv in Hs as (f & w2 & _ & Hs).
  apply bind_done_inv in Hs as ([[]|] & w3 & _ & Hs); [|by injection Hs].
  apply bind_done_inv in Hs as ([] & w4 & _ & Hs).
  apply bind_done_inv in Hs as ([] & w5 & _ & Hs). by injection Hs.
Qed.

Lemma walk_enough fuel cid head next e w :
  0 <= next -> head < u64_max -> head - next + 1 <= Z.of_nat fuel ->
  match (walk base64_decode client fuel cid head next e w).1 with
  | Done (Some n) => next <= n <= Z.max next (head + 1)
  | Done None => False
  | Panicked => True
  end.
Proof.
  revert next w. induction fuel as [|fuel IH]; intros next w H0 Hh Hf; simpl.
  - destruct (Z.leb_spec next head); [lia|]. simpl. lia.
  - destruct (Z.leb_spec next head); [|simpl; lia].
    unfold mbind, io_bind.
    destruct (walk_step _ _ _ _ e w) as [[[n|]|] w1] eqn:Es; simpl; [|lia|done].
    apply walk_step_advance in Es as ->. rewrite as_u64_id by lia_int.
    specialize (IH (next + 1) w1).
    destruct (walk _ _ _ _ _ _ e w1) as [[[n|]|] w2]; simpl in *; lia.
Qed.

(** *** What the cursor covers *)

(** The reply to the request for a height. *)
Definition slot_reply (e : Env) (h : Z) (reply : HttpReply) : Prop :=
  exists u t, url client ("v1/ledger/slots/" ++ to_string h)%string = Done u /\
              reply = e.(env_http) t None u.

(** The node answers for a height with the slot of that height. *)
Definition honest (e : Env) : Prop :=
  forall h st body u slot, slot_reply e h (Reply st body) ->
    from_slice (fun v => Some <$> de_SlotResponse v) u body = Ok (Some slot) ->
    slot.(slot_number) = h.

Definition answered_404 (e : Env) (h : Z) : Prop :=
  exists body, slot_reply e h (Reply 404 body).

Lemma slot_at_reply e w h r w' :
  slot_at client h e w = (Done r, w') ->
  w_db w' = w_db w /\
  match r with
  | Ok (Some slot) => honest e -> slot.(slot_number) = h
  | Ok None => answered_404 e h
  | Err _ => True
  end.
Proof.
  unfold slot_at, get_or_404. intros Hs.
  apply bind_done_inv in Hs as (u & w1 & Hu & Hs).
  unfold lift in Hu. injection Hu as Hu <-.
  apply bind_done_inv in Hs as (reply & w2 & Hr & Hs).
  unfold http_get in Hr. injection Hr as Hr <-.
  assert (slot_reply e h reply) as Hreply by (exists u, (w_tick w); done).
  destruct reply as [|st body]; [by injection Hs as <- <-|].
  destruct (Z.eqb_spec st 404) as [->|]; injection Hs as <- <-; (split; [done|]).
  - by exists body.
  - destruct (from_slice _ u body) as [[slot|]|] eqn:Ef; [| |done].
    + intros He. by eapply He.
    + unfold from_slice in Ef. destruct (json_parse body) as [v|]; [|done]. simpl in Ef.
      by destruct (de_SlotResponse v).
Qed.

Lemma history_has_slot d d' h : history d d' -> has_slot d h -> has_slot d' h.
Proof. intros [Hs] [r Hr]. destruct (Hs _ _ Hr) as (r' & ? & _). by exists r'. Qed.

Lemma upsert_slot_stmt_has s p q da now d u d' :
  upsert_slot_stmt s p q da now d = Ok (u, d') -> has_slot d' (as_i64 s.(slot_number)).
Proof.
  unfold upsert_slot_stmt. intros Hs. apply result_bind_ok in Hs as (row & _ & [= _ <-]).
  exists row. apply lookup_insert_eq.
Qed.

Lemma upsert_slot_has slot p da e w u w' :
  upsert_slot slot p da e w = (Done (Ok u), w') ->
  has_slot w'.(w_db) (as_i64 slot.(slot_number)).
Proof.
  unfold upsert_slot. intros Hs. apply bind_done_inv in Hs as (prev & w1 & _ & Hs).
  unfold exec in Hs.
  destruct (env_fault e (w_tick w1)); [|done|];
    (destruct (upsert_slot_stmt _ _ _ _ _ _) as [[[] d']|] eqn:Est; [|done]); [|done].
  injection Hs as _ <-. simpl. by eapply upsert_slot_stmt_has.
Qed.

Lemma walk_step_covers cid h e w next w' :
  interleaved e -> honest e ->
  walk_step base64_decode client cid h e w = (Done (Advance next), w') ->
  has_slot w'.(w_db) (as_i64 h) \/ answered_404 e h.
Proof.
  intros Hi He Hs. pose proof (interleaved_rely history e Hi) as Hr.
  unfold walk_step in Hs. apply bind_done_inv in Hs as (r & w1 & Hat & Hs).
  apply slot_at_reply in Hat as [_ Hat].
  destruct r as [[slot|]|er]; [left|by right|by injection Hs].
  apply bind_done_inv in Hs as (f & w2 & _ & Hs).
  apply bind_done_inv in Hs as ([[]|] & w3 & Hup & Hs); [|by injection Hs].
  apply upsert_slot_has in Hup. rewrite (Hat He) in Hup.
  eapply history_has_slot; [|exact Hup].
  match type of Hs with ?m e w3 = _ => assert (evolves history m) as Hm end.
  { apply evolves_bind; [apply _| |]; intros.
    - apply ignore_evolves; [apply _|]. apply ingest_slot_transactions_evolves; apply _.
    - apply evolves_bind; [apply _| |]; intros; [|apply evolves_ret; apply _].
      apply ignore_evolves; [apply _|]. apply evolves_exec; [apply _|].
      apply g_upsert_state. }
  specialize (Hm e w3 Hr). by rewrite Hs in Hm.
Qed.

(** A height behind the cursor is stored, or the node does not have it. *)
Lemma walk_leaves_stored fuel cid head next e w n w' h :
  interleaved e -> honest e -> 0 <= next -> head < u64_max ->
  walk base64_decode client fuel cid head next e w = (Done (Some n), w') ->
  next <= h < n -> has_slot w'.(w_db) (as_i64 h) \/ answered_404 e h.
Proof.
  intros Hi He H0 Hh. pose proof (interleaved_rely history e Hi) as Hr.
  revert next w H0. induction fuel as [|fuel IH]; intros next w H0 Hw Hrange; simpl in Hw.
  - destruct (next <=? head); [done|]. injection Hw as <- _. lia.
  - destruct (Z.leb_spec next head); [|injection Hw as <- _; lia].
    apply bind_done_inv in Hw as ([next'|] & w1 & Hstep & Hw); [|injection Hw as <- _; lia].
    pose proof (walk_step_advance _ _ _ _ _ _ Hstep) as ->.
    rewrite as_u64_id in Hw by lia_int.
    destruct (decide (h = next)) as [->|].
    + destruct (walk_step_covers _ _ _ _ _ _ Hi He Hstep) as [Hslot|]; [left|by right].
      eapply history_has_slot; [|exact Hslot].
      pose proof (walk_evolves base64_decode client history fuel cid head (next + 1) e w1 Hr)
        as Hm.
      by rewrite Hw in Hm.
    + apply (IH (next + 1) w1); [lia|done|lia].
Qed.

(** The cursor is sound: every height the walk leaves behind has its slot row stored
    by the end of the walk, or was answered 404 by the node; a failed request, a failed
    or unacknowledged write stops the cursor at that height.  The other task may write
    in between. *)
Theorem walk_covers fuel cid head next e w n w' h :
  interleaved e -> honest e -> 0 <= next -> head < u64_max ->
  walk base64_decode client fuel cid head next e w = (Done (Some n), w') ->
  next <= h < n -> has_slot w'.(w_db) (as_i64 h) \/ answered_404 e h.
Proof. apply walk_leaves_stored. Qed.
End WalkSpec.

(** ** Termination *)

Section Terminates.
Context `{B : Bech32} `{BL : !Bech32Laws B} `{H : Sha256} `{C : Chrono} `{N : PgNumeric}
  `{U : Urls} `{UL : !UrlsLaws U} `{J : JsonText} (base64_decode : string -> option (list Z)).

(** C38: the inner loop terminates.  With one unit of fuel per height between the cursor
    and the head (the head below the top of u64), and a client made of a [CHAIN_RPC] that
    can be a base URL, the walk always comes to an end, whatever the node and the database
    do, and the cursor it leaves is between where it stood and one past the head; with a
    [CHAIN_RPC] that cannot be a base it panics as soon as there is a height to ask for. *)
Theorem walk_terminates chain_rpc client cid head next e w :
  new chain_rpc = Ok client -> 0 <= next -> head < u64_max ->
  let result := (walk base64_decode client (walk_fuel head next) cid head next e w).1 in
  if cannot_be_a_base client.(base) && (next <=? head) then result = Panicked
  else exists n, result = Done (Some n) /\ next <= n <= Z.max next (head + 1).
Proof.
  intros Hnew H0 Hh result.
  destruct (Z.leb_spec next head) as [Hle|Hlt]; rewrite ?andb_false_r, ?andb_true_r;
    [destruct (cannot_be_a_base (base client)) eqn:Hb|].
  - pose proof (opaque_url chain_rpc client ("v1/ledger/slots/" ++ to_string next)%string Hnew Hb
      eq_refl) as Hu.
    unfold result, walk_fuel. replace (head - next + 1) with (Z.succ (head - next)) by lia.
    rewrite Z2Nat.inj_succ by lia. simpl. destruct (Z.leb_spec next head); [|lia].
    unfold walk_step, slot_at, get_or_404, mbind, io_bind, lift. by rewrite Hu.
  - pose proof (walk_enough base64_decode client (walk_fuel head next) cid head next e w H0 Hh) as He.
    subst result. destruct (walk_no_panic base64_decode client (new_usable _ _ Hnew Hb)
      (walk_fuel head next) cid head next e w) as ([n|] & w' & Hw); rewrite Hw in *; simpl in He.
    + exists n. split; [done|]. apply He. unfold walk_fuel. lia.
    + exfalso. apply He. unfold walk_fuel. lia.
  - exists next. subst result. destruct (walk_fuel head next); simpl;
      (destruct (Z.leb_spec next head); [lia|]); (split; [done|lia]).
Qed.
End Terminates.

(** ** Catching up *)

(** What the re-poll task writes: one slot turned finalized. *)
Definition flip_step (d d' : DB) : Prop := exists h now n, flip_pending_stmt h now d = Ok (n, d').

Lemma flip_steps_state d d' : rtc flip_step d d' -> d'.(indexer_state) = d.(indexer_state).
Proof.
  induction 1 as [d|d d1 d2 (h & now & n & Hs) _ IH]; [done|]. rewrite IH.
  unfold flip_pending_stmt in Hs. repeat case_match; by simplify_eq.
Qed.

(** The database answers, and its second writer is the re-poll task. *)
Definition repolled (e : Env) : Prop :=
  (forall t, e.(env_fault) t = NoFault) /\ rely (rtc flip_step) e.

(** Whatever the node answers, a pass of the re-poll task only makes such writes. *)
Lemma repoll_flips `{U : Urls} `{J : JsonText} client :
  evolves (rtc flip_step) (repoll_step client).
Proof.
  assert (forall l, evolves (rtc flip_step) (observe client l)) as Hobs.
  { induction l; simpl; unfold slot_at; io_steps. }
  assert (forall l n, evolves (rtc flip_step) (flip_pending_loop l n)) as Hflip.
  { induction l as [|[h st] l IH]; intros n; simpl; [io_steps|]. case_decide; [|apply IH].
    apply evolves_bind; [apply _| |].
    - apply evolves_exec; [apply _|]. intros now d a d' Hs. apply rtc_once. by exists h, now, a.
    - intros [m|]; [apply IH|io_steps]. }
  unfold repoll_step, flip_pending_slots, pending_slot_heights.
  apply evolves_bind; [apply _| |].
  - apply evolves_exec; [apply _|]. by apply select_keeps; apply _.
  - intros [[|h l]|]; [io_steps| |io_steps]. apply evolves_bind; [apply _|apply Hobs|].
    intros [|o os]; [io_steps|apply Hflip].
Qed.

Lemma exec_faultless {A} (s : Stmt A) e w :
  (forall t, e.(env_fault) t = NoFault) ->
  let d := e.(env_other) w.(w_tick) w.(w_db) in
  exec s e w =
  match s (e.(env_now) w.(w_tick)) d with
  | Err err => (Done (Err err), {| w_db := d; w_tick := S w.(w_tick) |})
  | Ok (a, d') => (Done (Ok a), {| w_db := d'; w_tick := S w.(w_tick) |})
  end.
Proof. intros Hf. unfold exec. rewrite Hf. by destruct (s _ _) as [[]|]. Qed.

Section CatchUp.
Context `{B : Bech32} `{BL : !Bech32Laws B} `{H : Sha256} `{C : Chrono} `{N : PgNumeric}
  `{U : Urls} `{UL : !UrlsLaws U} `{J : JsonText} (base64_decode : string -> option (list Z))
  (client : NodeClient).

(** The node serves height [h]: always with the same decodable slot. *)
Definition served (e : Env) (h : Z) : Prop :=
  exists st body slot, st <> 404 /\
    forall u t, url client ("v1/ledger/slots/" ++ to_string h)%string = Done u ->
      e.(env_http) t None u = Reply st body /\
      from_slice (fun v => Some <$> de_SlotResponse v) u body = Ok (Some slot).

Lemma upsert_slot_succeeds slot p da e w :
  repolled e -> exists w', upsert_slot slot p da e w = (Done (Ok tt), w').
Proof.
  intros [He _]. unfold upsert_slot.
  match goal with |- context [mbind _ ?m e w] =>
    assert (no_panic m) as Hm end.
  { destruct (slot_prev_hash slot); [apply no_panic_ret|].
    destruct (0 <? slot_number slot); [|apply no_panic_ret].
    apply no_panic_bind; [apply no_panic_exec|]. intros. apply no_panic_ret. }
  destruct (Hm e w) as (prev & w1 & Hw1). rewrite (io_bind_done _ _ _ _ _ _ Hw1).
  rewrite exec_faultless by done.
  destruct (SlotSpec.upsert_slot_stmt_row slot prev p da (env_now e (w_tick w1))
    (env_other e (w_tick w1) (w_db w1))) as (row & -> & _). by eexists.
Qed.

Lemma walk_step_served cid h e w :
  usable client -> repolled e -> served e h ->
  exists w', walk_step base64_decode client cid h e w = (Done (Advance (as_u64 (h + 1))), w') /\
    w'.(w_db).(indexer_state) !! KEY_LAST_INDEXED_HEIGHT = Some (to_string h).
Proof.
  intros Hclient He (st & body & slot & Hst & Hserve). unfold walk_step.
  destruct (usable_url client ("v1/ledger/slots/" ++ to_string h)%string Hclient eq_refl)
    as (u & _ & Eu). rewrite Eu in Hserve.
  destruct (Hserve u (w_tick w) eq_refl) as [Hreply Hslice].
  assert (slot_at client h e w = (Done (Ok (Some slot)), tick w)) as Hat.
  { unfold slot_at, get_or_404. rewrite Eu. unfold mbind, io_bind, lift, http_get.
    rewrite Hreply. destruct (Z.eqb_spec st 404); [done|]. by rewrite Hslice. }
  rewrite (io_bind_done _ _ _ _ _ _ Hat).
  destruct (facts_no_panic client Hclient slot e (tick w)) as (f & w2 & Hf).
  rewrite (io_bind_done _ _ _ _ _ _ Hf).
  destruct (upsert_slot_succeeds slot (f_proposer f) (f_da_block_height f) e w2 He)
    as (w3 & Hup).
  rewrite (io_bind_done _ _ _ _ _ _ Hup).
  destruct (ignore_no_panic _ (ingest_slot_transactions_no_panic base64_decode client
    Hclient slot cid) e w3) as ([] & w4 & Hing).
  rewrite (io_bind_done _ _ _ _ _ _ Hing).
  set (d4 := e.(env_other) w4.(w_tick) w4.(w_db)).
  set (w5 := {| w_db := with_indexer_state (<[KEY_LAST_INDEXED_HEIGHT := to_string h]>
    d4.(indexer_state)) d4; w_tick := S w4.(w_tick) |}).
  rewrite (io_bind_done _ _ e w4 tt w5).
  2: { unfold ignore, mbind, io_bind. rewrite exec_faultless by apply He. reflexivity. }
  exists w5. split; [done|]. simpl. apply lookup_insert_eq.
Qed.

(** C3: catching up.  With a [CHAIN_RPC] that can be a base URL, a node that serves every
    height up to the head and a database that answers, while the re-poll task writes
    whatever it likes in between, the walk reaches the head in one pass, whatever happens
    to the transactions of the slots, and the cursor stored is the head: a restart resumes
    just after it.  [repoll_flips] shows that the re-poll task is such a second writer. *)
Theorem walk_catches_up chain_rpc cid head next e w :
  new chain_rpc = Ok client -> cannot_be_a_base client.(base) = false -> repolled e ->
  0 <= next -> next <= head -> head < u64_max ->
  (forall h, next <= h <= head -> served e h) ->
  exists w' w'',
    walk base64_decode client (walk_fuel head next) cid head next e w =
      (Done (Some (head + 1)), w') /\
    w'.(w_db).(indexer_state) !! KEY_LAST_INDEXED_HEIGHT = Some (to_string head) /\
    resolve_cursor None e w' = (Done (head + 1), w'').
Proof.
  intros Hnew Hb He H0 Hle Hh Hserved. pose proof (new_usable _ _ Hnew Hb) as Hclient.
  assert (exists w', walk base64_decode client (walk_fuel head next) cid head next e w =
      (Done (Some (head + 1)), w') /\
    w'.(w_db).(indexer_state) !! KEY_LAST_INDEXED_HEIGHT = Some (to_string head))
    as (w' & Hw & Hcur).
  { assert (forall fuel next w, head - next + 1 <= Z.of_nat fuel -> 0 <= next <= head ->
      (forall h, next <= h <= head -> served e h) ->
      exists w', walk base64_decode client fuel cid head next e w =
          (Done (Some (head + 1)), w') /\
        w'.(w_db).(indexer_state) !! KEY_LAST_INDEXED_HEIGHT = Some (to_string head))
      as Hgen; [|apply Hgen; [unfold walk_fuel; lia|lia|done]].
    induction fuel as [|fuel IH]; intros nx w1 Hf Hnx Hs; [lia|].
    simpl. destruct (Z.leb_spec nx head); [|lia].
    destruct (walk_step_served cid nx e w1 Hclient He) as (w2 & Hstep & Hcur);
      [by apply Hs; lia|].
    rewrite (io_bind_done _ _ _ _ _ _ Hstep), as_u64_id by lia_int.
    destruct (decide (nx = head)) as [->|].
    - exists w2. split; [|done]. destruct fuel; simpl;
        (destruct (Z.leb_spec (head + 1) head); [lia|done]).
    - apply IH; [lia|lia|]. intros h Hr. apply Hs. lia. }
  exists w'. eexists. split; [done|]. split; [done|].
  unfold resolve_cursor, read_last_indexed_height.
  destruct He as [Hf Hrely].
  rewrite <- (flip_steps_state _ _ (Hrely (w_tick w') (w_db w'))) in Hcur.
  erewrite io_bind_done by (rewrite exec_faultless by done; simpl; rewrite Hcur; simpl;
    rewrite parse_uint_to_string by lia_int; reflexivity).
  cbv beta iota. unfold saturating_add. rewrite Z.min_r by lia_int. reflexivity.
Qed.
End CatchUp.

(** ** At concrete inputs *)

Section WalkWitnesses.
#[local] Existing Instances Bip350.bech32m Bip350.bech32m_laws Fips180.sha2 clock numeric urls urls_laws Rfc8259.json.

(** The sample node and database, with a re-poll task that finds slot 3 finalized. *)
Definition repoll_env : Env := {|
  env_http := sample_env.(env_http); env_now := sample_env.(env_now); env_fault _ := NoFault;
  env_other t d := match flip_pending_stmt 3 (Z.of_nat t) d with Ok (_, d') => d' | Err _ => d end |}.

Lemma repoll_env_repolled : repolled repoll_env.
Proof.
  split; [done|]. intros t d. simpl. destruct (flip_pending_stmt 3 (Z.of_nat t) d) as [[n d']|] eqn:E;
    [|reflexivity]. apply rtc_once. by exists 3, (Z.of_nat t), n.
Defined.

Lemma sample_env_served h : 3 <= h <= 4 -> served sample_client repoll_env h.
Proof.
  intros Hh. assert (h = 3 \/ h = 4) as [->| ->] by lia.
  - exists 200, slot_3_body, (sample_slot 3 "pending"). split; [done|].
    intros u t [= <-]. split; vm_compute; reflexivity.
  - exists 200, slot_4_body, (sample_slot 4 "finalized"). split; [done|].
    intros u t [= <-]. split; vm_compute; reflexivity.
Defined.

(** A node that has pruned every height. *)
Definition pruned_env : Env := {|
  env_http _ _ _ := Reply 404 ""; env_now t := Z.of_nat t; env_fault _ := NoFault;
  env_other _ d := d |}.

Lemma pruned_env_honest : honest sample_client pruned_env.
Proof.
  intros h st body u slot (u' & t & Hu & Hr) Hs. simpl in Hr. injection Hr as -> ->.
  discriminate Hs.
Defined.

(** With a base URL nothing panics; the one of [CHAIN_RPC=localhost:12346] does. *)
Lemma indexer_never_panics_witness :
  (run (fun _ => None) sample_client 1 1 (Some 3) 1 sample_env (sample_world empty_db)).1
    <> Panicked /\
  (run (fun _ => None) {| base := "localhost:12346/" |} 1 1 (Some 3) 1 sample_env
    (sample_world empty_db)).1 = Panicked.
Proof.
  split.
  - apply (indexer_never_panics (fun _ => None) "http://node" sample_client 1 1 (Some 3) 1
      sample_env (sample_world empty_db)); vm_compute; reflexivity.
  - apply (indexer_never_panics (fun _ => None) "localhost:12346" {| base := "localhost:12346/" |}
      0 1 (Some 3) 1 sample_env (sample_world empty_db)); vm_compute; reflexivity.
Defined.

Lemma walk_terminates_witness :
  exists n, (walk (fun _ => None) sample_client (walk_fuel 4 3) 1 4 3 sample_env
           (sample_world empty_db)).1 = Done (Some n) /\ 3 <= n <= 5.
Proof.
  assert (cannot_be_a_base (base sample_client) && (3 <=? 4) = false) as Hb
    by (vm_compute; reflexivity).
  assert (new "http://node" = Ok sample_client) as Hn by (vm_compute; reflexivity).
  pose proof (walk_terminates (fun _ => None) "http://node" sample_client 1 4 3 sample_env
    (sample_world empty_db) Hn ltac:(lia) ltac:(vm_compute; reflexivity)) as Hw.
  cbv zeta in Hw. rewrite Hb in Hw. exact Hw.
Defined.

Lemma walk_covers_witness :
  has_slot (walk (fun _ => None) sample_client 2 1 4 3 pruned_env
              (sample_world empty_db)).2.(w_db) 4 \/ answered_404 sample_client pruned_env 4.
Proof.
  apply (walk_covers (fun _ => None) sample_client 2 1 4 3 pruned_env
    (sample_world empty_db) 5
    (walk (fun _ => None) sample_client 2 1 4 3 pruned_env (sample_world empty_db)).2 4).
  - intros t d. apply rtc_refl.
  - apply pruned_env_honest.
  - lia.
  - vm_compute; reflexivity.
  - vm_compute; reflexivity.
  - lia.
Defined.

Lemma walk_catches_up_witness :
  exists w' w'',
    walk (fun _ => None) sample_client 2 1 4 3 repoll_env (sample_world empty_db) =
      (Done (Some 5), w') /\
    resolve_cursor None repoll_env w' = (Done 5, w'').
Proof.
  destruct (walk_catches_up (fun _ => None) sample_client "http://node" 1 4 3 repoll_env
    (sample_world empty_db)) as (w' & w'' & Hw & _ & Hr).
  - vm_compute; reflexivity.
  - vm_compute; reflexivity.
  - apply repoll_env_repolled.
  - lia.
  - lia.
  - vm_compute; reflexivity.
  - apply sample_env_served.
  - exists w', w''. split; [exact Hw|exact Hr].
Defined.
End WalkWitnesses.
