(* ===== verification/Replay.v ===== *)
(** * Replaying a slot

    The resume cursor is written after the rows of a slot, so a crash in between (or a
    start height given by the operator) ingests the slot again.  Rows are keyed and
    merged; the accounts kept by deltas are not. *)

From S2P Require Import Prelude JsonSyntax Json Types Standards AttestationId Decode Parser Schema Io Db DbFacts DbSpec Client Ingest Samples.
Open Scope string_scope.
Open Scope list_scope.
Open Scope Z_scope.

Section Replay.
Context `{C : Chrono} `{N : PgNumeric} `{NL : !PgNumericLaws N} `{U : Urls}
  `{J : JsonText} (client : NodeClient).

(** The node knows the bounty, at every tick with the same record. *)
Definition bounty_served (e : Env) (id : string) (rec : BountyRecord) : Prop :=
  exists u st body,
    url client ("v1/modules/bounty/bounties/" ++ id)%string = Done u /\ st <> 404 /\
    (forall t, e.(env_http) t None u = Reply st body) /\
    from_slice (fun v => (fun r => Some r.(br_bounty)) <$> de_BountyResponse v) u body
      = Ok (Some rec).

Lemma bounty_at_served e id rec w :
  bounty_served e id rec -> bounty_at client id e w = (Done (Ok (Some rec)), tick w).
Proof.
  intros (u & st & body & Hu & Hst & Hrep & Hsl).
  unfold bounty_at, get_or_404, mbind, io_bind, lift, http_get. rewrite Hu, Hrep.
  destruct (Z.eqb_spec st 404); [done|]. by rewrite Hsl.
Qed.

(** One ingestion of a claim transaction moves the account by its delta. *)
Lemma claim_ingested e w c h ts id count amount rec r escrow n :
  calm e -> bounty_served e id rec ->
  ctx_kind c = BountyEvent id (BountyEventKind.Claimed count (to_string amount)) ->
  w.(w_db).(bounties) !! id = Some r -> bounty_row_ok r = true ->
  has_schema w.(w_db) rec.(bounty_board_schema_id) ->
  r.(bo_escrow_remaining_nano) = to_string escrow -> r.(bo_claim_count) = n ->
  in_u128 amount -> 0 <= count -> 0 <= n -> n + count <= i32_max ->
  Z.abs escrow + u128_max <= numeric_max ->
  exists w' r', insert_resource_rows client c h ts e w = (Done (Ok tt), w') /\
    w'.(w_db).(bounties) !! id = Some r' /\ bounty_row_ok r' = true /\
    w'.(w_db).(schemas) = w.(w_db).(schemas) /\
    r'.(bo_escrow_remaining_nano) = to_string (escrow - amount) /\
    r'.(bo_claim_count) = n + count.
Proof.
  intros He Hserved Hk Hr Hrow Hsch Hesc Hn Ha Hc Hn0 Hmax Hb.
  unfold insert_resource_rows, bounty_rows, contract_rows. rewrite Hk. unfold try at 1.
  rewrite (io_bind_done _ _ _ _ _ _ (bounty_at_served e id rec w Hserved)).
  destruct (bounty_op_row id (Hydrate rec h (ctx_hash c) ts) (w_db w) r escrow n)
    as (r1 & H1 & Hok1 & E1 & C1 & _); [done..|simpl; lia_int|].
  cbn [map_err]. cbv beta iota. unfold try at 1.
  erewrite io_bind_done.
  2: { unfold db. erewrite io_bind_done.
       2: { rewrite exec_calm by done. simpl (bounty_op _ _ _ _) in H1.
            unfold upsert_bounty in H1 |- *. simpl in H1 |- *. rewrite H1. reflexivity. }
       reflexivity. }
  cbn [map_err]. cbv beta iota. simpl in E1, C1.
  set (d1 := with_bounties (<[id:=r1]> (bounties (w_db w))) (w_db w)).
  assert (clamp_i32 count = count) as Hclamp.
  { unfold clamp_i32. replace ((i32_min <=? count) && (count <=? i32_max)) with true; [done|].
    symmetry. apply andb_true_intro. split; apply Z.leb_le; lia_int. }
  rewrite Hclamp.
  destruct (bounty_op_row id (Claim amount count h) d1 r1 escrow n)
    as (r2 & H2 & Hok2 & E2 & C2 & _); try done.
  { unfold d1. simpl. by rewrite lookup_insert_eq. }
  { simpl. lia. }
  eexists _, r2. split.
  - erewrite io_bind_done.
    2: { unfold ignore. erewrite io_bind_done.
         2: { rewrite exec_calm by done. simpl w_db. fold d1.
              change (apply_bounty_claim id (to_string amount) count h) with
                (bounty_op id (Claim amount count h)).
              assert (forall now, bounty_op id (Claim amount count h) now d1 =
                        bounty_op id (Claim amount count h) 0 d1) as -> by done.
              rewrite H2. reflexivity. }
         reflexivity. }
    reflexivity.
  - simpl. rewrite lookup_insert_eq. by split_and!.
Qed.

(** Ingesting a slot again is not idempotent.  A claim of [amount] ingested twice,
    everything succeeding, leaves the escrow lowered by [2 * amount] and the claim
    counter raised by twice the count; the column may go below zero. *)
Theorem replay_doubles_claim e w c h ts id count amount rec r escrow n :
  calm e -> bounty_served e id rec ->
  ctx_kind c = BountyEvent id (BountyEventKind.Claimed count (to_string amount)) ->
  w.(w_db).(bounties) !! id = Some r -> bounty_row_ok r = true ->
  has_schema w.(w_db) rec.(bounty_board_schema_id) ->
  r.(bo_escrow_remaining_nano) = to_string escrow -> r.(bo_claim_count) = n ->
  in_u128 amount -> in_u128 escrow -> 0 <= count -> 0 <= n -> n + 2 * count <= i32_max ->
  exists w1 w2 r2,
    insert_resource_rows client c h ts e w = (Done (Ok tt), w1) /\
    insert_resource_rows client c h ts e w1 = (Done (Ok tt), w2) /\
    w2.(w_db).(bounties) !! id = Some r2 /\
    r2.(bo_escrow_remaining_nano) = to_string (escrow - 2 * amount) /\
    r2.(bo_claim_count) = n + 2 * count.
Proof.
  intros He Hs Hk Hr Hrow Hsch Hesc Hn Ha Hesc' Hc Hn0 Hmax.
  assert (3 * u128_max <= numeric_max) as Hbig by by vm_compute.
  destruct (claim_ingested e w c h ts id count amount rec r escrow n)
    as (w1 & r1 & Hw1 & Hr1 & Hok1 & Hsch1 & E1 & C1); try done; [lia|lia_int|].
  destruct (claim_ingested e w1 c h ts id count amount rec r1 (escrow - amount) (n + count))
    as (w2 & r2 & Hw2 & Hr2 & _ & _ & E2 & C2); try done;
    [unfold has_schema; by rewrite Hsch1|lia|lia|lia_int|].
  exists w1, w2, r2. split_and!; try done.
  - rewrite E2. f_equal. lia.
  - lia.
Qed.

(** Replaying a transfer counts it again: the sender's and the receiver's totals
    grow by one on every ingestion of the same transaction. *)
Theorem replay_recounts_transfer e w c h ts t :
  calm e -> ctx_kind c = Transfer t -> tr_from t <> tr_to t ->
  w.(w_db).(address_summaries) !! tr_from t = None ->
  w.(w_db).(address_summaries) !! tr_to t = None ->
  exists w1 w2 rs rr,
    update_address_summaries c h ts e w = (Done (Ok tt), w1) /\
    update_address_summaries c h ts e w1 = (Done (Ok tt), w2) /\
    w2.(w_db).(address_summaries) !! tr_from t = Some rs /\ ad_txs_sent_count rs = 2 /\
    w2.(w_db).(address_summaries) !! tr_to t = Some rr /\ ad_txs_received_count rr = 2.
Proof.
  intros He Hk Hne Hf Ht. unfold update_address_summaries. rewrite Hk. cbn [event_sender].
  unfold try, db. eexists _, _, _, _. split_and!.
  - erewrite io_bind_done.
    2: { erewrite io_bind_done.
         2: { rewrite exec_calm by done. unfold upsert_address_activity, upsert.
              rewrite Hf. simpl. reflexivity. }
         reflexivity. }
    cbn [map_err]. cbv beta iota. erewrite io_bind_done.
    2: { rewrite exec_calm by done. unfold upsert_address_activity, upsert. simpl.
         rewrite lookup_insert_ne, Ht by done. simpl. reflexivity. }
    reflexivity.
  - erewrite io_bind_done.
    2: { erewrite io_bind_done.
         2: { rewrite exec_calm by done. unfold upsert_address_activity, upsert. simpl.
              rewrite lookup_insert_ne, lookup_insert_eq by done. simpl.
              rewrite !Z.ltb_irrefl. reflexivity. }
         reflexivity. }
    cbn [map_err]. cbv beta iota. erewrite io_bind_done.
    2: { rewrite exec_calm by done. unfold upsert_address_activity, upsert. simpl.
         rewrite lookup_insert_ne, lookup_insert_eq by done. simpl.
              rewrite !Z.ltb_irrefl. reflexivity. }
    reflexivity.
  - simpl. rewrite lookup_insert_ne, lookup_insert_eq by done. reflexivity.
  - reflexivity.
  - simpl. rewrite lookup_insert_eq. reflexivity.
  - reflexivity.
Qed.
End Replay.

(** ** At concrete inputs *)

Section ReplayWitnesses.
#[local] Existing Instances clock numeric numeric_laws urls Rfc8259.json.

Definition sample_claim : ClassifiedTx :=
  sample_ctx (BountyEvent "b" (BountyEventKind.Claimed 1 "60")) Committed.

Lemma sample_bounty_served : bounty_served sample_client sample_env "b" sample_bounty.
Proof.
  eexists "http://node/v1/modules/bounty/bounties/b", 200, bounty_body.
  split_and!; try done; vm_compute; reflexivity.
Defined.

(** Sixty claimed twice out of a hundred: the escrow is twenty below zero. *)
Lemma replay_doubles_claim_witness :
  exists w1 w2 r2,
    insert_resource_rows sample_client sample_claim 4 7 sample_env
      (sample_world (sample_db "pending" None)) = (Done (Ok tt), w1) /\
    insert_resource_rows sample_client sample_claim 4 7 sample_env w1 =
      (Done (Ok tt), w2) /\
    w2.(w_db).(bounties) !! "b" = Some r2 /\
    r2.(bo_escrow_remaining_nano) = "-20" /\ r2.(bo_claim_count) = 2.
Proof.
  apply (replay_doubles_claim sample_client sample_env
    (sample_world (sample_db "pending" None)) sample_claim 4 7 "b" 1 60 sample_bounty
    sample_bounty_row 100 0).
  - apply sample_env_calm.
  - apply sample_bounty_served.
  - reflexivity.
  - reflexivity.
  - reflexivity.
  - by eexists.
  - reflexivity.
  - reflexivity.
  - vm_compute; split; congruence.
  - vm_compute; split; congruence.
  - lia.
  - lia.
  - vm_compute; congruence.
Defined.

Lemma replay_recounts_transfer_witness :
  exists w2 rs,
    w2.(w_db).(address_summaries) !! "lig1a" = Some rs /\ ad_txs_sent_count rs = 2.
Proof.
  edestruct (replay_recounts_transfer sample_env (sample_world empty_db)
    (sample_ctx sample_transfer Committed) 4 7
    {| tr_from := "lig1a"; tr_to := "lig1b"; tr_amount_nano := "5";
       tr_token_id := "token_1x" |}) as (w1 & w2 & rs & rr & _ & _ & Hrs & Hn & _).
  - apply sample_env_calm.
  - reflexivity.
  - discriminate.
  - reflexivity.
  - reflexivity.
  - exists w2, rs. split; [exact Hrs|exact Hn].
Defined.
End ReplayWitnesses.
