(* ===== verification/Config.v ===== *)
(** * Configuration ([crates/api/src/config.rs])

    [Config::from_env] over an environment of variables.  An error is the message of the
    outermost context; [Panicked] is the [copy_from_slice] of a hash of another length. *)

From S2P Require Import Prelude.
Open Scope string_scope.
Open Scope list_scope.
Open Scope Z_scope.

(** The hex crate: two digits a byte, or an error. *)
Class Hex := hex_decode : string -> option (list Z).
Class HexLaws (X : Hex) :=
  hex_decode_length s l : hex_decode s = Some l -> String.length s = (2 * length l)%nat.

(** [std::env::var(name).ok()]: [None] when unset or not unicode. *)
Definition Vars := string -> option string.

Definition DEFAULT_BIND : string := "0.0.0.0:8080".
Definition DEFAULT_DRIP_AMOUNT : Z := 100000000000.
Definition DEFAULT_DRIP_RATE_LIMIT_SECS : Z := 24 * 60 * 60.
Definition DEFAULT_DRIP_MIN_BUDGET : Z := 100.
Definition DEFAULT_PG_POOL_SIZE : Z := 10.
Definition DEFAULT_BOT_DRIP_RATE_LIMIT_SECS : Z := 5 * 24 * 60 * 60.
Definition DEFAULT_BOT_DRIP_AMOUNT_NEWCOMER : Z := 100000000000.
Definition DEFAULT_BOT_DRIP_AMOUNT_REGULAR : Z := 250000000000.
Definition DEFAULT_BOT_DRIP_AMOUNT_VETERAN : Z := 500000000000.
Definition DEFAULT_BOT_DRIP_AMOUNT_ELDER : Z := 1000000000000.

Record Config := {
  bind : string;
  database_url : string;
  pg_pool_size : Z;
  chain_rpc : string;
  chain_cluster_auth_token : option string;
  chain_id : Z;
  chain_hash : list Z;
  avow_token_id_hex : string;
  drip_signer_key : string;
  cfg_drip_amount : Z;
  drip_rate_limit_secs : Z;
  drip_min_budget : Z;
  drip_starting_nonce : option Z;
  indexer_start_height : option Z;
  avow_treasury_addr : option string;
  faucet_bot_secret : option string;
  bot_drip_rate_limit_secs : Z;
  bot_drip_amount_newcomer : Z;
  bot_drip_amount_regular : Z;
  bot_drip_amount_veteran : Z;
  bot_drip_amount_elder : Z
}.

(** [.map(parse).transpose().with_context(..).map(|v| v.unwrap_or(default))]. *)
Definition parse_env (max : Z) (ty : string) (env : Vars) (name : string) (default : Z)
  : result string Z :=
  match env name with
  | None => Ok default
  | Some s =>
      match parse_uint max s with
      | Some v => Ok v
      | None => Err (name ++ " must be " ++ ty)%string
      end
  end.
Definition parse_env_u32 : Vars -> string -> Z -> result string Z := parse_env u32_max "u32".
Definition parse_env_u64 : Vars -> string -> Z -> result string Z := parse_env u64_max "u64".
Definition parse_env_u128 : Vars -> string -> Z -> result string Z := parse_env u128_max "u128".

(** [.map(parse::<u64>).transpose().context(..)]. *)
Definition optional_u64 (env : Vars) (name : string) : result string (option Z) :=
  match env name with
  | None => Ok None
  | Some s =>
      match parse_uint u64_max s with
      | Some v => Ok (Some v)
      | None => Err (name ++ " must be u64")%string
      end
  end.

Definition required (env : Vars) (name reason : string) : result string string :=
  match env name with Some s => Ok s | None => Err (name ++ " is required " ++ reason)%string end.

Definition nonempty (s : string) : option string :=
  if (s =? "")%string then None else Some s.

Definition ensure (b : bool) (err : string) : result string unit :=
  if b then Ok tt else Err err.

(** [[0u8; 32].copy_from_slice(bytes)]. *)
Definition copy_32 (bytes : list Z) : outcome (list Z) :=
  if (length bytes =? 32)%nat then Done bytes else Panicked.

Section FromEnv.
Context `{Hex}.

Definition parse_chain_hash (env : Vars) : result string (list Z) :=
  chain_hash_hex ← required env "CHAIN_HASH" "(64-char hex)";
  _ ← ensure (String.length chain_hash_hex =? 64)%nat
        ("CHAIN_HASH must be 64 hex chars, got "
         ++ to_string (Z.of_nat (String.length chain_hash_hex)))%string;
  match hex_decode chain_hash_hex with
  | Some l => Ok l
  | None => Err "CHAIN_HASH must be valid hex"
  end.

Definition parse_signer_key (env : Vars) : result string string :=
  drip_signer_key ← required env "DRIP_SIGNER_KEY" "(64-char hex private key)";
  _ ← ensure (String.length drip_signer_key =? 64)%nat
        ("DRIP_SIGNER_KEY must be 64 hex chars (32 bytes), got "
         ++ to_string (Z.of_nat (String.length drip_signer_key)))%string;
  match hex_decode drip_signer_key with
  | Some _ => Ok drip_signer_key
  | None => Err "DRIP_SIGNER_KEY must be valid hex"
  end.

(** The variables read up to the conversion of the hash. *)
Definition from_env_head (env : Vars) : result string (string * Z * Z * list Z) :=
  database_url ← required env "DATABASE_URL" "(Postgres connection string)";
  pg_pool_size ← parse_env_u32 env "PG_POOL_SIZE" DEFAULT_PG_POOL_SIZE;
  chain_id_text ← required env "CHAIN_ID" "(numeric, from chain_state.json)";
  chain_id ← match parse_uint u64_max chain_id_text with
             | Some v => Ok v
             | None => Err "CHAIN_ID must be u64"
             end;
  chain_hash_bytes ← parse_chain_hash env;
  Ok (database_url, pg_pool_size, chain_id, chain_hash_bytes).

Definition from_env (env : Vars) : outcome (result string Config) :=
  let bind :=
    match env "API_BIND" with
    | Some b => b
    | None => match env "PORT" with
              | Some p => ("0.0.0.0:" ++ p)%string
              | None => DEFAULT_BIND
              end
    end in
  match from_env_head env with
  | Err e => Done (Err e)
  | Ok (database_url, pg_pool_size, chain_id, chain_hash_bytes) =>
      chain_hash ← copy_32 chain_hash_bytes;
      Done (
        avow_token_id_hex ← required env "AVOW_TOKEN_ID" "(64-char hex from bank.json)";
        drip_signer_key ← parse_signer_key env;
        drip_amount ← parse_env_u128 env "DRIP_AMOUNT" DEFAULT_DRIP_AMOUNT;
        drip_rate_limit_secs ←
          parse_env_u64 env "DRIP_RATE_LIMIT_SECS" DEFAULT_DRIP_RATE_LIMIT_SECS;
        drip_min_budget ← parse_env_u64 env "DRIP_MIN_BUDGET" DEFAULT_DRIP_MIN_BUDGET;
        drip_starting_nonce ← optional_u64 env "DRIP_STARTING_NONCE";
        indexer_start_height ← optional_u64 env "INDEXER_START_HEIGHT";
        bot_drip_rate_limit_secs ←
          parse_env_u64 env "BOT_DRIP_RATE_LIMIT_SECS" DEFAULT_BOT_DRIP_RATE_LIMIT_SECS;
        newcomer ←
          parse_env_u128 env "BOT_DRIP_AMOUNT_NEWCOMER" DEFAULT_BOT_DRIP_AMOUNT_NEWCOMER;
        regular ←
          parse_env_u128 env "BOT_DRIP_AMOUNT_REGULAR" DEFAULT_BOT_DRIP_AMOUNT_REGULAR;
        veteran ←
          parse_env_u128 env "BOT_DRIP_AMOUNT_VETERAN" DEFAULT_BOT_DRIP_AMOUNT_VETERAN;
        elder ← parse_env_u128 env "BOT_DRIP_AMOUNT_ELDER" DEFAULT_BOT_DRIP_AMOUNT_ELDER;
        Ok {|
          bind := bind; database_url := database_url; pg_pool_size := pg_pool_size;
          chain_rpc := default "http://127.0.0.1:12346" (env "CHAIN_RPC");
          chain_cluster_auth_token := env "CHAIN_CLUSTER_AUTH_TOKEN" ≫= nonempty;
          chain_id := chain_id; chain_hash := chain_hash;
          avow_token_id_hex := avow_token_id_hex; drip_signer_key := drip_signer_key;
          cfg_drip_amount := drip_amount; drip_rate_limit_secs := drip_rate_limit_secs;
          drip_min_budget := drip_min_budget; drip_starting_nonce := drip_starting_nonce;
          indexer_start_height := indexer_start_height;
          avow_treasury_addr := env "AVOW_TREASURY_ADDR";
          faucet_bot_secret := env "FAUCET_BOT_SECRET" ≫= nonempty;
          bot_drip_rate_limit_secs := bot_drip_rate_limit_secs;
          bot_drip_amount_newcomer := newcomer; bot_drip_amount_regular := regular;
          bot_drip_amount_veteran := veteran; bot_drip_amount_elder := elder |})
  end.
End FromEnv.

(** ** What a configuration is *)

(** A variable that is unset leaves its default; one that is set has to parse. *)
Definition var_value (env : Vars) (max : Z) (name : string) (default v : Z) : Prop :=
  match env name with
  | None => v = default
  | Some s => parse_uint max s = Some v
  end.
Definition optional_value (env : Vars) (name : string) (v : option Z) : Prop :=
  match env name with
  | None => v = None
  | Some s => exists n, parse_uint u64_max s = Some n /\ v = Some n
  end.
(** An optional text for which empty means unset. *)
Definition secret_value (env : Vars) (name : string) (v : option string) : Prop :=
  forall s, v = Some s <-> env name = Some s /\ s <> "".

Lemma bind_ok_iff {E A B} (m : result E A) (k : A -> result E B) b :
  (m ≫= k) = Ok b <-> exists a, m = Ok a /\ k a = Ok b.
Proof.
  destruct m as [a|e]; simpl; split.
  - eauto.
  - by intros (a' & [= <-] & H).
  - done.
  - by intros (a' & [=] & H).
Qed.

Lemma required_ok env name reason v : required env name reason = Ok v <-> env name = Some v.
Proof. unfold required. destruct (env name); split; congruence. Qed.

Lemma ensure_ok b err u : ensure b err = Ok u <-> b = true.
Proof. destruct b, u; done. Qed.

Lemma parse_env_ok max ty env name d v :
  parse_env max ty env name d = Ok v <-> var_value env max name d v.
Proof.
  unfold parse_env, var_value. destruct (env name) as [s|]; [|split; congruence].
  destruct (parse_uint max s); split; congruence.
Qed.

Lemma optional_u64_ok env name v : optional_u64 env name = Ok v <-> optional_value env name v.
Proof.
  unfold optional_u64, optional_value. destruct (env name) as [s|]; [|split; congruence].
  destruct (parse_uint u64_max s); split; try congruence; [intros [= <-]; eauto|..];
    intros (n & ? & ->); congruence.
Qed.

Lemma nonempty_value env name : secret_value env name (env name ≫= nonempty).
Proof.
  intros s. destruct (env name) as [t|]; simpl; [|split; [done|by intros []]].
  unfold nonempty. destruct (String.eqb_spec t "") as [->|]; split; try congruence;
    intros; destruct_and?; simplify_eq; done.
Qed.

Lemma secret_value_eq env name v v' :
  secret_value env name v -> secret_value env name v' -> v = v'.
Proof.
  intros H H'. destruct v as [s|].
  - symmetry. apply H', H. done.
  - destruct v' as [s'|]; [|done]. apply H, H'. done.
Qed.

Section FromEnvSpec.
Context `{X : Hex} `{XL : !HexLaws X}.

(** What each field of a configuration is, from the variables. *)
Record configured (env : Vars) (c : Config) : Prop := {
  c_bind : c.(bind) = default (default DEFAULT_BIND ((append "0.0.0.0:") <$> env "PORT"))
                        (env "API_BIND");
  c_database_url : env "DATABASE_URL" = Some c.(database_url);
  c_pg_pool_size : var_value env u32_max "PG_POOL_SIZE" 10 c.(pg_pool_size);
  c_chain_rpc : c.(chain_rpc) = default "http://127.0.0.1:12346" (env "CHAIN_RPC");
  c_cluster_token :
    secret_value env "CHAIN_CLUSTER_AUTH_TOKEN" c.(chain_cluster_auth_token);
  c_chain_id : exists s, env "CHAIN_ID" = Some s /\ parse_uint u64_max s = Some c.(chain_id);
  c_chain_hash : exists s, env "CHAIN_HASH" = Some s /\ hex_decode s = Some c.(chain_hash) /\
                           length c.(chain_hash) = 32%nat;
  c_token_id : env "AVOW_TOKEN_ID" = Some c.(avow_token_id_hex);
  c_signer_key : env "DRIP_SIGNER_KEY" = Some c.(drip_signer_key) /\
    exists l, hex_decode c.(drip_signer_key) = Some l /\ length l = 32%nat;
  c_drip_amount : var_value env u128_max "DRIP_AMOUNT" 100000000000 c.(cfg_drip_amount);
  c_rate_limit : var_value env u64_max "DRIP_RATE_LIMIT_SECS" 86400 c.(drip_rate_limit_secs);
  c_min_budget : var_value env u64_max "DRIP_MIN_BUDGET" 100 c.(drip_min_budget);
  c_nonce : optional_value env "DRIP_STARTING_NONCE" c.(drip_starting_nonce);
  c_start : optional_value env "INDEXER_START_HEIGHT" c.(indexer_start_height);
  c_treasury : c.(avow_treasury_addr) = env "AVOW_TREASURY_ADDR";
  c_secret : secret_value env "FAUCET_BOT_SECRET" c.(faucet_bot_secret);
  c_bot_limit :
    var_value env u64_max "BOT_DRIP_RATE_LIMIT_SECS" 432000 c.(bot_drip_rate_limit_secs);
  c_newcomer : var_value env u128_max "BOT_DRIP_AMOUNT_NEWCOMER" 100000000000
                 c.(bot_drip_amount_newcomer);
  c_regular : var_value env u128_max "BOT_DRIP_AMOUNT_REGULAR" 250000000000
                c.(bot_drip_amount_regular);
  c_veteran : var_value env u128_max "BOT_DRIP_AMOUNT_VETERAN" 500000000000
                c.(bot_drip_amount_veteran);
  c_elder : var_value env u128_max "BOT_DRIP_AMOUNT_ELDER" 1000000000000
              c.(bot_drip_amount_elder)
}.

Lemma hex_64 s l : hex_decode s = Some l ->
  (String.length s =? 64)%nat = true <-> length l = 32%nat.
Proof. intros H. rewrite Nat.eqb_eq, (hex_decode_length s l H). lia. Qed.

Lemma parse_chain_hash_ok env l :
  parse_chain_hash env = Ok l <->
  exists s, env "CHAIN_HASH" = Some s /\ hex_decode s = Some l /\ length l = 32%nat.
Proof.
  unfold parse_chain_hash. setoid_rewrite bind_ok_iff. setoid_rewrite required_ok.
  setoid_rewrite bind_ok_iff. setoid_rewrite ensure_ok.
  split.
  - intros (s & Hs & u & Hlen & Hd). exists s.
    destruct (hex_decode s) eqn:E; [|done]. injection Hd as ->. by rewrite <- (hex_64 s l E).
  - intros (s & Hs & Hd & Hlen). exists s. split; [done|]. exists tt.
    rewrite (hex_64 s l Hd), Hd. done.
Qed.

Lemma parse_signer_key_ok env k :
  parse_signer_key env = Ok k <->
  env "DRIP_SIGNER_KEY" = Some k /\ exists l, hex_decode k = Some l /\ length l = 32%nat.
Proof.
  unfold parse_signer_key. setoid_rewrite bind_ok_iff. setoid_rewrite required_ok.
  setoid_rewrite bind_ok_iff. setoid_rewrite ensure_ok.
  split.
  - intros (s & Hs & u & Hlen & Hd). destruct (hex_decode s) eqn:E; [|done].
    injection Hd as ->. split; [done|]. eexists. split; [done|]. by apply (hex_64 k).
  - intros (Hk & l & Hd & Hlen). exists k. split; [done|]. exists tt.
    rewrite (hex_64 k l Hd), Hd. done.
Qed.

Lemma from_env_head_ok env u p i l :
  from_env_head env = Ok (u, p, i, l) <->
    env "DATABASE_URL" = Some u /\ var_value env u32_max "PG_POOL_SIZE" 10 p /\
    (exists s, env "CHAIN_ID" = Some s /\ parse_uint u64_max s = Some i) /\
    (exists s, env "CHAIN_HASH" = Some s /\ hex_decode s = Some l /\ length l = 32%nat).
Proof.
  unfold from_env_head. rewrite bind_ok_iff. setoid_rewrite required_ok.
  setoid_rewrite bind_ok_iff. setoid_rewrite parse_env_ok.
  setoid_rewrite bind_ok_iff. setoid_rewrite required_ok. setoid_rewrite bind_ok_iff.
  setoid_rewrite bind_ok_iff. setoid_rewrite parse_chain_hash_ok.
  split.
  - intros (u' & Hu & p' & Hp & s & Hs & i' & Hi & l' & Hl & [= -> -> -> ->]).
    split_and!; try done. exists s. split; [done|].
    destruct (parse_uint u64_max s); congruence.
  - intros (Hu & Hp & (s & Hs & Hi) & Hl). exists u. split; [done|]. exists p.
    split; [done|]. exists s. split; [done|]. exists i. rewrite Hi. eauto.
Qed.

Lemma from_env_sound env c : from_env env = Done (Ok c) -> configured env c.
Proof.
  unfold from_env. destruct (from_env_head env) as [[[[u p] i] l]|e] eqn:Eh; [|done].
  apply from_env_head_ok in Eh as (Hu & Hp & Hi & Hl).
  unfold copy_32. destruct (_ =? 32)%nat; [|done]. cbn [mbind outcome_bind].
  intros [= H]. repeat (apply bind_ok_iff in H as (? & ? & H)).
  injection H as <-. unfold parse_env_u64, parse_env_u128 in *.
  repeat match goal with
  | H : required _ _ _ = Ok _ |- _ => apply required_ok in H
  | H : parse_signer_key _ = Ok _ |- _ => apply parse_signer_key_ok in H
  | H : parse_env _ _ _ _ _ = Ok _ |- _ => apply parse_env_ok in H
  | H : optional_u64 _ _ = Ok _ |- _ => apply optional_u64_ok in H
  end.
  split; simpl; try done; try apply nonempty_value.
  by destruct (env "API_BIND"), (env "PORT").
Qed.

Lemma from_env_complete env c : configured env c -> from_env env = Done (Ok c).
Proof.
  intros []. unfold from_env.
  rewrite (proj2 (from_env_head_ok env _ _ _ _)
    (conj c_database_url0 (conj c_pg_pool_size0 (conj c_chain_id0 c_chain_hash0)))).
  unfold copy_32. destruct c_chain_hash0 as (? & _ & _ & ->). cbn [Nat.eqb mbind outcome_bind].
  f_equal.
  do 2 (rewrite bind_ok_iff; eexists; split;
    [first [by apply required_ok|by apply parse_signer_key_ok]|]).
  do 3 (rewrite bind_ok_iff; eexists; split; [by apply parse_env_ok|]).
  do 2 (rewrite bind_ok_iff; eexists; split; [by apply optional_u64_ok|]).
  do 5 (rewrite bind_ok_iff; eexists; split; [by apply parse_env_ok|]).
  destruct c. simpl in *. subst. f_equal. f_equal.
  - by destruct (env "API_BIND"), (env "PORT").
  - eapply secret_value_eq; [apply nonempty_value|done].
  - eapply secret_value_eq; [apply nonempty_value|done].
Qed.

(** [from_env] is exactly the declared configuration: it succeeds with [c] if and only
    if every required variable is set, both 32-byte hex texts decode, every number set
    parses within its type and [c] holds those values and the defaults of the others; an
    empty bot secret or cluster token counts as unset; and it never panics. *)
Theorem from_env_spec env :
  from_env env <> Panicked /\
  forall c, from_env env = Done (Ok c) <-> configured env c.
Proof.
  split; [|intros c; split; [apply from_env_sound|apply from_env_complete]].
  unfold from_env. destruct (from_env_head env) as [[[[u p] i] l]|e] eqn:Eh; [|done].
  apply from_env_head_ok in Eh as (_ & _ & _ & s & _ & _ & Hl).
  unfold copy_32. by rewrite Hl.
Qed.
End FromEnvSpec.

(** ** A hex crate, and a configuration *)

Module SampleHex.
Definition digit (c : ascii) : option Z :=
  let n := Z.of_N (N_of_ascii c) in
  if (48 <=? n) && (n <=? 57) then Some (n - 48)
  else if (97 <=? n) && (n <=? 102) then Some (n - 87)
  else if (65 <=? n) && (n <=? 70) then Some (n - 55)
  else None.

Fixpoint unhex (l : list ascii) : option (list Z) :=
  match l with
  | [] => Some []
  | [_] => None
  | a :: b :: r => x ← digit a; y ← digit b; t ← unhex r; Some (16 * x + y :: t)
  end.

Definition hex : Hex := fun s => unhex (list_ascii_of_string s).

Lemma unhex_length : forall l bytes,
  unhex l = Some bytes -> length l = (2 * length bytes)%nat.
Proof.
  fix IH 1. intros [|a [|b r]] bytes; simpl; [by intros [= <-]|done|].
  destruct (digit a), (digit b), (unhex r) as [t|] eqn:E; try done. simpl.
  intros [= <-]. apply IH in E. simpl. lia.
Qed.

Lemma hex_laws : HexLaws hex.
Proof.
  intros s l H. apply unhex_length in H. rewrite <- H.
  clear. induction s as [|c s IH]; simpl; [done|by f_equal].
Qed.

Definition key : string := "00112233445566778899aabbccddeeff00112233445566778899AABBCCDDEEFF".
Definition vars (secret : string) : Vars := fun name =>
  if (name =? "DATABASE_URL")%string then Some "postgres://db"
  else if (name =? "CHAIN_ID")%string then Some "7"
  else if (name =? "CHAIN_HASH")%string then Some key
  else if (name =? "AVOW_TOKEN_ID")%string then Some key
  else if (name =? "DRIP_SIGNER_KEY")%string then Some key
  else if (name =? "FAUCET_BOT_SECRET")%string then Some secret
  else None.
End SampleHex.

Lemma from_env_spec_witness :
  exists c, from_env (H := SampleHex.hex) (SampleHex.vars "") = Done (Ok c) /\
    c.(faucet_bot_secret) = None /\ configured (X := SampleHex.hex) (SampleHex.vars "") c.
Proof.
  destruct (from_env (H := SampleHex.hex) (SampleHex.vars "")) as [[c|e]|] eqn:E;
    [|vm_compute in E; discriminate..].
  exists c. split; [reflexivity|].
  split; [|apply (from_env_spec (XL := SampleHex.hex_laws) (SampleHex.vars "")); exact E].
  vm_compute in E. injection E as <-. reflexivity.
Defined.
