(* ===== verification/Drip.v ===== *)
(** * The web faucet ([crates/drip/src/ratelimit.rs], [signer.rs], the drip handlers of
    [crates/api/src/handlers.rs])

    The per-address rate limiter, the signer around it, the handler for one request and the
    inclusion wait.  The requests of both faucets at once are in [Concurrent]. *)

From S2P Require Import Prelude.
Open Scope string_scope.
Open Scope list_scope.
Open Scope Z_scope.

(** ** The rate limiter

    Instants and durations are nanoseconds; the concurrent map is a finite map. *)

Record RateLimiter := {
  last_drip : gmap string Z;
  window : Z
}.

Inductive RateCheck := Allowed | Blocked (retry_after : Z).

Definition new_limiter (window : Z) : RateLimiter := {| last_drip := ∅; window := window |}.

(** [Instant::duration_since] saturates at zero. *)
Definition duration_since (now last : Z) : Z := Z.max 0 (now - last).

Definition peek (self : RateLimiter) (address : string) (now : Z) : RateCheck :=
  match self.(last_drip) !! address with
  | Some last =>
      let elapsed := duration_since now last in
      if self.(window) <=? elapsed then Allowed else Blocked (self.(window) - elapsed)
  | None => Allowed
  end.

Definition check (self : RateLimiter) (address : string) (now : Z) : RateCheck :=
  match self.(last_drip) !! address with
  | Some last =>
      let elapsed := duration_since now last in
      if self.(window) <=? elapsed then Allowed else Blocked (self.(window) - elapsed)
  | None => Allowed
  end.

Definition record (self : RateLimiter) (address : string) (now : Z) : RateLimiter :=
  {| last_drip := <[address := now]> self.(last_drip); window := self.(window) |}.

Definition drip_count (self : RateLimiter) : nat := size self.(last_drip).

(** ** The signer *)

Definition DEFAULT_MAX_FEE_NANO : Z := 100000000.

Inductive SignerError :=
| InvalidAddress (msg : string)
| InvalidSignerKey (msg : string)
| SubmitFailed (msg : string).

Record DripReceipt := { r_tx_hash : string; r_amount_nano : Z }.

(** What the signer uses of the chain SDK: address parsing, building, signing and
    encoding the transfer under a nonce, and submitting the bytes. *)
Class ChainSdk := {
  Address : Type;
  parse_address : string -> result string Address;
  sign_transfer : Address -> Z -> Z -> result string (list Z);
  submit_raw_tx : list Z -> Z -> result string string
}.

(** [str::trim_end_matches('/')] and [str::ends_with]. *)
Fixpoint trim_slashes (l : list ascii) : list ascii :=
  match l with "/"%char :: r => trim_slashes r | _ => l end.
Definition trim_end_slashes (s : string) : string :=
  string_of_list_ascii (rev (trim_slashes (rev (list_ascii_of_string s)))).
Definition ends_with (suffix s : string) : bool :=
  bool_decide (list_ascii_of_string suffix `suffix_of` list_ascii_of_string s).

(** The URL kept by [Signer::new]. *)
Definition chain_rpc_with_v1 (chain_rpc : string) : string :=
  let trimmed := trim_end_slashes chain_rpc in
  if ends_with "/v1" trimmed then trimmed else (trimmed ++ "/v1")%string.

(** [AtomicU64::fetch_add(1)]: the value reserved and the counter after it. *)
Definition fetch_add_nonce (nonce : Z) : Z * Z := (nonce, as_u64 (nonce + 1)).

Section Signer.
Context `{ChainSdk}.

(** The first half of [Signer::drip], up to the submission: the address is parsed, a nonce
    reserved, the transfer signed under it and encoded.  The nonce with the bytes, and the
    counter left: an address that does not parse reserves none, a transfer that cannot be
    encoded has used its own. *)
Definition prepare (recipient : string) (amount_nano nonce : Z)
  : result SignerError (Z * list Z) * Z :=
  match parse_address recipient with
  | Err e => (Err (InvalidAddress (recipient ++ ": " ++ e)%string), nonce)
  | Ok to =>
      let '(n, nonce') := fetch_add_nonce nonce in
      match sign_transfer to amount_nano n with
      | Err e => (Err (SubmitFailed ("encoding signed tx: " ++ e)%string), nonce')
      | Ok bytes => (Ok (n, bytes), nonce')
      end
  end.

(** The second half: the submission at time [t].  The inclusion wait that follows has no
    effect on the result. *)
Definition submit (bytes : list Z) (amount_nano t : Z) : result SignerError DripReceipt :=
  match submit_raw_tx bytes t with
  | Err e => Err (SubmitFailed ("submit: " ++ e)%string)
  | Ok tx_hash => Ok {| r_tx_hash := tx_hash; r_amount_nano := amount_nano |}
  end.

(** [Signer::drip] at nonce counter [nonce] and time [t]: the result and the counter
    left. *)
Definition signer_drip (recipient : string) (amount_nano nonce t : Z)
  : result SignerError DripReceipt * Z :=
  match prepare recipient amount_nano nonce with
  | (Err e, nonce') => (Err e, nonce')
  | (Ok (_, bytes), nonce') => (submit bytes amount_nano t, nonce')
  end.

(** ** The handler, one request at a time *)

Record Faucet := { limiter : RateLimiter; nonce_counter : Z; drip_amount : Z }.

Inductive DripReply :=
| Dripped (address : string) (receipt : DripReceipt)
| Refused (status : Z) (error : string) (retry_after_secs : option Z).

(** The [map_err] of both faucets. *)
Definition signer_refusal (e : SignerError) : Z * string :=
  match e with
  | InvalidAddress msg => (400, msg)
  | InvalidSignerKey msg => (500, ("operator misconfig: " ++ msg)%string)
  | SubmitFailed msg => (502, ("chain submission failed: " ++ msg)%string)
  end.
Definition refuse (e : SignerError) : DripReply :=
  Refused (signer_refusal e).1 (signer_refusal e).2 None.

(** [Duration::as_secs]. *)
Definition as_secs (d : Z) : Z := d / 1000000000.

Definition rate_limited (retry_after : Z) : DripReply :=
  Refused 429 ("address rate-limited; retry in " ++ to_string (as_secs retry_after)
               ++ " seconds")%string (Some (as_secs retry_after)).

(** [check] reads the clock at [t0], the chain answers at [t1], [record] reads it at
    [t2]. *)
Definition drip (s : Faucet) (address : string) (t0 t1 t2 : Z) : DripReply * Faucet :=
  match check s.(limiter) address t0 with
  | Blocked retry_after => (rate_limited retry_after, s)
  | Allowed =>
      let '(r, nonce') := signer_drip address s.(drip_amount) s.(nonce_counter) t1 in
      match r with
      | Err e =>
          (refuse e,
           {| limiter := s.(limiter); nonce_counter := nonce';
              drip_amount := s.(drip_amount) |})
      | Ok receipt =>
          (Dripped address receipt,
           {| limiter := record s.(limiter) address t2; nonce_counter := nonce';
              drip_amount := s.(drip_amount) |})
      end
  end.

(** [GET /v1/drip/status?address=]: [can_drip] and the wait when it is false. *)
Definition drip_status_address (s : Faucet) (address : string) (now : Z) : bool * option Z :=
  match peek s.(limiter) address now with
  | Allowed => (true, None)
  | Blocked retry_after => (false, Some retry_after)
  end.

End Signer.

(** ** The inclusion wait

    [wait_for_inclusion]: poll, sleep half a second, give up once more than twelve
    seconds have elapsed (nanoseconds).  [poll k] is what the [k]-th request answers and
    how long it took, oversleeping included. *)
Definition POLL_INTERVAL : Z := 500000000.
Definition MAX_WAIT : Z := 12000000000.

Inductive WaitResult := Included (polls : nat) | TimedOut (polls : nat).

(** [Ok(body) if !body.trim().is_empty()]: an empty body is a 404. *)
Definition poll_sees (answer : result string string) : bool :=
  match answer with
  | Ok body => negb (trim body =? "")%string
  | Err _ => false
  end.

Fixpoint wait_for_inclusion (fuel : nat) (poll : nat -> result string string * Z) (k : nat)
    (elapsed : Z) : option WaitResult :=
  if MAX_WAIT <? elapsed then Some (TimedOut k)
  else match fuel with
  | O => None
  | S fuel =>
      let '(answer, took) := poll k in
      if poll_sees answer then Some (Included (S k))
      else wait_for_inclusion fuel poll (S k) (elapsed + took + POLL_INTERVAL)
  end.
