(* ===== verification/DripSpec.v ===== *)
(** * What the web faucet guarantees

    The limiter's boundary; the cooldown over any sequence of requests served one at a
    time; the bounded inclusion wait and the normal form of the chain's URL.  What holds
    under concurrency is in [ConcurrentSpec]. *)

From S2P Require Import Prelude Drip.
Open Scope string_scope.
Open Scope list_scope.
Open Scope Z_scope.

(** ** The limiter *)

Lemma check_record_other rl a b t0 t :
  a <> b -> check (record rl a t0) b t = check rl b t.
Proof. intros Hab. unfold check, record. simpl. by rewrite lookup_insert_ne. Qed.

Lemma check_record rl a t0 t :
  check (record rl a t0) a t =
  if window rl <=? duration_since t t0 then Allowed
  else Blocked (window rl - duration_since t t0).
Proof. unfold check, record. simpl. by rewrite lookup_insert_eq. Qed.

Lemma check_allowed rl a t l :
  check rl a t = Allowed -> last_drip rl !! a = Some l -> 0 < window rl ->
  window rl <= t - l.
Proof.
  intros Hc Hl Hw. unfold check in Hc. rewrite Hl in Hc.
  destruct (Z.leb_spec (window rl) (duration_since t l)); [|done].
  unfold duration_since in *. lia.
Qed.

(** The boundary of a cooldown.  After a drip recorded at [t0], the address is blocked
    exactly until [t0 + window]: at an earlier instant the wait announced leads precisely
    to that boundary and is never longer than the window; other addresses are not
    affected; asking (by [check] or [peek]) changes nothing and both agree. *)
Theorem limiter_boundary rl a t0 t :
  0 <= window rl -> t0 <= t ->
  (check (record rl a t0) a t = Allowed <-> t0 + window rl <= t) /\
  (forall r, check (record rl a t0) a t = Blocked r ->
     0 < r <= window rl /\ t + r = t0 + window rl) /\
  peek (record rl a t0) a t = check (record rl a t0) a t /\
  (forall b, b <> a -> check (record rl a t0) b t = check rl b t) /\
  drip_count (record rl a t0) =
    (drip_count rl + if decide (is_Some (last_drip rl !! a)) then 0 else 1)%nat.
Proof.
  intros Hw Ht. rewrite check_record. unfold duration_since.
  rewrite Z.max_r by lia. split_and!.
  - destruct (Z.leb_spec (window rl) (t - t0)); split; intros; try done; lia.
  - intros r. destruct (Z.leb_spec (window rl) (t - t0)); [done|]. intros [= <-]. lia.
  - unfold peek, record. simpl. rewrite lookup_insert_eq. unfold duration_since.
    by rewrite Z.max_r by lia.
  - intros b Hb. by apply check_record_other.
  - unfold drip_count, record. simpl.
    destruct (decide _) as [[l Hl]|Hn].
    + rewrite map_size_insert_Some by by exists l. lia.
    + rewrite map_size_insert_None by (by apply eq_None_not_Some). lia.
Qed.

(** ** Sequences of drips

    A drip is an address, the instant of its check and the instant of its record.  The
    limiter admits a sequence when each check finds its address free. *)
Definition DripAt : Type := string * Z * Z.

Fixpoint admits (rl : RateLimiter) (l : list DripAt) : Prop :=
  match l with
  | [] => True
  | (a, t0, t2) :: rest => check rl a t0 = Allowed /\ admits (record rl a t2) rest
  end.

(** The clock does not run backwards from [t] on. *)
Fixpoint in_order (t : Z) (l : list DripAt) : Prop :=
  match l with
  | [] => True
  | (_, t0, t2) :: rest => t <= t0 <= t2 /\ in_order t2 rest
  end.

Lemma in_order_weaken t t' l : t <= t' -> in_order t' l -> in_order t l.
Proof. destruct l as [|[[a t0] t2] l]; simpl; [done|]. intros ? [[]]. repeat split; lia || done. Qed.

(** Once a drip is recorded, every later one to its address is a window away. *)
Lemma admits_after_record rl l a last t :
  0 < window rl -> last_drip rl !! a = Some last -> last <= t -> in_order t l -> admits rl l ->
  Forall (fun g : DripAt => g.1.1 = a -> window rl <= g.1.2 - last) l.
Proof.
  revert rl last t. induction l as [|[[b t0] t2] l IH]; intros rl last t Hw Hl Ht; simpl;
    [constructor|].
  intros [Hb Ho] [Hc Had]. assert (b = a -> window rl <= t0 - last) as Hhead.
  { intros ->. by eapply check_allowed. }
  constructor; [done|]. destruct (decide (b = a)) as [->|Hne].
  - specialize (Hhead eq_refl).
    assert (Forall (fun g : DripAt => g.1.1 = a -> window rl <= g.1.2 - t2) l) as Hf
      by (apply (IH (record rl a t2) t2 t2); (done || apply lookup_insert_eq)).
    eapply Forall_impl; [exact Hf|]. intros g Hg Ha. specialize (Hg Ha). lia.
  - apply (IH (record rl b t2) last t2); try done; [simpl; by rewrite lookup_insert_ne|lia].
Qed.

(** What a limiter admits keeps the cooldown. *)
Lemma admits_cooldown rl l t :
  0 < window rl -> in_order t l -> admits rl l ->
  ForallOrdPairs (fun g g' : DripAt => g.1.1 = g'.1.1 -> window rl <= g'.1.2 - g.2) l.
Proof.
  revert rl t. induction l as [|[[a t0] t2] l IH]; intros rl t Hw; simpl; [constructor|].
  intros [_ Ho] [_ Had]. constructor; [|exact (IH (record rl a t2) t2 Hw Ho Had)].
  pose proof (admits_after_record (record rl a t2) l a t2 t2 Hw (lookup_insert_eq _ _ _)
    (Z.le_refl _) Ho Had) as Hf.
  eapply Forall_impl; [exact Hf|]. intros g Hg He. by apply Hg.
Qed.

(** ** Requests one at a time *)

Section Sequential.
Context `{ChainSdk}.

(** A request: address, and the instants of its check, submission and record. *)
Record Request := { q_address : string; q_t0 : Z; q_t1 : Z; q_t2 : Z }.

(** The grants of a sequence of requests: address, check time, record time. *)
Fixpoint grants (s : Faucet) (l : list Request) : list (string * Z * Z) :=
  match l with
  | [] => []
  | q :: rest =>
      let '(reply, s') := drip s (q_address q) (q_t0 q) (q_t1 q) (q_t2 q) in
      match reply with
      | Dripped a _ => (a, q_t0 q, q_t2 q) :: grants s' rest
      | Refused _ _ _ => grants s' rest
      end
  end.

(** The clock does not run backwards, within a request and between requests. *)
Fixpoint clock_ok (t : Z) (l : list Request) : Prop :=
  match l with
  | [] => True
  | q :: rest => t <= q_t0 q <= q_t1 q /\ q_t1 q <= q_t2 q /\ clock_ok (q_t2 q) rest
  end.

Lemma drip_cases s a t0 t1 t2 :
  let '(reply, s') := drip s a t0 t1 t2 in
  (exists st m r, reply = Refused st m r /\ limiter s' = limiter s) \/
  (exists receipt, reply = Dripped a receipt /\ check (limiter s) a t0 = Allowed /\
                   limiter s' = record (limiter s) a t2).
Proof.
  unfold drip. destruct (check (limiter s) a t0) eqn:Ec; [|left; eauto 6].
  destruct (signer_drip _ _ _ _) as [[receipt|e] n]; simpl; [right|left]; eauto 6.
Qed.

Lemma grants_admitted l s t :
  clock_ok t l -> in_order t (grants s l) /\ admits (limiter s) (grants s l).
Proof.
  revert s t. induction l as [|q l IH]; intros s t; simpl; [done|]. intros (Ht0 & Ht1 & Hclock).
  pose proof (drip_cases s (q_address q) (q_t0 q) (q_t1 q) (q_t2 q)) as Hd.
  destruct (drip s _ _ _ _) as [reply s'].
  destruct Hd as [(st & m & r & -> & Hlim)|(receipt & -> & Hcheck & Hlim)].
  - rewrite <- Hlim. destruct (IH s' (q_t2 q) Hclock) as [Ho Had].
    split; [|done]. eapply in_order_weaken; [|exact Ho]. lia.
  - simpl. rewrite <- Hlim. destruct (IH s' (q_t2 q) Hclock) as [Ho Had].
    split; split; (done || lia).
Qed.

(** The cooldown, requests served one at a time.  Over any sequence of requests, from
    any state, two grants to the same address are at least a window apart, from the
    record of the first to the check of the second, whatever other requests, refusals
    and failed submissions lie between. *)
Theorem sequential_cooldown s l t :
  0 < window (limiter s) -> clock_ok t l ->
  ForallOrdPairs (fun g g' => g.1.1 = g'.1.1 -> window (limiter s) <= g'.1.2 - g.2)
    (grants s l).
Proof.
  intros Hw Hclock. destruct (grants_admitted l s t Hclock) as [Ho Had].
  by eapply admits_cooldown.
Qed.

End Sequential.

(** ** Nonces in a row *)

Lemma as_u64_inj_near s o o' :
  0 <= o <= u64_max -> 0 <= o' <= u64_max -> as_u64 (s + o) = as_u64 (s + o') -> o = o'.
Proof.
  unfold as_u64, as_unsigned. intros Ho Ho' He.
  assert ((s + o - (s + o')) mod 2 ^ 64 = 0) as Hd.
  { rewrite Zminus_mod, He, Z.sub_diag. reflexivity. }
  apply Z.mod_divide in Hd; [|done]. destruct Hd as [q Hq].
  change (2 ^ 64) with 18446744073709551616 in Hq. lia_int.
Qed.

(** ** The inclusion wait and the chain URL *)

Lemma wait_finishes poll fuel k elapsed :
  (forall j, 0 <= (poll j).2) -> MAX_WAIT < elapsed + POLL_INTERVAL * Z.of_nat fuel ->
  exists n, (n <= k + fuel)%nat /\
    (wait_for_inclusion fuel poll k elapsed = Some (TimedOut n) /\
       (forall j, (k <= j < n)%nat -> poll_sees (poll j).1 = false) \/
     wait_for_inclusion fuel poll k elapsed = Some (Included n) /\
       (k < n)%nat /\ poll_sees (poll (n - 1)%nat).1 = true /\
       (forall j, (k <= j < n - 1)%nat -> poll_sees (poll j).1 = false)).
Proof.
  intros Hp. revert k elapsed. unfold POLL_INTERVAL.
  induction fuel as [|fuel IH]; intros k elapsed Hf; cbn [wait_for_inclusion];
    destruct (Z.ltb_spec MAX_WAIT elapsed) as [Hlt|Hge].
  1, 3: exists k; split; [lia|left; split; [done|lia]].
  - lia.
  - specialize (Hp k) as Hk. destruct (poll k) as [answer took] eqn:Ek; simpl in Hk.
    destruct (poll_sees answer) eqn:Es.
    + exists (S k). split; [lia|]. right.
      replace (S k - 1)%nat with k by lia. rewrite Ek. split_and!; [done|lia|done|lia].
    + destruct (IH (S k) (elapsed + took + POLL_INTERVAL)) as (n & Hn & Hc);
        [unfold POLL_INTERVAL; lia|].
      exists n. split; [lia|].
      assert (forall m, (forall j, (S k <= j < m)%nat -> poll_sees (poll j).1 = false) ->
                        forall j, (k <= j < m)%nat -> poll_sees (poll j).1 = false) as Hall.
      { intros m Hm j Hj. destruct (decide (j = k)) as [->|]; [by rewrite Ek|].
        apply Hm. lia. }
      destruct Hc as [[-> Hc]|(-> & Hlt & Hs & Hc)]; [left|right]; split_and!; try done; try lia;
        by apply Hall.
Qed.

(** The inclusion wait is bounded.  Whatever the ledger answers, at most twenty-five
    polls are made; the wait reports inclusion exactly at the first poll that sees the
    transaction, and otherwise gives up. *)
Theorem wait_bounded poll :
  (forall j, 0 <= (poll j).2) ->
  exists n, (n <= 25)%nat /\
    (wait_for_inclusion 25 poll 0 0 = Some (TimedOut n) /\
       (forall j, (j < n)%nat -> poll_sees (poll j).1 = false) \/
     wait_for_inclusion 25 poll 0 0 = Some (Included n) /\
       poll_sees (poll (n - 1)%nat).1 = true /\ (forall j, (j < n - 1)%nat -> poll_sees (poll j).1 = false)).
Proof.
  intros Hp. destruct (wait_finishes poll 25 0 0 Hp) as (n & Hn & Hc); [done|].
  exists n. split; [done|].
  destruct Hc as [[-> Hc]|(-> & Hlt & Hs & Hc)]; [left|right]; split_and!; auto with lia.
Qed.

Lemma trim_v1 s : trim_end_slashes (s ++ "/v1") = (s ++ "/v1")%string.
Proof.
  unfold trim_end_slashes. rewrite list_ascii_app, rev_app_distr. simpl.
  rewrite rev_involutive. simpl.
  rewrite <- (string_of_list_ascii_of_string (s ++ "/v1")), list_ascii_app.
  f_equal. by rewrite <- !app_assoc.
Qed.

Lemma ends_with_v1 s : ends_with "/v1" (s ++ "/v1") = true.
Proof.
  unfold ends_with. apply bool_decide_eq_true. rewrite list_ascii_app. by eexists.
Qed.

(** The URL the signer submits to always ends in [/v1], keeps a configured prefix
    (with or without [/v1] and trailing slashes) and is a fixed point of the
    normalisation. *)
Lemma chain_rpc_normal u :
  (exists base, chain_rpc_with_v1 u = (base ++ "/v1")%string /\
     (chain_rpc_with_v1 u = trim_end_slashes u \/ base = trim_end_slashes u)) /\
  chain_rpc_with_v1 (chain_rpc_with_v1 u) = chain_rpc_with_v1 u.
Proof.
  assert (exists base, chain_rpc_with_v1 u = (base ++ "/v1")%string /\
     (chain_rpc_with_v1 u = trim_end_slashes u \/ base = trim_end_slashes u))
    as (base & Hb & Hc).
  { unfold chain_rpc_with_v1. destruct (ends_with "/v1" (trim_end_slashes u)) eqn:He.
    - unfold ends_with in He. apply bool_decide_eq_true in He. destruct He as [l Hl].
      exists (string_of_list_ascii l). split; [|by left].
      rewrite <- (string_of_list_ascii_of_string (trim_end_slashes u)), Hl.
      rewrite <- (string_of_list_ascii_of_string (string_of_list_ascii l ++ "/v1")).
      by rewrite list_ascii_app, list_ascii_of_string_of_list_ascii.
    - exists (trim_end_slashes u). split; [done|by right]. }
  split; [by exists base|]. rewrite Hb. unfold chain_rpc_with_v1.
  by rewrite trim_v1, ends_with_v1.
Qed.

(** ** At concrete inputs *)

Section DripWitnesses.
Definition sample_sdk : ChainSdk := {|
  Address := string;
  parse_address s := if String.prefix "lig1" s then Ok s else Err "bad prefix";
  sign_transfer to amount n := Ok [n];
  submit_raw_tx bytes t := Ok "0x01"
|}.
#[local] Existing Instance sample_sdk.

Definition sample_faucet : Faucet :=
  {| limiter := new_limiter 10; nonce_counter := 7; drip_amount := 1000 |}.

Lemma limiter_boundary_witness :
  check (record (new_limiter 10) "lig1a" 5) "lig1a" 15 = Allowed /\
  forall r, check (record (new_limiter 10) "lig1a" 5) "lig1a" 14 = Blocked r -> 14 + r = 15.
Proof.
  split.
  - destruct (limiter_boundary (new_limiter 10) "lig1a" 5 15) as (Ha & _);
      [simpl; lia|lia|]. apply Ha. simpl. lia.
  - intros r Hr.
    destruct (limiter_boundary (new_limiter 10) "lig1a" 5 14) as (_ & Hb & _);
      [simpl; lia|lia|].
    apply Hb in Hr. simpl in Hr. lia.
Defined.

Lemma sequential_cooldown_witness :
  ForallOrdPairs (fun g g' => g.1.1 = g'.1.1 -> 10 <= g'.1.2 - g.2)
    (grants sample_faucet
       [{| q_address := "lig1a"; q_t0 := 1; q_t1 := 2; q_t2 := 3 |};
        {| q_address := "lig1a"; q_t0 := 12; q_t1 := 12; q_t2 := 12 |};
        {| q_address := "lig1a"; q_t0 := 13; q_t1 := 14; q_t2 := 15 |}]).
Proof.
  apply (sequential_cooldown sample_faucet _ 0); [reflexivity|simpl; lia].
Defined.

Lemma wait_bounded_witness :
  exists n, wait_for_inclusion 25 (fun k => (Ok (if (k <? 3)%nat then " " else "{}"), 1)) 0 0
    = Some (Included n) \/
    wait_for_inclusion 25 (fun k => (Ok (if (k <? 3)%nat then " " else "{}"), 1)) 0 0
    = Some (TimedOut n).
Proof.
  destruct (wait_bounded (fun k => (Ok (if (k <? 3)%nat then " " else "{}"), 1)))
    as (n & _ & [[Hn _]|[Hn _]]).
  - intros j. simpl. lia.
  - exists n. by right.
  - exists n. by left.
Defined.
End DripWitnesses.
