(* ===== verification/BotDrip.v ===== *)
(** * The Discord faucet ([crates/api/src/bot_drip.rs])

    The whole [POST /v1/drip-bot] handler: header authentication, tier amounts, the two
    cooldown queries on the [bot_drips] table, the signer shared with the web faucet, and
    the best-effort insert.  Other requests may change the table and the nonce before each
    effect; statements may fail.  Times are microseconds, as [TIMESTAMPTZ] keeps them. *)

From S2P Require Import Prelude Io Config Drip DripSpec.
Open Scope string_scope.
Open Scope list_scope.
Open Scope Z_scope.

Inductive Tier := Newcomer | Regular | Veteran | Elder.

Definition as_str (t : Tier) : string :=
  match t with
  | Newcomer => "newcomer"
  | Regular => "regular"
  | Veteran => "veteran"
  | Elder => "elder"
  end.

Record TierEvidence := { joined_at : option Z; account_created_at : option Z }.

Record DripBotRequest := {
  req_address : string;
  req_discord_user_id : string;
  req_tier : Tier;
  req_amount_nano : Z;
  req_tier_evidence : option TierEvidence
}.

Record DripBotResponse := {
  resp_address : string;
  resp_discord_user_id : string;
  resp_tx_hash : string;
  resp_amount_nano : Z;
  resp_tier : Tier;
  resp_next_drip_available_at : Z
}.

Record BotErrorResponse := { bot_status : Z; bot_error : string; bot_retry_after : option Z }.

(** A row of [bot_drips]. *)
Record BotDripRow := {
  bd_address : string;
  bd_discord_user_id : string;
  bd_amount_nano : Z;
  bd_tx_hash : string;
  bd_tier : string;
  bd_server_tenure_days : option Z;
  bd_account_age_days : option Z;
  bd_dripped_at : Z
}.

(** The table, oldest row first, and the signer's nonce counter. *)
Record BotState := { bot_drips : list BotDripRow; bot_nonce : Z }.

(** The environment of one request: the clocks of the database and of the process, the
    faults and what other requests do, per effect. *)
Record BotEnv := {
  be_db_now : nat -> Z;
  be_utc_now : nat -> Z;
  be_fault : nat -> Fault;
  be_other : nat -> BotState -> BotState
}.

(** Postgres' [make_interval(secs => ..)] on a [u64 as f64], in microseconds, and chrono's
    [now + Duration::seconds(..)]: [None] is an error of the statement, and a panic. *)
Class BotTime := {
  make_interval : Z -> option Z;
  utc_add_seconds : Z -> Z -> option Z
}.

(** [constant_time_eq] on byte slices. *)
Definition constant_time_eq (a b : list Z) : bool :=
  if negb (length a =? length b)%nat then false
  else fold_left (fun diff xy => Z.lor diff (Z.lxor xy.1 xy.2)) (zip a b) 0 =? 0.

(** The amount configured for a tier. *)
Definition tier_to_amount (c : Config) (t : Tier) : Z :=
  match t with
  | Newcomer => c.(bot_drip_amount_newcomer)
  | Regular => c.(bot_drip_amount_regular)
  | Veteran => c.(bot_drip_amount_veteran)
  | Elder => c.(bot_drip_amount_elder)
  end.

(** The column of a cooldown query; only two are known. *)
Definition cooldown_column (column : string) : option (BotDripRow -> string) :=
  if (column =? "address")%string then Some bd_address
  else if (column =? "discord_user_id")%string then Some bd_discord_user_id
  else None.

Definition max_opt (a b : option Z) : option Z :=
  match a, b with
  | Some x, Some y => Some (Z.max x y)
  | Some x, None => Some x
  | None, _ => b
  end.

(** [ORDER BY dripped_at DESC LIMIT 1]. *)
Definition latest (l : list Z) : option Z := foldr (fun x acc => max_opt (Some x) acc) None l.

(** [TimeDelta::num_seconds] and [num_days] truncate towards zero. *)
Definition num_seconds (d : Z) : Z := Z.quot d 1000000.
Definition num_days (d : Z) : Z := Z.quot d 86400000000.

Definition bot_err (status : Z) (error : string) (retry : option Z) : BotErrorResponse :=
  {| bot_status := status; bot_error := error; bot_retry_after := retry |}.

Section Bot.
Context `{ChainSdk} `{BotTime}.

Definition last_drip_within_window (rows : list BotDripRow) (column value : string)
    (window_secs now : Z) (fault : Fault) : result string (option Z) :=
  match cooldown_column column with
  | None => Ok None
  | Some col =>
      match fault, make_interval window_secs with
      | NoFault, Some w =>
          Ok (latest (bd_dripped_at <$>
                filter (fun r => col r = value /\ now - w < bd_dripped_at r) rows))
      | _, _ => Err "cooldown query failed"
      end
  end.

(** The loop over the two counters, from effect [k] on: the first refusal. *)
Fixpoint cooldown_checks (cfg : Config) (env : BotEnv) (k : nat)
    (checks : list (string * string * string)) (st : BotState)
  : option BotErrorResponse * BotState :=
  match checks with
  | [] => (None, st)
  | (col, val, label) :: rest =>
      let st := env.(be_other) k st in
      match last_drip_within_window st.(bot_drips) col val cfg.(bot_drip_rate_limit_secs)
              (env.(be_db_now) k) (env.(be_fault) k) with
      | Ok (Some last) =>
          let elapsed := as_u64 (Z.max (num_seconds (env.(be_utc_now) k - last)) 0) in
          let retry_after := saturating_sub cfg.(bot_drip_rate_limit_secs) elapsed in
          (Some (bot_err 429 (label ++ " rate-limited; retry in " ++ to_string retry_after
                              ++ " seconds")%string (Some (as_i64 retry_after))), st)
      | Ok None => cooldown_checks cfg env (S k) rest st
      | Err _ => (Some (bot_err 500 "internal error during cooldown check" None), st)
      end
  end.

Definition tenure (now : Z) (t : option Z) : option Z :=
  (fun t => as_i32 (num_days (now - t))) <$> t.

(** The row the handler inserts at database time [now]. *)
Definition drip_row (req : DripBotRequest) (receipt : DripReceipt) (utc_now now : Z)
  : BotDripRow :=
  {| bd_address := req.(req_address); bd_discord_user_id := req.(req_discord_user_id);
     bd_amount_nano := req.(req_amount_nano); bd_tx_hash := receipt.(r_tx_hash);
     bd_tier := as_str req.(req_tier);
     bd_server_tenure_days := tenure utc_now (req.(req_tier_evidence) ≫= joined_at);
     bd_account_age_days := tenure utc_now (req.(req_tier_evidence) ≫= account_created_at);
     bd_dripped_at := now |}.

(** [INSERT INTO bot_drips]: whether it errs is only logged. *)
Definition insert_drip (row : BotDripRow) (fault : Fault) (st : BotState) : BotState :=
  match fault with
  | Io.Refused => st
  | _ => {| bot_drips := st.(bot_drips) ++ [row]; bot_nonce := st.(bot_nonce) |}
  end.

(** Authentication and amount, before anything is asked of the database; [provided] is the
    readable [X-Bot-Secret] header. *)
Definition bot_guards (cfg : Config) (provided : option string) (req : DripBotRequest)
  : option BotErrorResponse :=
  match cfg.(faucet_bot_secret) with
  | None => Some (bot_err 503 "bot endpoint disabled (FAUCET_BOT_SECRET unset)" None)
  | Some configured =>
      if negb (constant_time_eq (bytes_of (default "" provided)) (bytes_of configured))
      then Some (bot_err 401 "unauthorized" None)
      else
      let expected := tier_to_amount cfg req.(req_tier) in
      if negb (req.(req_amount_nano) =? expected)
      then Some (bot_err 400 ("amount " ++ to_string req.(req_amount_nano)
             ++ " doesn't match tier '" ++ as_str req.(req_tier)
             ++ "' configured amount " ++ to_string expected)%string None)
      else None
  end.

Definition bot_refuse (e : SignerError) : BotErrorResponse :=
  bot_err (signer_refusal e).1 (signer_refusal e).2 None.

(** The reply to an accepted drip at process time [utc_now]. *)
Definition bot_reply (cfg : Config) (req : DripBotRequest) (receipt : DripReceipt)
    (utc_now : Z) : outcome (result BotErrorResponse DripBotResponse) :=
  match utc_add_seconds utc_now (as_i64 cfg.(bot_drip_rate_limit_secs)) with
  | None => Panicked
  | Some next_at =>
      Done (Ok {|
        resp_address := req.(req_address);
        resp_discord_user_id := req.(req_discord_user_id);
        resp_tx_hash := receipt.(r_tx_hash);
        resp_amount_nano := receipt.(r_amount_nano);
        resp_tier := req.(req_tier);
        resp_next_drip_available_at := next_at |})
  end.

(** The whole handler. *)
Definition drip_bot (cfg : Config) (env : BotEnv) (provided : option string)
    (req : DripBotRequest) (st : BotState)
  : outcome (result BotErrorResponse DripBotResponse) * BotState :=
  match bot_guards cfg provided req with
  | Some e => (Done (Err e), st)
  | None =>
      match cooldown_checks cfg env 0
              [("address", req.(req_address), "address");
               ("discord_user_id", req.(req_discord_user_id), "Discord user")] st with
      | (Some e, st) => (Done (Err e), st)
      | (None, st) =>
          let st := env.(be_other) 2%nat st in
          let '(r, nonce') :=
            signer_drip req.(req_address) req.(req_amount_nano) st.(bot_nonce)
              (env.(be_utc_now) 2%nat) in
          let st := {| bot_drips := st.(bot_drips); bot_nonce := nonce' |} in
          match r with
          | Err e => (Done (Err (bot_refuse e)), st)
          | Ok receipt =>
              let st := env.(be_other) 3%nat st in
              let row := drip_row req receipt (env.(be_utc_now) 3%nat)
                           (env.(be_db_now) 3%nat) in
              let st := insert_drip row (env.(be_fault) 3%nat) st in
              (bot_reply cfg req receipt (env.(be_utc_now) 4%nat), st)
          end
      end
  end.
End Bot.

(** ** The comparison *)

Lemma fold_diff_zero l acc :
  0 <= acc -> Forall (fun xy => 0 <= xy.1 /\ 0 <= xy.2) l ->
  fold_left (fun diff (xy : Z * Z) => Z.lor diff (Z.lxor xy.1 xy.2)) l acc = 0 <->
  acc = 0 /\ Forall (fun xy => xy.1 = xy.2) l.
Proof.
  revert acc. induction l as [|[x y] l IH]; intros acc Ha Hl; simpl.
  - by split; [intros ->|intros [-> _]].
  - apply Forall_cons in Hl as [[Hx Hy] Hl]. simpl in *.
    assert (0 <= Z.lxor x y) as Hxy by (apply Z.lxor_nonneg; tauto).
    rewrite IH, Forall_cons by (done || by apply Z.lor_nonneg). simpl.
    rewrite Z.lor_eq_0_iff, Z.lxor_eq_0_iff. tauto.
Qed.

Lemma constant_time_eq_bytes a b :
  Forall byte_ok a -> Forall byte_ok b -> constant_time_eq a b = true <-> a = b.
Proof.
  intros Ha Hb. unfold constant_time_eq.
  destruct (Nat.eqb_spec (length a) (length b)) as [Hl|Hl]; simpl;
    [|split; [done|by intros ->]].
  assert (Forall (fun xy => 0 <= xy.1 /\ 0 <= xy.2) (zip a b)) as Hz.
  { clear Hl. revert b Hb. induction Ha as [|x a Hx Ha IH]; intros [|y b] Hb; simpl; auto.
    inversion_clear Hb. constructor; [|auto]. unfold byte_ok in *. simpl. lia. }
  rewrite Z.eqb_eq, fold_diff_zero by done.
  assert (Forall (fun xy => xy.1 = xy.2) (zip a b) <-> a = b) as ->; [|tauto].
  clear Ha Hb Hz. revert b Hl. induction a as [|x a IH]; intros [|y b] Hl; simpl in *; try done.
  rewrite Forall_cons, (IH b) by lia. simpl. split; [by intros [-> ->]|by intros [= -> ->]].
Qed.

(** The comparison of the secrets, an or of exclusive ors over every byte without an early
    exit, is equality of the texts. *)
Lemma constant_time_eq_text s t :
  constant_time_eq (bytes_of s) (bytes_of t) = true <-> s = t.
Proof.
  rewrite constant_time_eq_bytes by apply bytes_of_ok. apply bytes_of_inj.
Qed.

(** ** Who gets a drip *)

Lemma latest_spec l :
  match latest l with
  | None => l = []
  | Some x => x ∈ l /\ Forall (fun y => y <= x) l
  end.
Proof.
  induction l as [|y l IH]; simpl; [done|].
  destruct (latest l) as [x|]; simpl.
  - destruct IH as [Hx Hl]. split.
    + destruct (Z.max_spec y x) as [[_ ->]|[_ ->]]; [by right|left].
    + constructor; [lia|]. eapply Forall_impl; [done|]. intros z Hz. simpl in *. lia.
  - subst. split; [left|]. constructor; [lia|constructor].
Qed.

(** No row of the column is younger than the window. *)
Definition clear (rows : list BotDripRow) (col : BotDripRow -> string) (value : string)
    (w now : Z) : Prop :=
  forall r, r ∈ rows -> col r = value -> bd_dripped_at r + w <= now.

Section BotSpec.
Context `{ChainSdk} `{BotTime}.

Lemma query_cases rows column col value window now fault :
  cooldown_column column = Some col ->
  match last_drip_within_window rows column value window now fault with
  | Err _ => fault <> NoFault \/ make_interval window = None
  | Ok None => fault = NoFault /\
      exists w, make_interval window = Some w /\ clear rows col value w now
  | Ok (Some last) => fault = NoFault /\
      exists w r, make_interval window = Some w /\ r ∈ rows /\ col r = value /\
        bd_dripped_at r = last /\ now < last + w /\
        forall r', r' ∈ rows -> col r' = value -> bd_dripped_at r' <= last \/
          bd_dripped_at r' + w <= now
  end.
Proof.
  intros Hc. unfold last_drip_within_window. rewrite Hc.
  destruct fault; try (by left). destruct (make_interval window) as [w|]; [|by right].
  match goal with |- context [latest ?l] => pose proof (latest_spec l) as Hl end.
  destruct (latest _) as [last|].
  - destruct Hl as [Hin Hmax]. split; [done|]. exists w.
    apply list_elem_of_fmap in Hin as (r & -> & Hr). apply list_elem_of_filter in Hr as [[]].
    exists r. split_and!; try done; [lia|].
    intros r' Hr' Hv. destruct (decide (now - w < bd_dripped_at r')); [left|right; lia].
    eapply (proj1 (Forall_forall _ _) Hmax). apply list_elem_of_fmap_2.
    by apply list_elem_of_filter.
  - split; [done|]. exists w. split; [done|]. intros r Hr Hv.
    destruct (decide (now - w < bd_dripped_at r)) as [Hlt|]; [exfalso|lia].
    apply fmap_nil_inv in Hl.
    assert (r ∈ filter (fun r => col r = value /\ now - w < bd_dripped_at r) rows) as Hf
      by by apply list_elem_of_filter.
    rewrite Hl in Hf. by apply not_elem_of_nil in Hf.
Qed.

(** The tables the two queries and the signer run on. *)
Definition seen0 (env : BotEnv) (st : BotState) : BotState := be_other env 0 st.
Definition seen1 (env : BotEnv) (st : BotState) : BotState := be_other env 1 (seen0 env st).
Definition seen2 (env : BotEnv) (st : BotState) : BotState := be_other env 2 (seen1 env st).

Definition both_checks (req : DripBotRequest) : list (string * string * string) :=
  [("address", req_address req, "address");
   ("discord_user_id", req_discord_user_id req, "Discord user")].

Lemma cooldown_checks_cases cfg env req st :
  match cooldown_checks cfg env 0 (both_checks req) st with
  | (None, st') => st' = seen1 env st /\
      exists w, make_interval (bot_drip_rate_limit_secs cfg) = Some w /\
        clear (bot_drips (seen0 env st)) bd_address (req_address req) w (be_db_now env 0) /\
        clear (bot_drips (seen1 env st)) bd_discord_user_id (req_discord_user_id req) w
          (be_db_now env 1)
  | (Some e, st') => (st' = seen0 env st \/ st' = seen1 env st) /\
      (bot_status e = 500 /\ bot_retry_after e = None \/ bot_status e = 429)
  end.
Proof.
  unfold both_checks, cooldown_checks, seen1, seen0.
  pose proof (query_cases (bot_drips (be_other env 0 st)) "address" bd_address
    (req_address req) (bot_drip_rate_limit_secs cfg) (be_db_now env 0) (be_fault env 0)
    eq_refl) as H1.
  destruct (last_drip_within_window _ _ _ _ _ _) as [[last|]|e]; simpl; [by eauto| |by eauto].
  destruct H1 as (_ & w & Hw & Hclear).
  match goal with |- context [last_drip_within_window ?rows ?c ?v ?W ?n ?f] =>
    pose proof (query_cases rows c bd_discord_user_id v W n f eq_refl) as H2;
    destruct (last_drip_within_window rows c v W n f) as [[last|]|e]; simpl;
      [by eauto| |by eauto]
  end.
  destruct H2 as (_ & w' & Hw' & Hclear'). split; [done|]. exists w.
  assert (w' = w) as -> by congruence. by split_and!.
Qed.

#[local] Arguments cooldown_checks : simpl never.

(** What the guards let through, and the status of what they refuse. *)
Lemma bot_guards_cases cfg provided req :
  match bot_guards cfg provided req with
  | None => faucet_bot_secret cfg = Some (default "" provided) /\
      req_amount_nano req = tier_to_amount cfg (req_tier req)
  | Some e =>
      faucet_bot_secret cfg = None /\ bot_status e = 503 \/
      exists secret, faucet_bot_secret cfg = Some secret /\
       (default "" provided <> secret /\ bot_status e = 401 \/
        default "" provided = secret /\
          req_amount_nano req <> tier_to_amount cfg (req_tier req) /\ bot_status e = 400)
  end.
Proof.
  unfold bot_guards. destruct (faucet_bot_secret cfg) as [secret|]; [|by left].
  destruct (constant_time_eq _ _) eqn:Eauth; simpl.
  2: { right. exists secret. split; [done|]. left. split; [|done]. intros Heq.
       by rewrite (proj2 (constant_time_eq_text _ _) Heq) in Eauth. }
  apply constant_time_eq_text in Eauth.
  destruct (Z.eqb_spec (req_amount_nano req) (tier_to_amount cfg (req_tier req)));
    simpl; [by rewrite Eauth|right; eauto 8].
Qed.

(** Whatever else is going on, a submission happens only behind every guard. *)
Lemma drip_bot_cases cfg env provided req st :
  let '(o, st') := drip_bot cfg env provided req st in
  (exists e, o = Done (Err e) /\
     (faucet_bot_secret cfg = None /\ bot_status e = 503 /\ st' = st \/
      exists secret, faucet_bot_secret cfg = Some secret /\
       (default "" provided <> secret /\ bot_status e = 401 /\ st' = st \/
        default "" provided = secret /\
         (req_amount_nano req <> tier_to_amount cfg (req_tier req) /\
            bot_status e = 400 /\ st' = st \/
          req_amount_nano req = tier_to_amount cfg (req_tier req) /\
           (fst (cooldown_checks cfg env 0 (both_checks req) st) = Some e /\
              st' = snd (cooldown_checks cfg env 0 (both_checks req) st) \/
            fst (cooldown_checks cfg env 0 (both_checks req) st) = None /\
              exists err, signer_drip (req_address req) (req_amount_nano req)
                (bot_nonce (seen2 env st)) (be_utc_now env 2) = (Err err, bot_nonce st') /\
                bot_status e = (signer_refusal err).1 /\
                bot_drips st' = bot_drips (seen2 env st)))))) \/
  (exists secret receipt nonce',
     (o = Panicked \/ exists resp, o = Done (Ok resp) /\ resp_address resp = req_address req /\
        resp_tx_hash resp = r_tx_hash receipt /\ resp_amount_nano resp = req_amount_nano req) /\
     faucet_bot_secret cfg = Some secret /\ default "" provided = secret /\
     req_amount_nano req = tier_to_amount cfg (req_tier req) /\
     fst (cooldown_checks cfg env 0 (both_checks req) st) = None /\
     signer_drip (req_address req) (req_amount_nano req) (bot_nonce (seen2 env st))
       (be_utc_now env 2) = (Ok receipt, nonce') /\
     st' = insert_drip (drip_row req receipt (be_utc_now env 3) (be_db_now env 3))
             (be_fault env 3)
             (be_other env 3 {| bot_drips := bot_drips (seen2 env st);
                                bot_nonce := nonce' |})).
Proof.
  unfold drip_bot. fold (both_checks req).
  pose proof (bot_guards_cases cfg provided req) as Hg. destruct (bot_guards _ _ _) as [e|].
  { left. exists e. split; [done|].
    destruct Hg as [[? ?]|(secret & ? & [[? ?]|(? & ? & ?)])]; eauto 12. }
  destruct Hg as [Hsecret Ea].
  pose proof (cooldown_checks_cases cfg env req st) as Hc.
  destruct (cooldown_checks cfg env 0 (both_checks req) st) as [[e|] stc] eqn:Ec;
    [left; eexists; split; [done|]; eauto 12|]. destruct Hc as [-> _].
  fold (seen2 env st).
  destruct (signer_drip _ _ _ _) as [[receipt|err] nonce'] eqn:Es.
  - assert (r_amount_nano receipt = req_amount_nano req) as Hr.
    { unfold signer_drip, submit in Es. repeat case_match; try done. by simplify_eq. }
    right. exists (default "" provided), receipt, nonce'.
    unfold bot_reply. destruct (utc_add_seconds _ _); split_and!; eauto 7.
  - left. eexists. split; [done|]. right. eexists. split; [done|]. right.
    split; [done|]. right. split; [done|]. right. split; [done|].
    exists err. split_and!; done.
Qed.

(** The guards announce no wait. *)
Lemma bot_guards_refuse cfg provided req e :
  bot_guards cfg provided req = Some e -> bot_retry_after e = None.
Proof.
  unfold bot_guards. intros He. repeat case_match; simplify_eq; done.
Qed.

Definition granted (o : outcome (result BotErrorResponse DripBotResponse)) : bool :=
  match o with Done (Err _) => false | _ => true end.

(** C9: only the bot is served, with the configured amount, and never inside a window.
    With a configuration read by [from_env], a request that reaches the chain carried
    the non-empty secret of the environment and asked exactly for the amount of its
    tier; at the two queries no row of the address, nor of the user, was younger than
    the window; the amount sent is that amount, and the table gains at most the one row
    of this drip, whatever other requests and the database do meanwhile. *)
Theorem bot_drip_guarded `{X : Hex} `{XL : !HexLaws X} vars cfg env provided req st o st' :
  from_env vars = Done (Ok cfg) ->
  drip_bot cfg env provided req st = (o, st') -> granted o = true ->
  exists secret w receipt nonce',
    vars "FAUCET_BOT_SECRET" = Some secret /\ secret <> "" /\ provided = Some secret /\
    req_amount_nano req = tier_to_amount cfg (req_tier req) /\
    make_interval (bot_drip_rate_limit_secs cfg) = Some w /\
    clear (bot_drips (seen0 env st)) bd_address (req_address req) w (be_db_now env 0) /\
    clear (bot_drips (seen1 env st)) bd_discord_user_id (req_discord_user_id req) w
      (be_db_now env 1) /\
    signer_drip (req_address req) (tier_to_amount cfg (req_tier req))
      (bot_nonce (seen2 env st)) (be_utc_now env 2) = (Ok receipt, nonce') /\
    st' = insert_drip (drip_row req receipt (be_utc_now env 3) (be_db_now env 3))
            (be_fault env 3)
            (be_other env 3 {| bot_drips := bot_drips (seen2 env st);
                               bot_nonce := nonce' |}).
Proof.
  intros Hcfg Hrun Hgr. pose proof (drip_bot_cases cfg env provided req st) as Hc.
  rewrite Hrun in Hc. destruct Hc as [(e & -> & _)|Hc]; [done|].
  destruct Hc as (secret & receipt & nonce' & _ & Hs & Hp & Ha & Hcool & Hsign & Hst).
  pose proof (cooldown_checks_cases cfg env req st) as Hcl.
  destruct (cooldown_checks cfg env 0 (both_checks req) st) as [[e|] stc]; [done|].
  destruct Hcl as (_ & w & Hw & Hc1 & Hc2).
  apply from_env_sound in Hcfg. destruct (proj1 (c_secret _ _ Hcfg secret) Hs) as [Hv Hne].
  exists secret, w, receipt, nonce'. rewrite <- Ha. split_and!; try done.
  destruct provided as [p|]; simpl in Hp; congruence.
Qed.

(** No other request runs meanwhile. *)
Definition alone (env : BotEnv) : Prop := forall k st, be_other env k st = st.

Lemma refused_rows cfg env provided req st e st' :
  alone env -> drip_bot cfg env provided req st = (Done (Err e), st') ->
  bot_drips st' = bot_drips st.
Proof.
  intros Hal Hrun. pose proof (drip_bot_cases cfg env provided req st) as Hc.
  pose proof (cooldown_checks_cases cfg env req st) as Hcl.
  rewrite Hrun in Hc. unfold seen2, seen1, seen0 in *. rewrite !Hal in *.
  assert ((cooldown_checks cfg env 0 (both_checks req) st).2 = st) as Hst.
  { by destruct (cooldown_checks _ _ _ _ _) as [[] stc]; [destruct Hcl as [[] _]|destruct Hcl]. }
  rewrite Hst in Hc.
  destruct Hc as [(e' & _ & [(_ & _ & ->)|(secret & _ & [(_ & _ & ->)|(_ & Hc)])])|
    (? & ? & ? & [|(? & ? & _)] & _)]; try done.
  by destruct Hc as [(_ & _ & ->)|(_ & [(_ & ->)|(_ & err & _ & _ & ->)])].
Qed.

(** *** The guards in their order *)

Inductive Guard :=
| SecretSet | SecretRight | AmountRight | AddressRead | AddressFree | UserRead | UserFree | Signed.

Definition guard_order : list Guard :=
  [SecretSet; SecretRight; AmountRight; AddressRead; AddressFree; UserRead; UserFree; Signed].

Section Guards.
Context (cfg : Config) (env : BotEnv) (provided : option string) (req : DripBotRequest)
  (st : BotState).

Definition cooldown_read (k : nat) : Prop :=
  be_fault env k = NoFault /\ is_Some (make_interval (bot_drip_rate_limit_secs cfg)).
Definition cooldown_over (k : nat) (col : BotDripRow -> string) (value : string) : Prop :=
  forall w, make_interval (bot_drip_rate_limit_secs cfg) = Some w ->
    clear (bot_drips st) col value w (be_db_now env k).

Definition guard_passes (g : Guard) : Prop :=
  match g with
  | SecretSet => is_Some (faucet_bot_secret cfg)
  | SecretRight => faucet_bot_secret cfg = Some (default "" provided)
  | AmountRight => req_amount_nano req = tier_to_amount cfg (req_tier req)
  | AddressRead => cooldown_read 0
  | AddressFree => cooldown_over 0 bd_address (req_address req)
  | UserRead => cooldown_read 1
  | UserFree => cooldown_over 1 bd_discord_user_id (req_discord_user_id req)
  | Signed => exists receipt n,
      signer_drip (req_address req) (req_amount_nano req) (bot_nonce st) (be_utc_now env 2) =
        (Ok receipt, n)
  end.

(** 429 with the seconds left of the window that the latest row of the party opened. *)
Definition cooldown_refusal (k : nat) (col : BotDripRow -> string) (value label : string)
    (e : BotErrorResponse) : Prop :=
  exists r, r ∈ bot_drips st /\ col r = value /\
    (forall r', r' ∈ bot_drips st -> col r' = value -> bd_dripped_at r' <= bd_dripped_at r) /\
    let passed := as_u64 (Z.max (num_seconds (be_utc_now env k - bd_dripped_at r)) 0) in
    let left := saturating_sub (bot_drip_rate_limit_secs cfg) passed in
    e = bot_err 429 (label ++ " rate-limited; retry in " ++ to_string left ++ " seconds")%string
          (Some (as_i64 left)).

(** What a failed guard answers: status, text and wait. *)
Definition refused_by (g : Guard) (e : BotErrorResponse) : Prop :=
  match g with
  | SecretSet => e = bot_err 503 "bot endpoint disabled (FAUCET_BOT_SECRET unset)" None
  | SecretRight => e = bot_err 401 "unauthorized" None
  | AmountRight => e = bot_err 400 ("amount " ++ to_string (req_amount_nano req)
      ++ " doesn't match tier '" ++ as_str (req_tier req) ++ "' configured amount "
      ++ to_string (tier_to_amount cfg (req_tier req)))%string None
  | AddressRead | UserRead => e = bot_err 500 "internal error during cooldown check" None
  | AddressFree => cooldown_refusal 0 bd_address (req_address req) "address" e
  | UserFree => cooldown_refusal 1 bd_discord_user_id (req_discord_user_id req) "Discord user" e
  | Signed => exists err n,
      signer_drip (req_address req) (req_amount_nano req) (bot_nonce st) (be_utc_now env 2) =
        (Err err, n) /\ e = bot_refuse err
  end.

(** The first failed guard and what it answered. *)
Definition first_failed (i : nat) (g : Guard) (e : BotErrorResponse) : Prop :=
  guard_order !! i = Some g /\ Forall guard_passes (take i guard_order) /\ ~ guard_passes g /\ refused_by g e.

Lemma guards_first_failed e :
  bot_guards cfg provided req = Some e -> exists i g, (i < 3)%nat /\ first_failed i g e.
Proof.
  unfold bot_guards, first_failed. destruct (faucet_bot_secret cfg) as [secret|] eqn:Es.
  - destruct (constant_time_eq _ _) eqn:Eauth; simpl.
    + apply constant_time_eq_text in Eauth.
      destruct (Z.eqb_spec (req_amount_nano req) (tier_to_amount cfg (req_tier req)));
        simpl; [done|]. intros [= <-]. exists 2%nat, AmountRight. split; [lia|]. split_and!; try done.
      repeat constructor; simpl; by rewrite Es, ?Eauth.
    + intros [= <-]. exists 1%nat, SecretRight. split; [lia|]. split_and!; try done; simpl.
      * repeat constructor. simpl. by rewrite Es.
      * rewrite Es. intros [= ->]. by rewrite (proj2 (constant_time_eq_text _ _) eq_refl) in Eauth.
  - intros [= <-]. exists 0%nat, SecretSet. split; [lia|]. split_and!; try done.
    simpl. rewrite Es. by intros [].
Qed.

(** A counter's query, read as its two guards. *)
Lemma query_guards k column col value :
  cooldown_column column = Some col ->
  match last_drip_within_window (bot_drips st) column value (bot_drip_rate_limit_secs cfg)
          (be_db_now env k) (be_fault env k) with
  | Err _ => ~ cooldown_read k
  | Ok None => cooldown_read k /\ cooldown_over k col value
  | Ok (Some last) => cooldown_read k /\ ~ cooldown_over k col value /\
      exists r, r ∈ bot_drips st /\ col r = value /\ bd_dripped_at r = last /\
        forall r', r' ∈ bot_drips st -> col r' = value -> bd_dripped_at r' <= last
  end.
Proof.
  intros Hc. unfold cooldown_read, cooldown_over.
  pose proof (query_cases (bot_drips st) column col value (bot_drip_rate_limit_secs cfg)
    (be_db_now env k) (be_fault env k) Hc) as Hq.
  destruct (last_drip_within_window _ _ _ _ _ _) as [[last|]|x].
  - destruct Hq as (Hf & w & r & Hw & Hr & Hv & Hl & Hnow & Hmax). rewrite Hw.
    split; [by split|]. split.
    + intros Hfree. specialize (Hfree w eq_refl r Hr Hv). lia.
    + exists r. split_and!; try done. intros r' Hr' Hv'. destruct (Hmax r' Hr' Hv'); lia.
  - destruct Hq as (Hf & w & Hw & Hcl). rewrite Hw. split; [by split|]. by intros ? [= <-].
  - intros [Hf [w Hw]]. destruct Hq as [|Hn]; [done|congruence].
Qed.

Ltac passed_all := repeat (apply Forall_cons_2; [assumption|]); apply Forall_nil_2.

Lemma cooldowns_first_failed :
  bot_guards cfg provided req = None -> alone env ->
  match (cooldown_checks cfg env 0 (both_checks req) st).1 with
  | Some e => exists i g, (3 <= i < 7)%nat /\ first_failed i g e
  | None => Forall guard_passes (take 7 guard_order)
  end.
Proof.
  intros Hg Hal. pose proof (bot_guards_cases cfg provided req) as Hp. rewrite Hg in Hp.
  destruct Hp as [Hs Ha].
  assert (guard_passes SecretSet /\ guard_passes SecretRight /\ guard_passes AmountRight) as (Hp0 & Hp1 & Hp2)
    by (simpl; rewrite Hs; by split_and!).
  unfold both_checks, cooldown_checks. rewrite !Hal.
  pose proof (query_guards 0 "address" bd_address (req_address req) eq_refl) as H1.
  pose proof (query_guards 1 "discord_user_id" bd_discord_user_id (req_discord_user_id req)
    eq_refl) as H2. unfold first_failed.
  destruct (last_drip_within_window _ "address" _ _ _ _) as [[last|]|x]; simpl.
  - destruct H1 as (Hr & Hn & r & Hin & Hv & <- & Hmax). exists 4%nat, AddressFree. split; [lia|].
    split_and!; [done|passed_all|done|by exists r].
  - destruct H1 as [Hr1 Hf1].
    destruct (last_drip_within_window _ "discord_user_id" _ _ _ _) as [[last|]|x]; simpl.
    + destruct H2 as (Hr & Hn & r & Hin & Hv & <- & Hmax). exists 6%nat, UserFree. split; [lia|].
      split_and!; [done|passed_all|done|by exists r].
    + destruct H2 as [Hr2 Hf2]. passed_all.
    + exists 5%nat, UserRead. split; [lia|]. split_and!; [done|passed_all|done|done].
  - exists 3%nat, AddressRead. split; [lia|]. split_and!; [done|passed_all|done|done].
Qed.

(** The signer uses a nonce up only by submitting. *)
Lemma signer_nonce_used err n :
  signer_drip (req_address req) (req_amount_nano req) (bot_nonce st) (be_utc_now env 2) =
    (Err err, n) -> n <> bot_nonce st -> bot_status (bot_refuse err) = 502.
Proof.
  unfold signer_drip, prepare, submit. intros Hs Hn. repeat case_match; by simplify_eq.
Qed.

(** C40: the refusals.  A request refused while no other runs is answered by the first
    guard it fails, in the order: the secret is set (503), it is the caller's (401), the
    amount is the tier's (400), the address's cooldown can be read (500) and is over (429),
    the Discord user's can be read (500) and is over (429), the signer accepts (its own
    status); with exactly that guard's text, and for a cooldown the seconds left since the
    party's latest row.  The table stays as it was, and a nonce is used up only behind all
    the guards, by a submission that failed (502). *)
Theorem bot_refusal_codes e st' :
  alone env -> drip_bot cfg env provided req st = (Done (Err e), st') ->
  bot_drips st' = bot_drips st /\
  exists i g, first_failed i g e /\
    (bot_nonce st' <> bot_nonce st -> g = Signed /\ bot_status e = 502).
Proof.
  intros Hal Hrun. split; [by eapply refused_rows|]. revert Hrun.
  unfold drip_bot. fold (both_checks req).
  destruct (bot_guards cfg provided req) as [e0|] eqn:Hg.
  { intros [= <- <-]. destruct (guards_first_failed _ Hg) as (i & g & _ & Hf). by exists i, g. }
  pose proof (cooldowns_first_failed Hg Hal) as Hc.
  pose proof (cooldown_checks_cases cfg env req st) as Hst. unfold seen1, seen0 in Hst.
  rewrite !Hal in Hst.
  destruct (cooldown_checks cfg env 0 (both_checks req) st) as [[e0|] stc]; simpl in Hc.
  - intros [= <- <-]. destruct Hc as (i & g & _ & Hf). exists i, g. split; [done|].
    by destruct Hst as [[-> | ->] _].
  - destruct Hst as [-> _]. rewrite Hal. destruct (signer_drip _ _ _ _) as [[receipt|err] n] eqn:Es.
    { unfold bot_reply. by destruct (utc_add_seconds _ _). }
    intros [= <- <-]. exists 7%nat, Signed. split.
    + split_and!; [done|exact Hc| |by exists err, n].
      intros (receipt & n' & Hs). simpl in Hs. congruence.
    + intros Hn. split; [done|]. by eapply signer_nonce_used.
Qed.
End Guards.
End BotSpec.

(** ** The windows over time *)

Section BotCooldown.
Context `{ChainSdk} `{BotTime}.

(** The drips of a sequence of requests: the request, the time of its second query and
    the time of its row. *)
Fixpoint bot_grants (cfg : Config) (st : BotState)
    (l : list (BotEnv * option string * DripBotRequest))
  : list (DripBotRequest * Z * Z) :=
  match l with
  | [] => []
  | (env, provided, req) :: rest =>
      let '(o, st') := drip_bot cfg env provided req st in
      if granted o then (req, be_db_now env 1, be_db_now env 3) :: bot_grants cfg st' rest
      else bot_grants cfg st' rest
  end.

(** One at a time, the database's clock sound within a request, no insert lost. *)
Definition served_alone (q : BotEnv * option string * DripBotRequest) : Prop :=
  alone q.1.1 /\ be_db_now q.1.1 0 <= be_db_now q.1.1 1 /\ be_fault q.1.1 3 <> Io.Refused.

Definition same_party (q : DripBotRequest) (r : BotDripRow) : Prop :=
  bd_address r = req_address q \/ bd_discord_user_id r = req_discord_user_id q.

Lemma drip_bot_alone cfg env provided req st :
  served_alone (env, provided, req) ->
  let '(o, st') := drip_bot cfg env provided req st in
  if granted o then
    (exists w, make_interval (bot_drip_rate_limit_secs cfg) = Some w /\
       forall r, r ∈ bot_drips st -> same_party req r ->
         bd_dripped_at r + w <= be_db_now env 1) /\
    exists receipt, bot_drips st' = bot_drips st ++
      [drip_row req receipt (be_utc_now env 3) (be_db_now env 3)]
  else bot_drips st' = bot_drips st.
Proof.
  intros (Hal & Hnow & Hf). simpl in *.
  destruct (drip_bot cfg env provided req st) as [o st'] eqn:Hrun.
  destruct (granted o) eqn:Hg.
  - pose proof (drip_bot_cases cfg env provided req st) as Hc. rewrite Hrun in Hc.
    destruct Hc as [(e & -> & _)|(? & receipt & ? & _ & _ & _ & _ & Hcool & _ & ->)]; [done|].
    pose proof (cooldown_checks_cases cfg env req st) as Hcl.
    unfold seen2, seen1, seen0 in *. rewrite !Hal in *.
    destruct (cooldown_checks cfg env 0 (both_checks req) st) as [[]]; [done|].
    destruct Hcl as (_ & w & Hw & Hc1 & Hc2). split.
    + exists w. split; [done|]. intros r Hr [Ha|Hu]; [|by apply Hc2].
      specialize (Hc1 r Hr Ha). lia.
    + exists receipt. by destruct (be_fault env 3).
  - destruct o as [[]|]; try done. by eapply refused_rows.
Qed.

Lemma grants_clear_rows cfg l st w g r :
  make_interval (bot_drip_rate_limit_secs cfg) = Some w ->
  Forall served_alone l -> g ∈ bot_grants cfg st l -> r ∈ bot_drips st ->
  same_party g.1.1 r -> bd_dripped_at r + w <= g.1.2.
Proof.
  intros Hw Hl. revert st. induction Hl as [|[[env provided] req] l Hq Hl IH];
    intros st Hg Hr Hp; [by apply not_elem_of_nil in Hg|].
  cbn [bot_grants] in Hg. pose proof (drip_bot_alone cfg env provided req st Hq) as Hd.
  destruct (drip_bot _ _ _ _ _) as [o st']. destruct (granted o).
  - destruct Hd as [(w' & Hw' & Hclear) [receipt Hst]].
    assert (w' = w) as -> by congruence. apply elem_of_cons in Hg as [->|Hg]; [by apply Hclear|].
    apply (IH st'); [done| |done]. rewrite Hst. apply elem_of_app. by left.
  - apply (IH st'); [done| |done]. by rewrite Hd.
Qed.

(** The two cooldowns, over any sequence of bot requests served one at a time from any
    table: two drips to the same address, or for the same Discord user, whatever the
    other of the two is, are a full window apart, from the row of the first to the
    queries of the second. *)
Theorem bot_cooldown_sequential cfg w l st :
  make_interval (bot_drip_rate_limit_secs cfg) = Some w -> Forall served_alone l ->
  ForallOrdPairs (fun g g' =>
      req_address g.1.1 = req_address g'.1.1 \/
      req_discord_user_id g.1.1 = req_discord_user_id g'.1.1 -> g.2 + w <= g'.1.2)
    (bot_grants cfg st l).
Proof.
  intros Hw Hl. revert st. induction Hl as [|[[env provided] req] l Hq Hl IH]; intros st;
    cbn [bot_grants]; [constructor|].
  pose proof (drip_bot_alone cfg env provided req st Hq) as Hd.
  destruct (drip_bot _ _ _ _ _) as [o st']. destruct (granted o); [|apply IH].
  destruct Hd as [_ [receipt Hst]]. constructor; [|apply IH].
  apply Forall_forall. intros g Hg Hs.
  eapply (grants_clear_rows cfg l st' w g
    (drip_row req receipt (be_utc_now env 3) (be_db_now env 3))); try done.
  rewrite Hst. apply elem_of_app. right. by apply list_elem_of_singleton.
Qed.

Lemma num_seconds_bounds d : 0 <= d ->
  num_seconds d * 1000000 <= d < num_seconds d * 1000000 + 1000000 /\ 0 <= num_seconds d.
Proof.
  intros Hd. unfold num_seconds. rewrite Z.quot_div_nonneg by lia.
  pose proof (Z.div_mod d 1000000). pose proof (Z.mod_pos_bound d 1000000).
  assert (0 <= d / 1000000) by (apply Z.div_pos; lia). lia.
Qed.

(** The wait computed from the latest row of a counter, seen at [now] and read at [utc]. *)
Lemma blocked_wait rows col value W now utc last r :
  0 <= W <= i64_max -> now <= utc <= i64_max -> r ∈ rows -> bd_dripped_at r = last ->
  0 <= last <= utc ->
  (forall r', r' ∈ rows -> col r' = value -> bd_dripped_at r' <= last \/
     bd_dripped_at r' + W * 1000000 <= now) ->
  let s := as_i64 (saturating_sub W (as_u64 (Z.max (num_seconds (utc - last)) 0))) in
  0 <= s <= W /\
  forall now', utc + s * 1000000 <= now' -> clear rows col value (W * 1000000) now'.
Proof.
  intros HW Hnow Hr Hl Hlast Hrows s.
  destruct (num_seconds_bounds (utc - last)) as [Hb Hp]; [lia|].
  assert (s = Z.max 0 (W - num_seconds (utc - last))) as ->.
  { unfold s, saturating_sub. rewrite (Z.max_l (num_seconds _)) by lia.
    rewrite as_u64_id by lia_int. apply as_i64_id. lia_int. }
  split; [lia|]. intros now' Hn r' Hr' Hv. destruct (Hrows r' Hr' Hv); lia.
Qed.

(** The announced wait is enough.  A request refused by a cooldown is told a number of
    seconds that is never more than the window, and once they have passed no row of the
    counter that refused it is inside the window any more. *)
Theorem bot_retry_after_clears cfg env provided req st e st' s :
  let W := bot_drip_rate_limit_secs cfg in
  0 <= W <= i64_max -> make_interval W = Some (W * 1000000) -> alone env ->
  (forall k, (k <= 1)%nat -> be_db_now env k <= be_utc_now env k <= i64_max) ->
  (forall r k, r ∈ bot_drips st -> (k <= 1)%nat -> 0 <= bd_dripped_at r <= be_utc_now env k) ->
  drip_bot cfg env provided req st = (Done (Err e), st') -> bot_retry_after e = Some s ->
  0 <= s <= W /\
  exists k col value,
    (col = bd_address /\ value = req_address req \/
     col = bd_discord_user_id /\ value = req_discord_user_id req) /\
    forall now', be_utc_now env k + s * 1000000 <= now' ->
      clear (bot_drips st) col value (W * 1000000) now'.
Proof.
  intros W HW Hi Hal Hclock Hpast Hrun Hs.
  assert (cooldown_checks cfg env 0 (both_checks req) st = (Some e, st')) as Hc.
  { revert Hrun. unfold drip_bot. fold (both_checks req).
    destruct (bot_guards _ _ _) eqn:Hg;
      [intros [= <- _]; by rewrite (bot_guards_refuse _ _ _ _ Hg) in Hs|].
    destruct (cooldown_checks cfg env 0 (both_checks req) st) as [[x|] stc];
      [by intros [= -> ->]|].
    destruct (signer_drip _ _ _ _) as [[receipt|err] n]; [|by intros [= <- _]].
    unfold bot_reply. by destruct (utc_add_seconds _ _). }
  revert Hc. unfold both_checks. cbn [cooldown_checks]. rewrite !Hal.
  pose proof (query_cases (bot_drips st) "address" bd_address (req_address req) W
    (be_db_now env 0) (be_fault env 0) eq_refl) as H1.
  pose proof (query_cases (bot_drips st) "discord_user_id" bd_discord_user_id
    (req_discord_user_id req) W (be_db_now env 1) (be_fault env 1) eq_refl) as H2.
  rewrite Hi in H1, H2. fold W.
  destruct (last_drip_within_window _ "address" _ _ _ _) as [[last|]|x].
  - intros [= <- _]. destruct H1 as (_ & w & r & [= <-] & Hr & _ & Hl & _ & Hrows).
    simpl in Hs. injection Hs as <-.
    destruct (blocked_wait (bot_drips st) bd_address (req_address req) W (be_db_now env 0)
      (be_utc_now env 0) last r) as [Hb Hclear]; auto; [subst last; by apply Hpast; auto|].
    split; [done|]. exists 0%nat, bd_address, (req_address req). split; [by left|done].
  - destruct (last_drip_within_window _ "discord_user_id" _ _ _ _) as [[last|]|x];
      [|done|by intros [= <- _]].
    intros [= <- _]. destruct H2 as (_ & w & r & [= <-] & Hr & _ & Hl & _ & Hrows).
    simpl in Hs. injection Hs as <-.
    destruct (blocked_wait (bot_drips st) bd_discord_user_id (req_discord_user_id req) W
      (be_db_now env 1) (be_utc_now env 1) last r) as [Hb Hclear]; auto;
      [subst last; by apply Hpast; auto|].
    split; [done|]. exists 1%nat, bd_discord_user_id, (req_discord_user_id req).
    split; [by right|done].
  - by intros [= <- _].
Qed.

(** A column the helper does not know is not refused: the query is skipped and the
    answer is "no recent drip", on any table and at any time. *)
Lemma unknown_column_fails_open rows column value window now fault :
  column <> "address" -> column <> "discord_user_id" ->
  last_drip_within_window rows column value window now fault = Ok None.
Proof.
  intros H1 H2. unfold last_drip_within_window, cooldown_column.
  apply String.eqb_neq in H1, H2. by rewrite H1, H2.
Qed.
End BotCooldown.

(** ** At concrete inputs *)

Section BotWitnesses.
#[local] Existing Instances SampleHex.hex SampleHex.hex_laws sample_sdk.

Definition sample_time : BotTime :=
  {| make_interval s := Some (s * 1000000); utc_add_seconds t s := Some (t + s * 1000000) |}.
#[local] Existing Instance sample_time.

Definition bot_env (t : Z) : BotEnv :=
  {| be_db_now k := t + Z.of_nat k; be_utc_now k := t + Z.of_nat k; be_fault _ := NoFault;
     be_other _ st := st |}.
Definition bot_request (address user : string) : DripBotRequest :=
  {| req_address := address; req_discord_user_id := user; req_tier := Regular;
     req_amount_nano := 250000000000; req_tier_evidence := None |}.
Definition no_drips : BotState := {| bot_drips := []; bot_nonce := 4 |}.
Definition bot_config : Config :=
  match from_env (SampleHex.vars "s3cret") with
  | Done (Ok c) => c
  | _ => {| bind := ""; database_url := ""; pg_pool_size := 0; chain_rpc := "";
            chain_cluster_auth_token := None; chain_id := 0; chain_hash := [];
            avow_token_id_hex := ""; drip_signer_key := ""; cfg_drip_amount := 0;
            drip_rate_limit_secs := 0; drip_min_budget := 0; drip_starting_nonce := None;
            indexer_start_height := None; avow_treasury_addr := None;
            faucet_bot_secret := None; bot_drip_rate_limit_secs := 0;
            bot_drip_amount_newcomer := 0; bot_drip_amount_regular := 0;
            bot_drip_amount_veteran := 0; bot_drip_amount_elder := 0 |}
  end.

Lemma bot_drip_guarded_witness :
  exists secret w, secret <> "" /\ Some "s3cret" = Some secret /\
    make_interval (bot_drip_rate_limit_secs bot_config) = Some w.
Proof.
  destruct (bot_drip_guarded (SampleHex.vars "s3cret") bot_config (bot_env 100)
    (Some "s3cret") (bot_request "lig1a" "1") no_drips
    (drip_bot bot_config (bot_env 100) (Some "s3cret") (bot_request "lig1a" "1") no_drips).1
    (drip_bot bot_config (bot_env 100) (Some "s3cret") (bot_request "lig1a" "1") no_drips).2)
    as (secret & w & receipt & n & _ & Hne & Hp & _ & Hw & _).
  - vm_compute. reflexivity.
  - apply surjective_pairing.
  - vm_compute. reflexivity.
  - exists secret, w. split_and!; assumption.
Defined.

Definition dripped_once : BotState :=
  {| bot_drips := [{| bd_address := "lig1a"; bd_discord_user_id := "1";
       bd_amount_nano := 250000000000; bd_tx_hash := "0x01"; bd_tier := "regular";
       bd_server_tenure_days := None; bd_account_age_days := None; bd_dripped_at := 50 |}];
     bot_nonce := 5 |}.

(** A request without the secret is refused by the second guard; one of a user served a
    second ago by the seventh, with the seconds left. *)
Lemma bot_refusal_codes_witness :
  (exists i g, first_failed bot_config (bot_env 100) None (bot_request "lig1a" "1") no_drips i g
     (bot_err 401 "unauthorized" None)) /\
  exists i g, first_failed bot_config (bot_env 1000050) (Some "s3cret") (bot_request "lig1b" "1")
    dripped_once i g
    (bot_err 429 "Discord user rate-limited; retry in 431999 seconds" (Some 431999)).
Proof.
  split.
  - destruct (bot_refusal_codes bot_config (bot_env 100) None (bot_request "lig1a" "1") no_drips
      (bot_err 401 "unauthorized" None) no_drips) as (_ & i & g & Hf & _);
      [intros k st; reflexivity|vm_compute; reflexivity|exists i, g; exact Hf].
  - destruct (bot_refusal_codes bot_config (bot_env 1000050) (Some "s3cret")
      (bot_request "lig1b" "1") dripped_once
      (bot_err 429 "Discord user rate-limited; retry in 431999 seconds" (Some 431999))
      dripped_once) as (_ & i & g & Hf & _);
      [intros k st; reflexivity|vm_compute; reflexivity|exists i, g; exact Hf].
Defined.

Lemma bot_cooldown_sequential_witness :
  ForallOrdPairs (fun g g' =>
      req_address g.1.1 = req_address g'.1.1 \/
      req_discord_user_id g.1.1 = req_discord_user_id g'.1.1 -> g.2 + 432000000000 <= g'.1.2)
    (bot_grants bot_config no_drips
       [(bot_env 0, Some "s3cret", bot_request "lig1a" "1");
        (bot_env 9, Some "s3cret", bot_request "lig1b" "1");
        (bot_env 432000000003, Some "s3cret", bot_request "lig1a" "2")]).
Proof.
  apply (bot_cooldown_sequential bot_config 432000000000).
  - vm_compute. reflexivity.
  - repeat constructor; simpl; try lia; discriminate.
Defined.

Lemma bot_retry_after_clears_witness :
  exists e s, drip_bot bot_config (bot_env 3000000) (Some "s3cret") (bot_request "lig1b" "1")
      dripped_once = (Done (Err e), dripped_once) /\
    bot_retry_after e = Some s /\ 0 <= s <= 432000.
Proof.
  destruct (drip_bot bot_config (bot_env 3000000) (Some "s3cret") (bot_request "lig1b" "1")
    dripped_once) as [o st'] eqn:E.
  assert (exists e s, o = Done (Err e) /\ bot_retry_after e = Some s /\ st' = dripped_once)
    as (e & s & -> & Hs & ->).
  { vm_compute in E. injection E as <- <-. eexists _, _. repeat split. }
  exists e, s. split; [reflexivity|]. split; [exact Hs|].
  apply (bot_retry_after_clears bot_config (bot_env 3000000) (Some "s3cret")
    (bot_request "lig1b" "1") dripped_once e dripped_once s) in E.
  - apply E.
  - vm_compute; split; congruence.
  - reflexivity.
  - intros k st. reflexivity.
  - intros k Hk. simpl. int_consts. lia.
  - intros r k Hr Hk. apply list_elem_of_singleton in Hr as ->. simpl. lia.
  - exact Hs.
Defined.
End BotWitnesses.
