(* ===== verification/Tickets.v ===== *)
(** * Tickets: the abstract specification of a shared nonce counter

    What [Signer::nonce] promises to the requests that share it.  The specification hands
    out tickets 0, 1, 2, ... in the order they are taken; a holder redeems its ticket at
    most once or drops it.  The implementation has a 64-bit counter that wraps and requests
    that carry a nonce from one [await] to the next; any system whose steps follow the
    discipline below refines the specification, and gets its guarantee: no two
    transfers under one nonce, and no request that transfers twice. *)

From S2P Require Import Prelude DripSpec.
Open Scope Z_scope.

(** ** The specification *)

Inductive Phase := Waiting | Holding (ticket : Z) | Past.

Record Tickets := {
  next : Z;
  taken : gset nat;              (** who has had a ticket *)
  phases : gmap nat Phase;
  redeemed : list (nat * Z)      (** who redeemed which ticket, last first *)
}.

Inductive ticket_step (T : Tickets) : Tickets -> Prop :=
| take i :
    phases T !! i = Some Waiting ->
    ticket_step T {| next := next T + 1; taken := {[i]} ∪ taken T;
                     phases := <[i := Holding (next T)]> (phases T); redeemed := redeemed T |}
| leave i p :
    phases T !! i = Some p ->
    ticket_step T {| next := next T; taken := taken T; phases := <[i := Past]> (phases T);
                     redeemed := redeemed T |}
| redeem i n :
    phases T !! i = Some (Holding n) ->
    ticket_step T {| next := next T; taken := taken T; phases := <[i := Past]> (phases T);
                     redeemed := (i, n) :: redeemed T |}.

Record tickets_ok (T : Tickets) : Prop := {
  k_next : next T = Z.of_nat (size (taken T));
  k_dom : taken T ⊆ dom (phases T);
  k_waiting i : phases T !! i = Some Waiting -> i ∉ taken T;
  k_holding i n : phases T !! i = Some (Holding n) ->
    0 <= n < next T /\ i ∈ taken T /\ n ∉ (redeemed T).*2;
  k_alone i j n : phases T !! i = Some (Holding n) -> phases T !! j = Some (Holding n) -> i = j;
  k_redeemed i n : (i, n) ∈ redeemed T -> 0 <= n < next T /\ phases T !! i = Some Past;
  k_once : NoDup (redeemed T).*1;
  k_distinct : NoDup (redeemed T).*2
}.

(** At most one ticket per party. *)
Lemma tickets_bounded T : tickets_ok T -> next T <= Z.of_nat (size (phases T)).
Proof.
  intros []. rewrite k_next0, <- size_dom. apply inj_le. by apply subseteq_size.
Qed.

Lemma redeemed_fst i (l : list (nat * Z)) : i ∈ l.*1 -> exists n, (i, n) ∈ l.
Proof. intros Hi. apply list_elem_of_fmap in Hi as ([j n] & -> & Hin). by exists n. Qed.

Lemma redeemed_snd n (l : list (nat * Z)) : n ∈ l.*2 -> exists i, (i, n) ∈ l.
Proof. intros Hi. apply list_elem_of_fmap in Hi as ([j m] & -> & Hin). by exists j. Qed.

(** [at_phase i j] splits a lookup in an updated map on whether the keys agree. *)
Ltac at_phase i j :=
  rewrite ?(lookup_insert _ i j); destruct (decide (i = j)) as [<-|]; simplify_eq/=.

Lemma tickets_take T i :
  tickets_ok T -> phases T !! i = Some Waiting ->
  tickets_ok {| next := next T + 1; taken := {[i]} ∪ taken T;
                phases := <[i := Holding (next T)]> (phases T); redeemed := redeemed T |}.
Proof.
  intros [] Hi. pose proof (k_waiting0 i Hi) as Hnew.
  assert (next T ∉ (redeemed T).*2) as Hfresh.
  { intros (j & Hj)%redeemed_snd. destruct (k_redeemed0 j _ Hj). lia. }
  split; simpl; try done.
  - rewrite size_union by set_solver. rewrite size_singleton. lia.
  - rewrite dom_insert. set_solver.
  - intros j. at_phase i j; [done|]. intros Hj. specialize (k_waiting0 j Hj). set_solver.
  - intros j n. at_phase i j.
    + intros [= <-]. split_and!; [lia..|set_solver|done].
    + intros Hj. destruct (k_holding0 j n Hj) as (? & ? & ?). split_and!; [lia..|set_solver|done].
  - intros j k n. at_phase i j; at_phase i k; try done.
    + intros [= <-] Hk. destruct (k_holding0 k _ Hk). lia.
    + intros Hj [= <-]. destruct (k_holding0 j _ Hj). lia.
    + apply k_alone0.
  - intros j n Hj. destruct (k_redeemed0 j n Hj) as [? Hp]. split; [lia|].
    at_phase i j. done.
Qed.

Lemma tickets_leave T i p :
  tickets_ok T -> phases T !! i = Some p ->
  tickets_ok {| next := next T; taken := taken T; phases := <[i := Past]> (phases T);
                redeemed := redeemed T |}.
Proof.
  intros [] Hi. split; simpl; try done.
  - rewrite dom_insert. set_solver.
  - intros j. at_phase i j; [done|]. apply k_waiting0.
  - intros j n. at_phase i j; [done|]. apply k_holding0.
  - intros j k n. at_phase i j; at_phase i k; try done. apply k_alone0.
  - intros j n Hj. destruct (k_redeemed0 j n Hj). split; [done|]. by at_phase i j.
Qed.

Lemma tickets_redeem T i n :
  tickets_ok T -> phases T !! i = Some (Holding n) ->
  tickets_ok {| next := next T; taken := taken T; phases := <[i := Past]> (phases T);
                redeemed := (i, n) :: redeemed T |}.
Proof.
  intros Hok Hi. destruct (tickets_leave T i _ Hok Hi). destruct Hok. simpl in *.
  destruct (k_holding1 i n Hi) as (Hn & Ht & Hr). split; simpl; try done.
  - intros j m. at_phase i j; [done|]. intros Hj.
    destruct (k_holding1 j m Hj) as (? & ? & ?). split_and!; [lia..|done|].
    intros [->|]%elem_of_cons; [|done]. by pose proof (k_alone1 i j n Hi Hj).
  - intros j m [[= -> ->]|Hj]%elem_of_cons; [|by apply k_redeemed0].
    split; [done|]. by rewrite lookup_insert_eq.
  - constructor; [|done]. intros (m & Hm)%redeemed_fst.
    destruct (k_redeemed1 i m Hm). congruence.
  - by constructor.
Qed.

Lemma tickets_step T T' : tickets_ok T -> ticket_step T T' -> tickets_ok T'.
Proof.
  intros Hok [i Hi|i p Hi|i n Hi];
    eauto using tickets_take, tickets_leave, tickets_redeem.
Qed.

Lemma tickets_steps T T' : rtc ticket_step T T' -> tickets_ok T -> tickets_ok T'.
Proof. induction 1; eauto using tickets_step. Qed.

(** ** The discipline of an implementation

    A request has no nonce yet, carries one, or needs none any more. *)
Inductive Stage := Unsigned | Carries (nonce : Z) | Finished.

(** One step of one request: its stage, the counter before and after, and the nonce under
    which a transfer was accepted. *)
Inductive disciplined (counter : Z) : Stage -> Stage -> Z -> option Z -> Prop :=
| d_stay st : disciplined counter st st counter None
| d_finish st : disciplined counter st Finished counter None
| d_reserve : disciplined counter Unsigned (Carries counter) (as_u64 (counter + 1)) None
| d_waste : disciplined counter Unsigned Finished (as_u64 (counter + 1)) None
| d_accepted n : disciplined counter (Carries n) Finished counter (Some n).

(** What an observer of the counter and of the chain sees of an implementation. *)
Record Wire := {
  w_counter : Z;
  w_stages : gmap nat Stage;
  w_accepted : list (nat * Z)
}.

Inductive wire_step (w : Wire) : Wire -> Prop :=
| wire_moves i st st' c' acc :
    w_stages w !! i = Some st -> disciplined (w_counter w) st st' c' acc ->
    wire_step w {| w_counter := c'; w_stages := <[i := st']> (w_stages w);
                   w_accepted := match acc with
                                 | Some n => (i, n) :: w_accepted w
                                 | None => w_accepted w
                                 end |}.

(** ** Refinement *)

Section Refinement.
Variable first : Z.   (** the counter at the start *)

Definition nonce_of (ticket : Z) : Z := as_u64 (first + ticket).

Definition stands_for (st : Stage) (p : Phase) : Prop :=
  match st, p with
  | Unsigned, Waiting | Finished, Past => True
  | Carries n, Holding k => n = nonce_of k
  | _, _ => False
  end.

Record refines (w : Wire) (T : Tickets) : Prop := {
  r_counter : w_counter w = nonce_of (next T);
  r_stages : map_relation (fun _ => stands_for) (fun _ _ => False) (fun _ _ => False)
               (w_stages w) (phases T);
  r_accepted : w_accepted w = prod_map id nonce_of <$> redeemed T
}.

Lemma nonce_of_next k : as_u64 (nonce_of k + 1) = nonce_of (k + 1).
Proof.
  unfold nonce_of, as_u64, as_unsigned. rewrite Zplus_mod_idemp_l. f_equal. lia.
Qed.

Lemma stands_lookup w T i st :
  refines w T -> w_stages w !! i = Some st ->
  exists p, phases T !! i = Some p /\ stands_for st p.
Proof.
  intros [_ Hs _] Hi. specialize (Hs i). rewrite Hi in Hs. simpl in Hs.
  destruct (phases T !! i) as [p|]; [by exists p|done].
Qed.

Lemma stands_insert (m : gmap nat Stage) (n : gmap nat Phase) i st p :
  map_relation (fun _ => stands_for) (fun _ _ => False) (fun _ _ => False) m n ->
  stands_for st p ->
  map_relation (fun _ => stands_for) (fun _ _ => False) (fun _ _ => False)
    (<[i := st]> m) (<[i := p]> n).
Proof. intros Hm Hp j. rewrite !lookup_insert. by destruct (decide (i = j)). Qed.

Lemma refines_same_stage w T i st :
  refines w T -> w_stages w !! i = Some st ->
  refines {| w_counter := w_counter w; w_stages := <[i := st]> (w_stages w);
             w_accepted := w_accepted w |} T.
Proof. intros [] Hi. split; simpl; try done. by rewrite insert_id. Qed.

(** Every disciplined step is zero, one or two steps of the specification. *)
Lemma wire_simulated w w' T :
  refines w T -> wire_step w w' -> exists T', rtc ticket_step T T' /\ refines w' T'.
Proof.
  intros Href [i st st' c' acc Hi Hd].
  destruct (stands_lookup w T i st Href Hi) as (p & Hp & Hst). pose proof Href as [Hc Hs Ha].
  destruct Hd as [st|st| | |n]; simpl in Hst.
  - exists T. split; [done|]. by apply refines_same_stage.
  - eexists. split; [by eapply rtc_once, leave|]. split; simpl; try done.
    by apply stands_insert.
  - destruct p; try done. eexists. split; [by eapply rtc_once, take|]. split; simpl.
    + by rewrite Hc, nonce_of_next.
    + apply stands_insert; [done|]. by rewrite Hc.
    + done.
  - destruct p; try done. eexists. split.
    + eapply rtc_l; [by apply take|]. eapply rtc_once, leave. apply lookup_insert_eq.
    + split; simpl; [by rewrite Hc, nonce_of_next| |done].
      rewrite insert_insert_eq. by apply stands_insert.
  - destruct p as [|k|]; try done. subst n.
    eexists. split; [by eapply rtc_once, redeem|]. split; simpl; try done.
    + by apply stands_insert.
    + by rewrite Ha.
Qed.

Lemma wires_simulated w w' T :
  rtc wire_step w w' -> refines w T -> exists T', rtc ticket_step T T' /\ refines w' T'.
Proof.
  intros Hr. revert T. induction Hr as [w|w w1 w2 Hw _ IH]; intros T Href; [by exists T|].
  destruct (wire_simulated w w1 T Href Hw) as (T1 & H1 & Href1).
  destruct (IH T1 Href1) as (T2 & H2 & Href2). exists T2. split; [|done].
  by etransitivity.
Qed.

(** Before anything happens. *)
Definition no_tickets (stages : gmap nat Stage) : Tickets :=
  {| next := 0; taken := ∅; phases := (fun _ => Waiting) <$> stages; redeemed := [] |}.

Lemma no_tickets_ok stages : tickets_ok (no_tickets stages).
Proof.
  split; simpl; try done.
  - intros i n. rewrite lookup_fmap. by destruct (stages !! i).
  - intros i j n. rewrite lookup_fmap. by destruct (stages !! i).
  - intros i n Hi. by apply not_elem_of_nil in Hi.
  - constructor.
  - constructor.
Qed.

Lemma no_tickets_refined stages :
  in_u64 first -> map_Forall (fun _ st => st = Unsigned) stages ->
  refines {| w_counter := first; w_stages := stages; w_accepted := [] |} (no_tickets stages).
Proof.
  intros Hf Hall. split; simpl; [|intros i|done].
  - unfold nonce_of. by rewrite Z.add_0_r, as_u64_id.
  - rewrite lookup_fmap. destruct (stages !! i) as [st|] eqn:Hi; [|done].
    by rewrite (Hall i st Hi).
Qed.

Lemma NoDup_nonces l :
  Forall (fun k => 0 <= k <= u64_max) l -> NoDup l -> NoDup (nonce_of <$> l).
Proof.
  intros Hl Hn. apply NoDup_fmap_2_strong; [|done]. intros x y Hx Hy He.
  rewrite Forall_forall in Hl. pose proof (Hl x Hx). pose proof (Hl y Hy).
  by eapply as_u64_inj_near.
Qed.

(** The guarantee, for any disciplined implementation of at most 2^64 requests. *)
Lemma discipline_distinct stages w :
  in_u64 first -> map_Forall (fun _ st => st = Unsigned) stages ->
  Z.of_nat (size stages) <= 2 ^ 64 ->
  rtc wire_step {| w_counter := first; w_stages := stages; w_accepted := [] |} w ->
  NoDup (w_accepted w).*1 /\ NoDup (w_accepted w).*2.
Proof.
  intros Hf Hall Hsize Hrun.
  destruct (wires_simulated _ _ _ Hrun (no_tickets_refined stages Hf Hall))
    as (T & HT & Href).
  pose proof (tickets_steps _ _ HT (no_tickets_ok stages)) as Hok.
  assert (next T <= 2 ^ 64) as Hnext.
  { pose proof (tickets_bounded T Hok) as Hb.
    assert (dom (phases T) = dom stages) as Hd.
    { clear -HT. remember (no_tickets stages) as T0 eqn:E0.
      assert (dom (phases T0) = dom stages) as H0 by (subst T0; simpl; by rewrite dom_fmap_L).
      clear E0. induction HT as [|T0 T1 T2 Hs _ IH]; [done|]. apply IH. rewrite <- H0.
      destruct Hs as [i Hi|i p Hi|i n Hi]; simpl; apply dom_insert_lookup_L; by eexists. }
    rewrite <- size_dom, Hd, size_dom in Hb. lia. }
  destruct Hok. rewrite (r_accepted w T Href), <- !list_fmap_compose. split.
  - by rewrite (list_fmap_ext _ fst) by done.
  - rewrite (list_fmap_ext _ (nonce_of ∘ snd)), list_fmap_compose by done.
    apply NoDup_nonces; [|done]. apply Forall_forall. intros k (i & Hi)%redeemed_snd.
    destruct (k_redeemed0 i k Hi) as [? _]. int_consts. lia.
Qed.
End Refinement.
