(* ===== verification/Concurrent.v ===== *)
(** * Both faucets at once ([crates/api/src/handlers.rs], [bot_drip.rs])

    Requests to [POST /v1/drip] and [POST /v1/drip-bot] in flight together, on one
    [AppState]: one limiter, one nonce counter, one [bot_drips] table.  The runtime is
    multi-threaded, so requests interleave at every access to what they share: the limiter,
    the counter, a statement, the submission.  A request is at one of the places below, and
    a step moves it across one such access.  A request that is never scheduled again is one
    whose handler was dropped at an [await], as happens when its client goes away. *)

From S2P Require Import Prelude Io Config Drip BotDrip.
Open Scope string_scope.
Open Scope list_scope.
Open Scope Z_scope.

(** The clocks when a step runs: [Instant::now], [Utc::now], the database's [NOW()], and
    what happens to the statement the step sends. *)
Record Moment := { m_mono : Z; m_utc : Z; m_db : Z; m_fault : Fault }.

Inductive WebPlace :=
| WebArrived
| WebCleared                                          (** checked, not signed *)
| WebSigned (nonce : Z) (bytes : list Z)
| WebAccepted (receipt : DripReceipt)                 (** accepted, not recorded *)
| WebAnswered (reply : DripReply).

Inductive BotPlace :=
| BotArrived
| BotAddressClear                                     (** past the first query *)
| BotClear                                            (** past both *)
| BotSigned (nonce : Z) (bytes : list Z)
| BotAccepted (receipt : DripReceipt)                 (** accepted, no row yet *)
| BotPersisted (receipt : DripReceipt)
| BotAnswered (reply : outcome (result BotErrorResponse DripBotResponse)).

Inductive Task :=
| WebTask (address : string) (place : WebPlace)
| BotTask (provided : option string) (req : DripBotRequest) (place : BotPlace).

(** What the requests share. *)
Record Shared := { sh_faucet : Faucet; sh_drips : list BotDripRow }.

Definition with_counter (s : Faucet) (n : Z) : Faucet :=
  {| limiter := s.(limiter); nonce_counter := n; drip_amount := s.(drip_amount) |}.
Definition with_limiter (s : Faucet) (rl : RateLimiter) : Faucet :=
  {| limiter := rl; nonce_counter := s.(nonce_counter); drip_amount := s.(drip_amount) |}.
Definition set_counter (sh : Shared) (n : Z) : Shared :=
  {| sh_faucet := with_counter sh.(sh_faucet) n; sh_drips := sh.(sh_drips) |}.

(** A transfer the chain accepted. *)
Record Payment := {
  pay_address : string;
  pay_amount : Z;
  pay_nonce : Z;
  pay_hash : string
}.

Definition payment (address : string) (nonce : Z) (receipt : DripReceipt) : Payment :=
  {| pay_address := address; pay_amount := receipt.(r_amount_nano); pay_nonce := nonce;
     pay_hash := receipt.(r_tx_hash) |}.

Section Concurrent.
Context `{ChainSdk} `{BotTime}.
Variable cfg : Config.

(** One step of a web drip: its next place, the shared state and the transfer accepted, if
    any. *)
Definition web_step (sh : Shared) (a : string) (p : WebPlace) (m : Moment)
  : WebPlace * Shared * option Payment :=
  let s := sh.(sh_faucet) in
  match p with
  | WebArrived =>
      match check s.(limiter) a m.(m_mono) with
      | Allowed => (WebCleared, sh, None)
      | Blocked retry_after => (WebAnswered (rate_limited retry_after), sh, None)
      end
  | WebCleared =>
      match prepare a s.(drip_amount) s.(nonce_counter) with
      | (Err e, nonce') => (WebAnswered (refuse e), set_counter sh nonce', None)
      | (Ok (n, bytes), nonce') => (WebSigned n bytes, set_counter sh nonce', None)
      end
  | WebSigned n bytes =>
      match submit bytes s.(drip_amount) m.(m_utc) with
      | Err e => (WebAnswered (refuse e), sh, None)
      | Ok receipt => (WebAccepted receipt, sh, Some (payment a n receipt))
      end
  | WebAccepted receipt =>
      (WebAnswered (Dripped a receipt),
       {| sh_faucet := with_limiter s (record s.(limiter) a m.(m_mono));
          sh_drips := sh.(sh_drips) |}, None)
  | WebAnswered reply => (WebAnswered reply, sh, None)
  end.

(** One cooldown query, alone at its moment. *)
Definition moment_env (m : Moment) : BotEnv :=
  {| be_db_now _ := m.(m_db); be_utc_now _ := m.(m_utc); be_fault _ := m.(m_fault);
     be_other _ st := st |}.
Definition bot_check (rows : list BotDripRow) (c : string * string * string) (m : Moment)
  : option BotErrorResponse :=
  fst (cooldown_checks cfg (moment_env m) 0 [c] {| bot_drips := rows; bot_nonce := 0 |}).

Definition address_check (req : DripBotRequest) : string * string * string :=
  ("address", req.(req_address), "address").
Definition user_check (req : DripBotRequest) : string * string * string :=
  ("discord_user_id", req.(req_discord_user_id), "Discord user").

(** One step of a bot drip. *)
Definition bot_step (sh : Shared) (provided : option string) (req : DripBotRequest)
    (p : BotPlace) (m : Moment) : BotPlace * Shared * option Payment :=
  let refused (e : BotErrorResponse) := BotAnswered (Done (Err e)) in
  match p with
  | BotArrived =>
      match bot_guards cfg provided req with
      | Some e => (refused e, sh, None)
      | None =>
          match bot_check sh.(sh_drips) (address_check req) m with
          | Some e => (refused e, sh, None)
          | None => (BotAddressClear, sh, None)
          end
      end
  | BotAddressClear =>
      match bot_check sh.(sh_drips) (user_check req) m with
      | Some e => (refused e, sh, None)
      | None => (BotClear, sh, None)
      end
  | BotClear =>
      match prepare req.(req_address) req.(req_amount_nano)
              sh.(sh_faucet).(nonce_counter) with
      | (Err e, nonce') => (refused (bot_refuse e), set_counter sh nonce', None)
      | (Ok (n, bytes), nonce') => (BotSigned n bytes, set_counter sh nonce', None)
      end
  | BotSigned n bytes =>
      match submit bytes req.(req_amount_nano) m.(m_utc) with
      | Err e => (refused (bot_refuse e), sh, None)
      | Ok receipt => (BotAccepted receipt, sh, Some (payment req.(req_address) n receipt))
      end
  | BotAccepted receipt =>
      let row := drip_row req receipt m.(m_utc) m.(m_db) in
      (BotPersisted receipt,
       {| sh_faucet := sh.(sh_faucet);
          sh_drips := bot_drips (insert_drip row m.(m_fault)
                        {| bot_drips := sh.(sh_drips); bot_nonce := 0 |}) |}, None)
  | BotPersisted receipt => (BotAnswered (bot_reply cfg req receipt m.(m_utc)), sh, None)
  | BotAnswered reply => (BotAnswered reply, sh, None)
  end.

Definition task_step (sh : Shared) (t : Task) (m : Moment) : Task * Shared * option Payment :=
  match t with
  | WebTask a p => let '(p', sh', pay) := web_step sh a p m in (WebTask a p', sh', pay)
  | BotTask provided req p =>
      let '(p', sh', pay) := bot_step sh provided req p m in (BotTask provided req p', sh', pay)
  end.

(** The process: the shared state, the requests, and, last first, what the chain accepted
    from which request. *)
Record Process := {
  shared : Shared;
  tasks : gmap nat Task;
  ledger : list (nat * Payment)
}.

Definition step (sys : Process) (i : nat) (m : Moment) : Process :=
  match sys.(tasks) !! i with
  | None => sys
  | Some t =>
      let '(t', sh', pay) := task_step sys.(shared) t m in
      {| shared := sh'; tasks := <[i := t']> sys.(tasks);
         ledger := match pay with
                   | Some p => (i, p) :: sys.(ledger)
                   | None => sys.(ledger)
                   end |}
  end.

(** A schedule: which request moves, and when. *)
Definition Schedule : Type := list (nat * Moment).

Definition run (sys : Process) (sched : Schedule) : Process :=
  fold_left (fun sys it => step sys it.1 it.2) sched sys.

Definition arrived (t : Task) : Prop :=
  match t with
  | WebTask _ WebArrived | BotTask _ _ BotArrived => True
  | _ => False
  end.

Definition answered (t : Task) : Prop :=
  match t with
  | WebTask _ (WebAnswered _) | BotTask _ _ (BotAnswered _) => True
  | _ => False
  end.

(** A process that has just received its requests. *)
Definition receive (sh : Shared) (requests : list Task) : Process :=
  {| shared := sh; tasks := map_seq 0 requests; ledger := [] |}.

(** ** The events of the cooldowns

    The three counters, and for one step of one request which counters it passed and which
    it recorded, by the clock each uses. *)
Inductive Counter :=
| WebAddress (address : string)
| BotAddress (address : string)
| BotUser (user : string).

Inductive Event :=
| Passed (c : Counter) (at_time : Z)
| Recorded (c : Counter) (at_time : Z).

Definition events (t t' : Task) (m : Moment) : list Event :=
  match t, t' with
  | WebTask a WebArrived, WebTask _ WebCleared => [Passed (WebAddress a) m.(m_mono)]
  | WebTask a (WebAccepted _), _ => [Recorded (WebAddress a) m.(m_mono)]
  | BotTask _ req BotArrived, BotTask _ _ BotAddressClear =>
      [Passed (BotAddress req.(req_address)) m.(m_db)]
  | BotTask _ req BotAddressClear, BotTask _ _ BotClear =>
      [Passed (BotUser req.(req_discord_user_id)) m.(m_db)]
  | BotTask _ req (BotAccepted _), _ =>
      match m.(m_fault) with
      | Io.Refused => []
      | _ => [Recorded (BotAddress req.(req_address)) m.(m_db);
              Recorded (BotUser req.(req_discord_user_id)) m.(m_db)]
      end
  | _, _ => []
  end.

Definition step_events (sys : Process) (i : nat) (m : Moment) : list Event :=
  match sys.(tasks) !! i with
  | None => []
  | Some t => events t (task_step sys.(shared) t m).1.1 m
  end.

(** The events of a whole schedule, in order. *)
Fixpoint history (sys : Process) (sched : Schedule) : list Event :=
  match sched with
  | [] => []
  | (i, m) :: rest => step_events sys i m ++ history (step sys i m) rest
  end.

(** The window a counter is checked against. *)
Definition counter_window (sh : Shared) (c : Counter) : option Z :=
  match c with
  | WebAddress _ => Some sh.(sh_faucet).(limiter).(window)
  | BotAddress _ | BotUser _ => make_interval cfg.(bot_drip_rate_limit_secs)
  end.
End Concurrent.
