(* ===== verification/ConcurrentSpec.v ===== *)
(** * What the two faucets guarantee together

    Over every schedule of requests to both faucets: one nonce per transfer and one transfer
    per request (by refinement of [Tickets]), no window recorded and no row written without
    its payment, every counter's window between a record and a later check, and each
    handler's sequential definition when its request runs alone.  And what is not
    guaranteed: a cooldown counts only what has been recorded. *)

From S2P Require Import Prelude Io Config Drip DripSpec BotDrip Tickets Concurrent.
Open Scope string_scope.
Open Scope list_scope.
Open Scope Z_scope.

Section ConcurrentSpec.
Context `{ChainSdk} `{BotTime}.
Variable cfg : Config.

#[local] Abbreviation task_step := (task_step cfg).
#[local] Abbreviation step := (step cfg).
#[local] Abbreviation run := (run cfg).

(** ** One step *)

Lemma step_at sys i m t :
  tasks sys !! i = Some t ->
  step sys i m =
    {| shared := (task_step (shared sys) t m).1.2;
       tasks := <[i := (task_step (shared sys) t m).1.1]> (tasks sys);
       ledger := match (task_step (shared sys) t m).2 with
                 | Some p => (i, p) :: ledger sys
                 | None => ledger sys
                 end |}.
Proof. intros Hi. unfold Concurrent.step. rewrite Hi. by destruct (task_step _ _ _) as [[]]. Qed.

Lemma step_none sys i m : tasks sys !! i = None -> step sys i m = sys.
Proof. intros Hi. unfold Concurrent.step. by rewrite Hi. Qed.

Lemma prepare_cases a amount c :
  match prepare a amount c with
  | (Ok (n, _), c') => n = c /\ c' = as_u64 (c + 1)
  | (Err _, c') => c' = c \/ c' = as_u64 (c + 1)
  end.
Proof.
  unfold prepare. destruct (parse_address a); [|by left]. simpl.
  destruct (sign_transfer _ _ _); [done|by right].
Qed.

Lemma submit_amount bytes amount t receipt :
  submit bytes amount t = Ok receipt -> r_amount_nano receipt = amount.
Proof. unfold submit. intros Hs. repeat case_match; by simplify_eq/=. Qed.

(** [by_step t] opens one step of task [t] into its branches. *)
Ltac by_step t :=
  destruct t as [?a []|?provided ?req []];
  unfold Concurrent.task_step, web_step, bot_step;
  repeat (case_match; simplify_eq/=).

(** ** Nonces *)

Definition stage (t : Task) : Stage :=
  match t with
  | WebTask _ (WebArrived | WebCleared) => Unsigned
  | WebTask _ (WebSigned n _) => Carries n
  | WebTask _ (WebAccepted _ | WebAnswered _) => Finished
  | BotTask _ _ (BotArrived | BotAddressClear | BotClear) => Unsigned
  | BotTask _ _ (BotSigned n _) => Carries n
  | BotTask _ _ (BotAccepted _ | BotPersisted _ | BotAnswered _) => Finished
  end.

(** Each faucet keeps the discipline of the counter. *)
Lemma task_disciplined sh t m :
  let '(t', sh', pay) := task_step sh t m in
  disciplined (nonce_counter (sh_faucet sh)) (stage t) (stage t')
    (nonce_counter (sh_faucet sh')) (pay_nonce <$> pay).
Proof.
  by_step t; try constructor;
    match goal with
    | E : prepare ?a ?n ?c = _ |- _ =>
        pose proof (prepare_cases a n c) as Hp; rewrite E in Hp; simpl in Hp
    end; [destruct Hp as [-> ->]|destruct Hp as [-> | ->]|
          destruct Hp as [-> ->]|destruct Hp as [-> | ->]]; constructor.
Qed.

Definition wire (sys : Process) : Wire :=
  {| w_counter := nonce_counter (sh_faucet (shared sys)); w_stages := stage <$> tasks sys;
     w_accepted := prod_map id pay_nonce <$> ledger sys |}.

Lemma step_wire sys i m : rtc wire_step (wire sys) (wire (step sys i m)).
Proof.
  destruct (tasks sys !! i) as [t|] eqn:Hi; [|by rewrite step_none].
  rewrite (step_at sys i m t Hi). pose proof (task_disciplined (shared sys) t m) as Hd.
  destruct (task_step (shared sys) t m) as [[t' sh'] pay]. simpl in *.
  assert (w_stages (wire sys) !! i = Some (stage t)) as Hst
    by (simpl; by rewrite lookup_fmap, Hi).
  pose proof (wire_moves (wire sys) i _ _ _ _ Hst Hd) as Hw. apply rtc_once.
  unfold wire at 2. simpl. rewrite fmap_insert. by destruct pay.
Qed.

Lemma run_wire sys sched : rtc wire_step (wire sys) (wire (run sys sched)).
Proof.
  revert sys. induction sched as [|[i m] sched IH]; intros sys; [done|].
  etransitivity; [apply step_wire|apply IH].
Qed.

Lemma receive_unsigned sh requests :
  Forall arrived requests ->
  map_Forall (fun _ st => st = Unsigned) (stage <$> tasks (receive sh requests)).
Proof.
  intros Ha i st. simpl. rewrite lookup_fmap.
  destruct (map_seq 0 requests !! i) as [t|] eqn:Hi; [|done].
  apply lookup_map_seq_Some in Hi as [_ Hi]. intros [= <-].
  pose proof (Forall_lookup_1 _ _ _ _ Ha Hi) as Ht. by destruct t as [? []|? ? []].
Qed.

Lemma ledger_distinct sh requests sched :
  in_u64 (nonce_counter (sh_faucet sh)) -> Forall arrived requests ->
  Z.of_nat (length requests) <= 2 ^ 64 ->
  let sys := run (receive sh requests) sched in
  NoDup (ledger sys).*1 /\ NoDup (pay_nonce <$> (ledger sys).*2).
Proof.
  intros Hn Ha Hl sys.
  destruct (discipline_distinct (nonce_counter (sh_faucet sh))
    (stage <$> tasks (receive sh requests)) (wire sys)) as [H1 H2]; try done.
  - by apply receive_unsigned.
  - simpl. by rewrite map_size_fmap, <- size_dom, dom_seq_L, size_set_seq.
  - apply (run_wire (receive sh requests)).
  - simpl in H1, H2. rewrite <- !list_fmap_compose in *. split; [exact H1|exact H2].
Qed.

(** ** What is recorded has been paid *)

(** The request of a task, at whatever place. *)
Definition request (t : Task) : string + option string * DripBotRequest :=
  match t with
  | WebTask a _ => inl a
  | BotTask provided req _ => inr (provided, req)
  end.

(** The payment a request is entitled to, [amount] being the web faucet's. *)
Definition pays_for (amount : Z) (t : Task) (p : Payment) : Prop :=
  match request t with
  | inl a => pay_address p = a /\ pay_amount p = amount
  | inr (provided, req) =>
      bot_guards cfg provided req = None /\
      pay_address p = req_address req /\ pay_amount p = req_amount_nano req
  end.

Definition persisted (p : BotPlace) : Prop :=
  match p with BotPersisted _ | BotAnswered _ => True | _ => False end.

(** A row that documents the payment of request [i]. *)
Definition documents (sys : Process) (i : nat) (r : BotDripRow) : Prop :=
  exists provided req place p,
    tasks sys !! i = Some (BotTask provided req place) /\ persisted place /\
    (i, p) ∈ ledger sys /\
    bd_address r = pay_address p /\ bd_amount_nano r = pay_amount p /\
    bd_tx_hash r = pay_hash p /\ bd_discord_user_id r = req_discord_user_id req /\
    bd_tier r = as_str (req_tier req).

(** What the place of request [i] says of the ledger. *)
Definition placed (paid : list (nat * Payment)) (i : nat) (t : Task) : Prop :=
  match t with
  | WebTask a (WebAccepted r) => exists n, (i, payment a n r) ∈ paid
  | WebTask _ _ => True
  | BotTask _ _ (BotArrived | BotAnswered _) => True
  | BotTask provided req (BotAccepted r) =>
      bot_guards cfg provided req = None /\
      r_amount_nano r = req_amount_nano req /\
      exists n, (i, payment (req_address req) n r) ∈ paid
  | BotTask provided req _ => bot_guards cfg provided req = None
  end.

Record sound (sh0 : Shared) (sys : Process) : Prop := {
  s_amount : drip_amount (sh_faucet (shared sys)) = drip_amount (sh_faucet sh0);
  s_window : window (limiter (sh_faucet (shared sys))) = window (limiter (sh_faucet sh0));
  s_placed i t : tasks sys !! i = Some t -> placed (ledger sys) i t;
  s_paid i p : (i, p) ∈ ledger sys ->
    exists t, tasks sys !! i = Some t /\ pays_for (drip_amount (sh_faucet sh0)) t p;
  s_limited a l : last_drip (limiter (sh_faucet (shared sys))) !! a = Some l ->
    last_drip (limiter (sh_faucet sh0)) !! a = Some l \/
    exists i p place, (i, p) ∈ ledger sys /\ tasks sys !! i = Some (WebTask a place) /\
      pay_address p = a;
  s_rows : exists owners rows, sh_drips (shared sys) = sh_drips sh0 ++ rows /\
    NoDup owners /\ Forall2 (documents sys) owners rows
}.

(** The step of one request, on the parts of [sound]. *)
Lemma task_request sh t m : request (task_step sh t m).1.1 = request t.
Proof. by_step t; done. Qed.

Lemma task_settings sh t m :
  let sh' := (task_step sh t m).1.2 in
  drip_amount (sh_faucet sh') = drip_amount (sh_faucet sh) /\
  window (limiter (sh_faucet sh')) = window (limiter (sh_faucet sh)).
Proof. by_step t; done. Qed.

Lemma task_placed paid i sh t m :
  placed paid i t ->
  let '(t', _, pay) := task_step sh t m in
  placed (match pay with Some p => (i, p) :: paid | None => paid end) i t'.
Proof.
  intros Ht. by_step t; try done; try tauto.
  - eexists. by left.
  - split_and!; [done|by eapply submit_amount|]. eexists. by left.
  - simpl in *. tauto.
Qed.

Lemma task_pays i paid sh t m p :
  placed paid i t -> (task_step sh t m).2 = Some p ->
  pays_for (drip_amount (sh_faucet sh)) t p.
Proof.
  intros Ht. by_step t; try done; intros; simplify_eq; unfold pays_for; simpl;
    rewrite (submit_amount _ _ _ _ ltac:(eassumption)); done.
Qed.

Lemma pays_for_same amount t t' p :
  request t' = request t -> pays_for amount t p -> pays_for amount t' p.
Proof. unfold pays_for. by intros ->. Qed.

(** What a step does to the limiter and to the table. *)
Lemma task_limiter sh t m :
  let sh' := (task_step sh t m).1.2 in
  limiter (sh_faucet sh') = limiter (sh_faucet sh) \/
  exists a r, t = WebTask a (WebAccepted r) /\
    limiter (sh_faucet sh') = record (limiter (sh_faucet sh)) a (m_mono m).
Proof. by_step t; eauto. Qed.

Lemma task_drips sh t m :
  let '(t', sh', _) := task_step sh t m in
  sh_drips sh' = sh_drips sh \/
  exists provided req r, t = BotTask provided req (BotAccepted r) /\
    t' = BotTask provided req (BotPersisted r) /\ m_fault m <> Io.Refused /\
    sh_drips sh' = sh_drips sh ++ [drip_row req r (m_utc m) (m_db m)].
Proof.
  by_step t; eauto; unfold insert_drip; destruct (m_fault m) eqn:?; eauto 8.
Qed.

Lemma task_persisted sh t m provided req place place' :
  t = BotTask provided req place -> persisted place ->
  (task_step sh t m).1.1 = BotTask provided req place' -> persisted place'.
Proof. intros -> Hp. destruct place; try done; intros [= <-]; done. Qed.

Lemma placed_more paid paid' i t :
  (forall x, x ∈ paid -> x ∈ paid') -> placed paid i t -> placed paid' i t.
Proof.
  intros Hsub. destruct t as [a []|provided req []]; simpl; try tauto.
  - intros [n Hn]. eauto.
  - intros (? & ? & n & Hn). eauto.
Qed.

(** The requests and the ledger of the whole process. *)
Lemma tasks_step sys i m j u :
  tasks sys !! j = Some u ->
  exists u', tasks (step sys i m) !! j = Some u' /\ request u' = request u /\
    (j <> i -> u' = u).
Proof.
  intros Hj. destruct (tasks sys !! i) as [t|] eqn:Hi; [|rewrite step_none by done; eauto].
  rewrite (step_at sys i m t Hi). simpl. rewrite lookup_insert.
  destruct (decide (i = j)) as [<-|]; [|by eauto]. simplify_eq.
  eexists. split; [done|]. split; [apply task_request|done].
Qed.

(** Every request of a run came in with the process. *)
Lemma run_requests sh requests sched i t :
  Forall arrived requests -> tasks (run (receive sh requests) sched) !! i = Some t ->
  exists t0, requests !! i = Some t0 /\ arrived t0 /\ request t = request t0.
Proof.
  intros Ha. revert t. apply (fold_left_keeps _ (fun sys => forall t, tasks sys !! i = Some t ->
    exists t0, requests !! i = Some t0 /\ arrived t0 /\ request t = request t0)).
  - intros t [_ Hi]%lookup_map_seq_Some. rewrite Nat.sub_0_r in Hi. exists t.
    split_and!; [done|by eapply Forall_lookup_1|done].
  - intros sys [j m] _ IH t Ht. simpl in Ht.
    destruct (tasks sys !! i) as [u|] eqn:Hu.
    + destruct (tasks_step sys j m i u Hu) as (u' & Hu' & Hr & _). simplify_eq.
      rewrite Hr. by apply IH.
    + destruct (tasks sys !! j) as [v|] eqn:Hj; [|by rewrite step_none in Ht; simplify_eq].
      rewrite (step_at sys j m v Hj) in Ht. simpl in Ht.
      rewrite lookup_insert in Ht. destruct (decide (j = i)); simplify_eq.
Qed.

Lemma ledger_step sys i m x : x ∈ ledger sys -> x ∈ ledger (step sys i m).
Proof.
  intros Hx. destruct (tasks sys !! i) as [t|] eqn:Hi; [|by rewrite step_none].
  rewrite (step_at sys i m t Hi). simpl. destruct (task_step _ _ _) as [[? ?] []]; [by right|done].
Qed.

Lemma documents_step sys i m j r : documents sys j r -> documents (step sys i m) j r.
Proof.
  intros (provided & req & place & p & Hj & Hpl & Hp & Hr).
  destruct (tasks_step sys i m j _ Hj) as ([|provided' req' place'] & Hu & Hru & Hne); [done|].
  injection Hru as -> ->. exists provided, req, place', p.
  split_and!; auto using ledger_step; try tauto.
  destruct (decide (j = i)) as [->|Hji]; [|by injection (Hne Hji) as ->].
  rewrite (step_at sys i m _ Hj) in Hu. simpl in Hu. rewrite lookup_insert_eq in Hu.
  eapply (task_persisted (shared sys)); [done|exact Hpl|]. by injection Hu.
Qed.

(** The row of a persisting step belongs to a request that has written none. *)
Lemma rows_step sys i m drips0 :
  (forall t, tasks sys !! i = Some t -> placed (ledger sys) i t) ->
  (exists owners rows, sh_drips (shared sys) = drips0 ++ rows /\
     NoDup owners /\ Forall2 (documents sys) owners rows) ->
  exists owners rows, sh_drips (shared (step sys i m)) = drips0 ++ rows /\
    NoDup owners /\ Forall2 (documents (step sys i m)) owners rows.
Proof.
  intros Hplaced (owners & rows & Hrows & Hnd & Hdoc).
  assert (Forall2 (documents (step sys i m)) owners rows) as Hdoc'
    by (eapply Forall2_impl; [exact Hdoc|]; intros; by apply documents_step).
  destruct (tasks sys !! i) as [t|] eqn:Hi; [|rewrite step_none in * by done; eauto].
  specialize (Hplaced t eq_refl). pose proof (task_drips (shared sys) t m) as Hdrips.
  pose proof (step_at sys i m t Hi) as Hstep.
  destruct (task_step (shared sys) t m) as [[t' sh'] pay]. rewrite Hstep in *. simpl in *.
  destruct Hdrips as [->|(provided & req & r & -> & -> & _ & ->)]; [by exists owners, rows|].
  exists (owners ++ [i]), (rows ++ [drip_row req r (m_utc m) (m_db m)]).
  rewrite Hrows, <- app_assoc. split_and!; [done| |].
  - apply NoDup_app. split_and!; [done| |apply NoDup_singleton].
    intros j Hj ->%list_elem_of_singleton. apply list_elem_of_lookup in Hj as [k Hk].
    destruct (Forall2_lookup_l _ _ _ _ _ Hdoc Hk) as (y & _ & ? & ? & place & ? & Hj & Hpl & _).
    by simplify_eq.
  - apply Forall2_app; [done|]. constructor; [|done]. destruct Hplaced as (_ & Hr & n & Hn).
    exists provided, req, (BotPersisted r), (payment (req_address req) n r). simpl.
    rewrite lookup_insert_eq. split_and!; auto. destruct pay; [by right|done].
Qed.

Lemma sound_step sh0 sys i m : sound sh0 sys -> sound sh0 (step sys i m).
Proof.
  intros []. pose proof (rows_step sys i m _ (s_placed0 i) s_rows0) as Hrows'.
  pose proof (tasks_step sys i m) as Htasks. pose proof (ledger_step sys i m) as Hmore.
  destruct (tasks sys !! i) as [t|] eqn:Hi; [|by rewrite step_none].
  pose proof (task_settings (shared sys) t m) as [Hamount Hwindow].
  pose proof (task_request (shared sys) t m) as Hreq.
  pose proof (task_placed (ledger sys) i (shared sys) t m (s_placed0 i t Hi)) as Hplaced.
  pose proof (task_pays i (ledger sys) (shared sys) t m) as Hpays.
  pose proof (task_limiter (shared sys) t m) as Hlim.
  rewrite (step_at sys i m t Hi) in *.
  destruct (task_step (shared sys) t m) as [[t' sh'] pay]. simpl in *.
  split; simpl; try congruence; try done.
  - intros j u. rewrite lookup_insert. destruct (decide (i = j)) as [<-|].
    + intros [= <-]. exact Hplaced.
    + intros Hj. by eapply placed_more, s_placed0.
  - intros j p Hin. assert ((j, p) ∈ ledger sys \/ j = i /\ pay = Some p) as [Hold|[-> ->]].
    { destruct pay as [q|]; [|by left].
      apply elem_of_cons in Hin as [[= -> ->]|]; [by right|by left]. }
    + destruct (s_paid0 j p Hold) as (u & Hu & Hp). destruct (Htasks j u Hu) as (u' & ? & ? & _).
      exists u'. split; [done|]. by eapply pays_for_same.
    + exists t'. rewrite lookup_insert_eq. split; [done|]. rewrite <- s_amount0.
      eapply pays_for_same; [done|]. by apply Hpays; [apply s_placed0|].
  - intros a l Hl.
    assert (last_drip (limiter (sh_faucet (shared sys))) !! a = Some l \/
            exists r, t = WebTask a (WebAccepted r)) as [Hold|[r ->]].
    { destruct Hlim as [Hr|(b & r & -> & Hr)]; rewrite Hr in Hl; [by left|]. simpl in Hl.
      rewrite lookup_insert in Hl. destruct (decide (b = a)) as [<-|]; eauto. }
    + destruct (s_limited0 a l Hold) as [|(j & p & place & Hp & Hj & Ha)]; [by left|right].
      destruct (Htasks j _ Hj) as ([b q|] & Hu & Hr & _); [|done]. injection Hr as ->. eauto 8.
    + right. destruct (s_placed0 i _ Hi) as [n Hn]. destruct t' as [b q|]; [|done].
      injection Hreq as ->. exists i, (payment a n r), q.
      rewrite lookup_insert_eq. split_and!; auto.
Qed.

Lemma sound_run sh0 sys sched : sound sh0 sys -> sound sh0 (run sys sched).
Proof.
  intros Hs. apply (fold_left_keeps _ (sound sh0)); [done|]. intros ? ? _. apply sound_step.
Qed.

Lemma sound_receive sh requests : Forall arrived requests -> sound sh (receive sh requests).
Proof.
  intros Ha. split; simpl; try done.
  - intros i t [_ Hi]%lookup_map_seq_Some.
    pose proof (Forall_lookup_1 _ _ _ _ Ha Hi) as Ht. by destruct t as [? []|? ? []].
  - intros i p Hi. by apply not_elem_of_nil in Hi.
  - by left.
  - exists [], []. split_and!; [by rewrite app_nil_r|constructor|constructor].
Qed.

(** C10: one nonce stream, and nothing recorded that was not paid.  For every set of requests
    to the two faucets, up to 2^64 of them, and every interleaving of their steps,
    statement faults and dropped requests included: the transfers the chain accepted carry
    pairwise distinct nonces and no request is paid twice; each goes to the address of its
    request with the amount of its faucet, the bot's only behind its secret and its tier;
    a window is recorded for an address only after a web transfer to it; and the table
    grows by rows that each document the payment of a different bot request. *)
Theorem concurrent_nonces sh requests sched :
  in_u64 (nonce_counter (sh_faucet sh)) -> Forall arrived requests ->
  Z.of_nat (length requests) <= 2 ^ 64 ->
  let sys := run (receive sh requests) sched in
  NoDup (pay_nonce <$> (ledger sys).*2) /\ NoDup (ledger sys).*1 /\
  (forall i p, (i, p) ∈ ledger sys ->
     exists t, requests !! i = Some t /\ pays_for (drip_amount (sh_faucet sh)) t p) /\
  (forall a l, last_drip (limiter (sh_faucet (shared sys))) !! a = Some l ->
     last_drip (limiter (sh_faucet sh)) !! a = Some l \/
     exists i p, (i, p) ∈ ledger sys /\ requests !! i = Some (WebTask a WebArrived) /\
       pay_address p = a) /\
  exists owners rows, sh_drips (shared sys) = sh_drips sh ++ rows /\
    NoDup owners /\ Forall2 (documents sys) owners rows.
Proof.
  intros Hn Ha Hl sys. destruct (ledger_distinct sh requests sched Hn Ha Hl) as [H1 H2].
  pose proof (sound_run sh _ sched (sound_receive sh requests Ha)) as [].
  assert (forall i t, tasks sys !! i = Some t ->
    exists t0, requests !! i = Some t0 /\ arrived t0 /\ request t = request t0) as Hback.
  { intros i t Hi. by apply (run_requests sh requests sched i t). }
  split_and!; try done.
  - intros i p Hp. destruct (s_paid0 i p Hp) as (t & Hi & Ht).
    destruct (Hback i t Hi) as (t0 & Ht0 & _ & Hr). exists t0. split; [done|].
    by eapply pays_for_same.
  - intros a l Hw. destruct (s_limited0 a l Hw) as [|(i & p & place & Hp & Hi & Hpa)];
      [by left|right].
    destruct (Hback i _ Hi) as ([b []|] & Hb0 & Hb & Hr); try done.
    injection Hr as <-. eauto.
Qed.

(** ** The windows *)

(** The shared state remembers that counter [c] was recorded at [at_time]. *)
Definition covers (sh : Shared) (c : Counter) (at_time : Z) : Prop :=
  match c with
  | WebAddress a =>
      exists l, last_drip (limiter (sh_faucet sh)) !! a = Some l /\ at_time <= l
  | BotAddress a =>
      exists r, r ∈ sh_drips sh /\ bd_address r = a /\ bd_dripped_at r = at_time
  | BotUser u =>
      exists r, r ∈ sh_drips sh /\ bd_discord_user_id r = u /\ bd_dripped_at r = at_time
  end.

(** The process's monotonic clock, from [t] on.  Nothing is asked of the other clocks. *)
Fixpoint steady (t : Z) (sched : Schedule) : Prop :=
  match sched with
  | [] => True
  | (_, m) :: rest => t <= m_mono m /\ steady (m_mono m) rest
  end.

Definition steady_for (c : Counter) (t : Z) (sched : Schedule) : Prop :=
  match c with WebAddress _ => steady t sched | _ => True end.

(** A full window between two times of a counter. *)
Definition apart (sh : Shared) (c : Counter) (t t' : Z) : Prop :=
  exists w, counter_window cfg sh c = Some w /\ t + w <= t'.

Lemma bot_check_clear rows c col m :
  cooldown_column c.1.1 = Some col -> bot_check cfg rows c m = None ->
  exists w, make_interval (bot_drip_rate_limit_secs cfg) = Some w /\
    clear rows col c.1.2 w (m_db m).
Proof.
  destruct c as [[column value] label]. simpl. intros Hcol. unfold bot_check. simpl.
  pose proof (query_cases rows column col value (bot_drip_rate_limit_secs cfg) (m_db m)
    (m_fault m) Hcol) as Hq.
  destruct (last_drip_within_window _ _ _ _ _ _) as [[last|]|e]; try done. by destruct Hq.
Qed.

Lemma covers_step sys i m c t :
  match c with WebAddress _ => t <= m_mono m | _ => True end ->
  covers (shared sys) c t -> covers (shared (step sys i m)) c t.
Proof.
  intros Ht Hc. destruct (tasks sys !! i) as [u|] eqn:Hi; [|by rewrite step_none].
  rewrite (step_at sys i m u Hi). simpl.
  pose proof (task_limiter (shared sys) u m) as Hlim.
  pose proof (task_drips (shared sys) u m) as Hdrips.
  destruct (task_step (shared sys) u m) as [[u' sh'] pay]. simpl in *.
  destruct c as [a|a|v]; simpl in *.
  - destruct Hlim as [->|(b & r & _ & ->)]; [done|]. simpl.
    destruct Hc as (l & Hl & Hlt). rewrite lookup_insert.
    destruct (decide (b = a)) as [<-|]; eauto.
  - destruct Hdrips as [->|(? & ? & ? & _ & _ & _ & ->)]; [done|].
    destruct Hc as (row & Hrow & ?). exists row. rewrite elem_of_app. auto.
  - destruct Hdrips as [->|(? & ? & ? & _ & _ & _ & ->)]; [done|].
    destruct Hc as (row & Hrow & ?). exists row. rewrite elem_of_app. auto.
Qed.

(** A check that passes is a window away from whatever is remembered. *)
Lemma passed_apart sys i m c t t' :
  match c with WebAddress _ => t <= m_mono m | _ => True end ->
  covers (shared sys) c t -> Passed c t' ∈ step_events cfg sys i m ->
  apart (shared sys) c t t'.
Proof.
  intros Ht Hc. unfold step_events. destruct (tasks sys !! i) as [u|]; [|by intros ?%not_elem_of_nil].
  unfold apart.
  destruct u as [a []|provided req []]; simpl; unfold web_step, bot_step;
    repeat (case_match; simplify_eq/=); rewrite ?elem_of_cons, ?elem_of_nil;
    intros; destruct_or?; simplify_eq/=; try done.
  - destruct Hc as (l & Hl & Hle). eexists. split; [done|].
    destruct (Z.ltb_spec 0 (window (limiter (sh_faucet (shared sys))))); [|lia].
    pose proof (check_allowed _ _ _ _ ltac:(eassumption) Hl ltac:(lia)). lia.
  - match goal with E : bot_check _ _ (address_check ?q) _ = None |- _ =>
      destruct (bot_check_clear _ (address_check q) bd_address m eq_refl E) as (w & Hw & Hclear)
    end.
    destruct Hc as (r & Hr & Ha & <-). exists w. split; [done|]. by apply Hclear.
  - match goal with E : bot_check _ _ (user_check ?q) _ = None |- _ =>
      destruct (bot_check_clear _ (user_check q) bd_discord_user_id m eq_refl E) as (w & Hw & Hclear)
    end.
    destruct Hc as (r & Hr & Ha & <-). exists w. split; [done|]. by apply Hclear.
Qed.

(** A record is remembered, and a step that records checks nothing. *)
Lemma recorded_covers sys i m c t :
  Recorded c t ∈ step_events cfg sys i m ->
  covers (shared (step sys i m)) c t /\
  match c with WebAddress _ => t = m_mono m | _ => True end /\
  forall c' t', Passed c' t' ∉ step_events cfg sys i m.
Proof.
  unfold step_events. destruct (tasks sys !! i) as [u|] eqn:Hi; [|by intros ?%not_elem_of_nil].
  rewrite (step_at sys i m u Hi).
  destruct u as [a []|provided req []]; simpl; unfold web_step, bot_step;
    repeat (case_match; simplify_eq/=); rewrite ?elem_of_cons, ?elem_of_nil;
    intros; destruct_or?; simplify_eq/=; try done;
    (split_and!; [|done|by intros ? ?; rewrite ?elem_of_cons, ?elem_of_nil; naive_solver]).
  1: eexists; split; [apply lookup_insert_eq|lia].
  all: eexists; split; [apply elem_of_app; right; by apply list_elem_of_singleton|done].
Qed.

Lemma step_settings sys i m :
  counter_window cfg (shared (step sys i m)) = counter_window cfg (shared sys).
Proof.
  destruct (tasks sys !! i) as [t|] eqn:Hi; [|by rewrite step_none].
  rewrite (step_at sys i m t Hi). simpl.
  destruct (task_settings (shared sys) t m) as [_ Hw]. unfold counter_window. by rewrite Hw.
Qed.

(** Every check after a record is a window away from it. *)
Lemma passed_later sys sched c t :
  steady_for c t sched -> covers (shared sys) c t ->
  forall t', Passed c t' ∈ history cfg sys sched -> apart (shared sys) c t t'.
Proof.
  revert sys. assert (forall sched t, steady t sched -> forall s, s <= t -> steady s sched)
    as Hweaken by (intros [|[i m] l] t0; simpl; [done|intros [] ? ?; split; [lia|done]]).
  induction sched as [|[i m] sched IH]; intros sys Hclock Hc t'; simpl;
    [by intros ?%not_elem_of_nil|].
  assert (match c with WebAddress _ => t <= m_mono m | _ => True end) as Hm
    by (destruct c; [by destruct Hclock|done|done]).
  intros [Hin|Hin]%elem_of_app; [by eapply passed_apart|].
  unfold apart. rewrite <- (step_settings sys i m).
  apply (IH (step sys i m)); [|by apply covers_step|done].
  destruct c; [|done|done]. destruct Hclock. by eapply Hweaken.
Qed.

Lemma ForallOrdPairs_app {A} (R : A -> A -> Prop) l1 l2 :
  ForallOrdPairs R l1 -> ForallOrdPairs R l2 ->
  (forall x y, x ∈ l1 -> y ∈ l2 -> R x y) -> ForallOrdPairs R (l1 ++ l2).
Proof.
  intros H1 H2. induction H1 as [|x l1 Hx H1 IH]; intros Hcross; simpl; [done|].
  constructor.
  - apply Forall_app. split; [done|]. apply Forall_forall. intros y Hy.
    apply Hcross; [by left|done].
  - apply IH. intros y z Hy. apply Hcross. by right.
Qed.

Lemma ForallOrdPairs_all {A} (R : A -> A -> Prop) l :
  (forall x y, x ∈ l -> y ∈ l -> R x y) -> ForallOrdPairs R l.
Proof.
  induction l as [|x l IH]; intros Hall; constructor.
  - apply Forall_forall. intros y Hy. apply Hall; [by left|by right].
  - apply IH. intros y z Hy Hz. apply Hall; by right.
Qed.

Lemma history_apart sys sched t :
  steady t sched ->
  ForallOrdPairs (fun e e' => forall c t t',
      e = Recorded c t -> e' = Passed c t' -> apart (shared sys) c t t')
    (history cfg sys sched).
Proof.
  revert sys t. induction sched as [|[i m] sched IH]; intros sys t Hclock; simpl; [constructor|].
  destruct Hclock as [Ht Hclock]. apply ForallOrdPairs_app.
  - apply ForallOrdPairs_all. intros e e' He He' c t0 t' -> ->.
    destruct (recorded_covers sys i m c t0 He) as (_ & _ & Hno). by apply Hno in He'.
  - unfold apart. rewrite <- (step_settings sys i m). by eapply IH.
  - intros e e' He He' c t0 t' -> ->. unfold apart. rewrite <- (step_settings sys i m).
    destruct (recorded_covers sys i m c t0 He) as (Hc & Ht0 & _).
    eapply passed_later; [|exact Hc|exact He']. destruct c; simpl in *; by subst.
Qed.

(** The counters of a request, and those it has passed at its place. *)
Definition counters (t : Task) : list Counter :=
  match t with
  | WebTask a _ => [WebAddress a]
  | BotTask _ req _ => [BotAddress (req_address req); BotUser (req_discord_user_id req)]
  end.

Definition passed_by (t : Task) : list Counter :=
  match t with
  | WebTask _ (WebArrived | WebAnswered _) | BotTask _ _ (BotArrived | BotAnswered _) => []
  | BotTask _ req BotAddressClear => [BotAddress (req_address req)]
  | _ => counters t
  end.

Definition has_passed (h : list Event) (c : Counter) : Prop := exists t, Passed c t ∈ h.

Lemma task_passed sh t m c :
  let t' := (task_step sh t m).1.1 in
  c ∈ passed_by t' -> c ∈ passed_by t \/ exists at_time, Passed c at_time ∈ events t t' m.
Proof.
  by_step t; rewrite ?elem_of_cons, ?elem_of_nil; intros; destruct_or?; subst; try tauto;
    right; eexists; by left.
Qed.

Lemma paid_passed sh t m p : (task_step sh t m).2 = Some p -> passed_by t = counters t.
Proof. by_step t; done. Qed.

Lemma counters_request t t' : request t = request t' -> counters t = counters t'.
Proof. destruct t, t'; simpl; intros; by simplify_eq. Qed.

(** What is known of the events so far. *)
Definition checked (h : list Event) (sys : Process) : Prop :=
  (forall i t, tasks sys !! i = Some t -> Forall (has_passed h) (passed_by t)) /\
  (forall i p, (i, p) ∈ ledger sys ->
     exists t, tasks sys !! i = Some t /\ Forall (has_passed h) (counters t)).

Lemma has_passed_app h h' l : Forall (has_passed h) l -> Forall (has_passed (h ++ h')) l.
Proof.
  intros Hl. eapply Forall_impl; [exact Hl|]. intros c [t Ht]. exists t. apply elem_of_app. by left.
Qed.

Lemma checked_step h sys i m :
  checked h sys -> checked (h ++ step_events cfg sys i m) (step sys i m).
Proof.
  intros [Htasks Hpaid]. unfold step_events.
  destruct (tasks sys !! i) as [t|] eqn:Hi;
    [|by rewrite step_none, app_nil_r].
  set (es := events t (task_step (shared sys) t m).1.1 m).
  assert (Forall (has_passed (h ++ es)) (passed_by (task_step (shared sys) t m).1.1)) as Hnew.
  { apply Forall_forall. intros c Hc. destruct (task_passed (shared sys) t m c Hc) as [Hc'|[u Hu]].
    - apply (proj1 (Forall_forall _ _) (has_passed_app h es _ (Htasks i t Hi)) c Hc').
    - exists u. apply elem_of_app. by right. }
  split.
  - rewrite (step_at sys i m t Hi). simpl. intros j u. rewrite lookup_insert.
    destruct (decide (i = j)) as [<-|]; [by intros [= <-]|].
    intros Hj. apply has_passed_app. by eapply Htasks.
  - intros j p Hin.
    assert ((j, p) ∈ ledger sys \/ j = i /\ (task_step (shared sys) t m).2 = Some p)
      as [Hold|[-> Hp]].
    { rewrite (step_at sys i m t Hi) in Hin. simpl in Hin.
      destruct (task_step (shared sys) t m).2 as [q|]; [|by left].
      apply elem_of_cons in Hin as [[= -> ->]|]; [by right|by left]. }
    + destruct (Hpaid j p Hold) as (u & Hj & Hu).
      destruct (tasks_step sys i m j u Hj) as (u' & Hj' & Hr & _). exists u'. split; [done|].
      rewrite (counters_request _ _ Hr). by apply has_passed_app.
    + destruct (tasks_step sys i m i t Hi) as (u' & Hj' & Hr & _). exists u'. split; [done|].
      rewrite (counters_request _ _ Hr), <- (paid_passed _ _ _ _ Hp).
      apply has_passed_app. by eapply Htasks.
Qed.

Lemma checked_run h sys sched :
  checked h sys -> checked (h ++ history cfg sys sched) (run sys sched).
Proof.
  revert h sys. induction sched as [|[i m] sched IH]; intros h sys Hc; simpl;
    [by rewrite app_nil_r|].
  rewrite app_assoc. apply IH. by apply checked_step.
Qed.

Lemma checked_receive sh requests : Forall arrived requests -> checked [] (receive sh requests).
Proof.
  intros Ha. split; simpl.
  - intros i t [_ Hi]%lookup_map_seq_Some.
    pose proof (Forall_lookup_1 _ _ _ _ Ha Hi) as Ht. by destruct t as [? []|? ? []].
  - intros i p Hi. by apply not_elem_of_nil in Hi.
Qed.

(** C8: a window between a record and any later check.  Over every interleaving of requests
    to both faucets, whatever had been recorded before: no transfer is accepted unless its
    request passed every counter it is subject to, its address on the web, its address and
    its user at the bot; and once a drip is recorded, or its row written, every later check
    of that counter that passes is its whole window away.  Two drips can be closer only
    when the second was checked before the first was recorded. *)
Theorem cooldown_unless_overlapping sh requests sched t :
  Forall arrived requests -> steady t sched ->
  let h := history cfg (receive sh requests) sched in
  ForallOrdPairs (fun e e' => forall c t t',
      e = Recorded c t -> e' = Passed c t' -> apart sh c t t') h /\
  forall i p, (i, p) ∈ ledger (run (receive sh requests) sched) ->
    exists t0, requests !! i = Some t0 /\ Forall (has_passed h) (counters t0).
Proof.
  intros Ha Hclock h. split; [by apply (history_apart (receive sh requests) sched t)|].
  intros i p Hp.
  destruct (checked_run [] _ sched (checked_receive sh requests Ha)) as [_ Hpaid].
  destruct (Hpaid i p Hp) as (u & Hi & Hu).
  destruct (run_requests sh requests sched i u Ha Hi) as (t0 & Ht0 & _ & Hr).
  exists t0. split; [done|]. by rewrite <- (counters_request _ _ Hr).
Qed.

(** ** A request alone *)

(** The steps of one request with nothing in between: where it gets, what it leaves, and
    what it was paid, last first. *)
Fixpoint solo (sh : Shared) (t : Task) (ms : list Moment) : Task * Shared * list Payment :=
  match ms with
  | [] => (t, sh, [])
  | m :: rest =>
      let '(t', sh', pay) := task_step sh t m in
      let '(t2, sh2, pays) := solo sh' t' rest in (t2, sh2, pays ++ option_list pay)
  end.

Lemma run_solo sys i t ms :
  tasks sys !! i = Some t ->
  let '(t', sh', pays) := solo (shared sys) t ms in
  let sys' := run sys (pair i <$> ms) in
  shared sys' = sh' /\ tasks sys' !! i = Some t' /\
  ledger sys' = (pair i <$> pays) ++ ledger sys /\
  forall j, j <> i -> tasks sys' !! j = tasks sys !! j.
Proof.
  revert sys t. induction ms as [|m ms IH]; intros sys t Hi; [done|].
  change (run sys (pair i <$> m :: ms)) with (run (step sys i m) (pair i <$> ms)).
  pose proof (step_at sys i m t Hi) as Hs. simpl.
  destruct (task_step (shared sys) t m) as [[t' sh'] pay]. simpl in Hs.
  specialize (IH (step sys i m) t'). rewrite Hs in *. simpl in IH.
  specialize (IH (lookup_insert_eq _ _ _)).
  destruct (solo sh' t' ms) as [[t2 sh2] pays]. destruct IH as (-> & -> & -> & Hne).
  split_and!; [done|done| |].
  - rewrite fmap_app, <- app_assoc. by destruct pay.
  - intros j Hj. rewrite Hne by done. by rewrite lookup_insert_ne.
Qed.

(** The environment of a bot request whose effects run at these moments. *)
Definition quiet_env (m0 m1 m2 m3 m4 : Moment) : BotEnv :=
  let at_effect k := nth k [m0; m1; m2; m3; m4] m4 in
  {| be_db_now k := m_db (at_effect k); be_utc_now k := m_utc (at_effect k);
     be_fault k := m_fault (at_effect k); be_other _ st := st |}.

(** What the bot's handler sees of the shared state. *)
Definition bot_view (sh : Shared) : BotState :=
  {| bot_drips := sh_drips sh; bot_nonce := nonce_counter (sh_faucet sh) |}.

Lemma web_alone sh a m0 m1 m2 m3 :
  let '(reply, s') := drip (sh_faucet sh) a (m_mono m0) (m_utc m2) (m_mono m3) in
  (solo sh (WebTask a WebArrived) [m0; m1; m2; m3]).1 =
    (WebTask a (WebAnswered reply), {| sh_faucet := s'; sh_drips := sh_drips sh |}).
Proof.
  destruct sh as [[rl n amount] rows]. unfold drip, signer_drip. simpl.
  destruct (check rl a (m_mono m0)); simpl; [|done].
  destruct (prepare a amount n) as [[[k bytes]|e] n'] eqn:Ep; simpl; rewrite ?Ep; simpl; [|done].
  destruct (submit bytes amount (m_utc m2)) eqn:Es; simpl; rewrite ?Es; done.
Qed.

(** The two queries of a quiet handler are the two checks of the steps. *)
Lemma quiet_checks m0 m1 m2 m3 m4 req st :
  cooldown_checks cfg (quiet_env m0 m1 m2 m3 m4) 0 (both_checks req) st =
  (match bot_check cfg (bot_drips st) (address_check req) m0 with
   | Some e => Some e
   | None => bot_check cfg (bot_drips st) (user_check req) m1
   end, st).
Proof.
  unfold bot_check, both_checks, address_check, user_check. simpl.
  destruct (last_drip_within_window _ "address" _ _ _ _) as [[]|]; simpl; try done.
  by destruct (last_drip_within_window _ "discord_user_id" _ _ _ _) as [[]|].
Qed.

Lemma bot_alone sh provided req m0 m1 mp m2 m3 m4 :
  let '(o, st') := drip_bot cfg (quiet_env m0 m1 m2 m3 m4) provided req (bot_view sh) in
  (solo sh (BotTask provided req BotArrived) [m0; m1; mp; m2; m3; m4]).1 =
    (BotTask provided req (BotAnswered o),
     {| sh_faucet := with_counter (sh_faucet sh) (bot_nonce st'); sh_drips := bot_drips st' |}).
Proof.
  destruct sh as [[rl n amount] rows]. unfold drip_bot. fold (both_checks req).
  rewrite quiet_checks. simpl.
  destruct (bot_guards cfg provided req) eqn:Eg; simpl; [done|].
  destruct (bot_check cfg rows (address_check req) m0) eqn:E0; simpl; [done|].
  destruct (bot_check cfg rows (user_check req) m1) eqn:E1; simpl; [done|].
  unfold signer_drip, set_counter. simpl.
  destruct (prepare _ _ n) as [[[k bytes]|e] n'] eqn:Ep; simpl; [|done].
  destruct (submit bytes _ (m_utc m2)) eqn:Es; simpl; [|done].
  by destruct (m_fault m3).
Qed.

(** A request alone is its handler.  When the steps of one request run with nothing in
    between, whatever else is in flight, what they do to the shared state and what is
    answered are exactly what the handler's definition says at those moments: the web
    drip's four steps are [drip], the bot's six are [drip_bot]; steps left over after an
    early answer change nothing. *)
Theorem alone_is_handler sys i t :
  tasks sys !! i = Some t ->
  (forall a m0 m1 m2 m3, t = WebTask a WebArrived ->
     let sys' := run sys (pair i <$> [m0; m1; m2; m3]) in
     let '(reply, s') :=
       drip (sh_faucet (shared sys)) a (m_mono m0) (m_utc m2) (m_mono m3) in
     tasks sys' !! i = Some (WebTask a (WebAnswered reply)) /\
     shared sys' = {| sh_faucet := s'; sh_drips := sh_drips (shared sys) |}) /\
  (forall provided req m0 m1 mp m2 m3 m4, t = BotTask provided req BotArrived ->
     let sys' := run sys (pair i <$> [m0; m1; mp; m2; m3; m4]) in
     let '(o, st') :=
       drip_bot cfg (quiet_env m0 m1 m2 m3 m4) provided req (bot_view (shared sys)) in
     tasks sys' !! i = Some (BotTask provided req (BotAnswered o)) /\
     shared sys' = {| sh_faucet := with_counter (sh_faucet (shared sys)) (bot_nonce st');
                      sh_drips := bot_drips st' |}).
Proof.
  intros Hi. split.
  - intros a m0 m1 m2 m3 ->. pose proof (run_solo sys i _ [m0; m1; m2; m3] Hi) as Hrun.
    pose proof (web_alone (shared sys) a m0 m1 m2 m3) as Hw. cbv zeta.
    destruct (solo _ _ _) as [[t' sh'] pays]. destruct Hrun as (-> & -> & _).
    destruct (drip _ _ _ _ _) as [reply s']. simpl in Hw. by simplify_eq.
  - intros provided req m0 m1 mp m2 m3 m4 ->.
    pose proof (run_solo sys i _ [m0; m1; mp; m2; m3; m4] Hi) as Hrun.
    pose proof (bot_alone (shared sys) provided req m0 m1 mp m2 m3 m4) as Hw. cbv zeta.
    destruct (solo _ _ _) as [[t' sh'] pays]. destruct Hrun as (-> & -> & _).
    destruct (drip_bot _ _ _ _ _) as [o st']. simpl in Hw. by simplify_eq.
Qed.

(** ** Every request is answered *)

(** The steps a request is from its answer. *)
Definition distance (t : Task) : nat :=
  match t with
  | WebTask _ WebArrived => 4
  | WebTask _ WebCleared => 3
  | WebTask _ (WebSigned _ _) => 2
  | WebTask _ (WebAccepted _) => 1
  | WebTask _ (WebAnswered _) => 0
  | BotTask _ _ BotArrived => 6
  | BotTask _ _ BotAddressClear => 5
  | BotTask _ _ BotClear => 4
  | BotTask _ _ (BotSigned _ _) => 3
  | BotTask _ _ (BotAccepted _) => 2
  | BotTask _ _ (BotPersisted _) => 1
  | BotTask _ _ (BotAnswered _) => 0
  end.

Lemma distance_answered t : distance t = 0%nat <-> answered t.
Proof. by destruct t as [? []|? ? []]; simpl; split. Qed.

Lemma distance_step sh t m : (distance (task_step sh t m).1.1 <= pred (distance t))%nat.
Proof. by_step t; simpl; lia. Qed.

Definition turns (i : nat) (sched : list (nat * Moment)) : nat :=
  length (filter (fun it : nat * Moment => it.1 = i) sched).

Lemma turns_cons i j m sched :
  turns i ((j, m) :: sched) = ((if decide (j = i) then 1 else 0) + turns i sched)%nat.
Proof. unfold turns. rewrite filter_cons. simpl. by destruct (decide (j = i)). Qed.

(** A request is answered once it has had six turns, whatever the others do, the chain and
    the database answer, and however the turns are spread. *)
Theorem answered_in_six sys sched i t :
  tasks sys !! i = Some t -> (6 <= turns i sched)%nat ->
  exists t', tasks (run sys sched) !! i = Some t' /\ answered t' /\ request t' = request t.
Proof.
  intros Hi Hturns. assert (distance t <= turns i sched)%nat as Hd
    by (etransitivity; [|exact Hturns]; destruct t as [? []|? ? []]; simpl; lia).
  clear Hturns. revert sys t Hi Hd.
  induction sched as [|[j m] sched IH]; intros sys t Hi Hd.
  { exists t. split_and!; [done| |done]. apply distance_answered. unfold turns in Hd. simpl in Hd. lia. }
  change (run sys ((j, m) :: sched)) with (run (step sys j m) sched).
  destruct (tasks_step sys j m i t Hi) as (u & Hu & Hr & Hne).
  destruct (IH (step sys j m) u Hu) as (t' & ? & ? & Hr'); [|exists t'; by rewrite <- Hr].
  rewrite turns_cons in Hd. destruct (decide (j = i)) as [->|Hji].
  - rewrite (step_at sys i m t Hi) in Hu. simpl in Hu. rewrite lookup_insert_eq in Hu.
    injection Hu as <-. pose proof (distance_step (shared sys) t m). lia.
  - rewrite Hne by done. done.
Qed.

(** ** What is not guaranteed *)

(** A chain that takes whatever it is sent. *)
Definition willing : Prop :=
  (forall to amount n, exists bytes, sign_transfer to amount n = Ok bytes) /\
  (forall bytes t, exists h, submit_raw_tx bytes t = Ok h).

(** A request that would be paid if it ran alone at [m]. *)
Definition payable (sh : Shared) (m : Moment) (t : Task) : Prop :=
  match t with
  | WebTask a WebArrived =>
      check (limiter (sh_faucet sh)) a (m_mono m) = Allowed /\
      exists to, parse_address a = Ok to
  | BotTask provided req BotArrived =>
      bot_guards cfg provided req = None /\
      bot_check cfg (sh_drips sh) (address_check req) m = None /\
      bot_check cfg (sh_drips sh) (user_check req) m = None /\
      exists to, parse_address (req_address req) = Ok to
  | _ => False
  end.

(** The steps of a request up to the acceptance, but not to its record. *)
Definition to_acceptance (t : Task) : nat := match t with WebTask _ _ => 3 | _ => 4 end.

Fixpoint overlap (m : Moment) (i : nat) (requests : list Task) : Schedule :=
  match requests with
  | [] => []
  | t :: rest => (pair i <$> repeat m (to_acceptance t)) ++ overlap m (S i) rest
  end.

Lemma willing_prepare a amount n to :
  willing -> parse_address a = Ok to ->
  exists bytes, prepare a amount n = (Ok (n, bytes), as_u64 (n + 1)).
Proof.
  intros [Hsign _] Ha. destruct (Hsign to amount n) as [bytes Hb]. exists bytes.
  unfold prepare. rewrite Ha. simpl. by rewrite Hb.
Qed.

Lemma willing_submit bytes amount t :
  willing -> exists receipt, submit bytes amount t = Ok receipt.
Proof.
  intros [_ Hs]. destruct (Hs bytes t) as [h Hh]. unfold submit. rewrite Hh. by eexists.
Qed.

Lemma accepted_solo sh t m :
  willing -> payable sh m t ->
  let '(t', sh', pays) := solo sh t (repeat m (to_acceptance t)) in
  (exists p, pays = [p]) /\ limiter (sh_faucet sh') = limiter (sh_faucet sh) /\
  sh_drips sh' = sh_drips sh.
Proof.
  intros Hw Hp. destruct sh as [[rl n amount] rows].
  destruct t as [a []|provided req []]; try done; simpl in *.
  - destruct Hp as [Hc [to Hto]]. rewrite Hc. simpl.
    destruct (willing_prepare a amount n to Hw Hto) as [bytes Eb]. rewrite Eb. simpl.
    destruct (willing_submit bytes amount (m_utc m) Hw) as [r Er]. rewrite Er. simpl. eauto.
  - destruct Hp as (Hg & Ha & Hu & [to Hto]). rewrite Hg, Ha. simpl. rewrite Hu. simpl.
    destruct (willing_prepare _ (req_amount_nano req) n to Hw Hto) as [bytes Eb].
    rewrite Eb. simpl.
    destruct (willing_submit bytes (req_amount_nano req) (m_utc m) Hw) as [r Er].
    rewrite Er. simpl. eauto.
Qed.

Lemma payable_same sh sh' m t :
  limiter (sh_faucet sh') = limiter (sh_faucet sh) -> sh_drips sh' = sh_drips sh ->
  payable sh m t -> payable sh' m t.
Proof. intros Hl Hd. unfold payable. by rewrite Hl, Hd. Qed.

Lemma overlap_pays m requests sys i :
  willing -> Forall (payable (shared sys) m) requests ->
  (forall k t, requests !! k = Some t -> tasks sys !! (i + k)%nat = Some t) ->
  let sys' := run sys (overlap m i requests) in
  reverse (ledger sys').*1 = reverse (ledger sys).*1 ++ seq i (length requests) /\
  limiter (sh_faucet (shared sys')) = limiter (sh_faucet (shared sys)) /\
  sh_drips (shared sys') = sh_drips (shared sys).
Proof.
  intros Hw. revert sys i. induction requests as [|t requests IH]; intros sys i Hp Hreq.
  { simpl. by rewrite app_nil_r. }
  apply Forall_cons in Hp as [Ht Hp]. pose proof (Hreq 0%nat t eq_refl) as Hi.
  rewrite Nat.add_0_r in Hi. simpl. unfold run at 1 2 3. rewrite !fold_left_app.
  pose proof (run_solo sys i t (repeat m (to_acceptance t)) Hi) as Hrun.
  pose proof (accepted_solo (shared sys) t m Hw Ht) as Hacc.
  destruct (solo _ _ _) as [[t' sh'] pays].
  fold (run sys (pair i <$> repeat m (to_acceptance t))).
  set (sys1 := run sys (pair i <$> repeat m (to_acceptance t))) in *.
  destruct Hrun as (Hsh & _ & Hled & Hne). destruct Hacc as ([p ->] & Hl & Hd).
  destruct (IH sys1 (S i)) as (Hled' & Hl' & Hd').
  - rewrite Hsh. eapply Forall_impl; [exact Hp|]. intros u. by apply payable_same.
  - intros k u Hk. rewrite Hne by lia. replace (S i + k)%nat with (i + S k)%nat by lia. by apply Hreq.
  - fold (run sys1 (overlap m (S i) requests)). rewrite Hled', Hl', Hd', Hled, Hsh. simpl.
    rewrite reverse_cons, <- app_assoc. done.
Qed.

(** The cooldown counts only what has been recorded.  Any number of requests, each of which
    would be paid if it came alone, are all paid at one instant when they reach the chain
    before the first of them is recorded: requests in flight together, for one address or
    one Discord user, or requests whose clients go away before the inclusion wait ends, so
    that nothing is recorded at all. *)
Theorem unrecorded_drips_repeat sh requests m :
  willing -> Forall (payable sh m) requests ->
  let sys := run (receive sh requests) (overlap m 0 requests) in
  reverse (ledger sys).*1 = seq 0 (length requests) /\
  limiter (sh_faucet (shared sys)) = limiter (sh_faucet sh) /\
  sh_drips (shared sys) = sh_drips sh.
Proof.
  intros Hw Hp. apply (overlap_pays m requests (receive sh requests) 0 Hw Hp).
  intros k t Hk. simpl. by rewrite lookup_map_seq_0.
Qed.
End ConcurrentSpec.

(** ** At concrete inputs *)

Section ConcurrentWitnesses.
#[local] Existing Instances SampleHex.hex SampleHex.hex_laws sample_sdk sample_time.

Definition moment (t : Z) : Moment :=
  {| m_mono := t; m_utc := t; m_db := t; m_fault := NoFault |}.

(** A counter about to wrap, a web window of ten, and a row for one user. *)
Definition sample_shared : Shared :=
  {| sh_faucet := {| limiter := new_limiter 10; nonce_counter := u64_max;
                     drip_amount := 1000 |};
     sh_drips := bot_drips dripped_once |}.

Definition web_request (a : string) : Task := WebTask a WebArrived.
Definition bot_task (a u : string) : Task := BotTask (Some "s3cret") (bot_request a u) BotArrived.

(** Two web drips and two of the bot, one of these inside a window and refused. *)
Definition sample_requests : list Task :=
  [web_request "lig1a"; bot_task "lig1a" "2"; bot_task "lig1b" "3"; web_request "lig1a"].

(** The first web drip and the second of the bot interleaved; the other web drip comes when
    its address's window is over. *)
Definition sample_schedule : Schedule :=
  [(0%nat, moment 60); (2%nat, moment 61); (1%nat, moment 61); (2%nat, moment 62);
   (0%nat, moment 62); (2%nat, moment 62); (2%nat, moment 63); (0%nat, moment 64);
   (0%nat, moment 65); (2%nat, moment 66); (2%nat, moment 66); (3%nat, moment 75);
   (3%nat, moment 76); (3%nat, moment 77); (3%nat, moment 78)].

Example sample_ledger :
  (fun it : nat * Payment => (it.1, pay_nonce it.2, pay_amount it.2)) <$>
    ledger (run bot_config (receive sample_shared sample_requests) sample_schedule) =
  [(3%nat, 1, 1000); (0%nat, u64_max, 1000); (2%nat, 0, 250000000000)].
Proof. vm_compute. reflexivity. Qed.

Lemma concurrent_nonces_witness :
  NoDup (pay_nonce <$> (ledger (run bot_config (receive sample_shared sample_requests)
    sample_schedule)).*2).
Proof.
  apply (concurrent_nonces bot_config sample_shared sample_requests sample_schedule).
  - vm_compute. split; congruence.
  - repeat constructor.
  - vm_compute. congruence.
Defined.

Example sample_history :
  history bot_config (receive sample_shared sample_requests) sample_schedule =
  [Passed (WebAddress "lig1a") 60; Passed (BotAddress "lig1b") 61; Passed (BotUser "3") 62;
   Recorded (WebAddress "lig1a") 65; Recorded (BotAddress "lig1b") 66;
   Recorded (BotUser "3") 66; Passed (WebAddress "lig1a") 75;
   Recorded (WebAddress "lig1a") 78].
Proof. vm_compute. reflexivity. Qed.

Lemma cooldown_unless_overlapping_witness :
  ForallOrdPairs (fun e e' => forall c t t', e = Recorded c t -> e' = Passed c t' ->
      apart bot_config sample_shared c t t')
    [Passed (WebAddress "lig1a") 60; Passed (BotAddress "lig1b") 61; Passed (BotUser "3") 62;
     Recorded (WebAddress "lig1a") 65; Recorded (BotAddress "lig1b") 66;
     Recorded (BotUser "3") 66; Passed (WebAddress "lig1a") 75;
     Recorded (WebAddress "lig1a") 78].
Proof.
  rewrite <- sample_history.
  apply (cooldown_unless_overlapping bot_config sample_shared sample_requests sample_schedule 0).
  - repeat constructor.
  - simpl. lia.
Defined.

Lemma alone_is_handler_witness :
  tasks (run bot_config (receive sample_shared sample_requests)
    (pair 0%nat <$> [moment 1; moment 2; moment 3; moment 4])) !! 0%nat =
  Some (WebTask "lig1a" (WebAnswered (Dripped "lig1a"
    {| r_tx_hash := "0x01"; r_amount_nano := 1000 |}))).
Proof.
  destruct (alone_is_handler bot_config (receive sample_shared sample_requests) 0
    (web_request "lig1a") eq_refl) as [Hweb _].
  exact (proj1 (Hweb "lig1a" (moment 1) (moment 2) (moment 3) (moment 4) eq_refl)).
Defined.

Lemma answered_in_six_witness :
  exists t, tasks (run bot_config (receive sample_shared sample_requests) sample_schedule)
    !! 2%nat = Some t /\ answered t.
Proof.
  destruct (answered_in_six bot_config (receive sample_shared sample_requests) sample_schedule 2
    (bot_task "lig1b" "3") eq_refl) as (t & Ht & Ha & _).
  - vm_compute. lia.
  - exists t. split; assumption.
Defined.

(** Four drips at one instant: two to one address on the web, two for one user of the bot. *)
Lemma unrecorded_drips_repeat_witness :
  let requests := [web_request "lig1a"; web_request "lig1a"; bot_task "lig1c" "7";
                   bot_task "lig1c" "7"] in
  reverse (ledger (run bot_config (receive sample_shared requests)
    (overlap (moment 100) 0 requests))).*1 = [0; 1; 2; 3]%nat.
Proof.
  apply (unrecorded_drips_repeat bot_config sample_shared
    [web_request "lig1a"; web_request "lig1a"; bot_task "lig1c" "7"; bot_task "lig1c" "7"]
    (moment 100)).
  - split; [intros to amount n; by exists [n]|intros bytes t; by exists "0x01"].
  - repeat constructor; try (vm_compute; reflexivity); try (by eexists).
Defined.
End ConcurrentWitnesses.
