(* ===== verification/Startup.v ===== *)
(** * Start-up ([crates/api/src/main.rs], [crates/drip/src/signer.rs])

    Building the signer (key and URL checks, nonce seeded from the chain unless pinned),
    its read-only queries, the drip-budget check that guards the boot, and the text that
    hides the database credentials in a log line.  Errors are the outermost message. *)

From S2P Require Import Prelude Json Io Client Config Drip.
Open Scope string_scope.
Open Scope list_scope.
Open Scope Z_scope.
Open Scope io_scope.

(** What the code uses of the chain SDK and the hex crate's error beside [ChainSdk]: key
    and token shapes, and the reads.  A read may answer differently at every instant. *)
Class SdkReads := {
  PrivateKey : Type;
  TokenId : Type;
  hex_error : string -> string;
  private_key_try_from : list Z -> result string PrivateKey;
  token_id_try_from : list Z -> result string TokenId;
  sov_address : PrivateKey -> string;
  token_to_bech32 : TokenId -> string;
  get_nonce_for_public_key : nat -> string -> PrivateKey -> result string Z;
  get_balance_for_holder : nat -> string -> string -> TokenId -> result string Z;
  sdk_http_get : nat -> string -> string -> result string string
}.

(** A read of the chain at the current instant. *)
Definition at_tick {A} (f : nat -> A) : IO A := fun _ w => (Done (f w.(w_tick)), tick w).

Lemma at_tick_evolves R `{!PreOrder R} {A} (f : nat -> A) : evolves R (at_tick f).
Proof. intros e w _. simpl. reflexivity. Qed.

(** [Display] of a [SignerError]. *)
Definition signer_error_text (e : SignerError) : string :=
  match e with
  | InvalidAddress m => "invalid recipient address: " ++ m
  | InvalidSignerKey m => "invalid signer key: " ++ m
  | SubmitFailed m => "chain submission failed: " ++ m
  end%string.

Section Startup.
Context `{Hex} `{SdkReads} `{JsonText}.

Record Signer := {
  private_key : PrivateKey;
  submitter_url : string;
  sg_chain_hash : list Z;
  sg_chain_id : Z;
  avow_token_id : TokenId;
  sg_nonce : Z
}.

Definition signer_new (signing_key_hex chain_rpc : string) (chain_id : Z)
    (chain_hash : list Z) (avow_token_id : TokenId) (starting_nonce : Z)
  : result SignerError Signer :=
  if negb (String.length signing_key_hex =? 64)%nat
  then Err (InvalidSignerKey ("expected 64 hex chars, got " ++
              to_string (Z.of_nat (String.length signing_key_hex)))%string)
  else
    key_bytes ← match hex_decode signing_key_hex with
                | Some b => Ok b
                | None => Err (InvalidSignerKey ("hex decode: " ++
                                 hex_error signing_key_hex)%string)
                end;
    private_key ← map_err (fun e => InvalidSignerKey ("key shape: " ++ e)%string)
                    (private_key_try_from key_bytes);
    Ok {| private_key := private_key; submitter_url := chain_rpc_with_v1 chain_rpc;
          sg_chain_hash := chain_hash; sg_chain_id := chain_id;
          avow_token_id := avow_token_id; sg_nonce := starting_nonce |}.

Definition store_nonce (n : Z) (s : Signer) : Signer :=
  {| private_key := s.(private_key); submitter_url := s.(submitter_url);
     sg_chain_hash := s.(sg_chain_hash); sg_chain_id := s.(sg_chain_id);
     avow_token_id := s.(avow_token_id); sg_nonce := n |}.

Definition new_with_chain_seed (signing_key_hex chain_rpc : string) (chain_id : Z)
    (chain_hash : list Z) (avow_token_id : TokenId) (starting_nonce_override : option Z)
  : IO (result string (Signer * Z)) :=
  match signer_new signing_key_hex chain_rpc chain_id chain_hash avow_token_id 0 with
  | Err e => mret (Err (signer_error_text e))
  | Ok signer =>
      resolved ←? match starting_nonce_override with
                  | Some n => mret (Ok n)
                  | None =>
                      r ← at_tick (fun t => get_nonce_for_public_key t
                                     signer.(submitter_url) signer.(private_key));
                      mret (map_err (fun _ => "fetching on-chain nonce at signer init") r)
                  end;
      mret (Ok (store_nonce resolved signer, resolved))
  end.

Definition signer_address (self : Signer) : string := sov_address self.(private_key).

Definition query_balance_for (self : Signer) (address : string)
  : IO (result (list string) Z) :=
  r ← at_tick (fun t => get_balance_for_holder t self.(submitter_url) address
                          self.(avow_token_id));
  mret (map_err (fun e => [("querying AVOW balance for " ++ address)%string; e]) r).

Definition query_self_balance (self : Signer) : IO (result (list string) Z) :=
  query_balance_for self (signer_address self).

Definition de_SupplyResp (v : Value) : option string :=
  match struct_fields ["amount"] v with
  | Some [x_amount] => field de_string x_amount
  | _ => None
  end.

Definition query_total_supply (self : Signer) : IO (result string Z) :=
  let path := ("/modules/bank/tokens/" ++ token_to_bech32 self.(avow_token_id) ++
               "/total-supply")%string in
  r ← at_tick (fun t => sdk_http_get t self.(submitter_url) path);
  mret (body ← map_err (fun _ => "fetching total supply via " ++ path)%string r;
        amount ← match json_parse body ≫= de_SupplyResp with
                 | Some a => Ok a
                 | None => Err ("parsing total-supply response: " ++ body)%string
                 end;
        match parse_uint u128_max amount with
        | Some n => Ok n
        | None => Err ("total-supply.amount not a u128: " ++ amount)%string
        end).

(** ** The boot *)

(** [for attempt in 0..max_attempts]; the sleep between attempts reads the clock. *)
Fixpoint query_balance_with_retry (signer : Signer) (max_attempts : nat)
    (last_err : option (list string)) : IO (result (list string) Z) :=
  match max_attempts with
  | O => mret (Err (default ["balance query failed with no error captured"] last_err))
  | S rest =>
      r ← query_self_balance signer;
      match r with
      | Ok b => mret (Ok b)
      | Err e => _ ← io_now; query_balance_with_retry signer rest (Some e)
      end
  end.

(** [a / b] on unsigned integers panics when [b] is zero. *)
Definition checked_div (a b : Z) : outcome Z := if b =? 0 then Panicked else Done (a / b).

Definition budget_check (config : Config) (signer : Signer) : IO (result string unit) :=
  if 0 <? config.(drip_min_budget) then
    r ← query_balance_with_retry signer 5 None;
    match r with
    | Ok balance =>
        budget ← lift (checked_div balance config.(cfg_drip_amount));
        if as_u64 budget <? config.(drip_min_budget)
        then mret (Err ("drip signer balance (" ++ to_string balance ++
               " nano-AVOW) covers only " ++ to_string budget ++ " drips at " ++
               to_string config.(cfg_drip_amount) ++ " nano-AVOW/drip; minimum is " ++
               to_string config.(drip_min_budget) ++ " (DRIP_MIN_BUDGET). Fund the signer " ++
               "or lower DRIP_AMOUNT before starting.")%string)
        else mret (Ok tt)
    | Err e =>
        mret (Err ("drip-budget check failed: " ++ String.concat ": " e ++ ". Set DRIP_MIN_BUDGET=0 to skip if "
               ++ "the chain is intentionally unreachable at boot.")%string)
    end
  else mret (Ok tt).

(** [main], from the loaded configuration to the signer the handlers share. *)
Definition boot_signer (config : Config) : IO (result string Signer) :=
  match hex_decode config.(avow_token_id_hex) with
  | None => mret (Err "AVOW_TOKEN_ID must be valid hex")
  | Some token_id_bytes =>
      match token_id_try_from token_id_bytes with
      | Err e => mret (Err ("AVOW_TOKEN_ID wrong shape: " ++ e)%string)
      | Ok token =>
          seeded ← new_with_chain_seed config.(drip_signer_key) config.(chain_rpc)
                     config.(Config.chain_id) config.(Config.chain_hash) token
                     config.(drip_starting_nonce);
          match seeded with
          | Err _ => mret (Err "building drip signer")
          | Ok (signer, _) =>
              _ ←? budget_check config signer;
              mret (Ok signer)
          end
      end
  end.

(** ** What the boot guarantees *)

(** The balance the [k]-th attempt is answered: an attempt reads the chain, and a failed
    one sleeps. *)
Definition attempt (s : Signer) (w : World) (k : nat) : result string Z :=
  get_balance_for_holder (w.(w_tick) + 2 * k) s.(submitter_url) (signer_address s)
    s.(avow_token_id).

(** Attempt [k] is the first to be answered, with balance [b]. *)
Definition first_answer (s : Signer) (w : World) (n k : nat) (b : Z) : Prop :=
  (k < n)%nat /\ attempt s w k = Ok b /\
  forall j, (j < k)%nat -> exists err, attempt s w j = Err err.

Lemma retry_answer s e n last w :
  exists w',
    (exists k b, first_answer s w n k b /\
       query_balance_with_retry s n last e w = (Done (Ok b), w')) \/
    ((forall j, (j < n)%nat -> exists err, attempt s w j = Err err) /\
     exists err, query_balance_with_retry s n last e w = (Done (Err err), w')).
Proof.
  revert last w. induction n as [|n IH]; intros last w.
  { eexists. right. split; [lia|]. by eexists. }
  cbn [query_balance_with_retry]. unfold query_self_balance, query_balance_for, at_tick, mbind,
    io_bind, mret, io_ret. cbv beta iota.
  assert (attempt s w 0 = get_balance_for_holder (w_tick w) (submitter_url s) (signer_address s)
    (avow_token_id s)) as E0 by (unfold attempt; do 2 f_equal; lia).
  destruct (get_balance_for_holder _ _ _ _) as [b|err] eqn:E; cbv beta iota delta [map_err].
  - eexists. left. exists 0%nat, b. split; [|done]. split; [lia|]. split; [done|lia].
  - simpl. destruct (IH (Some [("querying AVOW balance for " ++ signer_address s)%string; err])
      (tick (tick w))) as [w' [(k & b & (Hk & Ha & Hj) & Hr)|[Hj Hr]]].
    + exists w'. left. exists (S k), b. split; [|exact Hr]. split; [lia|]. split.
      * rewrite <- Ha. unfold attempt. simpl. do 2 f_equal. lia.
      * intros [|j] Hlt; [eauto|]. destruct (Hj j) as [err' He]; [lia|]. exists err'.
        rewrite <- He. unfold attempt. simpl. do 2 f_equal. lia.
    + exists w'. right. split; [|exact Hr].
      intros [|j] Hlt; [eauto|]. destruct (Hj j) as [err' He]; [lia|]. exists err'.
      rewrite <- He. unfold attempt. simpl. do 2 f_equal. lia.
Qed.

(** What decides a boot: the first balance answered within five attempts. *)
Lemma budget_check_cases config s e w :
  exists w',
    (config.(drip_min_budget) <= 0 /\ budget_check config s e w = (Done (Ok tt), w')) \/
    (0 < config.(drip_min_budget) /\
     ((exists k b, first_answer s w 5 k b /\
         let amount := config.(cfg_drip_amount) in
         (amount = 0 /\ budget_check config s e w = (Panicked, w')) \/
         (amount <> 0 /\ config.(drip_min_budget) <= as_u64 (b / amount) /\
          budget_check config s e w = (Done (Ok tt), w')) \/
         (amount <> 0 /\ as_u64 (b / amount) < config.(drip_min_budget) /\
          exists m, budget_check config s e w = (Done (Err m), w'))) \/
      (forall j, (j < 5)%nat -> exists err, attempt s w j = Err err) /\
      exists m, budget_check config s e w = (Done (Err m), w'))).
Proof.
  unfold budget_check. destruct (Z.ltb_spec 0 (drip_min_budget config)) as [Hm|Hm].
  2: { eexists. left. done. }
  destruct (retry_answer s e 5 None w) as (w' & [(k & b & Ha & Hr)|[Ha [err Hr]]]).
  - exists w'. right. split; [done|]. left. exists k, b. split; [done|].
    unfold mbind, io_bind. rewrite Hr. unfold lift, checked_div. destruct (Z.eqb_spec (cfg_drip_amount config) 0) as [Hz|Hz]; [by left|].
    right. destruct (Z.ltb_spec (as_u64 (b / cfg_drip_amount config)) (drip_min_budget config));
      [right|left]; split_and!; first [done|by eexists].
  - exists w'. right. split; [done|]. right. split; [done|]. unfold mbind, io_bind.
    rewrite Hr. by eexists.
Qed.

Lemma budget_covers b amount min :
  0 <= b -> 0 < amount -> 0 < min -> min <= as_u64 (b / amount) -> min * amount <= b.
Proof.
  intros Hb Ha Hm Hle.
  assert (0 <= b / amount) by (apply Z.div_pos; lia).
  assert (as_u64 (b / amount) <= b / amount)
    by (unfold as_u64, as_unsigned; apply Z.mod_le; lia).
  pose proof (Z.mul_div_le b amount Ha). nia.
Qed.

(** A process that boots with a budget check has, among five answers of the chain, one
    that pays for the minimal number of drips; and its nonce counter is the pinned nonce,
    or else the one the chain reported for its key. *)
Theorem boot_signer_ready config e w s w' :
  (forall t u a k b, get_balance_for_holder t u a k = Ok b -> 0 <= b) ->
  0 <= config.(cfg_drip_amount) ->
  boot_signer config e w = (Done (Ok s), w') ->
  (0 < config.(drip_min_budget) ->
     exists t balance,
       get_balance_for_holder t s.(submitter_url) (sov_address s.(private_key))
         s.(avow_token_id) = Ok balance /\
       config.(drip_min_budget) * config.(cfg_drip_amount) <= balance) /\
  s.(sg_chain_hash) = config.(Config.chain_hash) /\
  s.(sg_chain_id) = config.(Config.chain_id) /\
  s.(submitter_url) = chain_rpc_with_v1 config.(chain_rpc) /\
  match config.(drip_starting_nonce) with
  | Some n => s.(sg_nonce) = n
  | None => exists t, get_nonce_for_public_key t s.(submitter_url) s.(private_key) =
                        Ok s.(sg_nonce)
  end.
Proof.
  intros Hbal Hamt. unfold boot_signer, new_with_chain_seed.
  destruct (hex_decode (avow_token_id_hex config)) as [bytes|]; [|done].
  destruct (token_id_try_from bytes) as [token|]; [|done].
  destruct (signer_new _ _ _ _ _ _) as [s0|] eqn:E0; [|done].
  assert (sg_chain_hash s0 = Config.chain_hash config /\ sg_chain_id s0 = Config.chain_id config /\
    submitter_url s0 = chain_rpc_with_v1 (chain_rpc config)) as (Hh & Hi & Hu).
  { unfold signer_new in E0. destruct (negb _); [done|].
    destruct (hex_decode (drip_signer_key config)); [|done]. simpl in E0.
    destruct (private_key_try_from _); simplify_eq/=. done. }
  assert (forall n w1 w2, (match budget_check config (store_nonce n s0) e w1 with
      | (Done (Ok _), w3) => (Done (Ok (store_nonce n s0)), w3)
      | (Done (Err m), w3) => (Done (Err m), w3)
      | (Panicked, w3) => (Panicked, w3) end) = (Done (Ok s), w2) ->
    s = store_nonce n s0 /\ (0 < drip_min_budget config ->
     exists t balance,
       get_balance_for_holder t s.(submitter_url) (sov_address s.(private_key))
         s.(avow_token_id) = Ok balance /\
       drip_min_budget config * cfg_drip_amount config <= balance)) as Hcheck.
  { intros n w1 w2. destruct (budget_check_cases config (store_nonce n s0) e w1) as
      (w3 & [[Hm ->]|[Hm [(k & b & (_ & Ha & _) & Hc)|[_ [m ->]]]]]).
    - intros [= <- <-]. split; [done|lia].
    - destruct Hc as [[_ ->]|[(Hz & Hle & ->)|(_ & _ & m & ->)]]; [done| |done].
      intros [= <- <-]. split; [done|]. intros _. exists (w_tick w1 + 2 * k)%nat, b.
      split; [exact Ha|]. apply budget_covers; [by eapply Hbal|lia|done|done].
    - done. }
  unfold mbind, io_bind, try, mbind, io_bind, mret, io_ret, at_tick.
  destruct (drip_starting_nonce config) as [n|]; cbv beta iota.
  - destruct (budget_check _ _ _ _) as [[[[]|m]|] w3] eqn:Eb; try done.
    intros [= <- <-]. destruct (Hcheck n w w3) as [_ Hc]; [by rewrite Eb|]. done.
  - destruct (get_nonce_for_public_key _ _ _) as [n|] eqn:En; cbv beta iota delta [map_err]; [|done].
    destruct (budget_check _ _ _ _) as [[[[]|m]|] w3] eqn:Eb; try done.
    intros [= <- <-]. destruct (Hcheck n (tick w) w3) as [_ Hc]; [by rewrite Eb|].
    split_and!; [done..|]. by exists (w_tick w).
Qed.

(** A drip amount of zero, which the configuration accepts, makes the budget check
    divide by zero: with a check configured the boot panics exactly when the chain
    answers one of the five balance queries. *)
Theorem budget_check_panics config s e w :
  (budget_check config s e w).1 = Panicked <->
  0 < config.(drip_min_budget) /\ config.(cfg_drip_amount) = 0 /\
  exists k b, first_answer s w 5 k b.
Proof.
  destruct (budget_check_cases config s e w) as
    (w' & [[Hm ->]|[Hm [(k & b & Ha & Hc)|[Hj [m ->]]]]]).
  - split; [done|lia].
  - destruct Hc as [[Hz ->]|[(Hz & _ & ->)|(Hz & _ & m & ->)]];
      [split; by eauto 6|by split; [|intros (_ & ? & _)]..].
  - split; [done|]. intros (_ & _ & k & b & Hk & Ha & _). destruct (Hj k Hk). congruence.
Qed.
End Startup.

(** [str::find] with a text pattern. *)
Fixpoint str_find (pat s : string) : option nat :=
  if String.prefix pat s then Some 0%nat
  else match s with EmptyString => None | String _ r => S <$> str_find pat r end.

Definition redact_pg_url (url : string) : string :=
  match str_find "@" url with
  | Some at_ =>
      match str_find "://" url with
      | Some scheme_end =>
          (substring 0 scheme_end url ++ "://[redacted]@" ++
           substring (at_ + 1) (String.length url - (at_ + 1)) url)%string
      | None => url
      end
  | None => url
  end.

(** ** The logged database URL *)

Lemma prefix_refl_app (p s : string) : String.prefix p (p ++ s) = true.
Proof.
  induction p as [|c p IH]; [by destruct s|]. rewrite string_app_cons. simpl.
  by destruct (ascii_dec c c).
Qed.

(** A pattern is found behind text that does not contain its first character. *)
Lemma str_find_app c p l r :
  c ∉ list_ascii_of_string l ->
  str_find (String c p) (l ++ String c p ++ r)%string = Some (String.length l).
Proof.
  induction l as [|a l IH]; intros Hc.
  - change (EmptyString ++ String c p ++ r)%string with (String c p ++ r)%string.
    destruct (String c p ++ r)%string eqn:E; [done|].
    unfold str_find. rewrite <- E, prefix_refl_app. done.
  - simpl in Hc. apply not_elem_of_cons in Hc as [Hca Hl].
    specialize (IH Hl). simpl in *. destruct (ascii_dec c a); [done|]. by rewrite IH.
Qed.

Lemma substring_prefix_app a b : substring 0 (String.length a) (a ++ b) = a.
Proof.
  induction a as [|c a IH]; [by destruct b|]. rewrite string_app_cons. simpl. by rewrite IH.
Qed.

Lemma substring_whole s : substring 0 (String.length s) s = s.
Proof. induction s as [|c s IH]; simpl; [done|by rewrite IH]. Qed.

Lemma substring_suffix_app a b : substring (String.length a) (String.length b) (a ++ b) = b.
Proof.
  induction a as [|c a IH]; [apply substring_whole|]. rewrite string_app_cons. exact IH.
Qed.

(** What a log line shows of a database URL.  Everything up to the first at sign is
    hidden and everything behind it is shown: credentials without an at sign never
    appear, but the tail of a password that contains one does. *)
Theorem redact_pg_url_first_at scheme creds rest :
  ":"%char ∉ list_ascii_of_string scheme ->
  "@"%char ∉ list_ascii_of_string (scheme ++ creds) ->
  redact_pg_url (scheme ++ "://" ++ creds ++ "@" ++ rest) =
    (scheme ++ "://[redacted]@" ++ rest)%string.
Proof.
  intros Hs Hc. unfold redact_pg_url.
  set (head := (scheme ++ "://" ++ creds)%string).
  assert (scheme ++ "://" ++ creds ++ "@" ++ rest = head ++ "@" ++ rest)%string as ->.
  { unfold head. by rewrite !string_app_assoc. }
  rewrite (str_find_app "@" EmptyString head rest).
  2: { unfold head. rewrite !list_ascii_app in *. simpl. set_solver. }
  assert (head ++ "@" ++ rest = scheme ++ "://" ++ creds ++ "@" ++ rest)%string as Hu.
  { unfold head. by rewrite !string_app_assoc. }
  rewrite Hu, (str_find_app ":" "//" scheme), substring_prefix_app, <- Hu by done.
  do 2 f_equal.
  assert (head ++ "@" ++ rest = (head ++ "@") ++ rest)%string as ->
    by (by rewrite string_app_assoc).
  assert (String.length head + 1 = String.length (head ++ "@"))%nat as ->
    by (by rewrite string_length_app).
  replace (String.length ((head ++ "@") ++ rest) - String.length (head ++ "@"))%nat
    with (String.length rest) by (rewrite !string_length_app; lia).
  by rewrite substring_suffix_app.
Qed.

(** ** At concrete inputs

    A chain that is down for the first queries, then reports a nonce and a balance. *)
Module SampleSdk.
#[export] Instance sdk : SdkReads := {|
  PrivateKey := list Z;
  TokenId := list Z;
  hex_error _ := "odd";
  private_key_try_from l := Ok l;
  token_id_try_from l := Ok l;
  sov_address _ := "lig1faucet";
  token_to_bech32 _ := "token_1";
  get_nonce_for_public_key _ _ _ := Ok 4;
  get_balance_for_holder t _ _ _ := if (t <? 3)%nat then Err "down" else Ok 10000000000000;
  sdk_http_get _ _ _ := Err "down"
|}.

Definition env : Env := {| env_http _ _ _ := NoReply; env_now _ := 0;
  env_fault _ := NoFault; env_other _ d := d |}.
Definition world : World := {| w_db := Schema.empty_db; w_tick := 0 |}.

(** The sample environment, with [DRIP_AMOUNT] set. *)
Definition vars (amount : string) : Vars := fun name =>
  if (name =? "DRIP_AMOUNT")%string then Some amount else SampleHex.vars "" name.

Definition config (amount : string) : option Config :=
  match from_env (H := SampleHex.hex) (vars amount) with Done (Ok c) => Some c | _ => None end.

(** The configuration accepts a drip amount of zero, and the boot panics on it. *)
Example zero_amount_panics :
  match config "0" with
  | Some c => (boot_signer (H := SampleHex.hex) c env world).1 = Panicked
  | None => False
  end.
Proof. vm_compute. reflexivity. Qed.
End SampleSdk.
Import SampleSdk.

Lemma boot_signer_ready_witness :
  match SampleSdk.config "100000000000" with
  | Some c =>
      match boot_signer (H := SampleHex.hex) c SampleSdk.env SampleSdk.world with
      | (Done (Ok s), _) => 100 * 100000000000 <= 10000000000000 /\ s.(sg_nonce) = 4
      | _ => False
      end
  | None => False
  end.
Proof.
  destruct (SampleSdk.config "100000000000") as [c|] eqn:Ec; [|vm_compute in Ec; discriminate].
  destruct (boot_signer (H := SampleHex.hex) c SampleSdk.env SampleSdk.world)
    as [[[s|m]|] w'] eqn:Eb;
    [|vm_compute in Ec; injection Ec as <-; vm_compute in Eb; discriminate..].
  destruct (boot_signer_ready (H := SampleHex.hex) c SampleSdk.env SampleSdk.world s w')
    as (Hbal & _ & _ & _ & Hn).
  - intros t u a k b. simpl. destruct (t <? 3)%nat; [done|]. intros [= <-]. done.
  - vm_compute in Ec. injection Ec as <-. vm_compute. discriminate.
  - exact Eb.
  - vm_compute in Ec. injection Ec as <-. simpl in *. destruct Hbal as (t & b & Hb & Hle); [lia|].
    destruct (t <? 3)%nat; [done|]. injection Hb as <-. split; [exact Hle|].
    destruct Hn as [t' Ht]. injection Ht as <-. reflexivity.
Defined.

Lemma redact_pg_url_first_at_witness :
  redact_pg_url "postgres://user:p@ss@host/db" = "postgres://[redacted]@ss@host/db".
Proof.
  apply (redact_pg_url_first_at "postgres" "user:p" "ss@host/db");
    simpl; set_solver.
Defined.
