(* ===== verification/Pages.v ===== *)
(** * Keyset pagination ([crates/api/src/cursor.rs] and the list handlers)

    The shape every list endpoint has: decode the cursor, select the rows strictly below
    it in key order with one row to spare, truncate, and hand out the key of the last row
    as the next cursor.  The theorems are about a client that follows the cursors while
    the table changes under it; they are proved once, against the order of the keys. *)

From S2P Require Import Prelude.
From stdpp Require Import sorting.
Open Scope Z_scope.

Record Page (Row : Type) := { data : list Row; next : option string; page_limit : Z }.
Arguments data {Row} _.
Arguments next {Row} _.
Arguments page_limit {Row} _.

Section Keyset.
Context {Row Key : Type} (key : Row -> Key) (lt : relation Key).
Context `{!RelDecision lt}.

Definition below (before : option Key) (r : Row) : Prop :=
  match before with None => True | Some k => lt (key r) k end.
#[export] Instance below_dec before r : Decision (below before r).
Proof. destruct before as [k|]; simpl; [apply (decide_rel lt (key r) k)|apply _]. Defined.

(** [ORDER BY key DESC]. *)
Definition at_least (a b : Row) : Prop := ~ lt (key a) (key b).
#[export] Instance at_least_dec a b : Decision (at_least a b).
Proof. unfold at_least. apply _. Defined.

(** [SELECT .. WHERE key < before ORDER BY key DESC LIMIT n]. *)
Definition select_page (before : option Key) (n : Z) (rows : list Row) : list Row :=
  take (Z.to_nat n) (merge_sort at_least (filter (below before) rows)).

(** What a handler makes of the [limit + 1] rows it asked for. *)
Definition page_of (encode : Row -> option string) (limit : Z) (rows : list Row) : Page Row :=
  let has_more := limit <? Z.of_nat (length rows) in
  let rows := if has_more then take (Z.to_nat limit) rows else rows in
  {| data := rows;
     next := if has_more then last rows ≫= encode else None;
     page_limit := limit |}.

Context (encode : Row -> option string) (decode : string -> option Key).

(** A list endpoint: an unreadable cursor starts at the head. *)
Definition list_page (limit : Z) (before : option string) (rows : list Row) : Page Row :=
  page_of encode limit (select_page (before ≫= decode) (limit + 1) rows).

(** A client that follows [next]; its [k]-th request finds the table [tables k].  The
    flag says whether it reached the last page. *)
Fixpoint follow (tables : nat -> list Row) (limit : Z) (fuel k : nat)
    (before : option string) : list Row * bool :=
  match fuel with
  | O => ([], false)
  | S fuel =>
      let p := list_page limit before (tables k) in
      match p.(next) with
      | None => (p.(data), true)
      | Some c =>
          let '(rest, finished) := follow tables limit fuel (S k) (Some c) in
          (p.(data) ++ rest, finished)
      end
  end.
End Keyset.

(** ** What following the cursors delivers *)

Section KeysetLaws.
Context {Row Key : Type} (key : Row -> Key) (lt : relation Key).
Context `{!RelDecision lt} `{!StrictOrder lt} `{!Trichotomy lt}.

(** Newer first. *)
Definition newer (a b : Row) : Prop := lt (key b) (key a).

#[local] Instance newer_trans : Transitive newer.
Proof. intros x y z Hxy Hyz. unfold newer in *. by etrans. Qed.
#[local] Instance newer_antisymm : AntiSymm (=) newer.
Proof.
  intros x y Hxy Hyx. exfalso. apply (irreflexivity lt (key x)). by etrans.
Qed.
#[local] Instance at_least_trans : Transitive (at_least key lt).
Proof.
  intros x y z Hxy Hyz Hxz. unfold at_least in *.
  destruct (trichotomy lt (key y) (key z)) as [|[He|Hzy]]; [done| |].
  - rewrite He in Hxy. done.
  - apply Hxy. by etrans.
Qed.
#[local] Instance at_least_total : Total (at_least key lt).
Proof.
  intros x y. unfold at_least. destruct (decide (lt (key x) (key y))) as [Hl|]; [right|by left].
  intros Hl'. apply (irreflexivity lt (key x)). by etrans.
Qed.

(** All the rows below a cursor, in order. *)
Definition ordered (before : option Key) (rows : list Row) : list Row :=
  merge_sort (at_least key lt) (filter (below key lt before) rows).

Lemma elem_of_ordered before rows r :
  r ∈ ordered before rows <-> r ∈ rows /\ below key lt before r.
Proof.
  unfold ordered. rewrite (merge_sort_Permutation _ _), list_elem_of_filter. tauto.
Qed.

Lemma ordered_nodup before rows : NoDup (key <$> rows) -> NoDup (ordered before rows).
Proof.
  intros Hnd. unfold ordered. rewrite (merge_sort_Permutation _ _).
  by eapply NoDup_filter, NoDup_fmap_1.
Qed.

Lemma ordered_sorted before rows :
  NoDup (key <$> rows) -> StronglySorted newer (ordered before rows).
Proof.
  intros Hnd.
  assert (NoDup (key <$> ordered before rows)) as Hk.
  { unfold ordered. rewrite (merge_sort_Permutation _ _).
    eapply sublist_NoDup; [exact Hnd|apply fmap_sublist, sublist_filter]. }
  assert (StronglySorted (at_least key lt) (ordered before rows)) as Hs
    by (apply StronglySorted_merge_sort; apply _).
  revert Hk. induction Hs as [|x l Hs IH Hx]; simpl; [constructor|].
  intros Hk. apply NoDup_cons in Hk as [Hn Hk]. constructor; [by apply IH|].
  apply Forall_forall. intros y Hy. rewrite Forall_forall in Hx. specialize (Hx y Hy).
  unfold at_least, newer in *. destruct (trichotomy lt (key x) (key y)) as [|[He|]]; [done| |done].
  exfalso. apply Hn. rewrite He. by apply list_elem_of_fmap_2.
Qed.

(** Where a sorted list is cut. *)
Lemma sorted_cut l n m :
  StronglySorted newer l -> last (take n l) = Some m ->
  (forall r, r ∈ take n l -> r = m \/ newer r m) /\ (forall r, r ∈ drop n l -> newer m r) /\ m ∈ l.
Proof.
  intros Hs Hm. rewrite <- (take_drop n l) in Hs.
  apply last_Some in Hm as [l' Hl']. rewrite Hl' in *.
  assert (m ∈ l) as Hin.
  { rewrite <- (take_drop n l), Hl'. rewrite !elem_of_app, list_elem_of_singleton. tauto. }
  apply StronglySorted_app in Hs as (Hcross & Hs & _).
  apply StronglySorted_app in Hs as (Hin' & _ & _).
  split_and!; try done.
  - intros r Hr. apply elem_of_app in Hr as [Hr|Hr]; [right|left; by apply list_elem_of_singleton].
    apply Hin'; [done|]. by apply list_elem_of_singleton.
  - intros r Hr. apply Hcross; [|done]. apply elem_of_app. right. by apply list_elem_of_singleton.
Qed.

(** The rows left below the last row of a page are the rows after the page. *)
Lemma ordered_rest before rows n m :
  NoDup (key <$> rows) -> last (take n (ordered before rows)) = Some m ->
  ordered (Some (key m)) rows = drop n (ordered before rows).
Proof.
  intros Hnd Hm. pose proof (ordered_sorted before rows Hnd) as Hs.
  destruct (sorted_cut _ _ _ Hs Hm) as (Hpage & Hrest & Hin).
  apply (StronglySorted_unique newer).
  - by apply ordered_sorted.
  - rewrite <- (take_drop n (ordered before rows)) in Hs.
    by apply StronglySorted_app in Hs as (_ & _ & Hs).
  - apply NoDup_Permutation.
    + by apply ordered_nodup.
    + eapply sublist_NoDup; [by apply (ordered_nodup before)|apply sublist_drop].
    + intros r. rewrite elem_of_ordered. split.
      * intros [Hr Hlt]. simpl in Hlt.
        assert (r ∈ ordered before rows) as Ho.
        { apply elem_of_ordered. split; [done|]. apply elem_of_ordered in Hin as [_ Hb].
          destruct before as [b|]; [|done]. simpl in *. by etrans. }
        rewrite <- (take_drop n (ordered before rows)) in Ho.
        apply elem_of_app in Ho as [Ho|]; [exfalso|done].
        destruct (Hpage r Ho) as [->|Hg]; [by apply (irreflexivity lt (key m))|].
        apply (irreflexivity lt (key m)). unfold newer in Hg. by etrans.
      * intros Hr. split; [|by apply Hrest].
        eapply (elem_of_ordered before rows). eapply elem_of_sublist; [done|apply sublist_drop].
Qed.

(** ** Following the cursors *)

Context (encode : Row -> option string) (decode : string -> option Key) (limit : Z).
Context (Hlimit : 1 <= limit).

(** The tables a client may find: keys are keys, and a cursor reads back as its key. *)
Definition table_ok (rows : list Row) : Prop :=
  NoDup (key <$> rows) /\
  forall r, r ∈ rows -> exists c, encode r = Some c /\ decode c = Some (key r).

Lemma list_page_cases before rows :
  table_ok rows ->
  let p := list_page key lt encode decode limit before rows in
  let l := ordered (before ≫= decode) rows in
  (next p = None /\ data p = l /\ Z.of_nat (length l) <= limit) \/
  (exists m c, next p = Some c /\ decode c = Some (key m) /\
     data p = take (Z.to_nat limit) l /\ last (take (Z.to_nat limit) l) = Some m /\
     limit < Z.of_nat (length l)).
Proof.
  intros [Hnd Hc] p l. subst p. unfold list_page, select_page, page_of.
  change (merge_sort _ (filter (below key lt (before ≫= decode)) rows)) with l.
  rewrite length_take.
  destruct (Z.ltb_spec limit (Z.of_nat (Z.to_nat (limit + 1) `min` length l))) as [Hm|Hm];
    simpl.
  - right. assert (limit < Z.of_nat (length l)) as Hlen by lia.
    rewrite take_take. replace (Z.to_nat limit `min` Z.to_nat (limit + 1))%nat
      with (Z.to_nat limit) by lia.
    destruct (last (take (Z.to_nat limit) l)) as [m|] eqn:Hlast.
    + assert (m ∈ rows) as Hin.
      { eapply (elem_of_ordered (before ≫= decode)).
        by apply (sorted_cut l (Z.to_nat limit)); [apply ordered_sorted|]. }
      destruct (Hc m Hin) as (c & He & Hd). exists m, c. simpl. by rewrite He.
    + apply last_None in Hlast. apply (f_equal length) in Hlast.
      rewrite length_take in Hlast. simpl in Hlast. lia.
  - left. rewrite take_ge by lia. split_and!; [done|done|lia].
Qed.

(** What is delivered stays below the cursor and in strictly descending order. *)
Lemma follow_sorted tables fuel k before :
  (forall k, table_ok (tables k)) ->
  let l := (follow key lt encode decode tables limit fuel k before).1 in
  StronglySorted newer l /\ forall r, r ∈ l -> below key lt (before ≫= decode) r.
Proof.
  intros Hok. revert k before. induction fuel as [|fuel IH]; intros k before;
    [split; [constructor|by intros r Hr%not_elem_of_nil]|].
  cbn [follow]. pose proof (list_page_cases before (tables k) (Hok k)) as Hp. cbv zeta in Hp.
  set (p := list_page key lt encode decode limit before (tables k)) in *. clearbody p.
  set (l := ordered (before ≫= decode) (tables k)) in *.
  assert (StronglySorted newer l) as Hs by (apply ordered_sorted, Hok).
  assert (forall r, r ∈ l -> below key lt (before ≫= decode) r) as Hb
    by (intros r Hr; by apply elem_of_ordered in Hr as []).
  destruct Hp as [(-> & -> & _)|(m & c & -> & Hd & -> & Hlast & _)]; [done|].
  destruct (sorted_cut _ _ _ Hs Hlast) as (Hpage & _ & Hin).
  destruct (IH (S k) (Some c)) as [IHs IHb].
  destruct (follow _ _ _ _ _ _ _ _ _) as [rest finished]. simpl in *. rewrite Hd in IHb.
  assert (forall r, r ∈ rest -> newer m r) as Hrest by (intros r Hr; apply (IHb r Hr)).
  assert (Hpt : forall r, r ∈ take (Z.to_nat limit) l -> r ∈ l).
  { intros r Hr. rewrite <- (take_drop (Z.to_nat limit) l). apply elem_of_app. by left. }
  split.
  - apply StronglySorted_app. split_and!; [| |done].
    2: { rewrite <- (take_drop (Z.to_nat limit) l) in Hs.
         by apply StronglySorted_app in Hs as (_ & ? & _). }
    intros x y Hx Hy. specialize (Hrest y Hy). destruct (Hpage x Hx) as [->|Hg]; [done|].
    by etrans.
  - intros r Hr. apply elem_of_app in Hr as [Hr|Hr]; [by apply Hb, Hpt|].
    specialize (Hb m Hin). specialize (Hrest r Hr). unfold newer in Hrest.
    destruct (before ≫= decode); [|done]. simpl in *. by etrans.
Qed.

(** Nothing that stays in the table is missed. *)
Lemma follow_covers tables fuel k before kappa :
  (forall k, table_ok (tables k)) ->
  (follow key lt encode decode tables limit fuel k before).2 = true ->
  (forall k, exists r, r ∈ tables k /\ key r = kappa) ->
  match before ≫= decode with None => True | Some b => lt kappa b end ->
  kappa ∈ key <$> (follow key lt encode decode tables limit fuel k before).1.
Proof.
  intros Hok. revert k before. induction fuel as [|fuel IH]; intros k before Hfin Hall Hb;
    [done|]. cbn [follow] in *.
  pose proof (list_page_cases before (tables k) (Hok k)) as Hp. cbv zeta in Hp.
  set (p := list_page key lt encode decode limit before (tables k)) in *. clearbody p.
  set (l := ordered (before ≫= decode) (tables k)) in *.
  assert (StronglySorted newer l) as Hs by (apply ordered_sorted, Hok).
  destruct (Hall k) as (r & Hr & Hkr).
  assert (r ∈ l) as Hrl.
  { apply elem_of_ordered. split; [done|]. destruct (before ≫= decode); [|done].
    simpl. by rewrite Hkr. }
  destruct Hp as [(Hn & Hd & _)|(m & c & Hn & Hd & Hdata & Hlast & _)]; rewrite Hn in *.
  - simpl. rewrite Hd, <- Hkr. by apply list_elem_of_fmap_2.
  - destruct (sorted_cut _ _ _ Hs Hlast) as (_ & Hrest & _).
    specialize (IH (S k) (Some c)).
    destruct (follow _ _ _ _ _ _ _ _ _) as [rest finished]. simpl in *.
    rewrite fmap_app, Hdata. apply elem_of_app.
    rewrite <- (take_drop (Z.to_nat limit) l) in Hrl.
    apply elem_of_app in Hrl as [Hrl|Hrl].
    + left. rewrite <- Hkr. by apply list_elem_of_fmap_2.
    + right. apply IH; [done|done|]. rewrite Hd. rewrite <- Hkr. by apply Hrest.
Qed.

(** Every row delivered was in the table one of the requests found. *)
Lemma follow_sound tables fuel k before r :
  (forall k, table_ok (tables k)) ->
  r ∈ (follow key lt encode decode tables limit fuel k before).1 ->
  exists k', r ∈ tables k'.
Proof.
  intros Hok. revert k before. induction fuel as [|fuel IH]; intros k before Hr;
    [by apply not_elem_of_nil in Hr|]. cbn [follow] in Hr.
  pose proof (list_page_cases before (tables k) (Hok k)) as Hp. cbv zeta in Hp.
  set (p := list_page key lt encode decode limit before (tables k)) in *. clearbody p.
  destruct Hp as [(Hn & Hd & _)|(m & c & Hn & _ & Hd & _ & _)]; rewrite Hn in Hr.
  - simpl in Hr. rewrite Hd in Hr. exists k. by apply elem_of_ordered in Hr as [].
  - specialize (IH (S k) (Some c)). destruct (follow _ _ _ _ _ _ _ _ _) as [rest finished].
    simpl in *. apply elem_of_app in Hr as [Hr|Hr]; [|by apply IH].
    rewrite Hd in Hr. exists k. eapply elem_of_sublist in Hr; [|apply sublist_take].
    by apply elem_of_ordered in Hr as [].
Qed.

(** On a table that does not change, exactly the ordered rows, in as many requests as
    there are full pages and one more. *)
Lemma follow_fixed rows fuel k before :
  table_ok rows ->
  Z.of_nat (length (ordered (before ≫= decode) rows)) <= limit * Z.of_nat fuel ->
  (0 < fuel)%nat ->
  follow key lt encode decode (fun _ => rows) limit fuel k before =
    (ordered (before ≫= decode) rows, true).
Proof.
  intros Hok. revert k before. induction fuel as [|fuel IH]; intros k before Hlen Hpos; [lia|].
  cbn [follow].
  destruct (list_page_cases before rows Hok)
    as [(-> & -> & _)|(m & c & -> & Hd & -> & Hlast & Hlt)]; [done|].
  pose proof (ordered_rest (before ≫= decode) rows (Z.to_nat limit) m (proj1 Hok) Hlast) as Ho.
  rewrite IH.
  - simpl. by rewrite Hd, Ho, take_drop.
  - simpl. rewrite Hd, Ho, length_drop. lia.
  - destruct fuel; lia.
Qed.
End KeysetLaws.
