(* ===== verification/Listing.v ===== *)
(** * The list endpoints ([crates/api/src/cursor.rs], [queries.rs], [handlers.rs])

    Limits and cursors; for each endpoint, the rows its query selects, the key it orders
    by and the JSON of its cursor; and, over the tables the indexer keeps, what a client
    that follows the cursors is delivered. *)

From S2P Require Import Prelude Json Types Standards AttestationId Schema Client Pages.
From stdpp Require Import sorting.
Open Scope string_scope.
Open Scope list_scope.
Open Scope Z_scope.

(** ** Limits and cursors *)

Definition DEFAULT_LIMIT : Z := 20.
Definition MAX_LIMIT : Z := 100.

Definition resolve_limit (requested : option Z) : Z :=
  match requested with
  | None => DEFAULT_LIMIT
  | Some n => if n =? 0 then DEFAULT_LIMIT else Z.min n MAX_LIMIT
  end.

(** The base64 crate's [URL_SAFE_NO_PAD] engine. *)
Class Base64Url := { b64_encode : string -> string; b64_decode : string -> option string }.

(** Text comparison of the database's collation, and the text of a JSON member that is
    not a string. *)
Class PgText := { text_lt : relation string; text_lt_dec : RelDecision text_lt;
                  jsonb_out : Value -> string }.
#[export] Existing Instance text_lt_dec.

(** [(a, b) < (c, d)]. *)
Definition row_lt {A B} (la : relation A) (lb : relation B) (x y : A * B) : Prop :=
  la x.1 y.1 \/ (x.1 = y.1 /\ lb x.2 y.2).
#[export] Instance row_lt_dec {A B} (la : relation A) (lb : relation B) `{!EqDecision A}
  `{!RelDecision la} `{!RelDecision lb} : RelDecision (row_lt la lb).
Proof. intros x y. unfold row_lt. apply _. Defined.

Section Cursors.
Context `{JsonText} `{Base64Url}.

Definition encode (cursor : Value) : string := b64_encode (value_to_string cursor).
Definition decode {T} (de : Value -> option T) (cursor : string) : option T :=
  bytes ← b64_decode cursor; v ← json_parse bytes; de v.

(** [BlocksCursor { slot }]. *)
Definition ser_BlocksCursor (slot : Z) : Value := JObject [("slot", ser_uint slot)].
Definition de_BlocksCursor (v : Value) : option Z :=
  match struct_fields ["slot"] v with
  | Some [x_slot] => field de_u64 x_slot
  | _ => None
  end.

(** [TxsCursor { slot, idx }]. *)
Definition ser_TxsCursor (slot idx : Z) : Value :=
  JObject [("slot", ser_uint slot); ("idx", ser_uint idx)].
Definition de_TxsCursor (v : Value) : option (Z * Z) :=
  match struct_fields ["slot"; "idx"] v with
  | Some [x_slot; x_idx] =>
      slot ← field de_u64 x_slot; idx ← field de_u32 x_idx; Some (slot, idx)
  | _ => None
  end.

(** [SchemasCursor], [AttestorSetsCursor], [BountiesCursor], [ContractsCursor]:
    [{ slot, id }]. *)
Definition ser_SlotIdCursor (slot : Z) (id : string) : Value :=
  JObject [("slot", ser_uint slot); ("id", JString id)].
Definition de_SlotIdCursor (v : Value) : option (Z * string) :=
  match struct_fields ["slot"; "id"] v with
  | Some [x_slot; x_id] =>
      slot ← field de_u64 x_slot; id ← field de_string x_id; Some (slot, id)
  | _ => None
  end.

(** [AttestationsCursor { slot, schema_id, payload_hash }]. *)
Definition ser_AttestationsCursor (slot : Z) (schema_id payload_hash : string) : Value :=
  JObject [("slot", ser_uint slot); ("schema_id", JString schema_id);
           ("payload_hash", JString payload_hash)].
Definition de_AttestationsCursor (v : Value) : option (Z * string * string) :=
  match struct_fields ["slot"; "schema_id"; "payload_hash"] v with
  | Some [x_slot; x_schema_id; x_payload_hash] =>
      slot ← field de_u64 x_slot; schema_id ← field de_string x_schema_id;
      payload_hash ← field de_string x_payload_hash; Some (slot, schema_id, payload_hash)
  | _ => None
  end.
End Cursors.

(** ** Listings

    What distinguishes one list endpoint from another. *)
Record Listing := {
  l_Row : Type;
  l_Key : Type;
  l_key : l_Row -> l_Key;
  l_lt : relation l_Key;
  l_dec : RelDecision l_lt;
  l_rows : DB -> list l_Row;
  l_encode : l_Row -> string;
  l_decode : string -> option l_Key
}.
#[export] Existing Instance l_dec.

Record PaginationParams := { p_limit : option Z; p_before : option string }.

(** The handler of a list endpoint on a database that answers. *)
Definition list_handler (l : Listing) (params : PaginationParams) (d : DB) : Page (l_Row l) :=
  list_page (l_key l) (l_lt l) (fun r => Some (l_encode l r)) (l_decode l)
    (resolve_limit params.(p_limit)) params.(p_before) (l_rows l d).

(** [$n IS NULL OR column = $n]. *)
Definition matches {A} `{EqDecision A} (filter : option A) (a : A) : bool :=
  match filter with None => true | Some f => bool_decide (a = f) end.

Section Endpoints.
Context `{JsonText} `{Base64Url} `{PgText}.

(** [details->>'k']. *)
Definition json_text_get (k : string) (v : Value) : option string :=
  match as_object v ≫= obj_get k with
  | Some (JString s) => Some s
  | Some JNull | None => None
  | Some v => Some (jsonb_out v)
  end.

(** [members @> [pubkey]] on a JSON array. *)
Definition contains_member (members : Value) (pubkey : string) : bool :=
  match members with
  | JArray l => existsb (fun v => match v with JString s => (s =? pubkey)%string | _ => false end) l
  | _ => false
  end.

(** [/v1/blocks]. *)
Definition slots_page : Listing := {|
  l_Row := Z * SlotRow; l_Key := Z; l_key := fst; l_lt := Z.lt; l_dec := _;
  l_rows d := map_to_list d.(slots);
  l_encode r := encode (ser_BlocksCursor (as_u64 r.1));
  l_decode c := as_i64 <$> decode de_BlocksCursor c
|}.

(** [transactions JOIN slots ON height = slot]. *)
Definition joined_txs (d : DB) : list (string * TxRow * SlotRow) :=
  omap (fun hr : string * TxRow => (fun s => (hr, s)) <$> d.(slots) !! hr.2.(tr_slot))
    (map_to_list d.(transactions)).

Definition tx_listing (keep : TxRow -> bool) : Listing := {|
  l_Row := string * TxRow * SlotRow; l_Key := Z * Z;
  l_key r := slot_position r.1.2; l_lt := row_lt Z.lt Z.lt; l_dec := _;
  l_rows d := filter (fun r => keep r.1.2 = true) (joined_txs d);
  l_encode r := encode (ser_TxsCursor (as_u64 r.1.2.(tr_slot)) (as_u32 r.1.2.(tr_position)));
  l_decode c := (fun k => (as_i64 k.1, as_i32 k.2)) <$> decode de_TxsCursor c
|}.

(** [/v1/txs?kind=&block_height=]. *)
Definition txs_page (kind_filter : option string) (block_height : option Z) : Listing :=
  tx_listing (fun t => matches kind_filter t.(tr_kind) &&
                       matches (as_i64 <$> block_height) t.(tr_slot)).

(** [/v1/addresses/{addr}/txs]. *)
Definition address_txs_page (addr : string) : Listing :=
  tx_listing (fun t =>
    bool_decide (t.(tr_sender) = Some addr) ||
    (t.(tr_kind) =? "transfer")%string &&
      (bool_decide (json_text_get "from" t.(tr_details) = Some addr) ||
       bool_decide (json_text_get "to" t.(tr_details) = Some addr))).

(** Rows keyed by a slot and their id. *)
Definition slot_id_listing {V} (slot_of : V -> Z) (rows : DB -> list (string * V)) : Listing := {|
  l_Row := string * V; l_Key := Z * string;
  l_key r := (slot_of r.2, r.1); l_lt := row_lt Z.lt text_lt; l_dec := _;
  l_rows := rows;
  l_encode r := encode (ser_SlotIdCursor (as_u64 (slot_of r.2)) r.1);
  l_decode c := (fun k => (as_i64 k.1, k.2)) <$> decode de_SlotIdCursor c
|}.

(** [/v1/schemas?attestor_set_id=]: [schemas JOIN attestor_sets]. *)
Definition schemas_page (attestor_set_filter : option string) : Listing :=
  slot_id_listing sc_registered_at_slot (fun d =>
    filter (fun r => matches attestor_set_filter r.2.(sc_attestor_set_id) = true /\
                     has_attestor_set d r.2.(sc_attestor_set_id))
      (map_to_list d.(schemas))).

(** [/v1/attestor-sets] and [/v1/attestor-sets/by-member/{pubkey}]. *)
Definition attestor_sets_page : Listing :=
  slot_id_listing as_registered_at_slot (fun d => map_to_list d.(attestor_sets)).
Definition attestor_sets_for_member_page (pubkey : string) : Listing :=
  slot_id_listing as_registered_at_slot (fun d =>
    filter (fun r => contains_member r.2.(as_members) pubkey = true)
      (map_to_list d.(attestor_sets))).

(** [/v1/bounties?board=&status=]. *)
Definition bounties_page (board status : option string) : Listing :=
  slot_id_listing bo_posted_at_slot (fun d =>
    filter (fun r => matches board r.2.(bo_board_schema_id) &&
                     matches status r.2.(bo_status) = true)
      (map_to_list d.(bounties))).

(** [/v1/contracts?status=&poster=&arbiter=]. *)
Definition contracts_page (status poster arbiter : option string) : Listing :=
  slot_id_listing co_posted_at_slot (fun d =>
    filter (fun r => matches status r.2.(co_status) && matches poster r.2.(co_poster) &&
                     matches arbiter r.2.(co_arbiter) = true)
      (map_to_list d.(contracts))).

Definition attestation_listing (rows : DB -> list (string * AttestationRow)) : Listing := {|
  l_Row := string * AttestationRow; l_Key := Z * string * string;
  l_key r := (r.2.(at_submitted_at_slot), r.2.(at_schema_id), r.2.(at_payload_hash));
  l_lt := row_lt (row_lt Z.lt text_lt) text_lt; l_dec := _;
  l_rows := rows;
  l_encode r := encode (ser_AttestationsCursor (as_u64 r.2.(at_submitted_at_slot))
                          r.2.(at_schema_id) r.2.(at_payload_hash));
  l_decode c := (fun k => (as_i64 k.1.1, k.1.2, k.2)) <$> decode de_AttestationsCursor c
|}.

(** [/v1/attestations] and [/v1/schemas/{id}/attestations]. *)
Definition attestations_page (schema_id_filter : option string) : Listing :=
  attestation_listing (fun d =>
    filter (fun r => matches schema_id_filter r.2.(at_schema_id) = true)
      (map_to_list d.(attestations))).

(** [/v1/attestor-sets/{id}/attestations]: [attestations JOIN schemas]. *)
Definition attestations_by_attestor_set (attestor_set_id : string) : Listing :=
  attestation_listing (fun d =>
    filter (fun r => sc_attestor_set_id <$> d.(schemas) !! r.2.(at_schema_id)
                     = Some attestor_set_id)
      (map_to_list d.(attestations))).

(** The list endpoints of the API. *)
Inductive list_endpoint : Listing -> Prop :=
| E_blocks : list_endpoint slots_page
| E_txs kind block_height : list_endpoint (txs_page kind block_height)
| E_address_txs addr : list_endpoint (address_txs_page addr)
| E_schemas set : list_endpoint (schemas_page set)
| E_attestor_sets : list_endpoint attestor_sets_page
| E_member_sets pubkey : list_endpoint (attestor_sets_for_member_page pubkey)
| E_bounties board status : list_endpoint (bounties_page board status)
| E_contracts status poster arbiter : list_endpoint (contracts_page status poster arbiter)
| E_attestations schema : list_endpoint (attestations_page schema)
| E_set_attestations set : list_endpoint (attestations_by_attestor_set set).
End Endpoints.
