(* ===== verification/ListingSpec.v ===== *)
(** * What the list endpoints guarantee

    The order of each endpoint's keys, the round trip of its cursors and the uniqueness
    of its keys over a database that meets its constraints discharge the hypotheses of
    [Pages]; the theorems hold for every list endpoint at once. *)

From S2P Require Import Prelude Base64 Json JsonSyntax Types Standards AttestationId Schema Client Pages Listing.
From stdpp Require Import sorting.
Import Rfc4648 (url_encode, url_decode, url_decode_encode).
Open Scope string_scope.
Open Scope list_scope.
Open Scope Z_scope.

(** ** Interfaces *)

Class Base64UrlLaws (B : Base64Url) := b64_decode_encode s : b64_decode (b64_encode s) = Some s.

(** A collation orders the texts totally. *)
Class PgTextLaws (P : PgText) := {
  text_lt_strict : StrictOrder text_lt;
  text_lt_total : Trichotomy text_lt
}.
#[export] Existing Instances text_lt_strict text_lt_total.

Section RowOrder.
Context {A B} (la : relation A) (lb : relation B).
#[export] Instance row_lt_strict `{!StrictOrder la} `{!StrictOrder lb} :
  StrictOrder (row_lt la lb).
Proof.
  split.
  - intros x [Hx|[_ Hx]];
      [by apply (irreflexivity la x.1)|by apply (irreflexivity lb x.2)].
  - intros [x1 x2] [y1 y2] [z1 z2] [Hxy|[Hxy Hxy']] [Hyz|[Hyz Hyz']]; simpl in *; subst;
      unfold row_lt; simpl.
    1: left; by etrans.
    1, 2: by left.
    right. split; [done|by etrans].
Qed.
#[export] Instance row_lt_total `{!Trichotomy la} `{!Trichotomy lb} : Trichotomy (row_lt la lb).
Proof.
  intros [x1 x2] [y1 y2]. unfold row_lt. simpl.
  destruct (trichotomy la x1 y1) as [|[->|]], (trichotomy lb x2 y2) as [|[->|]]; auto 10.
Qed.
End RowOrder.

#[export] Instance Z_lt_total : Trichotomy Z.lt.
Proof. intros x y. lia. Qed.

(** The larger number first, then the smaller text. *)
Definition larger_first `{PgText} (x y : Z * string) : Prop :=
  y.1 < x.1 \/ x.1 = y.1 /\ text_lt x.2 y.2.

(** ** A database the API reads

    Every constraint of the migrations, 64-bit and 32-bit columns within their type, and
    attestation ids that are a function of their pair, as [compute_attestation_id] makes
    them. *)
Definition at_pair (r : AttestationRow) : string * string :=
  (r.(at_schema_id), r.(at_payload_hash)).

Record store_ok (d : DB) : Prop := {
  s_db : db_ok d;
  s_heights h r : d.(slots) !! h = Some r -> in_i64 h;
  s_txs h r : d.(transactions) !! h = Some r -> in_i64 (tr_slot r) /\ in_i32 (tr_position r);
  s_schemas i r : d.(schemas) !! i = Some r -> in_i64 (sc_registered_at_slot r);
  s_sets i r : d.(attestor_sets) !! i = Some r -> in_i64 (as_registered_at_slot r);
  s_bounties i r : d.(bounties) !! i = Some r -> in_i64 (bo_posted_at_slot r);
  s_contracts i r : d.(contracts) !! i = Some r -> in_i64 (co_posted_at_slot r);
  s_atts i r : d.(attestations) !! i = Some r -> in_i64 (at_submitted_at_slot r);
  s_pairs : table_unique at_pair d.(attestations)
}.

Section ListingSpec.
Context `{J : JsonText} `{JL : !JsonTextLaws J} `{B : Base64Url} `{BL : !Base64UrlLaws B}
  `{P : PgText} `{PL : !PgTextLaws P}.

Lemma decode_encode_flat {T} (de : Value -> option T) v x :
  flat v -> de v = Some x -> decode de (encode v) = Some x.
Proof.
  intros Hv Hx. unfold decode, encode. rewrite b64_decode_encode. simpl.
  rewrite json_parse_print by done. done.
Qed.

Lemma flat_u64 n : flat_member (ser_uint (as_u64 n)) = true.
Proof.
  unfold flat_member, ser_uint. pose proof (Z.mod_pos_bound n (2 ^ 64) eq_refl) as Hn.
  unfold as_u64, as_unsigned. change (2 ^ 64) with 18446744073709551616 in *.
  apply andb_true_iff. split; apply Z.leb_le; lia_int.
Qed.

Lemma flat_u32 n : flat_member (ser_uint (as_u32 n)) = true.
Proof.
  unfold flat_member, ser_uint. pose proof (Z.mod_pos_bound n (2 ^ 32) eq_refl) as Hn.
  unfold as_u32, as_unsigned. change (2 ^ 32) with 4294967296 in *.
  apply andb_true_iff. split; apply Z.leb_le; lia_int.
Qed.

Lemma de_u64_as_u64 n : de_u64 (ser_uint (as_u64 n)) = Some (as_u64 n).
Proof.
  pose proof (flat_u64 n) as H. unfold flat_member, ser_uint in *. unfold de_u64, de_uint.
  by rewrite H.
Qed.

Lemma de_u32_as_u32 n : de_u32 (ser_uint (as_u32 n)) = Some (as_u32 n).
Proof.
  unfold de_u32, de_uint, ser_uint. pose proof (Z.mod_pos_bound n (2 ^ 32) eq_refl) as Hn.
  unfold as_u32, as_unsigned. change (2 ^ 32) with 4294967296 in *.
  destruct (Z.leb_spec 0 (n mod 4294967296)), (Z.leb_spec (n mod 4294967296) u32_max); done || lia_int.
Qed.

(** A cursor reads back as the key it was made from. *)
Ltac cursor_rt :=
  erewrite decode_encode_flat;
  [|split; [repeat constructor; set_solver|repeat constructor; simpl;
      first [apply flat_u64|apply flat_u32|done]]
   |cbv [de_BlocksCursor de_TxsCursor de_SlotIdCursor de_AttestationsCursor
         ser_BlocksCursor ser_TxsCursor ser_SlotIdCursor ser_AttestationsCursor
         struct_fields fmap list_fmap of_key obj_get String.eqb Ascii.eqb Bool.eqb field];
    rewrite ?de_u64_as_u64, ?de_u32_as_u32; reflexivity].

Lemma blocks_cursor_rt h : in_i64 h ->
  as_i64 <$> decode de_BlocksCursor (encode (ser_BlocksCursor (as_u64 h))) = Some h.
Proof. intros Hh. cursor_rt. simpl. by rewrite as_i64_as_u64. Qed.

Lemma txs_cursor_rt s p : in_i64 s -> in_i32 p ->
  (fun k => (as_i64 k.1, as_i32 k.2)) <$>
    decode de_TxsCursor (encode (ser_TxsCursor (as_u64 s) (as_u32 p))) = Some (s, p).
Proof. intros Hs Hp. cursor_rt. simpl. by rewrite as_i64_as_u64, as_i32_as_u32. Qed.

Lemma slot_id_cursor_rt s i : in_i64 s ->
  (fun k : Z * string => (as_i64 k.1, k.2)) <$>
    decode de_SlotIdCursor (encode (ser_SlotIdCursor (as_u64 s) i)) = Some (s, i).
Proof. intros Hs. cursor_rt. simpl. by rewrite as_i64_as_u64. Qed.

Lemma attestations_cursor_rt s i p : in_i64 s ->
  (fun k : Z * string * string => (as_i64 k.1.1, k.1.2, k.2)) <$>
    decode de_AttestationsCursor (encode (ser_AttestationsCursor (as_u64 s) i p))
  = Some (s, i, p).
Proof. intros Hs. cursor_rt. simpl. by rewrite as_i64_as_u64. Qed.

(** *** The rows of each endpoint *)

(** Keys are distinct when they determine the primary key. *)
Lemma table_keys_nodup {K V A} `{Countable K} (t : gmap K V) (Q : K * V -> Prop)
    `{!forall kv, Decision (Q kv)} (key : K * V -> A) :
  (forall k1 v1 k2 v2, t !! k1 = Some v1 -> t !! k2 = Some v2 ->
     key (k1, v1) = key (k2, v2) -> k1 = k2) ->
  NoDup (key <$> filter Q (map_to_list t)).
Proof.
  intros Hinj. apply NoDup_fmap_2_strong.
  - intros [k1 v1] [k2 v2] [_ H1]%list_elem_of_filter [_ H2]%list_elem_of_filter He.
    apply elem_of_map_to_list in H1, H2.
    assert (k1 = k2) as -> by by eapply Hinj. congruence.
  - apply NoDup_filter, NoDup_map_to_list.
Qed.

Lemma joined_txs_elem d h r s :
  (h, r, s) ∈ joined_txs d <-> d.(transactions) !! h = Some r /\ d.(slots) !! tr_slot r = Some s.
Proof.
  unfold joined_txs. rewrite list_elem_of_omap. split.
  - intros ([h' r'] & Hin & Hs). apply elem_of_map_to_list in Hin. simpl in Hs.
    destruct (d.(slots) !! _) eqn:E; [|done]. by simplify_eq/=.
  - intros [Hr Hs]. exists (h, r). split; [by apply elem_of_map_to_list|]. simpl.
    by rewrite Hs.
Qed.

Lemma joined_txs_nodup d : NoDup (joined_txs d).
Proof.
  unfold joined_txs. pose proof (NoDup_map_to_list d.(transactions)) as Hn.
  induction Hn as [|x l Hx Hn IH]; simpl; [constructor|].
  destruct (d.(slots) !! _) as [s|]; simpl; [|done]. constructor; [|done].
  intros (y & Hy & Hs)%list_elem_of_omap. simpl in Hs.
  destruct (d.(slots) !! tr_slot y.2); [|done]. by simplify_eq/=.
Qed.

Lemma tx_listing_ok keep d :
  store_ok d -> let l := tx_listing keep in
  table_ok (l_key l) (fun r => Some (l_encode l r)) (l_decode l) (l_rows l d).
Proof.
  intros Hok. split.
  - apply NoDup_fmap_2_strong; [|apply NoDup_filter, joined_txs_nodup].
    intros [[h1 r1] s1] [[h2 r2] s2] [_ H1]%list_elem_of_filter [_ H2]%list_elem_of_filter He.
    apply joined_txs_elem in H1 as [H1 Hs1], H2 as [H2 Hs2]. simpl in He.
    pose proof (ok_tx_unique _ (s_db _ Hok) _ _ _ _ H1 H2 He) as ->. by simplify_eq.
  - intros [[h r] s] [_ Hr]%list_elem_of_filter. apply joined_txs_elem in Hr as [Hr _].
    destruct (s_txs _ Hok h r Hr). eexists. split; [done|]. by apply txs_cursor_rt.
Qed.

Lemma slot_id_listing_ok {V} (slot_of : V -> Z) (rows : DB -> list (string * V)) d
    (t : gmap string V) (Q : string * V -> Prop) `{!forall kv, Decision (Q kv)} :
  rows d = filter Q (map_to_list t) ->
  (forall i r, t !! i = Some r -> in_i64 (slot_of r)) ->
  let l := slot_id_listing slot_of rows in
  table_ok (l_key l) (fun r => Some (l_encode l r)) (l_decode l) (l_rows l d).
Proof.
  intros Hrows Ht. split; simpl; rewrite Hrows.
  - apply table_keys_nodup. simpl. congruence.
  - intros [i r] [_ Hr]%list_elem_of_filter. apply elem_of_map_to_list in Hr.
    eexists. split; [done|]. simpl. apply slot_id_cursor_rt. by eapply Ht.
Qed.

Lemma attestation_listing_ok (rows : DB -> list (string * AttestationRow)) d
    (Q : string * AttestationRow -> Prop) `{!forall kv, Decision (Q kv)} :
  store_ok d -> rows d = filter Q (map_to_list d.(attestations)) ->
  let l := attestation_listing rows in
  table_ok (l_key l) (fun r => Some (l_encode l r)) (l_decode l) (l_rows l d).
Proof.
  intros Hok Hrows. split; simpl; rewrite Hrows.
  - apply table_keys_nodup. simpl. intros k1 v1 k2 v2 H1 H2 [= _ Hs Hp].
    eapply (s_pairs _ Hok); try done. unfold at_pair. congruence.
  - intros [i r] [_ Hr]%list_elem_of_filter. apply elem_of_map_to_list in Hr.
    eexists. split; [done|]. simpl. apply attestations_cursor_rt. by eapply s_atts.
Qed.

Lemma filter_true {A} (l : list A) : filter (fun _ => True) l = l.
Proof. induction l; [done|]. rewrite filter_cons_True by done. by f_equal. Qed.

(** The interface [Pages] asks for, discharged by every endpoint. *)
Lemma list_endpoint_ok l d :
  list_endpoint l -> store_ok d ->
  table_ok (l_key l) (fun r => Some (l_encode l r)) (l_decode l) (l_rows l d).
Proof.
  intros Hl Hok. destruct Hl.
  - split; simpl.
    + rewrite <- (filter_true (map_to_list _)). apply table_keys_nodup. simpl. congruence.
    + intros [h r] Hr%elem_of_map_to_list. eexists. split; [done|].
      apply blocks_cursor_rt. by eapply s_heights.
  - by apply tx_listing_ok.
  - by apply tx_listing_ok.
  - eapply slot_id_listing_ok; [reflexivity|apply s_schemas, Hok].
  - eapply (slot_id_listing_ok _ _ _ d.(attestor_sets) (fun _ => True));
      [by rewrite filter_true|apply s_sets, Hok].
  - eapply slot_id_listing_ok; [reflexivity|apply s_sets, Hok].
  - eapply slot_id_listing_ok; [reflexivity|apply s_bounties, Hok].
  - eapply slot_id_listing_ok; [reflexivity|apply s_contracts, Hok].
  - by eapply attestation_listing_ok.
  - by eapply attestation_listing_ok.
Qed.

Lemma list_endpoint_strict l : list_endpoint l -> StrictOrder (l_lt l).
Proof. intros []; simpl; apply _. Qed.
Lemma list_endpoint_total l : list_endpoint l -> Trichotomy (l_lt l).
Proof. intros []; simpl; apply _. Qed.

Lemma resolve_limit_range requested :
  (forall n, requested = Some n -> 0 <= n) -> 1 <= resolve_limit requested <= MAX_LIMIT.
Proof.
  intros Hn. unfold resolve_limit, DEFAULT_LIMIT, MAX_LIMIT.
  destruct requested as [n|]; [|lia]. specialize (Hn n eq_refl).
  destruct (Z.eqb_spec n 0); lia.
Qed.

(** ** Following the cursors of an endpoint *)

(** A client that asks for page after page; the [k]-th request finds [dbs k]. *)
Fixpoint browse (l : Listing) (limit : option Z) (dbs : nat -> DB) (fuel k : nat)
    (before : option string) : list (l_Row l) * bool :=
  match fuel with
  | O => ([], false)
  | S fuel =>
      let p := list_handler l {| p_limit := limit; p_before := before |} (dbs k) in
      match p.(next) with
      | None => (p.(data), true)
      | Some c =>
          let '(rest, finished) := browse l limit dbs fuel (S k) (Some c) in
          (p.(data) ++ rest, finished)
      end
  end.

Lemma browse_follow l limit dbs fuel k before :
  browse l limit dbs fuel k before =
  follow (l_key l) (l_lt l) (fun r => Some (l_encode l r)) (l_decode l)
    (fun k => l_rows l (dbs k)) (resolve_limit limit) fuel k before.
Proof.
  revert k before. induction fuel as [|fuel IH]; intros k before; [done|].
  cbn [browse follow]. unfold list_handler. cbn [p_limit p_before].
  destruct (next _) as [c|]; [|done]. by rewrite IH.
Qed.

(** C39: the contract of one page.  For every list endpoint, every limit and every cursor
    text: the limit lands in 1..100 and bounds the page; a cursor text that does not decode
    starts at the head, as the comment on [decode] says (RFC 0001 asks for a 400 here); the
    page holds the newest matching rows strictly below the cursor, newest first; and a next
    cursor is handed out exactly when some such row is left. *)
Theorem page_contract l params d :
  list_endpoint l -> store_ok d -> (forall n, p_limit params = Some n -> 0 <= n) ->
  let p := list_handler l params d in
  let wanted := ordered (l_key l) (l_lt l) (p_before params ≫= l_decode l) (l_rows l d) in
  1 <= page_limit p <= MAX_LIMIT /\ Z.of_nat (length (data p)) <= page_limit p /\
  data p = take (Z.to_nat (page_limit p)) wanted /\
  (forall r, r ∈ wanted <-> r ∈ l_rows l d /\
     below (l_key l) (l_lt l) (p_before params ≫= l_decode l) r) /\
  StronglySorted (newer (l_key l) (l_lt l)) wanted /\
  (next p = None <-> data p = wanted).
Proof.
  intros Hl Hok Hn p wanted. pose proof (list_endpoint_strict l Hl).
  pose proof (list_endpoint_total l Hl). pose proof (list_endpoint_ok l d Hl Hok) as Ht.
  pose proof (resolve_limit_range (p_limit params) Hn) as Hr.
  assert (page_limit p = resolve_limit (p_limit params)) as -> by done.
  pose proof (list_page_cases (l_key l) (l_lt l) (fun r => Some (l_encode l r)) (l_decode l)
    (resolve_limit (p_limit params)) ltac:(lia) (p_before params) (l_rows l d) Ht) as Hp.
  cbv zeta in Hp. fold (list_handler l params d) in Hp. fold p in Hp. fold wanted in Hp.
  clearbody p.
  split_and!; try done; try lia.
  - destruct Hp as [(_ & -> & Hlen)|(m & c & _ & _ & -> & _)]; [lia|].
    rewrite length_take. lia.
  - destruct Hp as [(_ & -> & Hlen)|(m & c & _ & _ & -> & _)]; [|done].
    rewrite take_ge by lia. done.
  - intros r. apply elem_of_ordered; apply _.
  - apply ordered_sorted; [apply _..|]. apply Ht.
  - destruct Hp as [(-> & -> & Hlen)|(m & c & -> & _ & -> & _ & Hlen)]; [done|].
    split; [done|]. intros He. apply (f_equal length) in He. rewrite length_take in He. lia.
Qed.

Lemma browse_stable l limit dbs fuel :
  list_endpoint l -> (forall k, store_ok (dbs k)) -> (forall n, limit = Some n -> 0 <= n) ->
  let '(rows, finished) := browse l limit dbs fuel 0 None in
  StronglySorted (newer (l_key l) (l_lt l)) rows /\ NoDup (l_key l <$> rows) /\
  (forall r, r ∈ rows -> exists k, r ∈ l_rows l (dbs k)) /\
  (finished = true -> forall key,
     (forall k, exists r, r ∈ l_rows l (dbs k) /\ l_key l r = key) -> key ∈ l_key l <$> rows).
Proof.
  intros Hl Hok Hn. pose proof (list_endpoint_strict l Hl). pose proof (list_endpoint_total l Hl).
  pose proof (resolve_limit_range limit Hn) as [Hr _]. rewrite browse_follow.
  assert (forall k, table_ok (l_key l) (fun r => Some (l_encode l r)) (l_decode l)
                      (l_rows l (dbs k))) as Ht by (intros k; by apply list_endpoint_ok).
  set (tables := fun k => l_rows l (dbs k)).
  destruct (follow_sorted (l_key l) (l_lt l) _ _ _ Hr tables fuel 0 None Ht) as [Hs _].
  pose proof (fun r => follow_sound (l_key l) (l_lt l) _ _ _ Hr tables fuel 0 None r Ht) as Hsound.
  pose proof (fun key => follow_covers (l_key l) (l_lt l) _ _ _ Hr tables fuel 0 None key Ht)
    as Hcov.
  destruct (follow _ _ _ _ _ _ _ _ _) as [rows finished]. simpl in *.
  split_and!; [done| |by eauto|by eauto].
  clear -Hs H. induction Hs as [|x rows Hs IH Hx]; simpl; [constructor|].
  constructor; [|done]. intros (y & Hy & Hin)%list_elem_of_fmap.
  rewrite Forall_forall in Hx. specialize (Hx y Hin). unfold newer in Hx. rewrite Hy in Hx.
  by apply (irreflexivity (l_lt l) (l_key l y)).
Qed.

(** C4: pages while the tables change.  Whatever the indexer inserts or updates between
    two requests, a client that follows the cursors of any list endpoint is never given
    a key twice, in strictly newest-first order, and only rows a request really found;
    and when it comes to the last page, it has every key that was there throughout. *)
Theorem pages_stable l limit dbs fuel :
  list_endpoint l -> (forall k, store_ok (dbs k)) -> (forall n, limit = Some n -> 0 <= n) ->
  let '(rows, finished) := browse l limit dbs fuel 0 None in
  StronglySorted (newer (l_key l) (l_lt l)) rows /\ NoDup (l_key l <$> rows) /\
  (forall r, r ∈ rows -> exists k, r ∈ l_rows l (dbs k)) /\
  (finished = true -> forall key,
     (forall k, exists r, r ∈ l_rows l (dbs k) /\ l_key l r = key) -> key ∈ l_key l <$> rows).
Proof. apply browse_stable. Qed.

(** C34: pages of a database at rest.  Following the cursors of any list endpoint comes to
    an end within one request per started page, and delivers exactly the rows the
    endpoint selects, each once, newest first. *)
Theorem pages_exact l limit d fuel :
  list_endpoint l -> store_ok d -> (forall n, limit = Some n -> 0 <= n) ->
  Z.of_nat (length (l_rows l d)) <= resolve_limit limit * Z.of_nat fuel -> (0 < fuel)%nat ->
  exists rows, browse l limit (fun _ => d) fuel 0 None = (rows, true) /\
    rows ≡ₚ l_rows l d /\ StronglySorted (newer (l_key l) (l_lt l)) rows.
Proof.
  intros Hl Hok Hn Hlen Hf. pose proof (list_endpoint_strict l Hl).
  pose proof (list_endpoint_total l Hl). pose proof (list_endpoint_ok l d Hl Hok) as Ht.
  pose proof (resolve_limit_range limit Hn) as [Hr _]. rewrite browse_follow.
  assert (ordered (l_key l) (l_lt l) None (l_rows l d) ≡ₚ l_rows l d) as Hp.
  { unfold ordered. rewrite (merge_sort_Permutation _ _). unfold below. by rewrite filter_true. }
  exists (ordered (l_key l) (l_lt l) None (l_rows l d)). split_and!.
  - apply (follow_fixed (l_key l) (l_lt l)); [done|done| |done]. simpl. by rewrite Hp.
  - done.
  - apply ordered_sorted; [apply _..|]. apply Ht.
Qed.
End ListingSpec.

(** ** At concrete inputs

    Base64 and JSON text themselves, and the order of the texts' codes. *)
Module SampleText.
Definition b64 : Base64Url := {|
  b64_encode s := url_encode (bytes_of s);
  b64_decode s := string_of <$> url_decode s |}.
Lemma b64_laws : Base64UrlLaws b64.
Proof.
  intros s. simpl. rewrite url_decode_encode by apply bytes_of_ok. simpl.
  by rewrite string_of_bytes.
Qed.

Definition code_lt (s t : string) : Prop := (countable.encode s < countable.encode t)%positive.
#[export] Instance code_lt_dec : RelDecision code_lt.
Proof. intros s t. unfold code_lt. apply _. Defined.
Definition text : PgText :=
  {| text_lt := code_lt; text_lt_dec := code_lt_dec; jsonb_out _ := "" |}.
Lemma text_laws : PgTextLaws text.
Proof.
  split; simpl.
  - split; [intros s; apply Pos.lt_irrefl|intros s t u; apply Pos.lt_trans].
  - intros s t. unfold code_lt.
    destruct (Pos.lt_total (countable.encode s) (countable.encode t)) as [|[He|]]; [by left| |by right; right].
    right; left. by apply (inj countable.encode).
Qed.
End SampleText.

Section ListingWitnesses.
#[local] Existing Instances SampleText.b64 SampleText.b64_laws Rfc8259.json
  Rfc8259.json_laws SampleText.text SampleText.text_laws.

Definition block (h : Z) : SlotRow :=
  {| sl_hash := "0x0a"; sl_prev_hash := None; sl_state_root := None; sl_timestamp := 7;
     sl_batch_count := 0; sl_tx_count := 0; sl_proposer := None; sl_finality_status := None;
     sl_finalized_at := None; sl_raw := JNull; sl_da_block_height := None;
     sl_indexed_at := h |}.
(** Blocks 1 to [n]. *)
Definition chain (n : nat) : DB :=
  with_slots (list_to_map ((fun h => (Z.of_nat h, block (Z.of_nat h))) <$> seq 1 n)) empty_db.

Lemma chain_ok n : (n <= 9)%nat -> store_ok (chain n).
Proof.
  intros Hn. split; try (intros ? ? H; done); try (intros ? ? ? ? H; done).
  - split; try apply map_Forall_empty; intros k1 k2 v1 v2 H; done.
  - intros h r Hr. simpl in Hr. apply elem_of_list_to_map_2 in Hr.
    apply list_elem_of_fmap in Hr as (k & [= -> _] & Hk). apply elem_of_seq in Hk.
    int_consts. unfold in_i64. lia_int.
Defined.

(** Three blocks two at a time: the page is the newest two, and one is left. *)
Lemma page_contract_witness :
  let p := list_handler slots_page {| p_limit := Some 2; p_before := Some "?" |} (chain 3) in
  Z.of_nat (length (data p)) <= page_limit p /\ page_limit p <= 100.
Proof.
  destruct (page_contract slots_page {| p_limit := Some 2; p_before := Some "?" |} (chain 3))
    as ([_ Hmax] & Hlen & _).
  - constructor.
  - apply chain_ok. lia.
  - intros n [= <-]. lia.
  - split; [exact Hlen|exact Hmax].
Defined.

(** A block arrives between the two requests. *)
Lemma pages_stable_witness :
  let '(rows, finished) :=
    browse slots_page (Some 2) (fun k => chain (if (k =? 0)%nat then 3 else 4)) 3 0 None in
  NoDup (fst <$> rows) /\
  (finished = true -> forall key,
     (forall k, exists r, r ∈ map_to_list (slots (chain (if (k =? 0)%nat then 3 else 4))) /\
                          r.1 = key) -> key ∈ fst <$> rows).
Proof.
  pose proof (pages_stable slots_page (Some 2)
    (fun k => chain (if (k =? 0)%nat then 3 else 4)) 3) as Hp.
  destruct (browse slots_page (Some 2) (fun k => chain (if (k =? 0)%nat then 3 else 4)) 3 0 None)
    as [rows finished]. simpl in Hp. destruct Hp as (_ & Hnd & _ & Hcov).
  - constructor.
  - intros k. apply chain_ok. destruct k; simpl; lia.
  - intros n [= <-]. lia.
  - split; [exact Hnd|exact Hcov].
Defined.

Example chain_pages :
  fst <$> (browse slots_page (Some 2) (fun k => chain (if (k =? 0)%nat then 3 else 4)) 3 0 None).1
    = [3; 2; 1].
Proof. vm_compute. reflexivity. Qed.

Lemma pages_exact_witness :
  exists rows, browse slots_page (Some 2) (fun _ => chain 3) 2 0 None = (rows, true) /\
    rows ≡ₚ map_to_list (slots (chain 3)).
Proof.
  destruct (pages_exact slots_page (Some 2) (chain 3) 2) as (rows & Hb & Hp & _).
  - constructor.
  - apply chain_ok. lia.
  - intros n [= <-]. lia.
  - vm_compute. congruence.
  - lia.
  - exists rows. split; [exact Hb|exact Hp].
Defined.
End ListingWitnesses.
