(* ===== verification/Responses.v ===== *)
(** * Responses ([crates/api/src/responses.rs], the row mappers of [handlers.rs])

    The JSON of every resource the API serves, one record per declared struct with the
    serialiser its attributes declare, and the mapping from the rows of [Schema]: columns
    are cast to the unsigned types of the wire and times printed. *)

From S2P Require Import Prelude Json Types Schema Pages.
Open Scope string_scope.
Open Scope list_scope.
Open Scope Z_scope.

(** chrono's [to_rfc3339_opts], on milliseconds since the epoch. *)
Class Rfc3339 := { rfc3339_millis : Z -> string; rfc3339_secs : Z -> string }.

(** A member with [skip_serializing_if = "Option::is_none"]. *)
Definition skip_none {A} (k : string) (ser : A -> Value) (o : option A)
  : list (string * Value) :=
  match o with None => [] | Some a => [(k, ser a)] end.

Definition ser_opt_string : option string -> Value := ser_option JString.

(** ** Declared shapes *)

Record RegisteredAtResponse := {
  reg_block_height : Z; reg_tx_hash : string; reg_timestamp : string }.
Definition ser_RegisteredAtResponse (x : RegisteredAtResponse) : Value :=
  JObject [("block_height", ser_uint x.(reg_block_height));
           ("tx_hash", JString x.(reg_tx_hash)); ("timestamp", JString x.(reg_timestamp))].

Record SeenAtResponse := { seen_block_height : Z; seen_timestamp : string }.
Definition ser_SeenAtResponse (x : SeenAtResponse) : Value :=
  JObject [("block_height", ser_uint x.(seen_block_height));
           ("timestamp", JString x.(seen_timestamp))].

Record TokenBalanceResponse := { tb_token_id : string; tb_amount_nano : string }.
Definition ser_TokenBalanceResponse (x : TokenBalanceResponse) : Value :=
  JObject [("token_id", JString x.(tb_token_id)); ("amount_nano", JString x.(tb_amount_nano))].

Record InfoResponse := {
  inf_chain_id : string; inf_chain_hash : string; inf_version : string;
  inf_indexer_height : option Z; inf_head_height : option Z; inf_head_lag_slots : option Z }.
Definition ser_InfoResponse (x : InfoResponse) : Value :=
  JObject [("chain_id", JString x.(inf_chain_id)); ("chain_hash", JString x.(inf_chain_hash));
           ("version", JString x.(inf_version));
           ("indexer_height", ser_option ser_uint x.(inf_indexer_height));
           ("head_height", ser_option ser_uint x.(inf_head_height));
           ("head_lag_slots", ser_option ser_uint x.(inf_head_lag_slots))].

Record BlockResponse := {
  blk_height : Z; blk_hash : string; blk_parent_hash : option string;
  blk_state_root : option string; blk_timestamp : string; blk_tx_count : Z;
  blk_batch_count : Z; blk_proposer : option string; blk_size_bytes : option Z;
  blk_finality_status : option string; blk_finalized_at : option string;
  blk_da_block_height : option Z }.
Definition ser_BlockResponse (x : BlockResponse) : Value :=
  JObject ([("height", ser_uint x.(blk_height)); ("hash", JString x.(blk_hash));
            ("parent_hash", ser_opt_string x.(blk_parent_hash));
            ("state_root", ser_opt_string x.(blk_state_root));
            ("timestamp", JString x.(blk_timestamp)); ("tx_count", ser_i64 x.(blk_tx_count));
            ("batch_count", ser_i64 x.(blk_batch_count));
            ("proposer", ser_opt_string x.(blk_proposer));
            ("size_bytes", ser_option ser_uint x.(blk_size_bytes))] ++
           skip_none "finality_status" JString x.(blk_finality_status) ++
           skip_none "finalized_at" JString x.(blk_finalized_at) ++
           skip_none "da_block_height" ser_uint x.(blk_da_block_height)).

Record TxResponse := {
  txr_hash : string; txr_block_height : Z; txr_block_hash : option string;
  txr_block_timestamp : option string; txr_position : Z; txr_sender : option string;
  txr_sender_pubkey : option string; txr_nonce : option Z; txr_fee_paid_nano : option string;
  txr_protocol_fee_nano : option string; txr_kind : string; txr_details : Value;
  txr_outcome : string; txr_revert_reason : option string }.
Definition ser_TxResponse (x : TxResponse) : Value :=
  JObject ([("hash", JString x.(txr_hash)); ("block_height", ser_uint x.(txr_block_height));
            ("block_hash", ser_opt_string x.(txr_block_hash));
            ("block_timestamp", ser_opt_string x.(txr_block_timestamp));
            ("position", ser_i64 x.(txr_position)); ("sender", ser_opt_string x.(txr_sender));
            ("sender_pubkey", ser_opt_string x.(txr_sender_pubkey));
            ("nonce", ser_option ser_i64 x.(txr_nonce));
            ("fee_paid_nano", ser_opt_string x.(txr_fee_paid_nano))] ++
           skip_none "protocol_fee_nano" JString x.(txr_protocol_fee_nano) ++
           [("kind", JString x.(txr_kind)); ("details", x.(txr_details));
            ("outcome", JString x.(txr_outcome));
            ("revert_reason", ser_opt_string x.(txr_revert_reason))]).

Record SchemaResponse := {
  scr_id : string; scr_name : string; scr_version : Z; scr_owner : string;
  scr_attestor_set_id : string; scr_threshold : Z; scr_fee_routing_bps : Z;
  scr_fee_routing_addr : option string; scr_payload_shape_hash : string;
  scr_registered_at : RegisteredAtResponse; scr_attestation_count : Z }.
Definition ser_SchemaResponse (x : SchemaResponse) : Value :=
  JObject [("id", JString x.(scr_id)); ("name", JString x.(scr_name));
           ("version", ser_uint x.(scr_version)); ("owner", JString x.(scr_owner));
           ("attestor_set_id", JString x.(scr_attestor_set_id));
           ("threshold", ser_uint x.(scr_threshold));
           ("fee_routing_bps", ser_uint x.(scr_fee_routing_bps));
           ("fee_routing_addr", ser_opt_string x.(scr_fee_routing_addr));
           ("payload_shape_hash", JString x.(scr_payload_shape_hash));
           ("registered_at", ser_RegisteredAtResponse x.(scr_registered_at));
           ("attestation_count", ser_uint x.(scr_attestation_count))].

Record AttestorSetResponse := {
  asr_id : string; asr_members : list string; asr_threshold : Z;
  asr_registered_at : RegisteredAtResponse; asr_schema_count : Z }.
Definition ser_AttestorSetResponse (x : AttestorSetResponse) : Value :=
  JObject [("id", JString x.(asr_id)); ("members", ser_list JString x.(asr_members));
           ("threshold", ser_uint x.(asr_threshold));
           ("registered_at", ser_RegisteredAtResponse x.(asr_registered_at));
           ("schema_count", ser_uint x.(asr_schema_count))].

Record AddressSummaryResponse := {
  adr_address : string; adr_balances : list TokenBalanceResponse; adr_tx_count : Z;
  adr_first_seen : option SeenAtResponse; adr_last_seen : option SeenAtResponse;
  adr_schemas_owned_count : Z; adr_attestor_member_count : Z }.
Definition ser_AddressSummaryResponse (x : AddressSummaryResponse) : Value :=
  JObject [("address", JString x.(adr_address));
           ("balances", ser_list ser_TokenBalanceResponse x.(adr_balances));
           ("tx_count", ser_uint x.(adr_tx_count));
           ("first_seen", ser_option ser_SeenAtResponse x.(adr_first_seen));
           ("last_seen", ser_option ser_SeenAtResponse x.(adr_last_seen));
           ("schemas_owned_count", ser_uint x.(adr_schemas_owned_count));
           ("attestor_member_count", ser_uint x.(adr_attestor_member_count))].

Record AttestationResponse := {
  atr_id : string; atr_schema_id : string; atr_payload_hash : string; atr_submitter : string;
  atr_submitter_pubkey : option string; atr_signature_count : Z;
  atr_submitted_at : RegisteredAtResponse }.
Definition ser_AttestationResponse (x : AttestationResponse) : Value :=
  JObject ([("id", JString x.(atr_id)); ("schema_id", JString x.(atr_schema_id));
            ("payload_hash", JString x.(atr_payload_hash));
            ("submitter", JString x.(atr_submitter))] ++
           skip_none "submitter_pubkey" JString x.(atr_submitter_pubkey) ++
           [("signature_count", ser_uint x.(atr_signature_count));
            ("submitted_at", ser_RegisteredAtResponse x.(atr_submitted_at))]).

Record BountyMatchEntry := {
  bme_id : string; bme_poster : string; bme_board_schema_id : string;
  bme_per_attestation_nano : string; bme_escrow_remaining_nano : string;
  bme_pool_nano : string; bme_acceptance : Value; bme_expiry_da_height : Z;
  bme_posted_at_slot : Z; bme_my_attestation_count : Z }.
Definition ser_BountyMatchEntry (x : BountyMatchEntry) : Value :=
  JObject [("id", JString x.(bme_id)); ("poster", JString x.(bme_poster));
           ("board_schema_id", JString x.(bme_board_schema_id));
           ("per_attestation_nano", JString x.(bme_per_attestation_nano));
           ("escrow_remaining_nano", JString x.(bme_escrow_remaining_nano));
           ("pool_nano", JString x.(bme_pool_nano)); ("acceptance", x.(bme_acceptance));
           ("expiry_da_height", ser_i64 x.(bme_expiry_da_height));
           ("posted_at_slot", ser_i64 x.(bme_posted_at_slot));
           ("my_attestation_count", ser_i64 x.(bme_my_attestation_count))].

Definition ser_BountyMatchingResponse (address : string) (matches : list BountyMatchEntry)
  : Value :=
  JObject [("address", JString address); ("matches", ser_list ser_BountyMatchEntry matches)].

Record BountyDetailResponse := {
  bdr_id : string; bdr_poster : string; bdr_board_schema_id : string; bdr_pool_nano : string;
  bdr_per_attestation_nano : string; bdr_escrow_remaining_nano : string; bdr_status : string;
  bdr_acceptance : Value; bdr_expiry_da_height : Z; bdr_dispute_window_blocks : Z;
  bdr_claim_count : Z; bdr_posted_at : RegisteredAtResponse;
  bdr_last_claim_at_slot : option Z }.
Definition ser_BountyDetailResponse (x : BountyDetailResponse) : Value :=
  JObject [("id", JString x.(bdr_id)); ("poster", JString x.(bdr_poster));
           ("board_schema_id", JString x.(bdr_board_schema_id));
           ("pool_nano", JString x.(bdr_pool_nano));
           ("per_attestation_nano", JString x.(bdr_per_attestation_nano));
           ("escrow_remaining_nano", JString x.(bdr_escrow_remaining_nano));
           ("status", JString x.(bdr_status)); ("acceptance", x.(bdr_acceptance));
           ("expiry_da_height", ser_i64 x.(bdr_expiry_da_height));
           ("dispute_window_blocks", ser_i64 x.(bdr_dispute_window_blocks));
           ("claim_count", ser_i64 x.(bdr_claim_count));
           ("posted_at", ser_RegisteredAtResponse x.(bdr_posted_at));
           ("last_claim_at_slot", ser_option ser_i64 x.(bdr_last_claim_at_slot))].

Record ContractDetailResponse := {
  cdr_id : string; cdr_poster : string; cdr_arbiter : string; cdr_criteria_doc_hash : string;
  cdr_pool_nano : string; cdr_escrow_remaining_nano : string; cdr_arbiter_fee_bps : Z;
  cdr_status : string; cdr_expiry_da_height : Z; cdr_dispute_window_blocks : Z;
  cdr_posted_at : RegisteredAtResponse }.
Definition ser_ContractDetailResponse (x : ContractDetailResponse) : Value :=
  JObject [("id", JString x.(cdr_id)); ("poster", JString x.(cdr_poster));
           ("arbiter", JString x.(cdr_arbiter));
           ("criteria_doc_hash", JString x.(cdr_criteria_doc_hash));
           ("pool_nano", JString x.(cdr_pool_nano));
           ("escrow_remaining_nano", JString x.(cdr_escrow_remaining_nano));
           ("arbiter_fee_bps", ser_uint x.(cdr_arbiter_fee_bps));
           ("status", JString x.(cdr_status));
           ("expiry_da_height", ser_i64 x.(cdr_expiry_da_height));
           ("dispute_window_blocks", ser_i64 x.(cdr_dispute_window_blocks));
           ("posted_at", ser_RegisteredAtResponse x.(cdr_posted_at))].

(** [SearchResponse], with [tag = "kind", rename_all = "snake_case"]. *)
Module SearchResponse.
Inductive t :=
| Block (block_height : Z)
| Tx (tx_hash : string)
| Address (address : string)
| Schema (schema_id : string)
| AttestorSet (attestor_set_id : string)
| Attestation (id : string)
| NotFound (query : string).
End SearchResponse.

Definition ser_SearchResponse (x : SearchResponse.t) : Value :=
  match x with
  | SearchResponse.Block h => JObject [("kind", JString "block"); ("block_height", ser_uint h)]
  | SearchResponse.Tx h => JObject [("kind", JString "tx"); ("tx_hash", JString h)]
  | SearchResponse.Address a => JObject [("kind", JString "address"); ("address", JString a)]
  | SearchResponse.Schema i => JObject [("kind", JString "schema"); ("schema_id", JString i)]
  | SearchResponse.AttestorSet i =>
      JObject [("kind", JString "attestor_set"); ("attestor_set_id", JString i)]
  | SearchResponse.Attestation i => JObject [("kind", JString "attestation"); ("id", JString i)]
  | SearchResponse.NotFound q => JObject [("kind", JString "not_found"); ("query", JString q)]
  end.

(** [Page] and [Pagination]. *)
Definition ser_Page (p : Page Value) : Value :=
  JObject [("data", JArray p.(data));
           ("pagination", JObject [("next", ser_opt_string p.(next));
                                   ("limit", ser_uint p.(page_limit))])].

(** ** From rows to responses *)

Section Mappers.
Context `{Rfc3339}.

Definition slot_to_block_response (row : Z * SlotRow) : BlockResponse :=
  let '(height, r) := row in
  {| blk_height := as_u64 height; blk_hash := r.(sl_hash); blk_parent_hash := r.(sl_prev_hash);
     blk_state_root := r.(sl_state_root); blk_timestamp := rfc3339_millis r.(sl_timestamp);
     blk_tx_count := r.(sl_tx_count); blk_batch_count := r.(sl_batch_count);
     blk_proposer := r.(sl_proposer); blk_size_bytes := None;
     blk_finality_status := r.(sl_finality_status);
     blk_finalized_at := rfc3339_millis <$> r.(sl_finalized_at);
     blk_da_block_height := as_u64 <$> r.(sl_da_block_height) |}.

(** A row of [transactions JOIN slots]; [NUMERIC(78,0)] prints as an integer. *)
Definition tx_row_to_response (row : string * TxRow * SlotRow) : TxResponse :=
  let '(hash, r, s) := row in
  {| txr_hash := hash; txr_block_height := as_u64 r.(tr_slot);
     txr_block_hash := Some s.(sl_hash);
     txr_block_timestamp := Some (rfc3339_millis s.(sl_timestamp));
     txr_position := r.(tr_position); txr_sender := r.(tr_sender);
     txr_sender_pubkey := r.(tr_sender_pubkey); txr_nonce := r.(tr_nonce);
     txr_fee_paid_nano := to_string <$> r.(tr_fee_paid_nano);
     txr_protocol_fee_nano := to_string <$> r.(tr_protocol_fee_nano); txr_kind := r.(tr_kind);
     txr_details := r.(tr_details); txr_outcome := r.(tr_outcome);
     txr_revert_reason := r.(tr_revert_reason) |}.

Definition registered_at (slot : Z) (tx : string) (timestamp : Z) : RegisteredAtResponse :=
  {| reg_block_height := as_u64 slot; reg_tx_hash := tx;
     reg_timestamp := rfc3339_millis timestamp |}.

(** A row of [schemas JOIN attestor_sets]: the threshold is the set's. *)
Definition schema_row_to_response (row : string * SchemaRow * Z) : SchemaResponse :=
  let '(id, r, threshold) := row in
  {| scr_id := id; scr_name := r.(sc_name); scr_version := as_u32 r.(sc_version);
     scr_owner := r.(sc_owner); scr_attestor_set_id := r.(sc_attestor_set_id);
     scr_threshold := as_u8 threshold; scr_fee_routing_bps := as_u16 r.(sc_fee_routing_bps);
     scr_fee_routing_addr := r.(sc_fee_routing_addr);
     scr_payload_shape_hash := r.(sc_payload_shape_hash);
     scr_registered_at := registered_at r.(sc_registered_at_slot) r.(sc_registered_at_tx)
                            r.(sc_registered_at_timestamp);
     scr_attestation_count := as_u32 r.(sc_attestation_count) |}.

(** The strings of a JSON array; anything else is dropped. *)
Definition member_strings (members : Value) : list string :=
  match members with JArray arr => omap as_str arr | _ => [] end.

Definition attestor_set_row_to_response (row : string * AttestorSetRow) : AttestorSetResponse :=
  let '(id, r) := row in
  {| asr_id := id; asr_members := member_strings r.(as_members);
     asr_threshold := as_u8 r.(as_threshold);
     asr_registered_at := registered_at r.(as_registered_at_slot) r.(as_registered_at_tx)
                            r.(as_registered_at_timestamp);
     asr_schema_count := as_u32 r.(as_schema_count) |}.

Definition attestation_row_to_response (row : string * AttestationRow) : AttestationResponse :=
  let '(id, r) := row in
  {| atr_id := id; atr_schema_id := r.(at_schema_id); atr_payload_hash := r.(at_payload_hash);
     atr_submitter := r.(at_submitter); atr_submitter_pubkey := r.(at_submitter_pubkey);
     atr_signature_count := as_u32 r.(at_signature_count);
     atr_submitted_at := registered_at r.(at_submitted_at_slot) r.(at_submitted_at_tx)
                           r.(at_submitted_at_timestamp) |}.

Definition bounty_row_to_response (row : string * BountyRow) : BountyDetailResponse :=
  let '(id, r) := row in
  {| bdr_id := id; bdr_poster := r.(bo_poster); bdr_board_schema_id := r.(bo_board_schema_id);
     bdr_pool_nano := r.(bo_pool_nano); bdr_per_attestation_nano := r.(bo_per_attestation_nano);
     bdr_escrow_remaining_nano := r.(bo_escrow_remaining_nano); bdr_status := r.(bo_status);
     bdr_acceptance := r.(bo_acceptance); bdr_expiry_da_height := r.(bo_expiry_da_height);
     bdr_dispute_window_blocks := r.(bo_dispute_window_blocks);
     bdr_claim_count := r.(bo_claim_count);
     bdr_posted_at := registered_at r.(bo_posted_at_slot) r.(bo_posted_at_tx)
                        r.(bo_posted_at_timestamp);
     bdr_last_claim_at_slot := r.(bo_last_claim_at_slot) |}.

Definition contract_row_to_response (row : string * ContractRow) : ContractDetailResponse :=
  let '(id, r) := row in
  {| cdr_id := id; cdr_poster := r.(co_poster); cdr_arbiter := r.(co_arbiter);
     cdr_criteria_doc_hash := r.(co_criteria_doc_hash); cdr_pool_nano := r.(co_pool_nano);
     cdr_escrow_remaining_nano := r.(co_escrow_remaining_nano);
     cdr_arbiter_fee_bps := as_u16 r.(co_arbiter_fee_bps); cdr_status := r.(co_status);
     cdr_expiry_da_height := r.(co_expiry_da_height);
     cdr_dispute_window_blocks := r.(co_dispute_window_blocks);
     cdr_posted_at := registered_at r.(co_posted_at_slot) r.(co_posted_at_tx)
                        r.(co_posted_at_timestamp) |}.
End Mappers.
