(* ===== verification/Sql.v ===== *)
(** * Aggregates of the read queries

    [COUNT .. GROUP BY], [ORDER BY] and [LIMIT] over lists of rows, with what they
    deliver: each group once with the number of its rows, in order, and, of a limited
    ordered result, that nothing left out comes before anything kept. *)

From S2P Require Import Prelude.
From stdpp Require Import sorting.
Open Scope Z_scope.

(** ** Groups *)

Section Groups.
Context {K : Type} `{EqDecision K}.

Definition count_of (k : K) (keys : list K) : Z := Z.of_nat (length (filter (fun k' => k' = k) keys)).

(** [SELECT k, COUNT] with [GROUP BY k] over the rows whose keys are given. *)
Definition group_count (keys : list K) : list (K * Z) :=
  (fun k => (k, count_of k keys)) <$> remove_dups keys.

Lemma count_of_cons k x keys :
  count_of k (x :: keys) = (if decide (x = k) then 1 else 0) + count_of k keys.
Proof.
  unfold count_of. rewrite filter_cons. destruct (decide (x = k)); simpl length; lia.
Qed.

Lemma count_of_pos k keys : k ∈ keys <-> 0 < count_of k keys.
Proof.
  induction keys as [|x keys IH].
  - split; [by intros ?%not_elem_of_nil|]. unfold count_of. simpl. lia.
  - rewrite count_of_cons, elem_of_cons. pose proof (Nat2Z.is_nonneg (length (filter (.= k) keys))).
    destruct (decide (x = k)) as [->|Hn]; unfold count_of in *; [split; [lia|by left]|].
    rewrite IH. split; [intros [|]; [congruence|lia]|intros; right; lia].
Qed.

Lemma count_of_perm k keys keys' : keys ≡ₚ keys' -> count_of k keys = count_of k keys'.
Proof. intros Hp. unfold count_of. by rewrite Hp. Qed.

Lemma count_of_fmap {A} (f : A -> K) k l :
  count_of k (f <$> l) = Z.of_nat (length (filter (fun x => f x = k) l)).
Proof.
  unfold count_of. f_equal. induction l as [|x l IH]; [done|].
  rewrite fmap_cons, !filter_cons. destruct (decide (f x = k)); simpl; by rewrite IH.
Qed.

(** Each group appears once, with the number of its rows. *)
Lemma elem_of_group_count k n keys :
  (k, n) ∈ group_count keys <-> k ∈ keys /\ n = count_of k keys.
Proof.
  unfold group_count. rewrite list_elem_of_fmap. split.
  - intros (k' & [= -> ->] & Hk). split; [by apply elem_of_remove_dups|done].
  - intros [Hk ->]. exists k. split; [done|]. by apply elem_of_remove_dups.
Qed.

Lemma group_count_keys keys : (group_count keys).*1 = remove_dups keys.
Proof. unfold group_count. rewrite <- list_fmap_compose. apply list_fmap_id. Qed.

Lemma group_count_nodup keys : NoDup (group_count keys).*1.
Proof. rewrite group_count_keys. apply NoDup_remove_dups. Qed.

(** The counts add up to the number of rows. *)
Definition total (counts : list Z) : Z := foldr Z.add 0 counts.

Lemma total_cons x l : total (x :: l) = x + total l.
Proof. done. Qed.

Lemma total_app l l' : total (l ++ l') = total l + total l'.
Proof. induction l as [|x l IH]; simpl; [done|]. unfold total in *. simpl. lia. Qed.

Lemma total_perm l l' : l ≡ₚ l' -> total l = total l'.
Proof. induction 1; unfold total in *; simpl; lia. Qed.

Lemma total_counts (ks keys : list K) :
  NoDup ks -> (forall k, k ∈ keys -> k ∈ ks) ->
  total ((fun k => count_of k keys) <$> ks) = Z.of_nat (length keys).
Proof.
  intros Hnd. induction keys as [|x keys IH]; intros Hin.
  - clear. induction ks as [|k ks IH]; [done|exact IH].
  - assert (total ((fun k => count_of k (x :: keys)) <$> ks) =
      total ((fun k => if decide (x = k) then 1 else 0) <$> ks) +
      total ((fun k => count_of k keys) <$> ks)) as ->.
    { clear. induction ks as [|k ks IH]; [done|]. rewrite !fmap_cons, !total_cons, IH, count_of_cons. lia. }
    rewrite IH by (intros k Hk; apply Hin; by right).
    assert (total ((fun k => if decide (x = k) then 1 else 0) <$> ks) = 1) as ->.
    2: { simpl length. lia. }
    assert (x ∈ ks) as Hx by (apply Hin; left). clear -Hnd Hx.
    induction ks as [|k ks IH]; [by apply not_elem_of_nil in Hx|].
    apply NoDup_cons in Hnd as [Hn Hnd]. rewrite fmap_cons, total_cons.
    destruct (decide (x = k)) as [->|Hne].
    + assert (total ((fun k' => if decide (k = k') then 1 else 0) <$> ks) = 0) as ->; [|done].
      clear -Hn. induction ks as [|y ks IH]; [done|]. apply not_elem_of_cons in Hn as [Hy Hn].
      by rewrite fmap_cons, total_cons, decide_False, IH.
    + rewrite IH; [done..|]. apply elem_of_cons in Hx as [|]; done.
Qed.

Lemma total_group_count keys : total (group_count keys).*2 = Z.of_nat (length keys).
Proof.
  unfold group_count. rewrite <- list_fmap_compose.
  apply (total_counts (remove_dups keys) keys); [apply NoDup_remove_dups|].
  intros k. by rewrite elem_of_remove_dups.
Qed.
End Groups.

(** ** Order

    [ORDER BY key] for a strict order of the keys; [desc] reverses one. *)

Definition desc {K} (lt : relation K) : relation K := fun a b => lt b a.
#[export] Instance desc_dec {K} (lt : relation K) `{!RelDecision lt} : RelDecision (desc lt).
Proof. intros a b. unfold desc. apply _. Defined.
#[export] Instance desc_strict {K} (lt : relation K) `{!StrictOrder lt} : StrictOrder (desc lt).
Proof.
  split; [intros x; apply (irreflexivity lt)|intros x y z Hxy Hyz; unfold desc in *; by etrans].
Qed.
#[export] Instance desc_total {K} (lt : relation K) `{!Trichotomy lt} : Trichotomy (desc lt).
Proof. intros x y. unfold desc. destruct (trichotomy lt x y) as [|[->|]]; auto. Qed.

#[global] Typeclasses Opaque desc.

Section Order.
Context {A K : Type} (key : A -> K) (lt : relation K) `{!RelDecision lt}.

Definition before (a b : A) : Prop := lt (key a) (key b).
Definition not_after (a b : A) : Prop := ~ before b a.
#[export] Instance not_after_dec a b : Decision (not_after a b).
Proof. unfold not_after, before. apply _. Defined.

Definition order_by (rows : list A) : list A := merge_sort not_after rows.
Definition limit (n : Z) (rows : list A) : list A := take (Z.to_nat n) rows.

Lemma order_by_perm rows : order_by rows ≡ₚ rows.
Proof. apply merge_sort_Permutation. Qed.

Lemma elem_of_order_by r rows : r ∈ order_by rows <-> r ∈ rows.
Proof. by rewrite order_by_perm. Qed.

Context `{!StrictOrder lt} `{!Trichotomy lt}.

#[local] Instance not_after_trans : Transitive not_after.
Proof.
  intros x y z Hxy Hyz Hzx. unfold not_after, before in *.
  destruct (trichotomy lt (key y) (key z)) as [Hyz'|[He|Hzy]]; [| |done].
  - apply Hxy. by etrans.
  - rewrite He in Hxy. done.
Qed.
#[local] Instance not_after_total : Total not_after.
Proof.
  intros x y. unfold not_after, before. destruct (decide (lt (key y) (key x))) as [Hl|]; [right|by left].
  intros Hl'. apply (irreflexivity lt (key x)). by etrans.
Qed.

(** The first row in order: nothing comes before it. *)
Lemma first_row rows :
  match head (order_by rows) with
  | Some r => r ∈ rows /\ forall r', r' ∈ rows -> ~ before r' r
  | None => rows = []
  end.
Proof.
  assert (StronglySorted not_after (order_by rows)) as Hs
    by (apply StronglySorted_merge_sort; apply _).
  pose proof (fun r => elem_of_order_by r rows) as He.
  destruct (order_by rows) as [|r l] eqn:E; simpl.
  - destruct rows as [|r rows]; [done|]. exfalso. apply (not_elem_of_nil r), He. left.
  - split; [apply He; left|]. intros r' Hr'%He. inversion Hs as [|? ? _ Hr]; subst.
    apply elem_of_cons in Hr' as [->|Hr']; [apply (irreflexivity lt)|].
    rewrite Forall_forall in Hr. by apply Hr.
Qed.

Lemma order_by_sorted rows : NoDup (key <$> rows) -> StronglySorted before (order_by rows).
Proof.
  intros Hnd. assert (NoDup (key <$> order_by rows)) as Ho by (by rewrite order_by_perm).
  assert (StronglySorted not_after (order_by rows)) as Hs
    by (apply StronglySorted_merge_sort; apply _).
  revert Ho. induction Hs as [|x l Hs IH Hx]; [constructor|].
  rewrite fmap_cons. intros [Hn Ho]%NoDup_cons. constructor; [by apply IH|].
  apply Forall_forall. intros y Hy. rewrite Forall_forall in Hx. specialize (Hx y Hy).
  destruct (trichotomy lt (key x) (key y)) as [|[He|]]; [done| |done].
  exfalso. apply Hn. rewrite He. by apply list_elem_of_fmap_2.
Qed.

Lemma sorted_take n l : StronglySorted before l -> StronglySorted before (take n l).
Proof.
  intros Hs. revert n. induction Hs as [|x l Hs IH Hx]; intros [|n]; simpl; [constructor..|].
  constructor; [apply IH|]. by apply Forall_take.
Qed.

Lemma sorted_split l n x y :
  StronglySorted before l -> x ∈ take n l -> y ∈ drop n l -> before x y.
Proof.
  intros Hs. revert n. induction Hs as [|z l Hs IH Hz]; intros [|n]; simpl.
  1-3: by intros ?%not_elem_of_nil.
  intros [->|Hx]%elem_of_cons Hy; [|by eapply IH].
  rewrite Forall_forall in Hz. apply Hz. rewrite <- (take_drop n l). apply elem_of_app. by right.
Qed.

(** The first [n] rows in order: they are rows, they come in order, and one that is left
    out comes after all of them and is left out only when the limit is reached. *)
Lemma top_rows n rows :
  NoDup (key <$> rows) -> 0 <= n ->
  let top := limit n (order_by rows) in
  StronglySorted before top /\ Z.of_nat (length top) <= n /\
  (forall r, r ∈ top -> r ∈ rows) /\
  (forall r, r ∈ rows -> r ∉ top ->
     Z.of_nat (length top) = n /\ forall t, t ∈ top -> before t r).
Proof.
  intros Hnd Hn top. pose proof (order_by_sorted rows Hnd) as Hs. unfold top, limit. split_and!.
  - by apply sorted_take.
  - rewrite length_take. lia.
  - intros r Hr. rewrite <- elem_of_order_by. rewrite <- (take_drop (Z.to_nat n) (order_by rows)).
    apply elem_of_app. by left.
  - intros r Hr Hnot. rewrite <- elem_of_order_by in Hr.
    assert (r ∈ drop (Z.to_nat n) (order_by rows)) as Hd.
    { rewrite <- (take_drop (Z.to_nat n) (order_by rows)) in Hr.
      by apply elem_of_app in Hr as [|]. }
    split; [|intros t Ht; by eapply sorted_split].
    rewrite length_take. assert (0 < length (drop (Z.to_nat n) (order_by rows)))%nat as Hl.
    { destruct (drop _ _); [by apply not_elem_of_nil in Hd|simpl; lia]. }
    rewrite length_drop in Hl. lia.
Qed.
End Order.
