(* ===== verification/Lookup.v ===== *)
(** * Detail endpoints and search ([crates/api/src/handlers.rs], [queries.rs])

    Every read handler beside the statistics: the list endpoints with their rows rendered,
    the lookups by id, the address summary, [/v1/info], bounty matching and the search
    dispatch.  A handler is an [IO] program: a query reads the tables as the indexer has
    left them by then, or fails. *)

From S2P Require Import Prelude Json Types Standards AttestationId Schema Io Client Config Startup Pages Listing Responses Sql.
From stdpp Require Import sorting.
Open Scope string_scope.
Open Scope list_scope.
Open Scope Z_scope.
Open Scope io_scope.

(** ** Replies *)

Record Response := { rs_status : Z; rs_max_age : option Z; rs_body : Value }.

Definition TTL_LIVE_SECS : Z := 5.
Definition TTL_MODEST_SECS : Z := 30.
Definition TTL_SLOW_SECS : Z := 60.
Definition TTL_IMMUTABLE_SECS : Z := 300.

Definition json_ok (body : Value) : Response :=
  {| rs_status := 200; rs_max_age := None; rs_body := body |}.
Definition cached (body : Value) (max_age_secs : Z) : Response :=
  {| rs_status := 200; rs_max_age := Some max_age_secs; rs_body := body |}.
Definition refused (status : Z) (members : list (string * Value)) : Response :=
  {| rs_status := status; rs_max_age := None; rs_body := JObject members |}.
Definition not_found (error : string) : Response :=
  refused 404 [("error", JString error); ("tracking", JNull)].
Definition internal_error : Response :=
  refused 500 [("error", JString "internal error"); ("tracking", JNull)].

(** ** Text *)

(** [str::to_lowercase] of a text with characters beyond ASCII: Unicode's tables. *)
Class Unicode := unicode_lowercase : string -> string.

Definition is_ascii (s : string) : bool :=
  forallb (fun c => (N_of_ascii c <? 128)%N) (list_ascii_of_string s).
Definition ascii_lower (c : ascii) : ascii :=
  let n := N_of_ascii c in
  if ((65 <=? n) && (n <=? 90))%N then ascii_of_N (n + 32) else c.
Definition to_lowercase `{Unicode} (s : string) : string :=
  if is_ascii s
  then string_of_list_ascii (ascii_lower <$> list_ascii_of_string s)
  else unicode_lowercase s.

Definition starts_with (pat s : string) : bool := String.prefix pat s.

(** ** Queries *)

Definition max_slot_height (d : DB) : option Z :=
  fold_right (fun h m => Some (match m with Some x => Z.max h x | None => h end)) None
    (map_to_list d.(slots)).*1.

Definition slot_by_height (height : Z) (d : DB) : option (Z * SlotRow) :=
  (fun r => (height, r)) <$> d.(slots) !! height.

Definition tx_by_hash (hash : string) (d : DB) : option (string * TxRow * SlotRow) :=
  r ← d.(transactions) !! hash; s ← d.(slots) !! r.(tr_slot); Some (hash, r, s).

(** [schemas JOIN attestor_sets ON a.id = s.attestor_set_id]. *)
Definition with_threshold (d : DB) (row : string * SchemaRow)
  : option (string * SchemaRow * Z) :=
  a ← d.(attestor_sets) !! row.2.(sc_attestor_set_id); Some (row, a.(as_threshold)).

Definition schema_by_id (id : string) (d : DB) : option (string * SchemaRow * Z) :=
  r ← d.(schemas) !! id; with_threshold d (id, r).

Definition attestor_set_by_id (id : string) (d : DB) : option (string * AttestorSetRow) :=
  (fun r => (id, r)) <$> d.(attestor_sets) !! id.
Definition attestation_by_id (id : string) (d : DB) : option (string * AttestationRow) :=
  (fun r => (id, r)) <$> d.(attestations) !! id.
Definition bounty_by_id (id : string) (d : DB) : option (string * BountyRow) :=
  (fun r => (id, r)) <$> d.(bounties) !! id.
Definition contract_by_id (id : string) (d : DB) : option (string * ContractRow) :=
  (fun r => (id, r)) <$> d.(contracts) !! id.

(** A zeroed row for an address that was never seen. *)
Definition zero_address : AddressRow :=
  {| ad_txs_sent_count := 0; ad_txs_received_count := 0; ad_first_seen_slot := None;
     ad_first_seen_tx := None; ad_first_seen_timestamp := None; ad_last_seen_slot := None;
     ad_last_seen_tx := None; ad_last_seen_timestamp := None; ad_schemas_owned_count := 0;
     ad_attestor_member_count := 0; ad_indexed_at := 0 |}.
Definition address_row (address : string) (d : DB) : AddressRow :=
  default zero_address (d.(address_summaries) !! address).

(** [WHERE hash = $1] without an order: the first match of an unordered table. *)
Definition slot_height_for_block_hash (hash : string) (d : DB) : option Z :=
  fst <$> head (filter (fun hr : Z * SlotRow => hr.2.(sl_hash) = hash) (map_to_list d.(slots))).

Definition address_exists (address : string) (d : DB) : bool :=
  bool_decide (is_Some (d.(address_summaries) !! address)).
Definition schema_exists (id : string) (d : DB) : bool :=
  bool_decide (is_Some (d.(schemas) !! id)).
Definition attestor_set_exists (id : string) (d : DB) : bool :=
  bool_decide (is_Some (d.(attestor_sets) !! id)).
Definition attestation_id_exists (id : string) (d : DB) : bool :=
  bool_decide (is_Some (d.(attestations) !! id)).

Section Queries.
Context `{PgText}.

(** [ORDER BY slot DESC, id ASC]. *)
Definition newest_first : relation (Z * string) := row_lt (desc Z.lt) text_lt.
#[export] Instance newest_first_dec : RelDecision newest_first.
Proof. apply (row_lt_dec (desc Z.lt) text_lt). Defined.

Definition attestation_id_by_payload_hash (payload_hash : string) (d : DB) : option string :=
  fst <$> head (limit 1 (order_by
    (fun r : string * AttestationRow => (r.2.(at_submitted_at_slot), r.2.(at_schema_id)))
    newest_first
    (filter (fun r : string * AttestationRow => r.2.(at_payload_hash) = payload_hash)
       (map_to_list d.(attestations))))).

(** [bounties b JOIN attestations a ON a.schema_id = b.board_schema_id WHERE b.status =
    'open' AND a.submitter = $1]: the joined rows' bounties. *)
Definition matching_join (address : string) (d : DB) : list string :=
  '(id, b) ← map_to_list d.(bounties);
  '(_, a) ← map_to_list d.(attestations);
  if decide (a.(at_schema_id) = b.(bo_board_schema_id) /\ b.(bo_status) = "open" /\
             a.(at_submitter) = address)
  then [id] else [].

(** [GROUP BY b.id ORDER BY b.posted_at_slot DESC, b.id ASC LIMIT n]. *)
Definition matched (d : DB) (g : string * Z) : option (string * BountyRow * Z) :=
  (fun b => (g.1, b, g.2)) <$> d.(bounties) !! g.1.
Definition bounties_matching_address (address : string) (n : Z) (d : DB)
  : list (string * BountyRow * Z) :=
  limit n (order_by (fun r => (r.1.2.(bo_posted_at_slot), r.1.1)) newest_first
    (omap (matched d) (group_count (matching_join address d)))).
End Queries.

(** ** Handlers *)

Section Handlers.
Context `{JsonText} `{Base64Url} `{PgText} `{Urls} `{Rfc3339} `{Unicode} `{B : Bech32}
  `{SdkReads}.
Context (decode_error_text : DecodeError -> string).

(** *** List endpoints

    The page of [Listing], each row rendered in the database the query saw. *)
Definition rendered (l : Listing) (render : DB -> l_Row l -> Value) (params : PaginationParams)
    (d : DB) : Page Value :=
  let p := list_handler l params d in
  {| data := render d <$> p.(data); next := p.(next); page_limit := p.(page_limit) |}.

Definition list_reply (l : Listing) (render : DB -> l_Row l -> Value) (ttl : Z)
    (params : PaginationParams) : IO Response :=
  r ← query (rendered l render params);
  mret (match r with
        | Ok page => cached (ser_Page page) ttl
        | Err _ => internal_error
        end).

Definition blocks_list : PaginationParams -> IO Response :=
  list_reply slots_page (fun _ r => ser_BlockResponse (slot_to_block_response r)) TTL_LIVE_SECS.
Definition txs_list (kind : option string) (block_height : option Z)
  : PaginationParams -> IO Response :=
  list_reply (txs_page kind block_height) (fun _ r => ser_TxResponse (tx_row_to_response r))
    TTL_LIVE_SECS.
Definition address_txs (addr : string) : PaginationParams -> IO Response :=
  list_reply (address_txs_page addr) (fun _ r => ser_TxResponse (tx_row_to_response r))
    TTL_LIVE_SECS.
Definition schemas_list (attestor_set_id : option string) : PaginationParams -> IO Response :=
  list_reply (schemas_page attestor_set_id)
    (fun d r => ser_option (fun x => ser_SchemaResponse (schema_row_to_response x))
                  (with_threshold d r)) TTL_SLOW_SECS.
Definition attestations_list : PaginationParams -> IO Response :=
  list_reply (attestations_page None)
    (fun _ r => ser_AttestationResponse (attestation_row_to_response r)) TTL_MODEST_SECS.
Definition attestations_by_schema (schema_id : string) : PaginationParams -> IO Response :=
  list_reply (attestations_page (Some schema_id))
    (fun _ r => ser_AttestationResponse (attestation_row_to_response r)) TTL_MODEST_SECS.
Definition attestations_by_set (set_id : string) : PaginationParams -> IO Response :=
  list_reply (attestations_by_attestor_set set_id)
    (fun _ r => ser_AttestationResponse (attestation_row_to_response r)) TTL_MODEST_SECS.
Definition attestor_sets_list : PaginationParams -> IO Response :=
  list_reply attestor_sets_page
    (fun _ r => ser_AttestorSetResponse (attestor_set_row_to_response r)) TTL_SLOW_SECS.
Definition bounties_list (board status : option string) : PaginationParams -> IO Response :=
  list_reply (bounties_page board status)
    (fun _ r => ser_BountyDetailResponse (bounty_row_to_response r)) TTL_MODEST_SECS.
Definition contracts_list (status poster arbiter : option string)
  : PaginationParams -> IO Response :=
  list_reply (contracts_page status poster arbiter)
    (fun _ r => ser_ContractDetailResponse (contract_row_to_response r)) TTL_MODEST_SECS.

(** [/v1/attestor-sets/by-member/{pubkey}]: the key is checked before the query. *)
Definition attestor_sets_by_member (raw : string) (params : PaginationParams) : IO Response :=
  let pubkey := to_lowercase (trim raw) in
  match bech32_decode pubkey with
  | Ok (hrp, bytes) =>
      if (hrp =? "lpk")%string && (length bytes =? 32)%nat
      then list_reply (attestor_sets_for_member_page pubkey)
             (fun _ r => ser_AttestorSetResponse (attestor_set_row_to_response r))
             TTL_SLOW_SECS params
      else mret (refused 400
             [("error", JString "invalid_pubkey");
              ("detail", JString ("expected bech32m HRP `lpk` with 32-byte payload, got HRP `" ++
                 hrp ++ "` with " ++ to_string (Z.of_nat (length bytes)) ++
                 "-byte payload")%string)])
  | Err e => mret (refused 400
       [("error", JString "invalid_pubkey");
        ("detail", JString ("bech32m decode failed: " ++ decode_error_text e)%string)])
  end.

(** *** Lookups *)

Definition detail {A} (f : DB -> option A) (ser : A -> Value) (absent : string) (ttl : Z)
  : IO Response :=
  r ← query f;
  mret (match r with
        | Ok (Some a) => cached (ser a) ttl
        | Ok None => not_found absent
        | Err _ => internal_error
        end).

Definition block_by_height (height : Z) : IO Response :=
  detail (slot_by_height (as_i64 height))
    (fun r => ser_BlockResponse (slot_to_block_response r)) "block not found"
    TTL_IMMUTABLE_SECS.
Definition tx_by_hash_reply (hash : string) : IO Response :=
  detail (tx_by_hash hash) (fun r => ser_TxResponse (tx_row_to_response r)) "tx not found"
    TTL_IMMUTABLE_SECS.
Definition schema_by_id_reply (id : string) : IO Response :=
  detail (schema_by_id id) (fun r => ser_SchemaResponse (schema_row_to_response r))
    "schema not found" TTL_IMMUTABLE_SECS.
Definition attestor_set_by_id_reply (id : string) : IO Response :=
  detail (attestor_set_by_id id)
    (fun r => ser_AttestorSetResponse (attestor_set_row_to_response r))
    "attestor set not found" TTL_IMMUTABLE_SECS.
Definition bounty_detail (id : string) : IO Response :=
  detail (bounty_by_id id) (fun r => ser_BountyDetailResponse (bounty_row_to_response r))
    "bounty not found" TTL_MODEST_SECS.
Definition contract_detail (id : string) : IO Response :=
  detail (contract_by_id id) (fun r => ser_ContractDetailResponse (contract_row_to_response r))
    "contract not found" TTL_MODEST_SECS.

Definition attestation_by_id_reply (id : string) : IO Response :=
  let lowered := to_lowercase id in
  if negb (starts_with "lat1" lowered)
  then mret (refused 400
         [("error", JString "attestation id must be a bech32m `lat1...` string")])
  else
    r ← query (attestation_by_id lowered);
    mret (match r with
          | Ok (Some row) =>
              cached (ser_AttestationResponse (attestation_row_to_response row))
                TTL_IMMUTABLE_SECS
          | Ok None =>
              refused 404 [("error", JString "attestation not found"); ("id", JString lowered)]
          | Err _ => internal_error
          end).

Definition seen_at (slot timestamp : option Z) : option SeenAtResponse :=
  match slot, timestamp with
  | Some s, Some t =>
      Some {| seen_block_height := as_u64 s; seen_timestamp := rfc3339_millis t |}
  | _, _ => None
  end.

Definition address_response (addr : string) (balances : list TokenBalanceResponse)
    (row : AddressRow) : AddressSummaryResponse :=
  {| adr_address := addr; adr_balances := balances;
     adr_tx_count := as_u64 (row.(ad_txs_sent_count) + row.(ad_txs_received_count));
     adr_first_seen := seen_at row.(ad_first_seen_slot) row.(ad_first_seen_timestamp);
     adr_last_seen := seen_at row.(ad_last_seen_slot) row.(ad_last_seen_timestamp);
     adr_schemas_owned_count := as_u32 row.(ad_schemas_owned_count);
     adr_attestor_member_count := as_u32 row.(ad_attestor_member_count) |}.

(** [/v1/addresses/{addr}]: the counters of the row, the live balance when the chain
    answers. *)
Definition address_summary (signer : Signer) (addr : string) : IO Response :=
  r ← query (address_row addr);
  match r with
  | Err _ => mret internal_error
  | Ok row =>
      b ← query_balance_for signer addr;
      let balances :=
        match b with
        | Ok n => [{| tb_token_id := token_to_bech32 signer.(avow_token_id);
                      tb_amount_nano := to_string n |}]
        | Err _ => []
        end in
      mret (cached (ser_AddressSummaryResponse (address_response addr balances row))
              TTL_MODEST_SECS)
  end.

Definition MATCH_LIMIT : Z := 100.

Definition match_entry (row : string * BountyRow * Z) : BountyMatchEntry :=
  let '(id, r, n) := row in
  {| bme_id := id; bme_poster := r.(bo_poster); bme_board_schema_id := r.(bo_board_schema_id);
     bme_per_attestation_nano := r.(bo_per_attestation_nano);
     bme_escrow_remaining_nano := r.(bo_escrow_remaining_nano);
     bme_pool_nano := r.(bo_pool_nano); bme_acceptance := r.(bo_acceptance);
     bme_expiry_da_height := r.(bo_expiry_da_height);
     bme_posted_at_slot := r.(bo_posted_at_slot); bme_my_attestation_count := n |}.

Definition bounties_matching (address : string) : IO Response :=
  r ← query (bounties_matching_address address MATCH_LIMIT);
  mret (match r with
        | Ok rows => cached (ser_BountyMatchingResponse address (match_entry <$> rows))
                       TTL_MODEST_SECS
        | Err _ => internal_error
        end).

(** *** [/v1/info]

    Each side that fails leaves its fields empty. *)
Definition info (chain_rpc : string) : IO Response :=
  h ← query max_slot_height;
  let indexer_height := match h with Ok h => as_u64 <$> h | Err _ => None end in
  '(chain_info, head_height) ←
    match new chain_rpc with
    | Ok client =>
        i ← rollup_info client;
        s ← latest_slot client;
        mret (result_ok i, slot_number <$> result_ok s)
    | Err _ => mret (None, None)
    end;
  let chain f := match chain_info with Some i => f i | None => "" end in
  let head_lag_slots :=
    match head_height, indexer_height with
    | Some head, Some at_ => Some (saturating_sub head at_)
    | _, _ => None
    end in
  mret (cached (ser_InfoResponse
    {| inf_chain_id := chain info_chain_id; inf_chain_hash := chain info_chain_hash;
       inf_version := chain info_version; inf_indexer_height := indexer_height;
       inf_head_height := head_height; inf_head_lag_slots := head_lag_slots |})
    TTL_LIVE_SECS).

(** *** [/v1/search]

    [found] is one lookup of the dispatch: a typed answer, nothing, or an error. *)
Definition found {A} (f : DB -> option A) (answer : A -> SearchResponse.t) (otherwise : Response)
  : IO Response :=
  r ← query f;
  mret (match r with
        | Ok (Some a) => json_ok (ser_SearchResponse (answer a))
        | Ok None => otherwise
        | Err _ => internal_error
        end).

Definition when (b : DB -> bool) (d : DB) : option unit := if b d then Some tt else None.

(** The lookup a prefix names. *)
Definition prefix_dispatch (lowered : string) (otherwise : Response) : IO Response :=
  if starts_with "lblk1" lowered
  then found (slot_height_for_block_hash lowered) (fun h => SearchResponse.Block (as_u64 h))
         otherwise
  else if starts_with "ltx1" lowered
  then found (tx_by_hash lowered) (fun _ => SearchResponse.Tx lowered) otherwise
  else if starts_with "lig1" lowered
  then found (when (address_exists lowered)) (fun _ => SearchResponse.Address lowered) otherwise
  else if starts_with "lsc1" lowered
  then found (when (schema_exists lowered)) (fun _ => SearchResponse.Schema lowered) otherwise
  else if starts_with "las1" lowered
  then found (when (attestor_set_exists lowered))
         (fun _ => SearchResponse.AttestorSet lowered) otherwise
  else if starts_with "lat1" lowered
  then found (when (attestation_id_exists lowered))
         (fun _ => SearchResponse.Attestation lowered) otherwise
  else if starts_with "lph1" lowered
  then found (attestation_id_by_payload_hash lowered) SearchResponse.Attestation otherwise
  else mret otherwise.

Definition search (params_q : string) : IO Response :=
  let q := trim params_q in
  if (q =? "")%string then mret (refused 400 [("error", JString "q is required")])
  else
    let by_prefix :=
      prefix_dispatch (to_lowercase q) (json_ok (ser_SearchResponse (SearchResponse.NotFound q))) in
    match parse_int i64_min i64_max q with
    | Some h =>
        r ← query (slot_by_height h);
        match r with
        | Ok (Some _) => mret (json_ok (ser_SearchResponse (SearchResponse.Block (as_u64 h))))
        | Ok None => by_prefix
        | Err _ => mret internal_error
        end
    | None => by_prefix
    end.
End Handlers.
