(* ===== verification/LookupSpec.v ===== *)
(** * What the detail endpoints and the search guarantee

    The search finds exactly what its dispatch names; what it finds, the detail endpoint
    it points to serves, also later; the endpoints only read; bounty matching is exact;
    and a block served as immutable can change. *)

From S2P Require Import Prelude Json JsonSyntax Types Standards Bech32m Sha2 AttestationId Decode Parser Schema Io Db DbFacts History Client Config Startup Pages Listing ListingSpec Responses Sql Lookup Samples.
From Stdlib Require Import DecimalString.
From stdpp Require Import sorting.
Open Scope string_scope.
Open Scope list_scope.
Open Scope Z_scope.
Open Scope io_scope.

(** ** Text *)

(** The characters of a signed decimal literal. *)
Definition numeral (c : ascii) : bool :=
  let n := N_of_ascii c in (((48 <=? n) && (n <=? 57)) || (n =? 43) || (n =? 45))%N.

Lemma uint_of_string_numeral s d :
  NilEmpty.uint_of_string s = Some d -> Forall (fun c => numeral c = true) (list_ascii_of_string s).
Proof.
  revert d. induction s as [|c s IH]; intros d; simpl; [constructor|].
  destruct (NilEmpty.uint_of_string s) as [d'|] eqn:E; [|by destruct c as [[] [] [] [] [] [] [] []]].
  intros Hc. constructor; [|by eapply IH].
  by destruct c as [[] [] [] [] [] [] [] []].
Qed.

Lemma parse_digits_numeral s n :
  parse_digits s = Some n -> Forall (fun c => numeral c = true) (list_ascii_of_string s).
Proof.
  unfold parse_digits. destruct s as [|c s]; [done|].
  destruct (NilEmpty.uint_of_string _) as [d|] eqn:E; [|done]. intros _.
  by eapply uint_of_string_numeral.
Qed.

Lemma parse_int_numeral min max s n :
  parse_int min max s = Some n -> Forall (fun c => numeral c = true) (list_ascii_of_string s).
Proof.
  assert (forall r, parse_uint max r = Some n ->
    Forall (fun c => numeral c = true) (list_ascii_of_string r)) as Hu.
  { intros r. unfold parse_uint. destruct r as [|c r]; [done|].
    destruct (decide (c = "+"%char)) as [->|Hc].
    - destruct (parse_digits r) as [m|] eqn:E; [|done]. intros _. simpl. constructor; [done|].
      by eapply parse_digits_numeral.
    - assert ((match c with "+"%char => r | _ => String c r end) = String c r) as ->
        by (by destruct c as [[] [] [] [] [] [] [] []]).
      destruct (parse_digits (String c r)) as [m|] eqn:E; [|done]. intros _.
      by eapply parse_digits_numeral. }
  unfold parse_int. destruct s as [|c s]; [done|].
  destruct (decide (c = "-"%char)) as [->|Hc].
  - destruct (parse_digits s) as [m|] eqn:E; [|done]. intros _. simpl. constructor; [done|].
    by eapply parse_digits_numeral.
  - intros H. apply Hu. revert H. by destruct c as [[] [] [] [] [] [] [] []].
Qed.

Lemma numeral_ascii s :
  Forall (fun c => numeral c = true) (list_ascii_of_string s) -> is_ascii s = true.
Proof.
  intros Hs. unfold is_ascii. apply forallb_forall. intros c Hc. apply list_elem_of_In in Hc.
  rewrite Forall_forall in Hs. specialize (Hs c Hc). revert Hs.
  unfold numeral. intros Hn. apply N.ltb_lt.
  rewrite !orb_true_iff, andb_true_iff, !N.leb_le, !N.eqb_eq in Hn. lia.
Qed.

Lemma to_string_ascii n : 0 <= n -> is_ascii (to_string n) = true.
Proof.
  intros Hn. apply numeral_ascii. eapply parse_digits_numeral. by apply parse_digits_to_string.
Qed.

(** A numeral is its own lower case. *)
Lemma numeral_lowercase `{Unicode} s :
  Forall (fun c => numeral c = true) (list_ascii_of_string s) -> to_lowercase s = s.
Proof.
  intros Hs. unfold to_lowercase. rewrite numeral_ascii by done.
  rewrite <- (string_of_list_ascii_of_string s) at 2. f_equal.
  induction Hs as [|c l Hc Hl IH]; [done|]. rewrite fmap_cons, IH. f_equal.
  unfold ascii_lower, numeral in *.
  rewrite !orb_true_iff, andb_true_iff, !N.leb_le, !N.eqb_eq in Hc.
  destruct (N.leb_spec 65 (N_of_ascii c)); simpl; [lia|done].
Qed.

(** No numeral has the lower case of an identifier. *)
Lemma identifier_not_numeral `{Unicode} c pat q min max :
  numeral c = false -> starts_with (String c pat) (to_lowercase q) = true ->
  parse_int min max q = None.
Proof.
  intros Hc Hp. destruct (parse_int min max q) as [n|] eqn:E; [|done].
  apply parse_int_numeral in E. rewrite (numeral_lowercase q E) in Hp.
  destruct q as [|a q]; [done|]. unfold starts_with in Hp. simpl in Hp.
  destruct (ascii_dec c a) as [->|]; [|done]. simpl in E. apply Forall_cons in E as [E _].
  congruence.
Qed.

(** ** The search *)

Section Search.
Context `{JsonText} `{Base64Url} `{P : PgText} `{PL : !PgTextLaws P} `{Urls} `{Rfc3339}
  `{Unicode} `{B : Bech32} `{SdkReads}.

#[local] Instance newest_first_strict : StrictOrder newest_first.
Proof. unfold newest_first. apply _. Qed.
#[local] Instance newest_first_total : Trichotomy newest_first.
Proof. unfold newest_first. apply _. Qed.

(** What a trimmed query names in a database, by the place of the alternative in the
    documented list.  The list's first item says all digits; a sign in front is read too. *)
Inductive resolves (d : DB) (q : string) : nat -> SearchResponse.t -> Prop :=
| By_height h r :
    parse_int i64_min i64_max q = Some h -> d.(slots) !! h = Some r ->
    resolves d q 0 (SearchResponse.Block (as_u64 h))
| By_block_hash h r :
    starts_with "lblk1" (to_lowercase q) = true -> d.(slots) !! h = Some r ->
    r.(sl_hash) = to_lowercase q -> resolves d q 1 (SearchResponse.Block (as_u64 h))
| By_tx r :
    starts_with "ltx1" (to_lowercase q) = true ->
    d.(transactions) !! to_lowercase q = Some r ->
    resolves d q 2 (SearchResponse.Tx (to_lowercase q))
| By_address r :
    starts_with "lig1" (to_lowercase q) = true ->
    d.(address_summaries) !! to_lowercase q = Some r ->
    resolves d q 3 (SearchResponse.Address (to_lowercase q))
| By_schema r :
    starts_with "lsc1" (to_lowercase q) = true -> d.(schemas) !! to_lowercase q = Some r ->
    resolves d q 4 (SearchResponse.Schema (to_lowercase q))
| By_attestor_set r :
    starts_with "las1" (to_lowercase q) = true ->
    d.(attestor_sets) !! to_lowercase q = Some r ->
    resolves d q 5 (SearchResponse.AttestorSet (to_lowercase q))
| By_attestation r :
    starts_with "lat1" (to_lowercase q) = true ->
    d.(attestations) !! to_lowercase q = Some r ->
    resolves d q 6 (SearchResponse.Attestation (to_lowercase q))
| By_payload id r :
    starts_with "lph1" (to_lowercase q) = true -> d.(attestations) !! id = Some r ->
    r.(at_payload_hash) = to_lowercase q ->
    (forall id' r', d.(attestations) !! id' = Some r' -> r'.(at_payload_hash) = to_lowercase q ->
       ~ larger_first (r'.(at_submitted_at_slot), r'.(at_schema_id))
           (r.(at_submitted_at_slot), r.(at_schema_id))) ->
    resolves d q 7 (SearchResponse.Attestation id).

(** Two prefixes of one text are prefixes of each other. *)
Lemma starts_with_comparable p p' s :
  starts_with p s = true -> starts_with p' s = true ->
  starts_with p p' = true \/ starts_with p' p = true.
Proof.
  revert p' s. induction p as [|c p IH]; intros [|c' p'] [|a s]; unfold starts_with in *;
    simpl; auto; try done.
  destruct (ascii_dec c a) as [->|]; [|done]. destruct (ascii_dec c' a) as [->|]; [|done].
  destruct (ascii_dec a a); [|done]. apply IH.
Qed.

(** The first alternative that names something; [not_found] when none does. *)
Definition answers (d : DB) (q : string) (a : SearchResponse.t) : Prop :=
  match a with
  | SearchResponse.NotFound q' => q' = q /\ forall i b, ~ resolves d q i b
  | _ => exists i, resolves d q i a /\ forall j b, (j < i)%nat -> ~ resolves d q j b
  end.

Lemma found_reply {A} (f : DB -> option A) answer q (e : Env) w :
  calm e ->
  (forall a, f w.(w_db) = Some a -> answers w.(w_db) q (answer a)) ->
  (f w.(w_db) = None -> forall i b, ~ resolves w.(w_db) q i b) ->
  exists a, found f answer (json_ok (ser_SearchResponse (SearchResponse.NotFound q))) e w =
      (Done (json_ok (ser_SearchResponse a)), tick w) /\ answers w.(w_db) q a.
Proof.
  intros He Hs Hn. unfold found. unfold mbind, io_bind. rewrite query_calm by done.
  destruct (f (w_db w)) as [a|]; [by exists (answer a); auto|].
  exists (SearchResponse.NotFound q). split; [done|]. split; [done|]. by apply Hn.
Qed.

Lemma first_by_payload_hash hash d :
  match attestation_id_by_payload_hash hash d with
  | Some id => exists r, d.(attestations) !! id = Some r /\ r.(at_payload_hash) = hash /\
      forall id' r', d.(attestations) !! id' = Some r' -> r'.(at_payload_hash) = hash ->
        ~ larger_first (r'.(at_submitted_at_slot), r'.(at_schema_id))
            (r.(at_submitted_at_slot), r.(at_schema_id))
  | None => forall id r, d.(attestations) !! id = Some r -> r.(at_payload_hash) <> hash
  end.
Proof.
  unfold attestation_id_by_payload_hash, limit.
  set (key := fun r : string * AttestationRow => (r.2.(at_submitted_at_slot), r.2.(at_schema_id))).
  set (rows := filter _ (map_to_list (attestations d))).
  assert (forall id r, (id, r) ∈ rows <-> d.(attestations) !! id = Some r /\ r.(at_payload_hash) = hash)
    as Hrows.
  { intros id r. unfold rows. rewrite list_elem_of_filter, elem_of_map_to_list. simpl. tauto. }
  pose proof (first_row key newest_first rows) as Hf.
  replace (head (take (Z.to_nat 1) (order_by key newest_first rows)))
    with (head (order_by key newest_first rows)) by (by destruct (order_by _ _ _)).
  destruct (head (order_by key newest_first rows)) as [[id r]|] eqn:E; simpl.
  - destruct Hf as [Hr Hmin]. apply Hrows in Hr as [Hr Hh]. exists r. split_and!; [done..|].
    intros id' r' Hr' Hh'. apply (Hmin (id', r')). by apply Hrows.
  - intros id r Hr Hh. assert ((id, r) ∈ rows) as Hin by (by apply Hrows).
    rewrite Hf in Hin. by apply not_elem_of_nil in Hin.
Qed.

(** Two kinds of prefix at once. *)
Ltac clash :=
  exfalso;
  match goal with
  | Hp : starts_with ?p ?s = true, Hp' : starts_with ?p' ?s = true |- _ =>
      by destruct (starts_with_comparable p p' s Hp Hp')
  end.

Ltac fold_lower :=
  repeat match goal with
         | low := to_lowercase ?q, H : context [to_lowercase ?q] |- _ =>
             change (to_lowercase q) with low in H
         end.

(** No alternative before the one that was found. *)
Ltac none_before Hh :=
  let j := fresh in let b := fresh in let Hj := fresh in let Hb := fresh in
  intros j b Hj Hb; destruct Hb; fold_lower; try lia; try clash; by rewrite Hh in *.

(** A lookup that finds what the query names, and fails only when it names nothing. *)
Lemma found_answers {A} (f : DB -> option A) answer q e w :
  calm e -> (forall a, f w.(w_db) = Some a -> answers w.(w_db) q (answer a)) ->
  (f w.(w_db) = None -> forall i b, ~ resolves w.(w_db) q i b) ->
  exists a w', found f answer (json_ok (ser_SearchResponse (SearchResponse.NotFound q))) e w =
    (Done (json_ok (ser_SearchResponse a)), w') /\ answers w.(w_db) q a.
Proof.
  intros He Hs Hn. destruct (found_reply f answer q e w He Hs Hn) as (a & Ha & Hans). eauto.
Qed.

Lemma prefix_dispatch_exact q e w :
  calm e -> db_ok w.(w_db) ->
  (forall h, parse_int i64_min i64_max q = Some h -> w.(w_db).(slots) !! h = None) ->
  exists a w', prefix_dispatch (to_lowercase q)
      (json_ok (ser_SearchResponse (SearchResponse.NotFound q))) e w =
    (Done (json_ok (ser_SearchResponse a)), w') /\ answers w.(w_db) q a.
Proof.
  intros He Hok Hh. set (d := w_db w) in *. set (low := to_lowercase q).
  unfold prefix_dispatch.
  destruct (starts_with "lblk1" low) eqn:E1; [apply (found_answers _ _ q e w He)|
  destruct (starts_with "ltx1" low) eqn:E2; [apply (found_answers _ _ q e w He)|
  destruct (starts_with "lig1" low) eqn:E3; [apply (found_answers _ _ q e w He)|
  destruct (starts_with "lsc1" low) eqn:E4; [apply (found_answers _ _ q e w He)|
  destruct (starts_with "las1" low) eqn:E5; [apply (found_answers _ _ q e w He)|
  destruct (starts_with "lat1" low) eqn:E6; [apply (found_answers _ _ q e w He)|
  destruct (starts_with "lph1" low) eqn:E7; [apply (found_answers _ _ q e w He)|]]]]]]].
  all: fold d; unfold when, address_exists, schema_exists, attestor_set_exists, attestation_id_exists.
  all: try (intros u; case_bool_decide as Hx; [|done]; intros _; destruct Hx as [r Hr];
            eexists; split; [by econstructor|none_before Hh]).
  all: try (case_bool_decide as Hx; [done|]; intros _ i b Hb; destruct Hb; fold_lower;
            try clash; simplify_eq; try (rewrite Hh in *; done); by apply Hx).
  - unfold slot_height_for_block_hash. intros h Hf.
    destruct (head _) as [[h' r]|] eqn:Eh; simplify_eq/=.
    apply head_Some_elem_of, list_elem_of_filter in Eh as [Hash Hin].
    apply elem_of_map_to_list in Hin. eexists; split; [by eapply By_block_hash|none_before Hh].
  - unfold slot_height_for_block_hash. intros Hf i b Hb.
    destruct Hb; fold_lower; try clash; [by rewrite Hh in *|].
    destruct (filter _ _) as [|x l] eqn:Ef; [|done].
    apply (not_elem_of_nil (h, r)). rewrite <- Ef. apply list_elem_of_filter.
    split; [done|]. by apply elem_of_map_to_list.
  - intros [[hash r] s]. unfold tx_by_hash. intros Hf. fold low.
    destruct (transactions d !! low) as [r'|] eqn:Er; [|done].
    eexists; split; [by eapply By_tx|none_before Hh].
  - unfold tx_by_hash. intros Hf i b Hb. destruct Hb; fold_lower; try clash; [by rewrite Hh in *|].
    match goal with Ht : transactions d !! low = Some ?r |- _ =>
      destruct (ok_tx_refs d Hok _ _ Ht) as [s Hs]; rewrite Ht in Hf; simpl in Hf;
      by rewrite Hs in Hf end.
  - intros id Hf. pose proof (first_by_payload_hash low d) as Hp. rewrite Hf in Hp.
    destruct Hp as (r & Hr & Hx & Hmin). eexists; split; [by eapply By_payload|none_before Hh].
  - intros Hf i b Hb. pose proof (first_by_payload_hash low d) as Hp. rewrite Hf in Hp.
    destruct Hb; fold_lower; try clash; [by rewrite Hh in *|]. by eapply Hp.
  - exists (SearchResponse.NotFound q), w. split; [done|]. split; [done|].
    intros i b Hb. destruct Hb; fold_lower; try congruence. by rewrite Hh in *.
Qed.

Lemma search_answers params_q e w :
  calm e -> db_ok w.(w_db) -> trim params_q <> "" ->
  exists a w', search params_q e w = (Done (json_ok (ser_SearchResponse a)), w') /\
    answers w.(w_db) (trim params_q) a.
Proof.
  intros He Hok Hq. unfold search. set (q := trim params_q) in *.
  destruct (String.eqb_spec q "") as [|_]; [done|].
  destruct (parse_int i64_min i64_max q) as [h|] eqn:Eh.
  - unfold mbind, io_bind. rewrite query_calm by done. unfold slot_by_height.
    destruct (slots (w_db w) !! h) as [r|] eqn:Er; simpl.
    + eexists (SearchResponse.Block (as_u64 h)), _. split; [done|].
      eexists; split; [by eapply By_height|]. intros j b Hj. lia.
    + apply (prefix_dispatch_exact q e (tick w) He Hok). intros h'. rewrite Eh.
      by intros [= <-].
  - apply (prefix_dispatch_exact q e w He Hok). intros h'. by rewrite Eh.
Qed.

(** C14: The search is exact.  On a database that answers, a query that is not blank gets a
    typed answer exactly when its height, block hash, transaction hash, address, id or
    payload hash (in any case, padded or not) names something stored, and that answer is
    of the first of these, in the documented order, that does; otherwise it gets
    [not_found] with the query echoed.  A height is what an [i64] is parsed from: digits, as
    the handler's comment says, but also digits behind a sign. *)
Theorem search_exact params_q e w :
  calm e -> db_ok w.(w_db) -> trim params_q <> "" ->
  exists a w', search params_q e w = (Done (json_ok (ser_SearchResponse a)), w') /\
    answers w.(w_db) (trim params_q) a.
Proof. apply search_answers. Qed.

(** *** Links *)

(** The detail endpoint an answer points to. *)
Definition link (signer : Signer) (a : SearchResponse.t) : IO Response :=
  match a with
  | SearchResponse.Block h => block_by_height h
  | SearchResponse.Tx h => tx_by_hash_reply h
  | SearchResponse.Address addr => address_summary signer addr
  | SearchResponse.Schema i => schema_by_id_reply i
  | SearchResponse.AttestorSet i => attestor_set_by_id_reply i
  | SearchResponse.Attestation i => attestation_by_id_reply i
  | SearchResponse.NotFound _ => mret (not_found "no link")
  end.

(** Attestation ids as bech32 prints them: lower case, behind their prefix. *)
Definition canonical_ids (d : DB) : Prop :=
  forall id r, d.(attestations) !! id = Some r ->
    to_lowercase id = id /\ starts_with "lat1" id = true.

Lemma ser_search_inj a b : ser_SearchResponse a = ser_SearchResponse b -> a = b.
Proof. destruct a, b; simpl; intros Heq; injection Heq; congruence. Qed.

Lemma detail_calm {A} (f : DB -> option A) ser absent ttl e w a :
  calm e -> f w.(w_db) = Some a ->
  exists w', detail f ser absent ttl e w = (Done (cached (ser a) ttl), w').
Proof.
  intros He Hf. unfold detail, mbind, io_bind. rewrite query_calm by done. rewrite Hf.
  by eexists.
Qed.

(** C15: What the search finds stays reachable.  The detail endpoint a typed answer points
    to replies 200, on the same database and on any later one.  Of the database searched it
    is assumed that heights are BIGINTs, and attestation ids lower case behind their
    prefix, as bech32m writes them. *)
Theorem search_links_resolve signer params_q e w a w1 e' w' :
  calm e -> db_ok w.(w_db) -> (forall h r, w.(w_db).(slots) !! h = Some r -> in_i64 h) ->
  canonical_ids w.(w_db) -> (forall q, a <> SearchResponse.NotFound q) ->
  trim params_q <> "" ->
  search params_q e w = (Done (json_ok (ser_SearchResponse a)), w1) ->
  calm e' -> db_ok w'.(w_db) -> history w.(w_db) w'.(w_db) ->
  exists body ttl w2, link signer a e' w' = (Done (cached body ttl), w2).
Proof.
  intros He Hok Hh Hids Ha Hq Hs He' Hok' Hhist.
  destruct (search_answers params_q e w He Hok Hq) as (a0 & w0 & Hs0 & Hans).
  assert (a0 = a) as -> by (rewrite Hs in Hs0; simplify_eq; by apply ser_search_inj).
  assert (exists i, resolves (w_db w) (trim params_q) i a) as [i Hr]
    by (destruct a; try (by destruct Hans as (i & ? & _); exists i); by destruct (Ha query)).
  assert (forall id r, attestations (w_db w) !! id = Some r ->
    exists body ttl w2, attestation_by_id_reply id e' w' = (Done (cached body ttl), w2)) as Hatt.
  { intros id r Hid. destruct (Hids id r Hid) as [Hlow Hpre].
    destruct (h_attestations _ _ Hhist _ _ Hid) as (r' & Hr' & _).
    unfold attestation_by_id_reply. rewrite Hlow, Hpre. simpl. unfold mbind, io_bind.
    rewrite query_calm by done. unfold attestation_by_id. rewrite Hr'. by eexists _, _, _. }
  assert (forall h r, slots (w_db w) !! h = Some r ->
    exists body ttl w2, block_by_height (as_u64 h) e' w' = (Done (cached body ttl), w2)) as Hblk.
  { intros h r Hsl. destruct (h_slots _ _ Hhist _ _ Hsl) as (r' & Hr' & _).
    unfold block_by_height. rewrite as_i64_as_u64 by (by eapply Hh).
    edestruct (detail_calm (slot_by_height h)) as [w2 Hd];
      [done|unfold slot_by_height; by rewrite Hr'|]. by eexists _, _, w2. }
  destruct Hr as [h r _ Hsl|h r _ Hsl _|r _ Ht|r _ Hx|r _ Hx|r _ Hx|r _ Hx|id r _ Hx _ _];
    simpl;
    [by eapply Hblk|by eapply Hblk| | | | |by eapply Hatt|by eapply Hatt].
  - destruct (h_transactions _ _ Hhist _ _ Ht) as (r' & Hr' & _).
    destruct (ok_tx_refs _ Hok' _ _ Hr') as [sl Hsl].
    edestruct (detail_calm (tx_by_hash (to_lowercase (trim params_q)))) as [w2 Hd];
      [done|unfold tx_by_hash; rewrite Hr'; simpl; by rewrite Hsl|]. by eexists _, _, w2.
  - unfold address_summary, mbind, io_bind. rewrite query_calm by done.
    unfold query_balance_for, at_tick, mbind, io_bind. by eexists _, _, _.
  - destruct (h_schemas _ _ Hhist _ _ Hx) as (r' & Hr' & _).
    destruct (ok_schema_refs _ Hok' _ _ Hr') as [[st Hst] _].
    edestruct (detail_calm (schema_by_id (to_lowercase (trim params_q)))) as [w2 Hd];
      [done|unfold schema_by_id, with_threshold; rewrite Hr'; simpl; by rewrite Hst|].
    by eexists _, _, w2.
  - destruct (h_attestor_sets _ _ Hhist _ _ Hx) as (r' & Hr' & _).
    edestruct (detail_calm (attestor_set_by_id (to_lowercase (trim params_q)))) as [w2 Hd];
      [done|unfold attestor_set_by_id; by rewrite Hr'|]. by eexists _, _, w2.
Qed.

(** ** The endpoints only read *)

Context (decode_error_text : DecodeError -> string) (signer : Signer) (chain_rpc : string).

Inductive read_endpoint : IO Response -> Prop :=
| E_blocks p : read_endpoint (blocks_list p)
| E_txs k h p : read_endpoint (txs_list k h p)
| E_address_txs a p : read_endpoint (address_txs a p)
| E_schemas i p : read_endpoint (schemas_list i p)
| E_attestations p : read_endpoint (attestations_list p)
| E_schema_attestations i p : read_endpoint (attestations_by_schema i p)
| E_set_attestations i p : read_endpoint (attestations_by_set i p)
| E_sets p : read_endpoint (attestor_sets_list p)
| E_member k p : read_endpoint (attestor_sets_by_member decode_error_text k p)
| E_bounties b st p : read_endpoint (bounties_list b st p)
| E_contracts st a b p : read_endpoint (contracts_list st a b p)
| E_block h : read_endpoint (block_by_height h)
| E_tx h : read_endpoint (tx_by_hash_reply h)
| E_schema i : read_endpoint (schema_by_id_reply i)
| E_set i : read_endpoint (attestor_set_by_id_reply i)
| E_attestation i : read_endpoint (attestation_by_id_reply i)
| E_bounty i : read_endpoint (bounty_detail i)
| E_contract i : read_endpoint (contract_detail i)
| E_address a : read_endpoint (address_summary signer a)
| E_matching a : read_endpoint (bounties_matching a)
| E_info : read_endpoint (info chain_rpc)
| E_search q : read_endpoint (search q).

Lemma found_evolves R `{!PreOrder R} {A} (f : DB -> option A) answer otherwise :
  evolves R (found f answer otherwise).
Proof. by apply query_ret_evolves. Qed.

#[local] Hint Resolve query_evolves query_ret_evolves at_tick_evolves found_evolves : io.

Lemma info_evolves R `{!PreOrder R} : evolves R (info chain_rpc).
Proof.
  unfold info. apply evolves_bind; [done|by apply query_evolves|]. intros h.
  apply evolves_bind; [done| |intros []; by apply evolves_ret].
  destruct (new chain_rpc) as [client|]; [|by apply evolves_ret].
  apply evolves_bind; [done|by apply rollup_info_evolves|]. intros i.
  apply evolves_bind; [done|by apply latest_slot_evolves|]. intros s. by apply evolves_ret.
Qed.

Lemma search_evolves R `{!PreOrder R} q : evolves R (search q).
Proof.
  assert (forall low otherwise, evolves R (prefix_dispatch low otherwise)) as Hd.
  { intros. unfold prefix_dispatch. repeat case_match; try by apply found_evolves.
    by apply evolves_ret. }
  unfold search. destruct (_ =? _)%string; [by apply evolves_ret|].
  destruct (parse_int _ _ _); [|apply Hd]. apply evolves_bind; [done|by apply query_evolves|].
  intros [[?|]|]; [by apply evolves_ret|apply Hd|by apply evolves_ret].
Qed.

(** The read API never writes.  Whatever relation the indexer's statements keep among
    databases, every read endpoint keeps it too; alone, it leaves the database alone. *)
Theorem api_only_reads m R `{!PreOrder R} : read_endpoint m -> evolves R m.
Proof.
  intros Hm. destruct Hm; try (by apply query_ret_evolves); try by apply info_evolves.
  - unfold attestor_sets_by_member. destruct (bech32_decode _) as [[hrp bytes]|];
      [|by apply evolves_ret].
    destruct (_ && _); [by apply query_ret_evolves|by apply evolves_ret].
  - unfold attestation_by_id_reply. destruct (negb _); [by apply evolves_ret|].
    by apply query_ret_evolves.
  - unfold address_summary. apply evolves_bind; [done|by apply query_evolves|].
    intros [row|]; [|by apply evolves_ret]. unfold query_balance_for.
    apply evolves_bind; [done| |intros []; by apply evolves_ret].
    apply evolves_bind; [done|by apply at_tick_evolves|]. intros. by apply evolves_ret.
  - by apply search_evolves.
Qed.

(** ** Bounty matching *)

(** The attestations of an address against a board. *)
Definition my_attestations (address board : string) (d : DB) : list (string * AttestationRow) :=
  filter (fun a : string * AttestationRow =>
    a.2.(at_schema_id) = board /\ a.2.(at_submitter) = address) (map_to_list d.(attestations)).

Lemma count_of_app {K} `{EqDecision K} (k : K) l l' :
  count_of k (l ++ l') = count_of k l + count_of k l'.
Proof. unfold count_of. rewrite filter_app, length_app. lia. Qed.

(** The joined rows of one bounty. *)
Lemma joined_rows address (id id' : string) (b : BountyRow)
    (l : list (string * AttestationRow)) :
  count_of id ('(_, a) ← l;
    if decide (a.(at_schema_id) = b.(bo_board_schema_id) /\ b.(bo_status) = "open" /\
               a.(at_submitter) = address)
    then [id'] else []) =
  (if decide (id = id' /\ b.(bo_status) = "open")
   then Z.of_nat (length (filter (fun a : string * AttestationRow =>
          a.2.(at_schema_id) = b.(bo_board_schema_id) /\ a.2.(at_submitter) = address) l))
   else 0).
Proof.
  induction l as [|[x a] l IH]; [by destruct (decide _)|].
  rewrite bind_cons, count_of_app, IH, filter_cons. simpl. clear IH.
  destruct (decide (id = id' /\ bo_status b = "open")) as [[<- Ho]|Hn].
  - destruct (decide (at_schema_id a = bo_board_schema_id b /\ at_submitter a = address)) as [[]|Hd].
    + rewrite decide_True by done. unfold count_of. rewrite filter_cons, decide_True by done.
      simpl. lia.
    + rewrite decide_False by tauto. done.
  - case_decide as Hd; [|done]. unfold count_of. rewrite filter_cons, decide_False; [done|].
    intros <-. apply Hn. tauto.
Qed.

Lemma count_matching address d id :
  count_of id (matching_join address d) =
  match d.(bounties) !! id with
  | Some b => if decide (b.(bo_status) = "open")
              then Z.of_nat (length (my_attestations address b.(bo_board_schema_id) d)) else 0
  | None => 0
  end.
Proof.
  unfold matching_join.
  assert (forall l, NoDup l.*1 ->
    count_of id ('(id', b) ← l; '(_, a) ← map_to_list (attestations d);
      if decide (a.(at_schema_id) = b.(bo_board_schema_id) /\ b.(bo_status) = "open" /\
                 a.(at_submitter) = address) then [id'] else []) =
    match list_find (fun r : string * BountyRow => r.1 = id) l with
    | Some (_, (_, b)) => if decide (b.(bo_status) = "open")
              then Z.of_nat (length (my_attestations address b.(bo_board_schema_id) d)) else 0
    | None => 0
    end) as Hl.
  { induction l as [|[id' b] l IH]; intros Hnd; [done|]. apply NoDup_cons in Hnd as [Hn Hnd].
    rewrite bind_cons, count_of_app, joined_rows, IH by done. simpl.
    destruct (decide (id' = id)) as [->|Hne].
    - assert (list_find (fun r : string * BountyRow => r.1 = id) l = None) as ->.
      { apply list_find_None, Forall_forall. intros [x y] Hin Hx. simpl in Hx. subst.
        apply Hn. by apply (list_elem_of_fmap_2 fst) in Hin. }
      unfold my_attestations. destruct (decide (bo_status b = "open")) as [Ho|Ho].
      + rewrite decide_True by done. lia.
      + rewrite decide_False by tauto. done.
    - rewrite (decide_False (P := id = id' /\ _)) by naive_solver.
      destruct (list_find _ l) as [[i [x y]]|]; simpl; done. }
  rewrite Hl by apply NoDup_fst_map_to_list.
  destruct (list_find _ (map_to_list (bounties d))) as [[i [x y]]|] eqn:E.
  - apply list_find_Some in E as (Hi & Hx & _). simpl in Hx. subst.
    apply list_elem_of_lookup_2, elem_of_map_to_list in Hi. by rewrite Hi.
  - apply list_find_None in E. destruct (bounties d !! id) as [b|] eqn:Eb; [|done].
    apply elem_of_map_to_list in Eb. rewrite Forall_forall in E. by destruct (E _ Eb).
Qed.

Lemma matched_keys d (gs : list (string * Z)) :
  NoDup gs.*1 ->
  NoDup ((fun r : string * BountyRow * Z => (r.1.2.(bo_posted_at_slot), r.1.1)) <$>
         omap (matched d) gs).
Proof.
  intros Hnd. apply (NoDup_fmap_1 snd). rewrite <- list_fmap_compose.
  induction gs as [|[id n] gs IH]; [constructor|]. rewrite fmap_cons in Hnd.
  apply NoDup_cons in Hnd as [Hn Hnd]. specialize (IH Hnd).
  cbn [omap list_omap]. unfold matched at 1. simpl.
  destruct (bounties d !! id) as [b|]; simpl; [|exact IH]. constructor; [|exact IH].
  intros ([[id' b'] n'] & Hid & Hin)%list_elem_of_fmap. simpl in Hid. subst id'.
  apply Hn. apply list_elem_of_omap in Hin as ([g m] & Hg & Hm).
  unfold matched in Hm. simpl in Hm. destruct (bounties d !! g); simplify_eq/=.
  by apply (list_elem_of_fmap_2 fst) in Hg.
Qed.

(** C25: Bounty matching is exact.  The endpoint lists, newest first, open bounties on
    boards the address has attested to, each once and with the number of its
    attestations; an eligible bounty is left out only behind a hundred that come first. *)
Theorem bounties_matching_exact address d :
  let rows := bounties_matching_address address MATCH_LIMIT d in
  let key := fun r : string * BountyRow * Z => (r.1.2.(bo_posted_at_slot), r.1.1) in
  let eligible id b n := d.(bounties) !! id = Some b /\ b.(bo_status) = "open" /\
    n = Z.of_nat (length (my_attestations address b.(bo_board_schema_id) d)) /\ 0 < n in
  StronglySorted (fun r r' => larger_first (key r) (key r')) rows /\ Z.of_nat (length rows) <= MATCH_LIMIT /\
  (forall id b n, (id, b, n) ∈ rows -> eligible id b n) /\
  (forall id b n, eligible id b n -> (id, b, n) ∉ rows ->
     Z.of_nat (length rows) = MATCH_LIMIT /\
     forall r, r ∈ rows -> larger_first (key r) (b.(bo_posted_at_slot), id)).
Proof.
  intros rows key eligible. unfold rows, bounties_matching_address.
  set (groups := omap (matched d) (group_count (matching_join address d))).
  assert (forall id b n, (id, b, n) ∈ groups <-> eligible id b n) as Hg.
  { intros id b n. unfold groups, eligible. rewrite list_elem_of_omap. split.
    - intros ([id' n'] & Hin & Hm). apply elem_of_group_count in Hin as [Hin ->].
      unfold matched in Hm. simpl in Hm. destruct (bounties d !! id') as [b'|] eqn:Eb; simplify_eq/=.
      apply count_of_pos in Hin. rewrite count_matching, Eb in *.
      destruct (decide (bo_status b = "open")); [done|lia].
    - intros (Hb & Ho & -> & Hpos). exists (id, count_of id (matching_join address d)).
      assert (count_of id (matching_join address d) =
        Z.of_nat (length (my_attestations address (bo_board_schema_id b) d))) as Hc
        by (by rewrite count_matching, Hb, decide_True).
      rewrite elem_of_group_count, count_of_pos, Hc. split; [done|].
      unfold matched. simpl. by rewrite Hb. }
  destruct (top_rows key newest_first MATCH_LIMIT groups) as (Hs & Hlen & Hin & Hout);
    [apply matched_keys, group_count_nodup|unfold MATCH_LIMIT; lia|].
  split_and!; [exact Hs|exact Hlen| |].
  - intros id b n Hr. apply Hg. by apply Hin.
  - intros id b n He Hn. apply Hg in He. destruct (Hout _ He Hn) as [Hl Hb]. by split.
Qed.

(** ** Replies served as immutable *)

(** A block can change while its reply may still be served from a cache.  The reply
    for a pending block is marked fresh for the 300 seconds of immutable resources; the
    next re-poll that sees the slot finalized changes it. *)
Theorem immutable_block_changes h r e w :
  calm e -> w.(w_db).(slots) !! as_i64 h = Some r ->
  r.(sl_finality_status) = Some PENDING ->
  exists b b' w1 w2 w3,
    block_by_height h e w = (Done (cached (ser_BlockResponse b) TTL_IMMUTABLE_SECS), w1) /\
    exec (flip_pending_stmt h) e w = (Done (Ok 1), w2) /\
    block_by_height h e w2 = (Done (cached (ser_BlockResponse b') TTL_IMMUTABLE_SECS), w3) /\
    b.(blk_finality_status) = Some "pending" /\ b'.(blk_finality_status) = Some "finalized".
Proof.
  intros He Hr Hp.
  assert (forall x w0 row, calm x -> w0.(w_db).(slots) !! as_i64 h = Some row ->
    block_by_height h x w0 =
      (Done (cached (ser_BlockResponse (slot_to_block_response (as_i64 h, row)))
               TTL_IMMUTABLE_SECS), tick w0)) as Hb.
  { intros x w0 row Hx Hrow. unfold block_by_height, detail, mbind, io_bind.
    rewrite query_calm by done. unfold slot_by_height. by rewrite Hrow. }
  eexists _, _, _, _, _. split_and!; [by apply Hb| | | |].
  - rewrite exec_calm by done. unfold flip_pending_stmt. rewrite Hr, decide_True by done. done.
  - apply Hb; [done|]. simpl. apply lookup_insert_eq.
  - simpl. by rewrite Hp.
  - done.
Qed.
End Search.

(** ** At concrete inputs *)

Module SampleApi.
#[export] Instance rfc3339 : Rfc3339 := {| rfc3339_millis := to_string; rfc3339_secs := to_string |}.
#[export] Instance unicode : Unicode := fun s => s.
Definition slot7 : SlotRow := sample_slot_row "pending" None.
Definition attestation (submitter payload : string) : AttestationRow :=
  {| at_schema_id := "lsc1board"; at_payload_hash := payload; at_submitter := submitter;
     at_submitter_pubkey := None; at_submitted_at_slot := 3; at_submitted_at_tx := "ltx1a";
     at_submitted_at_timestamp := 7; at_signature_count := 1; at_indexed_at := 0 |}.

(** A pending slot, an attestation of [lig1me], and an open bounty on its board. *)
Definition db : DB :=
  with_slots {[ 3 := slot7 ]}
    (with_attestations {[ "lat1x" := attestation "lig1me" "lph1p" ]}
       (with_bounties {[ "b" := sample_bounty_row ]} empty_db)).

(** The same slot in a database that meets the constraints. *)
Definition slot_db : DB := with_slots {[ 3 := slot7 ]} empty_db.
Lemma slot_db_ok : db_ok slot_db.
Proof. split; try apply map_Forall_empty; intros k1 k2 v1 v2 Hk; done. Qed.
End SampleApi.

Section LookupWitnesses.
#[local] Existing Instances SampleText.b64 Rfc8259.json SampleText.text SampleText.text_laws
  Samples.urls SampleApi.rfc3339 SampleApi.unicode Bip350.bech32m SampleSdk.sdk.

Definition sample_signer : Signer :=
  {| private_key := [] : list Z; submitter_url := "u"; sg_chain_hash := []; sg_chain_id := 1;
     avow_token_id := [] : list Z; sg_nonce := 0 |}.

Example matches_me :
  (fun r => (r.1.1, r.2)) <$> bounties_matching_address "lig1me" MATCH_LIMIT SampleApi.db
    = [("b", 1)].
Proof. vm_compute. reflexivity. Qed.

Lemma bounties_matching_exact_witness :
  exists b, (("b", b, 1) : string * BountyRow * Z) ∈ bounties_matching_address "lig1me" MATCH_LIMIT SampleApi.db /\
    b.(bo_status) = "open" /\
    length (my_attestations "lig1me" b.(bo_board_schema_id) SampleApi.db) = 1%nat.
Proof.
  destruct (bounties_matching_exact "lig1me" SampleApi.db) as (_ & _ & Hin & _).
  destruct (SampleApi.db.(bounties) !! "b") as [b|] eqn:Eb; [|vm_compute in Eb; discriminate].
  exists b.
  assert ((("b", b, 1) : string * BountyRow * Z) ∈
    bounties_matching_address "lig1me" MATCH_LIMIT SampleApi.db) as Hb.
  { vm_compute in Eb. injection Eb as <-. vm_compute. left. }
  split; [exact Hb|]. apply Hin in Hb as (_ & Ho & Hn & _). split; [exact Ho|lia].
Defined.

(** A padded height, and one behind a sign. *)
Lemma search_exact_witness :
  (exists a w', search " 3 " sample_env (sample_world SampleApi.slot_db) =
      (Done (json_ok (ser_SearchResponse a)), w') /\ a = SearchResponse.Block 3) /\
  exists a w', search "+3" sample_env (sample_world SampleApi.slot_db) =
      (Done (json_ok (ser_SearchResponse a)), w') /\ a = SearchResponse.Block 3.
Proof.
  split.
  - destruct (search_exact " 3 " sample_env (sample_world SampleApi.slot_db)) as (a & w' & Hs & Ha);
      [apply sample_env_calm|apply SampleApi.slot_db_ok|vm_compute; discriminate|].
    exists a, w'. split; [exact Hs|]. vm_compute in Hs. injection Hs as Hs _.
    destruct a; try discriminate Hs. injection Hs as <-. reflexivity.
  - destruct (search_exact "+3" sample_env (sample_world SampleApi.slot_db)) as (a & w' & Hs & Ha);
      [apply sample_env_calm|apply SampleApi.slot_db_ok|vm_compute; discriminate|].
    exists a, w'. split; [exact Hs|]. vm_compute in Hs. injection Hs as Hs _.
    destruct a; try discriminate Hs. injection Hs as <-. reflexivity.
Defined.

Lemma search_links_resolve_witness :
  exists body ttl w2,
    block_by_height 3 sample_env (sample_world SampleApi.slot_db) = (Done (cached body ttl), w2).
Proof.
  apply (search_links_resolve sample_signer "3" sample_env (sample_world SampleApi.slot_db)
    (SearchResponse.Block 3) (tick (sample_world SampleApi.slot_db)) sample_env
    (sample_world SampleApi.slot_db)).
  - apply sample_env_calm.
  - apply SampleApi.slot_db_ok.
  - intros h r Hr. apply (lookup_singleton_Some 3 h SampleApi.slot7 r) in Hr as [<- _].
    split; vm_compute; discriminate.
  - intros id r Hr. done.
  - intros q. discriminate.
  - vm_compute. discriminate.
  - vm_compute. reflexivity.
  - apply sample_env_calm.
  - apply SampleApi.slot_db_ok.
  - reflexivity.
Defined.

Lemma api_only_reads_witness :
  (search "lsc1board" sample_env (sample_world SampleApi.db)).2.(w_db) = SampleApi.db.
Proof.
  symmetry. apply (api_only_reads (fun _ => "") sample_signer "http://node"
    (search "lsc1board") eq ltac:(constructor) sample_env (sample_world SampleApi.db)).
  intros t d. reflexivity.
Defined.

Lemma immutable_block_changes_witness :
  exists b b',
    (block_by_height 3 sample_env (sample_world SampleApi.slot_db)).1 =
      Done (cached (ser_BlockResponse b) 300) /\
    b.(blk_finality_status) = Some "pending" /\ b'.(blk_finality_status) = Some "finalized".
Proof.
  destruct (immutable_block_changes 3 SampleApi.slot7 sample_env
    (sample_world SampleApi.slot_db)) as (b & b' & w1 & w2 & w3 & Hb & _ & _ & Hp & Hf).
  - apply sample_env_calm.
  - vm_compute. reflexivity.
  - reflexivity.
  - exists b, b'. rewrite Hb. split; [reflexivity|]. split; [exact Hp|exact Hf].
Defined.
End LookupWitnesses.
