(* ===== verification/F64.v ===== *)
(** * Binary64

    Rust's [f64] on the Standard Library's [spec_float]: conversions from and to the
    integer types, rounding, and serde_json's view of a float.  Operations round to
    nearest even at 53 bits, exactly as the hardware does. *)

From S2P Require Import Prelude Json.
From Stdlib Require Import SpecFloat.
Open Scope Z_scope.

Definition f64 := spec_float.
Definition prec : Z := 53.
Definition emax : Z := 1024.

(** [x as f64] for an integer [x]. *)
Definition f64_of (z : Z) : f64 := binary_normalize prec emax z 0 false.
(** The decimal literal [n / d]: the nearest binary64, for [n] and [d] exactly
    representable. *)
Definition f64_lit (n d : Z) : f64 := SFdiv prec emax (f64_of n) (f64_of d).

Definition f64_add : f64 -> f64 -> f64 := SFadd prec emax.
Definition f64_mul : f64 -> f64 -> f64 := SFmul prec emax.
Definition f64_div : f64 -> f64 -> f64 := SFdiv prec emax.
Definition f64_gt (a b : f64) : bool :=
  match SFcompare a b with Some Gt => true | _ => false end.

Definition clamp (lo hi z : Z) : Z := Z.max lo (Z.min hi z).

(** A cast from a float saturates; [NaN] is zero. *)
Definition saturate (lo hi : Z) (round : Z -> Z -> Z) (x : f64) : Z :=
  match x with
  | S754_zero _ | S754_nan => 0
  | S754_infinity s => if s then lo else hi
  | S754_finite s m e =>
      let v := if s then Z.neg m else Z.pos m in
      clamp lo hi (if 0 <=? e then v * 2 ^ e else round v (2 ^ (- e)))
  end.

(** [x as i64]. *)
Definition f64_as_i64 : f64 -> Z := saturate i64_min i64_max Z.quot.
(** [x.ceil() as usize]. *)
Definition f64_ceil_as_usize : f64 -> Z := saturate 0 u64_max (fun v d => - ((- v) / d)).

(** The 64 bits of a finite float. *)
Definition f64_bits (s : bool) (m : positive) (e : Z) : Z :=
  let sign := if s then 2 ^ 63 else 0 in
  if Z.pos m <? 2 ^ 52 then sign + Z.pos m else sign + (e + 1075) * 2 ^ 52 + (Z.pos m - 2 ^ 52).

(** serde_json prints a float that is not finite as [null]. *)
Definition ser_f64 (x : f64) : Value :=
  match x with
  | S754_zero s => JNumber (Float (if s then 2 ^ 63 else 0))
  | S754_finite s m e => JNumber (Float (f64_bits s m e))
  | S754_infinity _ | S754_nan => JNull
  end.

Example bits_of_12 : ser_f64 (f64_of 12) = JNumber (Float 4622945017495814144).
Proof. reflexivity. Qed.
Example bits_of_095 : ser_f64 (f64_lit 95 100) = JNumber (Float 4606732058837280358).
Proof. reflexivity. Qed.
