(* ===== verification/StatsCache.v ===== *)
(** * The statistics cache ([crates/api/src/stats.rs])

    [StatsCache] and the handler shape all [/v1/stats] endpoints share: serve a fresh
    entry, else compute, store and serve.  Requests run concurrently and share the cache;
    [step] is one of them moving, and the theorem is about every interleaving. *)

From S2P Require Import Prelude Json Io Client Drip.
Open Scope string_scope.
Open Scope list_scope.
Open Scope Z_scope.

(** Instants and durations are nanoseconds of the monotonic clock. *)
Definition DEFAULT_TTL : Z := 30 * 1000000000.
Definition TTL_NEXT_BLOCK_ETA : Z := 5 * 1000000000.
Definition TTL_STATS_DEFAULT_SECS : Z := 30.
Definition TTL_STATS_TOTALS_SECS : Z := 10.
Definition TTL_STATS_NEXT_BLOCK_ETA_SECS : Z := 5.

(** [DashMap<String, (Instant, String)>]. *)
Record StatsCache := { inner : gmap string (Z * string) }.
Definition new_cache : StatsCache := {| inner := ∅ |}.

Definition get_fresh (cache : StatsCache) (key : string) (ttl now : Z) : option string :=
  match cache.(inner) !! key with
  | Some (stamp, body) => if duration_since now stamp <? ttl then Some body else None
  | None => None
  end.

Definition put (cache : StatsCache) (key value : string) (now : Z) : StatsCache :=
  {| inner := <[key := (now, value)]> cache.(inner) |}.

(** ** Replies *)

Record StatsReply := { st_status : Z; st_max_age : option Z; st_body : string }.

Definition cached_json_response (body : string) (max_age_secs : Z) : StatsReply :=
  {| st_status := 200; st_max_age := Some max_age_secs; st_body := body |}.

(** The error text with its double quotes made single. *)
Fixpoint requote (s : string) : string :=
  match s with
  | EmptyString => EmptyString
  | String c r => String (if (N_of_ascii c =? 34)%N then "'"%char else c) (requote r)
  end.

(** The quote character. *)
Definition quote : string := String (ascii_of_N 34) EmptyString.

Definition error_response (err : string) : StatsReply :=
  {| st_status := 500; st_max_age := None;
     st_body := ("{" ++ quote ++ "error" ++ quote ++ ":" ++ quote ++ requote err ++ quote ++
                 "}")%string |}.

(** ** One request

    [mono] is the monotonic clock at each tick.  A request that misses computes its
    payload as an [IO] program, prints it, stores it under the time it is stored at. *)
Section Serve.
Context `{JsonText} (mono : nat -> Z).

Definition finish (key : string) (max_age_secs : Z) (result : result string Value)
    (cache : StatsCache) (now : Z) : StatsReply * StatsCache :=
  match result with
  | Ok payload =>
      let body := value_to_string payload in
      (cached_json_response body max_age_secs, put cache key body now)
  | Err e => (error_response e, cache)
  end.

Definition serve (key : string) (ttl max_age_secs : Z) (compute : IO (result string Value))
    (cache : StatsCache) (e : Env) (w : World) : outcome StatsReply * (StatsCache * World) :=
  match get_fresh cache key ttl (mono w.(w_tick)) with
  | Some body => (Done (cached_json_response body max_age_secs), (cache, w))
  | None =>
      match compute e w with
      | (Done r, w') =>
          let '(reply, cache') := finish key max_age_secs r cache (mono w'.(w_tick)) in
          (Done reply, (cache', w'))
      | (Panicked, w') => (Panicked, (cache, w'))
      end
  end.
End Serve.

(** ** Many requests at once *)

Inductive Place :=
| Asked
| Computing
| Replied (reply : StatsReply).

Record Request := { rq_key : string; rq_ttl : Z; rq_max_age : Z; rq_place : Place }.

Record System := {
  sy_cache : StatsCache;
  sy_requests : gmap nat Request;
  sy_computed : list (string * Z * string)   (** key, time and body of finished computations *)
}.

Definition moved (r : Request) (p : Place) : Request :=
  {| rq_key := r.(rq_key); rq_ttl := r.(rq_ttl); rq_max_age := r.(rq_max_age); rq_place := p |}.

Section Steps.
Context `{JsonText}.

(** Request [i] moves at time [t]; [result] is what its computation gives if it is
    finishing one. *)
Definition step (sys : System) (i : nat) (t : Z) (result : result string Value) : System :=
  match sys.(sy_requests) !! i with
  | Some r =>
      match r.(rq_place) with
      | Asked =>
          match get_fresh sys.(sy_cache) r.(rq_key) r.(rq_ttl) t with
          | Some body =>
              {| sy_cache := sys.(sy_cache);
                 sy_requests := <[i := moved r (Replied (cached_json_response body r.(rq_max_age)))]>
                                  sys.(sy_requests);
                 sy_computed := sys.(sy_computed) |}
          | None =>
              {| sy_cache := sys.(sy_cache);
                 sy_requests := <[i := moved r Computing]> sys.(sy_requests);
                 sy_computed := sys.(sy_computed) |}
          end
      | Computing =>
          let '(reply, cache') := finish r.(rq_key) r.(rq_max_age) result sys.(sy_cache) t in
          {| sy_cache := cache';
             sy_requests := <[i := moved r (Replied reply)]> sys.(sy_requests);
             sy_computed := match result with
                            | Ok payload =>
                                (r.(rq_key), t, value_to_string payload) :: sys.(sy_computed)
                            | Err _ => sys.(sy_computed)
                            end |}
      | Replied _ => sys
      end
  | None => sys
  end.

(** A schedule: who moves, when, and with which result. *)
Definition Event : Type := nat * Z * result string Value.
Definition run_events (sys : System) (events : list Event) : System :=
  fold_left (fun sys ev => step sys ev.1.1 ev.1.2 ev.2) events sys.

Definition start (requests : gmap nat Request) : System :=
  {| sy_cache := new_cache; sy_requests := requests; sy_computed := [] |}.

(** ** What a reply holds *)

(** The invariant: every entry is a finished computation of its key, and every good reply
    is the body of one. *)
Record sys_inv (sys : System) : Prop := {
  inv_cache k stamp body :
    sys.(sy_cache).(inner) !! k = Some (stamp, body) -> (k, stamp, body) ∈ sys.(sy_computed);
  inv_replies i r reply :
    sys.(sy_requests) !! i = Some r -> r.(rq_place) = Replied reply -> reply.(st_status) = 200 ->
    exists t, (r.(rq_key), t, reply.(st_body)) ∈ sys.(sy_computed)
}.

Lemma get_fresh_entry cache key ttl now body :
  get_fresh cache key ttl now = Some body ->
  exists stamp, cache.(inner) !! key = Some (stamp, body) /\ now - stamp < ttl.
Proof.
  unfold get_fresh, duration_since. destruct (inner cache !! key) as [[stamp b]|]; [|done].
  destruct (Z.ltb_spec (Z.max 0 (now - stamp)) ttl); [|done]. intros [= <-].
  exists stamp. split; [done|lia].
Qed.

Lemma sys_inv_step sys i t result : sys_inv sys -> sys_inv (step sys i t result).
Proof.
  intros [Hc Hr]. unfold step. destruct (sy_requests sys !! i) as [r|] eqn:Ei; [|done].
  destruct (rq_place r) as [| |reply] eqn:Ep; [| |done].
  - destruct (get_fresh _ _ _ _) as [body|] eqn:Ef; (split; simpl; [exact Hc|]);
      intros j r' reply; rewrite lookup_insert; (destruct (decide (i = j)) as [->|];
        [intros [= <-]; simpl; intros Hp Hs; simplify_eq/=|by apply Hr]).
    apply get_fresh_entry in Ef as (stamp & Hk & _). exists stamp. by apply Hc.
  - unfold finish. destruct result as [payload|err]; split; simpl.
    + intros k stamp body. unfold put. simpl. rewrite lookup_insert.
      destruct (decide (rq_key r = k)) as [->|].
      * intros [= -> ->]. left.
      * intros Hk. right. by apply Hc.
    + intros j r' reply. rewrite lookup_insert. destruct (decide (i = j)) as [->|].
      * intros [= <-]. simpl. intros [= <-] _. exists t. left.
      * intros Hj Hp Hs. destruct (Hr j r' reply Hj Hp Hs) as [t' Ht]. exists t'. by right.
    + done.
    + intros j r' reply. rewrite lookup_insert. destruct (decide (i = j)) as [->|].
      * intros [= <-]. simpl. by intros [= <-].
      * by apply Hr.
Qed.

Definition all_asked (requests : gmap nat Request) : Prop :=
  map_Forall (fun _ r => r.(rq_place) = Asked) requests.

Lemma sys_inv_start requests : all_asked requests -> sys_inv (start requests).
Proof.
  intros Ha. split; simpl; [done|]. intros i r reply Hi Hp.
  specialize (Ha i r Hi). simpl in Ha. congruence.
Qed.

Lemma sys_inv_run sys events : sys_inv sys -> sys_inv (run_events sys events).
Proof.
  revert sys. induction events as [|ev events IH]; intros sys Hinv; [done|].
  simpl. apply IH. by apply sys_inv_step.
Qed.

Lemma run_snoc sys events ev :
  run_events sys (events ++ [ev]) = step (run_events sys events) ev.1.1 ev.1.2 ev.2.
Proof. unfold run_events. by rewrite fold_left_app. Qed.

(** What the statistics endpoints serve.  Over every interleaving of requests that
    share the cache, a request answered from it at time [t] gets a body that a request
    for the same key finished computing less than its time-to-live before; and any other
    good reply is one it computed itself. *)
Theorem served_is_recent requests events i t result r :
  all_asked requests ->
  let before := run_events (start requests) events in
  let after := run_events (start requests) (events ++ [(i, t, result)]) in
  before.(sy_requests) !! i = Some r ->
  forall reply,
  after.(sy_requests) !! i = Some (moved r (Replied reply)) ->
  r.(rq_place) = Asked /\
    (exists t0, (r.(rq_key), t0, reply.(st_body)) ∈ before.(sy_computed) /\
       t - t0 < r.(rq_ttl) /\ reply.(st_max_age) = Some r.(rq_max_age)) \/
  r.(rq_place) = Computing /\
    match result with
    | Ok payload => reply.(st_body) = value_to_string payload
    | Err e => reply = error_response e
    end \/
  r.(rq_place) = Replied reply.
Proof.
  intros Ha before after Hi reply. unfold after. rewrite run_snoc. fold before. simpl.
  pose proof (sys_inv_run _ events (sys_inv_start _ Ha)) as [Hc _]. fold before in Hc.
  unfold step. rewrite Hi. destruct (rq_place r) as [| |old] eqn:Ep.
  - destruct (get_fresh _ _ _ _) as [body|] eqn:Ef; simpl; rewrite lookup_insert_eq.
    + intros [= <-]. left. split; [done|]. apply get_fresh_entry in Ef as (stamp & Hk & Hlt).
      exists stamp. split_and!; [by apply Hc|done|done].
    + by intros [= ?].
  - unfold finish. destruct result as [payload|err]; simpl; rewrite lookup_insert_eq;
      intros [= <-]; right; left; by split.
  - rewrite Hi. intros [= Hm]. right. right. destruct r as [k tl ma pl]. simpl in *.
    unfold moved in Hm. simpl in Hm. congruence.
Qed.
End Steps.
