(* ===== verification/Stats.v ===== *)
(** * Statistics ([crates/api/src/stats.rs])

    The computation behind each [/v1/stats] endpoint: totals, active addresses, the daily
    series, the leaderboards, the richest holders and the faucet's daily drips.  Each is
    an [IO] program whose queries may see different states of the tables; an error is its
    outermost message. *)

From S2P Require Import Prelude Json Types Schema Io Client Config Drip BotDrip Startup Listing Responses Sql F64 StatsCache.
From stdpp Require Import sorting.
Open Scope string_scope.
Open Scope list_scope.
Open Scope Z_scope.
Open Scope io_scope.

(** chrono's calendar: the earliest instant a [DateTime<Utc>] holds, in milliseconds (a
    subtraction that falls before it panics), the timestamps Postgres takes as a
    parameter, and the [%Y-%m-%d] of a day. *)
Class Calendar := {
  min_utc : Z;
  pg_timestamp : Z -> bool;
  format_day : Z -> string
}.

Definition DAY_MS : Z := 86400000.

(** [DATE_TRUNC('day', t)]; the driver sets the session's time zone to UTC. *)
Definition date_trunc_day (t : Z) : Z := t / DAY_MS * DAY_MS.

(** A query under [.context(..)]. *)
Definition read {A} (context : string) (f : DB -> A) : IO (result string A) :=
  r ← query f; mret (map_err (fun _ => context) r).

Definition count {K V} `{Countable K} (t : gmap K V) : Z := Z.of_nat (size t).

Section Stats.
Context `{JsonText} `{PgText} `{Rfc3339} `{Calendar} `{SdkReads}.

(** ** /totals *)

Record TotalsResponse := {
  to_indexed_at_slot : Z; to_blocks : Z; to_txs_total : Z; to_txs_committed : Z;
  to_addresses : Z; to_schemas : Z; to_attestor_sets : Z; to_attestations : Z;
  to_total_supply_nano : option string; to_treasury_balance_nano : option string;
  to_treasury_address : option string }.
Definition ser_TotalsResponse (x : TotalsResponse) : Value :=
  JObject ([("indexed_at_slot", ser_i64 x.(to_indexed_at_slot));
            ("blocks", ser_i64 x.(to_blocks)); ("txs_total", ser_i64 x.(to_txs_total));
            ("txs_committed", ser_i64 x.(to_txs_committed));
            ("addresses", ser_i64 x.(to_addresses)); ("schemas", ser_i64 x.(to_schemas));
            ("attestor_sets", ser_i64 x.(to_attestor_sets));
            ("attestations", ser_i64 x.(to_attestations))] ++
           skip_none "total_supply_nano" JString x.(to_total_supply_nano) ++
           skip_none "treasury_balance_nano" JString x.(to_treasury_balance_nano) ++
           skip_none "treasury_address" JString x.(to_treasury_address)).

Definition count_committed (d : DB) : Z :=
  count (filter (fun kr : string * TxRow => kr.2.(tr_outcome) = "committed") d.(transactions)).
Definition max_height (d : DB) : option Z :=
  fold_right (fun h m => Some (match m with Some x => Z.max h x | None => h end)) None
    (map_to_list d.(slots)).*1.

Definition compute_totals (signer : Signer) (avow_treasury_addr : option string)
  : IO (result string TotalsResponse) :=
  blocks ←? read "count slots" (fun d => count d.(slots));
  txs_total ←? read "count txs total" (fun d => count d.(transactions));
  txs_committed ←? read "count txs committed" count_committed;
  addresses ←? read "count addresses" (fun d => count d.(address_summaries));
  n_schemas ←? read "count schemas" (fun d => count d.(schemas));
  n_sets ←? read "count attestor_sets" (fun d => count d.(attestor_sets));
  n_attestations ←? read "count attestations" (fun d => count d.(attestations));
  indexed_at_slot ←? read "max slot" max_height;
  supply ← query_total_supply signer;
  '(balance, address) ←
    match avow_treasury_addr with
    | Some addr =>
        b ← query_balance_for signer addr;
        mret (match b with
              | Ok n => (Some (to_string n), Some addr)
              | Err _ => (None, None)
              end)
    | None => mret (None, None)
    end;
  mret (Ok {| to_indexed_at_slot := default 0 indexed_at_slot; to_blocks := blocks;
              to_txs_total := txs_total; to_txs_committed := txs_committed;
              to_addresses := addresses; to_schemas := n_schemas; to_attestor_sets := n_sets;
              to_attestations := n_attestations;
              to_total_supply_nano := to_string <$> result_ok supply;
              to_treasury_balance_nano := balance; to_treasury_address := address |}).

(** ** /active-addresses *)

(** [s.find(|c| !c.is_ascii_digit())] and [split_at]: the leading digits and the rest,
    which is not empty. *)
Fixpoint split_digits (s : string) : string * string :=
  match s with
  | String c r =>
      let n := N_of_ascii c in
      if ((48 <=? n) && (n <=? 57))%N
      then let '(a, b) := split_digits r in (String c a, b)
      else (EmptyString, s)
  | EmptyString => (EmptyString, EmptyString)
  end.

Definition checked_mul (a b : Z) : option Z := if a * b <=? u64_max then Some (a * b) else None.

(** Seconds in a unit. *)
Definition unit_seconds (unit : string) : option Z :=
  if (unit =? "s")%string then Some 1
  else if (unit =? "m")%string then Some 60
  else if (unit =? "h")%string then Some 3600
  else if (unit =? "d")%string then Some 86400
  else None.

Definition parse_interval (s : string) : result string Z :=
  let '(num, unit) := split_digits s in
  if (unit =? "")%string
  then Err ("window '" ++ s ++ "' missing unit (h/d/m/s)")%string
  else
    match parse_uint u64_max num with
    | None => Err ("window '" ++ s ++ "': expected leading integer")%string
    | Some n =>
        match unit_seconds unit with
        | None => Err ("window '" ++ s ++ "': unknown unit '" ++ unit ++
                       "' (expected s/m/h/d)")%string
        | Some k => match checked_mul n k with Some d => Ok d | None => Err "overflow" end
        end
    end.

(** [chrono::Duration::from_std]: at most [i64::MAX] milliseconds. *)
Definition duration_from_std (secs : Z) : option Z :=
  if secs * 1000 <=? i64_max then Some (secs * 1000) else None.

(** [Utc::now() - duration]. *)
Definition utc_sub (now duration : Z) : outcome Z :=
  if min_utc <=? now - duration then Done (now - duration) else Panicked.

(** A query with a timestamp parameter. *)
Definition read_since {A} (context : string) (since : Z) (f : DB -> A) : IO (result string A) :=
  if pg_timestamp since then read context f else (_ ← io_now; mret (Err context)).

(** [last_seen_timestamp >= since]: a null timestamp does not count. *)
Definition seen_since (since : Z) (r : AddressRow) : bool :=
  match r.(ad_last_seen_timestamp) with Some t => since <=? t | None => false end.

Definition compute_active_addresses (window_label : string) (interval : Z)
  : IO (result string Value) :=
  now ← io_now;
  match duration_from_std interval with
  | None => mret (Err "window too long")
  | Some dur =>
      since ← lift (utc_sub now dur);
      n ←? read_since "count active addresses" since (fun d =>
             count (filter (fun kr : string * AddressRow => seen_since since kr.2 = true)
                      d.(address_summaries)));
      mret (Ok (JObject [("window", JString window_label);
                         ("since", JString (rfc3339_secs since)); ("count", ser_i64 n)]))
  end.

(** ** Daily series *)

Definition min_days (days : option Z) (default_days : Z) : Z := Z.min (default default_days days) 90.

(** [SELECT DATE_TRUNC('day', t), COUNT .. WHERE t >= since GROUP BY day ORDER BY day]. *)
Definition daily_counts (since : Z) (times : list Z) : list (Z * Z) :=
  order_by fst Z.lt (group_count (date_trunc_day <$> filter (fun t => since <= t) times)).

Definition ser_DailyPoint (p : Z * Z) : Value :=
  JObject [("date", JString (format_day p.1)); ("count", ser_i64 p.2)].

Definition compute_daily (context : string) (times : DB -> list Z) (days : Z)
  : IO (result string Value) :=
  now ← io_now;
  since ← lift (utc_sub now (days * DAY_MS));
  rows ←? read_since context since (fun d => daily_counts since (times d));
  mret (Ok (JObject [("days", ser_uint days); ("points", ser_list ser_DailyPoint rows)])).

(** The timestamps counted; a null one never satisfies the condition. *)
Definition first_seen_times (d : DB) : list Z :=
  omap (fun kr : string * AddressRow => kr.2.(ad_first_seen_timestamp))
    (map_to_list d.(address_summaries)).
Definition submitted_times (d : DB) : list Z :=
  (fun kr : string * AttestationRow => kr.2.(at_submitted_at_timestamp)) <$>
    map_to_list d.(attestations).

Definition compute_new_wallets_daily : Z -> IO (result string Value) :=
  compute_daily "daily new-wallets bucket" first_seen_times.
Definition compute_attestations_daily : Z -> IO (result string Value) :=
  compute_daily "daily attestations bucket" submitted_times.

(** [transactions JOIN slots], grouped by day, kind and outcome, ordered by the three. *)
Definition tx_rate_keys (since : Z) (d : DB) : list (Z * string * string) :=
  omap (fun kr : string * TxRow =>
    s ← d.(slots) !! kr.2.(tr_slot);
    if since <=? s.(sl_timestamp)
    then Some (date_trunc_day s.(sl_timestamp), kr.2.(tr_kind), kr.2.(tr_outcome)) else None)
    (map_to_list d.(transactions)).
Definition tx_rate_rows (since : Z) (d : DB) : list (Z * string * string * Z) :=
  order_by fst (row_lt (row_lt Z.lt text_lt) text_lt) (group_count (tx_rate_keys since d)).

Definition ser_TxRatePoint (p : Z * string * string * Z) : Value :=
  let '(day, kind, outcome, n) := p in
  JObject [("date", JString (format_day day)); ("kind", JString kind);
           ("outcome", JString outcome); ("count", ser_i64 n)].

Definition compute_tx_rate_daily (days : Z) : IO (result string Value) :=
  now ← io_now;
  since ← lift (utc_sub now (days * DAY_MS));
  rows ←? read_since "daily tx-rate bucket" since (tx_rate_rows since);
  mret (Ok (JObject [("days", ser_uint days); ("points", ser_list ser_TxRatePoint rows)])).

(** ** Leaderboards *)

Definition clamp_n (n : option Z) : Z := Z.min (default 10 n) 100.

Definition ser_TopAddressRank (r : Z * (string * Z)) : Value :=
  JObject [("rank", ser_uint r.1); ("address", JString r.2.1); ("count", ser_i64 r.2.2)].

(** [enumerate], ranks from one. *)
Definition ranked {A} (rows : list A) : list (Z * A) :=
  zip_with (fun i a => (Z.of_nat i + 1, a)) (seq 0 (length rows)) rows.

Definition leaderboard_response (rows : list (string * Z)) : Value :=
  JObject [("window", JString "all-time"); ("rows", ser_list ser_TopAddressRank (ranked rows))].

(** [ORDER BY count DESC, key ASC LIMIT n]. *)
Definition by_count : relation (Z * string) := row_lt (desc Z.lt) text_lt.
#[export] Instance by_count_dec : RelDecision by_count.
Proof. apply (row_lt_dec (desc Z.lt) text_lt). Defined.
Definition rank_key (r : string * Z) : Z * string := (r.2, r.1).
Definition top (n : Z) (rows : list (string * Z)) : list (string * Z) :=
  limit n (order_by rank_key by_count rows).

Definition top_attesters_rows (n : Z) (d : DB) : list (string * Z) :=
  top n (group_count ((fun kr : string * AttestationRow => kr.2.(at_submitter)) <$>
                      map_to_list d.(attestations))).
Definition top_schema_owners_rows (n : Z) (d : DB) : list (string * Z) :=
  top n (group_count ((fun kr : string * SchemaRow => kr.2.(sc_owner)) <$>
                      map_to_list d.(schemas))).
Definition top_attestor_sets_rows (n : Z) (d : DB) : list (string * Z) :=
  top n (filter (fun r : string * Z => 0 < r.2)
           ((fun kr : string * AttestorSetRow => (kr.1, kr.2.(as_schema_count))) <$>
            map_to_list d.(attestor_sets))).

Definition compute_leaderboard (context : string) (rows : Z -> DB -> list (string * Z)) (n : Z)
  : IO (result string Value) :=
  r ←? read context (rows n); mret (Ok (leaderboard_response r)).
Definition compute_top_attesters : Z -> IO (result string Value) :=
  compute_leaderboard "top-attesters query" top_attesters_rows.
Definition compute_top_schema_owners : Z -> IO (result string Value) :=
  compute_leaderboard "top-schema-owners query" top_schema_owners_rows.
Definition compute_top_attestor_sets : Z -> IO (result string Value) :=
  compute_leaderboard "top-attestor-sets query" top_attestor_sets_rows.

(** ** /top-holders *)

(** Balances are asked for one by one; an address whose query fails is skipped. *)
Fixpoint query_balances (signer : Signer) (addresses : list string)
  : IO (list (string * Z)) :=
  match addresses with
  | [] => mret []
  | addr :: rest =>
      b ← query_balance_for signer addr;
      more ← query_balances signer rest;
      mret (match b with Ok bal => (addr, bal) :: more | Err _ => more end)
  end.

(** [sort_by(|a, b| b.1.cmp(&a.1))]: a stable sort, largest first. *)
Definition by_balance (rows : list (string * Z)) : list (string * Z) :=
  order_by snd (desc Z.lt) rows.

Definition ser_TopHolder (r : Z * (string * Z)) : Value :=
  JObject [("rank", ser_uint r.1); ("address", JString r.2.1);
           ("balance_nano", JString (to_string r.2.2));
           ("balance_avow", ser_f64 (f64_div (f64_of r.2.2) (f64_of 1000000000)))].

Definition compute_top_holders (signer : Signer) (n : Z) : IO (result string Value) :=
  addresses ←? read "address-summary list"
                 (fun d => limit 1000 (map_to_list d.(address_summaries)).*1);
  with_balance ← query_balances signer addresses;
  mret (Ok (JObject [("source", JString "chain");
                     ("holders", ser_list ser_TopHolder
                        (ranked (limit n (by_balance with_balance))))])).

(** ** /drips-daily

    [web] counts the transfers the faucet's address sent, [bot] the rows of [bot_drips];
    the two are merged by day in a [BTreeMap]. *)

Definition web_drip_times (faucet_addr : string) (d : DB) : list Z :=
  omap (fun kr : string * TxRow =>
    if decide (kr.2.(tr_sender) = Some faucet_addr /\ kr.2.(tr_kind) = "transfer")
    then Some kr.2.(tr_indexed_at) else None) (map_to_list d.(transactions)).

(** [bot_drips] keeps microseconds. *)
Definition bot_drip_times (rows : list BotDripRow) : list Z :=
  (fun r => r.(bd_dripped_at) / 1000) <$> rows.

Definition add_web (by_day : gmap string (Z * Z)) (p : Z * Z) : gmap string (Z * Z) :=
  let key := format_day p.1 in
  <[key := (p.2, (default (0, 0) (by_day !! key)).2)]> by_day.
Definition add_bot (by_day : gmap string (Z * Z)) (p : Z * Z) : gmap string (Z * Z) :=
  let key := format_day p.1 in
  <[key := ((default (0, 0) (by_day !! key)).1, p.2)]> by_day.
Definition merge_days (web bot : list (Z * Z)) : gmap string (Z * Z) :=
  fold_left add_bot bot (fold_left add_web web ∅).

(** Byte order of texts, as a [BTreeMap<String, _>] iterates. *)
Definition byte_lt (s t : string) : Prop := String.compare s t = Lt.
#[export] Instance byte_lt_dec : RelDecision byte_lt.
Proof. intros s t. unfold byte_lt. apply _. Defined.

Definition ser_DripsDailyPoint (p : string * (Z * Z)) : Value :=
  JObject [("date", JString p.1); ("web", ser_i64 p.2.1); ("bot", ser_i64 p.2.2);
           ("total", ser_i64 (p.2.1 + p.2.2))].

Definition compute_drips_daily (bot_table : nat -> result DbError (list BotDripRow))
    (days : Z) (faucet_addr : string) : IO (result string Value) :=
  now ← io_now;
  since ← lift (utc_sub now (days * DAY_MS));
  web ←? read_since "daily web-drips bucket" since
           (fun d => daily_counts since (web_drip_times faucet_addr d));
  bot ←? (if pg_timestamp since
          then r ← at_tick bot_table;
               mret (map_err (fun _ => "daily bot-drips bucket")
                       (rows ← r; Ok (daily_counts since (bot_drip_times rows))))
          else (_ ← io_now; mret (Err "daily bot-drips bucket")));
  mret (Ok (JObject [("days", ser_uint days); ("faucet_address", JString faucet_addr);
                     ("points", ser_list ser_DripsDailyPoint
                        (order_by fst byte_lt (map_to_list (merge_days web bot))))])).
End Stats.
