(* ===== verification/Eta.v ===== *)
(** * Finality and the next block ([crates/api/src/stats.rs])

    The two statistics that compute with floats: the finality percentiles with their
    static fallback, and the estimate of the next block from the intervals of the last
    hundred slots.  The float arithmetic is that of [F64]. *)

From S2P Require Import Prelude Json Types Schema Io Client Config Startup Responses Sql F64 Stats.
From Stdlib Require Import SpecFloat.
From stdpp Require Import sorting.
Open Scope string_scope.
Open Scope list_scope.
Open Scope Z_scope.
Open Scope io_scope.

(** Postgres' [percentile_cont(p/100)] over intervals in milliseconds, in seconds. *)
Class PgPercentile := percentile_cont : Z -> list Z -> option f64.

(** Chrono's latest instant: an addition beyond it panics. *)
Class CalendarEnd := max_utc : Z.

Section Eta.
Context `{JsonText} `{Rfc3339} `{Calendar} `{CalendarEnd} `{PgPercentile} `{Urls}.

(** ** /finality *)

Definition FINALITY_MIN_SAMPLES : Z := 20.
Definition HOUR_MS : Z := 3600000.

Record FinalityResponse := {
  fi_window : string; fi_sampled_count : Z; fi_p50_seconds : f64; fi_p95_seconds : f64;
  fi_p99_seconds : f64; fi_da_layer : string; fi_source : string; fi_as_of : string }.
Definition ser_FinalityResponse (x : FinalityResponse) : Value :=
  JObject [("window", JString x.(fi_window)); ("sampled_count", ser_uint x.(fi_sampled_count));
           ("p50_seconds", ser_f64 x.(fi_p50_seconds));
           ("p95_seconds", ser_f64 x.(fi_p95_seconds));
           ("p99_seconds", ser_f64 x.(fi_p99_seconds)); ("da_layer", JString x.(fi_da_layer));
           ("source", JString x.(fi_source)); ("as_of", JString x.(fi_as_of))].

Definition estimated_finality : IO FinalityResponse :=
  now ← io_now;
  mret {| fi_window := "static"; fi_sampled_count := 0; fi_p50_seconds := f64_of 12;
          fi_p95_seconds := f64_of 15; fi_p99_seconds := f64_of 15;
          fi_da_layer := "celestia-mocha"; fi_source := "estimated";
          fi_as_of := rfc3339_secs now |}.

(** [finalized_at - timestamp] of the slots finalized within the hour. *)
Definition finality_latencies (now : Z) (d : DB) : list Z :=
  omap (fun hr : Z * SlotRow =>
    f ← hr.2.(sl_finalized_at);
    if now - HOUR_MS <? f then Some (f - hr.2.(sl_timestamp)) else None)
    (map_to_list d.(slots)).

Definition compute_observed_finality : IO (result string FinalityResponse) :=
  r ← exec (fun now d => Ok (finality_latencies now d, d));
  match r with
  | Err _ => mret (Err "running finality percentile query")
  | Ok latencies =>
      let n := Z.of_nat (length latencies) in
      if n <? FINALITY_MIN_SAMPLES
      then e ← estimated_finality; mret (Ok e)
      else
        now ← io_now;
        mret (Ok {| fi_window := "1h"; fi_sampled_count := as_u32 n;
                    fi_p50_seconds := default (f64_of 12) (percentile_cont 50 latencies);
                    fi_p95_seconds := default (f64_of 15) (percentile_cont 95 latencies);
                    fi_p99_seconds := default (f64_of 15) (percentile_cont 99 latencies);
                    fi_da_layer := "celestia-mocha"; fi_source := "observed";
                    fi_as_of := rfc3339_secs now |})
  end.

(** The handler's payload: a failing query falls back to the estimate. *)
Definition finality_payload : IO (result string Value) :=
  r ← compute_observed_finality;
  match r with
  | Ok p => mret (Ok (ser_FinalityResponse p))
  | Err _ => e ← estimated_finality; mret (Ok (ser_FinalityResponse e))
  end.

(** ** /next-block-eta *)

Record NextBlockEtaResponse := {
  ne_last_block_height : Z; ne_last_block_timestamp : string;
  ne_mean_block_interval_secs : option f64; ne_p95_block_interval_secs : option f64;
  ne_expected_next_at : option string; ne_seconds_since_last : f64;
  ne_seconds_until_expected : option f64; ne_indexer_lag_secs : f64 }.
Definition ser_NextBlockEtaResponse (x : NextBlockEtaResponse) : Value :=
  JObject ([("last_block_height", ser_i64 x.(ne_last_block_height));
            ("last_block_timestamp", JString x.(ne_last_block_timestamp))] ++
           skip_none "mean_block_interval_secs" ser_f64 x.(ne_mean_block_interval_secs) ++
           skip_none "p95_block_interval_secs" ser_f64 x.(ne_p95_block_interval_secs) ++
           skip_none "expected_next_at" JString x.(ne_expected_next_at) ++
           [("seconds_since_last", ser_f64 x.(ne_seconds_since_last))] ++
           skip_none "seconds_until_expected" ser_f64 x.(ne_seconds_until_expected) ++
           [("indexer_lag_secs", ser_f64 x.(ne_indexer_lag_secs))]).

(** [SELECT height, timestamp FROM slots ORDER BY height DESC LIMIT 100]. *)
Definition recent_slots (d : DB) : list (Z * Z) :=
  limit 100 (order_by fst (desc Z.lt)
    ((fun hr : Z * SlotRow => (hr.1, hr.2.(sl_timestamp))) <$> map_to_list d.(slots))).

(** [num_milliseconds() as f64 / 1000.0]. *)
Definition ms_to_secs (ms : Z) : f64 := f64_div (f64_of ms) (f64_of 1000).

(** [rows.windows(2)], the deltas that are positive. *)
Fixpoint interval_deltas (rows : list (Z * Z)) : list f64 :=
  match rows with
  | newer :: ((older :: _) as rest) =>
      let delta := ms_to_secs (newer.2 - older.2) in
      if f64_gt delta (f64_of 0) then delta :: interval_deltas rest else interval_deltas rest
  | _ => []
  end.

Definition f64_sum (l : list f64) : f64 := fold_left f64_add l (f64_of 0).

(** [sort_by(|a, b| a.partial_cmp(b).unwrap_or(Equal))]. *)
Definition not_greater (a b : f64) : Prop := f64_gt a b = false.
#[export] Instance not_greater_dec a b : Decision (not_greater a b).
Proof. unfold not_greater. apply _. Defined.
Definition sort_deltas (l : list f64) : list f64 := merge_sort not_greater l.

(** [((len as f64) * 0.95).ceil() as usize - 1]: the subtraction wraps at zero. *)
Definition p95_index (len : Z) : Z :=
  as_u64 (f64_ceil_as_usize (f64_mul (f64_of len) (f64_lit 95 100)) - 1).

(** [l[i]]: panics out of bounds. *)
Definition index {A} (l : list A) (i : Z) : outcome A :=
  match l !! Z.to_nat i with Some a => Done a | None => Panicked end.

(** [latest_ts + Duration::milliseconds(ms)]. *)
Definition utc_add (t ms : Z) : outcome Z :=
  if (min_utc <=? t + ms) && (t + ms <=? max_utc) then Done (t + ms) else Panicked.

Record Prediction := {
  pr_mean : f64; pr_p95 : f64; pr_expected_at : Z; pr_until_expected : f64 }.

(** Mean, 95th percentile and expected instant, from the deltas; [None] without any. *)
Definition predict (deltas : list f64) (latest_ts now : Z) : outcome (option Prediction) :=
  match deltas with
  | [] => Done None
  | _ =>
      let len := Z.of_nat (length deltas) in
      let mean := f64_div (f64_sum deltas) (f64_of len) in
      p95 ← index (sort_deltas deltas) (Z.min (p95_index len) (len - 1));
      expected_at ← utc_add latest_ts (f64_as_i64 (f64_mul mean (f64_of 1000)));
      Done (Some {| pr_mean := mean; pr_p95 := p95; pr_expected_at := expected_at;
                    pr_until_expected := ms_to_secs (expected_at - now) |})
  end.

Definition indexer_lag (chain_head : option Z) (latest_height : Z) (mean : option f64) : f64 :=
  match chain_head, mean with
  | Some head, Some mean =>
      f64_mul (f64_of (Z.max 0 (as_i64 (as_i64 head - latest_height)))) mean
  | _, _ => f64_of 0
  end.

Definition eta_response (rows : list (Z * Z)) (chain_head : option Z) (now : Z)
  : outcome (result string NextBlockEtaResponse) :=
  match rows with
  | [] => Done (Err "no slots indexed yet")
  | (latest_height, latest_ts) :: _ =>
      p ← predict (interval_deltas rows) latest_ts now;
      Done (Ok {| ne_last_block_height := latest_height;
                  ne_last_block_timestamp := rfc3339_millis latest_ts;
                  ne_mean_block_interval_secs := pr_mean <$> p;
                  ne_p95_block_interval_secs := pr_p95 <$> p;
                  ne_expected_next_at := (fun x => rfc3339_millis x.(pr_expected_at)) <$> p;
                  ne_seconds_since_last := ms_to_secs (now - latest_ts);
                  ne_seconds_until_expected := pr_until_expected <$> p;
                  ne_indexer_lag_secs := indexer_lag chain_head latest_height (pr_mean <$> p) |})
  end.

Definition compute_next_block_eta (chain_head : option Z)
  : IO (result string NextBlockEtaResponse) :=
  rows ←? read "fetching recent slots for next-block-eta" recent_slots;
  match rows with
  | [] => mret (Err "no slots indexed yet")
  | _ => now ← io_now; lift (eta_response rows chain_head now)
  end.

(** The payload: the chain's head is asked for first and may be missing. *)
Definition next_block_eta_payload (chain_rpc : string) : IO (result string Value) :=
  chain_head ←
    match new chain_rpc with
    | Ok client => s ← latest_slot client; mret (slot_number <$> result_ok s)
    | Err _ => mret None
    end;
  r ←? compute_next_block_eta chain_head;
  mret (Ok (ser_NextBlockEtaResponse r)).
End Eta.

(** ** What the estimate guarantees *)

(** The position of the 95th percentile in a sample of at most 99 values, for all of
    them: the float computation gives the exact ceiling. *)
Lemma p95_index_exact n : 1 <= n <= 99 -> p95_index n = (95 * n + 99) / 100 - 1.
Proof.
  intros Hn.
  assert (forallb (fun k => p95_index (Z.of_nat k) =? (95 * Z.of_nat k + 99) / 100 - 1)
    (seq 1 99) = true) as Hall by (vm_compute; reflexivity).
  rewrite forallb_forall in Hall. specialize (Hall (Z.to_nat n)).
  rewrite Z2Nat.id in Hall by lia. apply Z.eqb_eq, Hall. apply in_seq. lia.
Qed.

(** The order of the floats that can be deltas. *)
Definition positive (x : f64) : Prop := f64_gt x (f64_of 0) = true.

Lemma pos_compare_antisym a b :
  PosDef.Pos.compare_cont Eq a b = CompOpp (PosDef.Pos.compare_cont Eq b a).
Proof. apply (Pos.compare_antisym b a). Qed.

Lemma not_greater_total : Total not_greater.
Proof.
  intros a b. unfold not_greater, f64_gt.
  destruct (SFcompare a b) as [[]|] eqn:E; [by left|by left| |by left]. right.
  destruct a as [s|s| |s m e], b as [s'|s'| |s' m' e']; try done; simpl in *.
  all: repeat match goal with b : bool |- _ => destruct b end; simpl in *; try done.
  all: rewrite (Z.compare_antisym e e'); destruct (e ?= e'); simpl in *; try done.
  all: rewrite (pos_compare_antisym m' m);
    destruct (PosDef.Pos.compare_cont Eq m m'); simpl in *; done.
Qed.

(** A positive float ranks by exponent, then mantissa; infinity last. *)
Lemma not_greater_trans a b c :
  positive a -> positive b -> positive c ->
  not_greater a b -> not_greater b c -> not_greater a c.
Proof.
  unfold positive, not_greater, f64_gt.
  destruct a as [s|s| |s m e], b as [s'|s'| |s' m' e'], c as [s2|s2| |s2 m2 e2]; try done;
    repeat match goal with b : bool |- _ => destruct b end; simpl; try done.
  intros _ _ _.
  change (PosDef.Pos.compare_cont Eq) with Pos.compare.
  destruct (Z.compare_spec e e'), (Z.compare_spec e' e2), (Z.compare_spec e e2); try done; try lia;
    intros Hab Hbc;
    destruct (Pos.compare_spec m m'), (Pos.compare_spec m' m2), (Pos.compare_spec m m2);
    subst; try done; lia.
Qed.

Lemma sorted_on {A} (R : relation A) (P : A -> Prop) l :
  (forall x y z, P x -> P y -> P z -> R x y -> R y z -> R x z) ->
  Forall P l -> Sorted R l -> StronglySorted R l.
Proof.
  intros Ht HP Hs. induction Hs as [|x l Hs IH Hx]; [constructor|].
  apply Forall_cons in HP as [Hpx HP]. specialize (IH HP). constructor; [done|].
  destruct Hx as [|y l Hxy]; [constructor|]. apply Forall_cons in HP as [Hpy HP].
  apply StronglySorted_inv in IH as [_ Hy]. constructor; [done|].
  rewrite Forall_forall in Hy, HP |- *. intros z Hz.
  apply (Ht x y z); auto.
Qed.

Lemma deltas_positive rows : Forall positive (interval_deltas rows).
Proof.
  induction rows as [|r [|r' rows] IH]; simpl; [constructor..|].
  destruct (f64_gt _ _) eqn:E; [by constructor|done].
Qed.

Lemma deltas_length rows : (length (interval_deltas rows) <= length rows - 1)%nat.
Proof.
  induction rows as [|r [|r' rows] IH]; simpl; [lia..|].
  simpl in IH. destruct (f64_gt _ _); simpl; lia.
Qed.

(** Elements at or below a position of a sorted list. *)
Lemma sorted_below {A} (R : relation A) (y0 : A) `{!forall x, Decision (R x y0)} l i :
  StronglySorted R l -> R y0 y0 -> l !! i = Some y0 ->
  (S i <= length (filter (fun x => R x y0) l))%nat.
Proof.
  intros Hs Hr. revert i. induction Hs as [|x l Hs IH Hx]; intros i; [done|].
  rewrite filter_cons. destruct i as [|i]; simpl.
  - intros [= ->]. rewrite decide_True by done. simpl. lia.
  - intros Hi. specialize (IH i Hi). rewrite decide_True; [simpl; lia|].
    rewrite Forall_forall in Hx. apply Hx. by eapply list_elem_of_lookup_2.
Qed.

Section EtaSpec.
Context `{Rfc3339} `{Calendar} `{CalendarEnd}.

Lemma sort_deltas_perm l : sort_deltas l ≡ₚ l.
Proof. apply merge_sort_Permutation. Qed.

Lemma sort_deltas_sorted l : Forall positive l -> StronglySorted not_greater (sort_deltas l).
Proof.
  intros Hp. apply (sorted_on _ positive).
  - intros x y z. apply not_greater_trans.
  - by rewrite sort_deltas_perm.
  - pose proof not_greater_total. by apply Sorted_merge_sort.
Qed.

Lemma not_greater_refl x : not_greater x x.
Proof. by destruct (not_greater_total x x). Qed.

(** The chosen delta is one of the sample, and at least 95 of 100 are not above it. *)
Lemma p95_delta deltas :
  Forall positive deltas -> deltas <> [] -> (length deltas <= 99)%nat ->
  let len := Z.of_nat (length deltas) in
  exists p, index (sort_deltas deltas) (Z.min (p95_index len) (len - 1)) = Done p /\
    p ∈ deltas /\
    95 * len <= 100 * Z.of_nat (length (filter (fun x => not_greater x p) deltas)).
Proof.
  intros Hp Hne Hlen len.
  assert (1 <= len <= 99) as Hl by (destruct deltas; [done|simpl in *; lia]).
  rewrite (p95_index_exact len Hl).
  assert (0 <= (95 * len + 99) / 100 - 1 <= len - 1) as Hi.
  { pose proof (Z.div_mod (95 * len + 99) 100 ltac:(lia)).
    pose proof (Z.mod_pos_bound (95 * len + 99) 100 ltac:(lia)). lia. }
  rewrite Z.min_l by lia. unfold index.
  pose proof (Permutation_length (sort_deltas_perm deltas)) as Hsl.
  destruct (lookup_lt_is_Some_2 (sort_deltas deltas) (Z.to_nat ((95 * len + 99) / 100 - 1)))
    as [p Hlook]; [lia|].
  exists p. rewrite Hlook. split; [done|]. split.
  - rewrite <- sort_deltas_perm. by eapply list_elem_of_lookup_2.
  - pose proof (sorted_below not_greater p _ _ (sort_deltas_sorted _ Hp) (not_greater_refl p) Hlook)
      as Hb.
    rewrite (Permutation_length (filter_Permutation _ _ _ (sort_deltas_perm deltas))) in Hb.
    pose proof (Z.div_mod (95 * len + 99) 100 ltac:(lia)).
    pose proof (Z.mod_pos_bound (95 * len + 99) 100 ltac:(lia)). lia.
Qed.

(** The specification's mean interval, in whole milliseconds. *)
Definition mean_ms (deltas : list f64) : Z :=
  f64_as_i64 (f64_mul (f64_div (f64_sum deltas) (f64_of (Z.of_nat (length deltas)))) (f64_of 1000)).

(** The instant a block is expected at: none without a slot and a positive interval. *)
Definition expected_next (rows : list (Z * Z)) : option Z :=
  match rows, interval_deltas rows with
  | (_, latest) :: _, _ :: _ => Some (latest + mean_ms (interval_deltas rows))
  | _, _ => None
  end.

Definition in_calendar (t : Z) : Prop := min_utc <= t <= max_utc.

Lemma utc_add_calendar t ms :
  match utc_add t ms with
  | Done x => x = t + ms /\ in_calendar (t + ms)
  | Panicked => ~ in_calendar (t + ms)
  end.
Proof.
  unfold utc_add, in_calendar.
  destruct (Z.leb_spec min_utc (t + ms)), (Z.leb_spec (t + ms) max_utc); simpl; lia || (split; lia).
Qed.

(** The handler's answer, by its cases. *)
Lemma eta_cases rows chain_head now :
  (length rows <= 100)%nat ->
  match eta_response rows chain_head now with
  | Panicked => exists x, expected_next rows = Some x /\ ~ in_calendar x
  | Done (Err _) => rows = []
  | Done (Ok r) =>
      match r.(ne_p95_block_interval_secs), r.(ne_expected_next_at), expected_next rows with
      | Some p, Some text, Some x =>
          p ∈ interval_deltas rows /\ 95 * Z.of_nat (length (interval_deltas rows)) <=
            100 * Z.of_nat (length (filter (fun x => not_greater x p) (interval_deltas rows))) /\
          in_calendar x /\ text = rfc3339_millis x
      | None, None, None => interval_deltas rows = []
      | _, _, _ => False
      end
  end.
Proof.
  intros Hlen. pose proof (deltas_positive rows) as Hp. unfold expected_next.
  pose proof (deltas_length rows) as Hl. destruct rows as [|[h ts] rest]; [done|].
  unfold eta_response. revert Hp Hl. generalize (interval_deltas ((h, ts) :: rest)).
  intros deltas Hp Hl. destruct deltas as [|d ds]; [done|].
  destruct (p95_delta (d :: ds)) as (p & Hi & Hin & Hrank); [done|done|simpl in *; lia|].
  unfold predict. rewrite Hi. cbn [mbind outcome_bind]. fold (mean_ms (d :: ds)).
  pose proof (utc_add_calendar ts (mean_ms (d :: ds))) as Hc.
  destruct (utc_add ts _) as [at_|] eqn:Eu; simpl in *; [|by eexists].
  destruct Hc as [-> Hc]. by split_and!.
Qed.

(** C32: The next-block estimate.  For the hundred slots the query returns, no float or
    index can go wrong: the handler panics exactly when the instant it expects the next
    block at (the latest slot's plus the mean interval) is outside chrono's calendar, and
    fails only without slots.  Otherwise that is the instant it reports, the interval
    it reports as the 95th percentile is one of the sample with at least 95 of 100 not
    above it, and both are missing exactly when no interval is positive. *)
Theorem eta_percentile rows chain_head now :
  (length rows <= 100)%nat ->
  let deltas := interval_deltas rows in
  match eta_response rows chain_head now with
  | Panicked => exists x, expected_next rows = Some x /\ ~ in_calendar x
  | Done (Err _) => rows = []
  | Done (Ok r) =>
      match r.(ne_p95_block_interval_secs), r.(ne_expected_next_at), expected_next rows with
      | Some p, Some text, Some x =>
          p ∈ deltas /\ 95 * Z.of_nat (length deltas) <=
            100 * Z.of_nat (length (filter (fun x => not_greater x p) deltas)) /\
          in_calendar x /\ text = rfc3339_millis x
      | None, None, None => deltas = []
      | _, _, _ => False
      end
  end.
Proof. apply eta_cases. Qed.
End EtaSpec.

Module SampleCalendar.
#[export] Instance rfc3339 : Rfc3339 := {| rfc3339_millis := to_string; rfc3339_secs := to_string |}.
(** The range of chrono's [DateTime<Utc>] and of Postgres' [TIMESTAMPTZ], and days printed
    by number. *)
#[export] Instance calendar : Calendar :=
  {| min_utc := -8334601228800000; pg_timestamp t := -210866803200000 <=? t;
     format_day d := to_string (d / DAY_MS) |}.
#[export] Instance calendar_end : CalendarEnd := 8210266876799999.
(** Slots six seconds apart, and one late. *)
Definition rows : list (Z * Z) := [(5, 30000); (4, 20000); (3, 14000); (2, 8000); (1, 2000)].
End SampleCalendar.
Import SampleCalendar.

Lemma eta_percentile_witness :
  match eta_response SampleCalendar.rows (Some 7) 31000 with
  | Done (Ok r) => r.(ne_p95_block_interval_secs) = Some (f64_of 10)
  | _ => False
  end.
Proof.
  pose proof (eta_percentile SampleCalendar.rows (Some 7) 31000) as Hp.
  destruct (eta_response SampleCalendar.rows (Some 7) 31000) as [[r|m]|] eqn:E;
    [|vm_compute in E; discriminate..].
  vm_compute in E. injection E as <-. reflexivity.
Defined.
