(* ===== verification/StatsSpec.v ===== *)
(** * What the statistics guarantee

    The window grammar and the panic behind it; totals bracketed by the tables before and
    after the request; daily series and leaderboards as exact counts; and the faucet's
    daily drips, which count a bot's drip twice. *)

From S2P Require Import Prelude JsonSyntax Json Types Schema Io Db DbFacts History Client Config Drip BotDrip Startup Listing ListingSpec Responses Sql F64 StatsCache Stats Eta Samples.
From Stdlib Require Import DecimalString.
From stdpp Require Import sorting.
Open Scope string_scope.
Open Scope list_scope.
Open Scope Z_scope.
Open Scope io_scope.

(** ** Windows *)

Definition is_digit (c : ascii) : bool :=
  let n := N_of_ascii c in ((48 <=? n) && (n <=? 57))%N.
Definition digits_only (s : string) : Prop := Forall (fun c => is_digit c = true) (list_ascii_of_string s).

Lemma parse_digits_only s n : parse_digits s = Some n -> s <> "" /\ digits_only s.
Proof.
  unfold parse_digits. destruct s as [|c0 s0]; [done|]. set (s := String c0 s0).
  destruct (NilEmpty.uint_of_string s) as [d|] eqn:E; [|done]. intros _. split; [done|].
  revert E. clearbody s. clear c0 s0. revert d. unfold digits_only.
  induction s as [|c s IH]; intros d; simpl; [constructor|].
  destruct (NilEmpty.uint_of_string s) as [d'|] eqn:E; [|by destruct c as [[] [] [] [] [] [] [] []]].
  intros Hc. constructor; [|by eapply IH].
  by destruct c as [[] [] [] [] [] [] [] []].
Qed.

Lemma parse_digits_plus s n : parse_digits s = Some n -> parse_uint u64_max s =
  (if n <=? u64_max then Some n else None).
Proof.
  intros Hs. destruct (parse_digits_only s n Hs) as [_ Hd]. unfold parse_uint.
  destruct s as [|c s]; [done|].
  assert ((match c with "+"%char => s | _ => String c s end) = String c s) as ->.
  { apply Forall_cons in Hd as [Hc _]. by destruct c as [[] [] [] [] [] [] [] []]. }
  by rewrite Hs.
Qed.

Lemma split_digits_app a b c :
  digits_only a -> is_digit c = false -> split_digits (a ++ String c b) = (a, String c b).
Proof.
  intros Ha Hc. induction a as [|x a IH].
  - change ("" ++ String c b)%string with (String c b). unfold is_digit in Hc. simpl.
    by rewrite Hc.
  - apply Forall_cons in Ha as [Hx Ha]. rewrite string_app_cons. simpl. unfold is_digit in Hx.
    rewrite Hx. by rewrite IH.
Qed.

Lemma split_digits_parts s a b : split_digits s = (a, b) -> s = (a ++ b)%string /\ digits_only a.
Proof.
  revert a b. induction s as [|c s IH]; intros a b; simpl.
  - intros [= <- <-]. split; [done|constructor].
  - destruct (_ && _)%N eqn:E.
    + destruct (split_digits s) as [a' b'] eqn:Es. intros [= <- <-].
      destruct (IH a' b' eq_refl) as [-> Ha]. split; [done|]. by constructor.
    + intros [= <- <-]. split; [done|constructor].
Qed.

Lemma unit_seconds_shape u k :
  unit_seconds u = Some k -> exists c r, u = String c r /\ is_digit c = false /\ 1 <= k.
Proof.
  unfold unit_seconds. repeat case_match; try done; intros [= <-];
    match goal with Hu : (u =? ?x)%string = true |- _ => apply String.eqb_eq in Hu; subst u end;
    by eexists _, _.
Qed.

Lemma unit_seconds_table u k :
  unit_seconds u = Some k <-> (u, k) ∈ [("s", 1); ("m", 60); ("h", 3600); ("d", 86400)].
Proof.
  unfold unit_seconds. split.
  - repeat case_match; try done; intros [= <-];
      match goal with Hu : (u =? _)%string = true |- _ => apply String.eqb_eq in Hu; subst u end;
      set_solver.
  - intros Hin. repeat (apply elem_of_cons in Hin as [[= -> ->]|Hin]; [done|]).
    by apply not_elem_of_nil in Hin.
Qed.

(** The window grammar.  A window is accepted exactly when it is a run of decimal digits
    followed by one of the units s, m, h and d, and it denotes that many seconds; a number
    or a product beyond 64 bits is refused. *)
Theorem parse_interval_exact s secs :
  parse_interval s = Ok secs <->
  exists digits unit n k, s = (digits ++ unit)%string /\ parse_digits digits = Some n /\
    (unit, k) ∈ [("s", 1); ("m", 60); ("h", 3600); ("d", 86400)] /\
    n <= u64_max /\ secs = n * k /\ secs <= u64_max.
Proof.
  unfold parse_interval. split.
  - destruct (split_digits s) as [num unit] eqn:Es.
    destruct (split_digits_parts s num unit Es) as [-> Hd].
    destruct (String.eqb_spec unit ""); [done|].
    destruct (parse_uint u64_max num) as [n0|] eqn:En; [|done].
    destruct (unit_seconds unit) as [k|] eqn:Ek; [|done].
    unfold checked_mul. destruct (Z.leb_spec (n0 * k) u64_max); [|done]. intros [= <-].
    destruct (parse_digits num) as [n1|] eqn:Ep.
    + rewrite (parse_digits_plus num n1 Ep) in En.
      destruct (Z.leb_spec n1 u64_max); [|done]. injection En as ->.
      exists num, unit, n0, k. by rewrite <- unit_seconds_table.
    + exfalso. revert En Ep Hd. unfold parse_uint. destruct num as [|c r]; [done|].
      intros En Ep Hd. apply Forall_cons in Hd as [Hc _].
      assert ((match c with "+"%char => r | _ => String c r end) = String c r) as Hm
        by (by destruct c as [[] [] [] [] [] [] [] []]).
      rewrite Hm, Ep in En. done.
  - intros (digits & unit & n & k & -> & Hd & Hk%unit_seconds_table & Hn & -> & Hle).
    destruct (unit_seconds_shape unit k Hk) as (c & r & -> & Hc & _).
    destruct (parse_digits_only digits n Hd) as [_ Hdd].
    rewrite split_digits_app by done. simpl.
    rewrite (parse_digits_plus digits n Hd), Hk.
    destruct (Z.leb_spec n u64_max); [|lia]. unfold checked_mul.
    destruct (Z.leb_spec (n * k) u64_max); [done|lia].
Qed.

Section StatsSpec.
Context `{JsonText} `{P : PgText} `{PL : !PgTextLaws P} `{Rfc3339} `{Calendar} `{SdkReads}.

(** A window the grammar accepts can panic the handler.  On a database that answers,
    the active-addresses computation panics exactly when the window reaches behind the
    calendar's first instant while still fitting chrono's duration. *)
Theorem active_addresses_panics label secs e w :
  (compute_active_addresses label secs e w).1 = Panicked <->
  secs * 1000 <= i64_max /\ e.(env_now) w.(w_tick) - secs * 1000 < min_utc.
Proof.
  unfold compute_active_addresses, mbind, io_bind, io_now. unfold duration_from_std.
  destruct (Z.leb_spec (secs * 1000) i64_max) as [Hle|Hgt]; [|split; [done|lia]].
  unfold lift, utc_sub.
  destruct (Z.leb_spec min_utc (env_now e (w_tick w) - secs * 1000)) as [Hm|Hm]; [|by split].
  split; [|lia]. intros Hp. exfalso. revert Hp. unfold try, mbind, io_bind, read_since.
  destruct (pg_timestamp _); [unfold read, mbind, io_bind, query|done].
  unfold exec. destruct (env_fault _ _); done.
Qed.

(** ** Totals *)

Lemma try_ok_inv {E A B'} (m : IO (result E A)) (k : A -> IO (result E B')) e w b w' :
  try m k e w = (Done (Ok b), w') ->
  exists a w1, m e w = (Done (Ok a), w1) /\ k a e w1 = (Done (Ok b), w').
Proof.
  unfold try, mbind, io_bind. destruct (m e w) as [[[a|err]|] w1]; [|done|done].
  intros Hk. by exists a, w1.
Qed.

(** A query that answers reads a state between the one before it and the one after. *)
Lemma read_ok_inv {A} ctx (f : DB -> A) R `{!PreOrder R} e w a w' :
  rely R e -> read ctx f e w = (Done (Ok a), w') ->
  a = f w'.(w_db) /\ R w.(w_db) w'.(w_db).
Proof.
  intros He. unfold read, mbind, io_bind, query, exec.
  pose proof (He (w_tick w) (w_db w)) as Ho.
  destruct (env_fault e (w_tick w)); simpl; intros [= <- <-]; done.
Qed.

Lemma table_grows {K V} `{Countable K} (rel : relation V) (t t' : gmap K V) :
  table_rel rel t t' -> count t <= count t'.
Proof.
  intros Hr. unfold count. apply inj_le. rewrite <- !size_dom. apply subseteq_size.
  intros k. rewrite !elem_of_dom. intros [v Hv]. destruct (Hr k v Hv) as (v' & Hv' & _). eauto.
Qed.

Lemma supply_world signer e w :
  exists r w', query_total_supply signer e w = (Done r, w') /\ w'.(w_db) = w.(w_db).
Proof. unfold query_total_supply, at_tick, mbind, io_bind. by eexists _, _. Qed.

Lemma balance_world signer addr e w :
  exists r w', query_balance_for signer addr e w = (Done r, w') /\ w'.(w_db) = w.(w_db).
Proof. unfold query_balance_for, at_tick, mbind, io_bind. by eexists _, _. Qed.

(** A count taken at a moment between [d] and [d'] is bracketed by theirs. *)
Lemma count_grows d d' :
  history d d' ->
  count d.(slots) <= count d'.(slots) /\
  count d.(transactions) <= count d'.(transactions) /\
  count d.(address_summaries) <= count d'.(address_summaries) /\
  count d.(schemas) <= count d'.(schemas) /\
  count d.(attestor_sets) <= count d'.(attestor_sets) /\
  count d.(attestations) <= count d'.(attestations).
Proof. intros []. split_and!; by eapply table_grows. Qed.

Lemma committed_among d : 0 <= count_committed d <= count d.(transactions).
Proof.
  unfold count_committed, count. split; [lia|]. apply inj_le, map_size_filter.
Qed.

(** What each count of the response may be, with the tables before and after. *)
Definition bracketed (f : DB -> Z) (d d' : DB) (x : Z) : Prop := f d <= x <= f d'.

(** Totals under concurrent ingest.  Every count of the totals response lies between
    the size of its table before the request and the size after it, whatever the indexer
    stores between the eight queries; but the counts are not one snapshot. *)
Theorem totals_bracketed signer treasury e w r w' :
  rely history e -> compute_totals signer treasury e w = (Done (Ok r), w') ->
  let d := w.(w_db) in let d' := w'.(w_db) in
  bracketed (fun d => count d.(slots)) d d' r.(to_blocks) /\
  bracketed (fun d => count d.(transactions)) d d' r.(to_txs_total) /\
  0 <= r.(to_txs_committed) <= count d'.(transactions) /\
  bracketed (fun d => count d.(address_summaries)) d d' r.(to_addresses) /\
  bracketed (fun d => count d.(schemas)) d d' r.(to_schemas) /\
  bracketed (fun d => count d.(attestor_sets)) d d' r.(to_attestor_sets) /\
  bracketed (fun d => count d.(attestations)) d d' r.(to_attestations).
Proof.
  intros He Hrun. unfold compute_totals in Hrun.
  do 8 (apply try_ok_inv in Hrun as (? & ? & Hr & Hrun);
        apply (read_ok_inv _ _ history) in Hr as [-> ?]; [|done]).
  match type of Hrun with (_ ≫= _) e ?w8 = _ =>
    destruct (supply_world signer e w8) as (sup & w9 & Hsup & Hw9) end.
  rewrite (io_bind_done _ _ _ _ _ _ Hsup) in Hrun.
  destruct treasury as [addr|];
    [destruct (balance_world signer addr e w9) as ([b|b] & w10 & Hb & Hw10);
     rewrite <- Hw10 in Hw9; clear Hw10|];
    unfold mbind, io_bind, mret, io_ret in Hrun; try rewrite Hb in Hrun;
    injection Hrun as <- <-; cbv beta zeta iota delta [bracketed to_blocks to_txs_total
      to_txs_committed to_addresses to_schemas to_attestor_sets to_attestations]; rewrite Hw9;
    repeat match goal with Hh : history _ _ |- _ => apply count_grows in Hh end;
    match goal with |- context [count_committed ?d] => pose proof (committed_among d) end;
    lia.
Qed.

(** ** Daily series *)

Definition per_day (day : Z) (times : list Z) : Z := count_of day (date_trunc_day <$> times).

Lemma lookup_group_count k n keys :
  (k, n) ∈ group_count (K := Z) keys <-> n = count_of k keys /\ 0 < n.
Proof.
  rewrite elem_of_group_count, count_of_pos. split; [intros [? ->]|intros [-> ?]]; done.
Qed.

Lemma day_rows since times day n :
  (day, n) ∈ daily_counts since times <->
  n = per_day day (filter (fun t => since <= t) times) /\ 0 < n.
Proof. unfold daily_counts. by rewrite elem_of_order_by, lookup_group_count. Qed.


(** ** Leaderboards *)

(** The board of the [n] best under a score: in order of score, then of name; only
    positive scores; and who is missing scores less, or as much with a later name, than
    all [n] on it. *)
Definition exact_board (n : Z) (score : string -> Z) (board : list (string * Z)) : Prop :=
  StronglySorted (fun r r' => larger_first (r.2, r.1) (r'.2, r'.1)) board /\ Z.of_nat (length board) <= n /\
  (forall a c, (a, c) ∈ board -> c = score a /\ 0 < c) /\
  (forall a, 0 < score a -> (a, score a) ∉ board ->
     Z.of_nat (length board) = n /\ forall r, r ∈ board -> larger_first (r.2, r.1) (score a, a)).

Lemma top_exact n score rows :
  0 <= n -> NoDup rows.*1 ->
  (forall a c, (a, c) ∈ rows <-> c = score a /\ 0 < c) -> exact_board n score (Stats.top n rows).
Proof.
  intros Hn Hnd Hrows. destruct (top_rows rank_key by_count n rows) as (Hs & Hl & Hin & Hout).
  - eapply (NoDup_fmap_1 snd). rewrite <- list_fmap_compose. exact Hnd.
  - done.
  - unfold Stats.top. split_and!; [done|done| |].
    + intros a c Hac. by apply Hrows, Hin.
    + intros a Ha Hnot. by apply (Hout (a, score a)); [apply Hrows|].
Qed.

Lemma filter_keys {A K} (f : A -> K) (Q : A -> Prop) `{!forall x, Decision (Q x)} l :
  NoDup (f <$> l) -> NoDup (f <$> filter Q l).
Proof.
  induction l as [|x l IH]; [done|]. rewrite fmap_cons. intros [Hx Hl]%NoDup_cons.
  rewrite filter_cons. destruct (decide (Q x)); [|by apply IH].
  rewrite fmap_cons. constructor; [|by apply IH]. intros Hin. apply Hx.
  apply list_elem_of_fmap in Hin as (y & Hy & [_ Hin]%list_elem_of_filter).
  rewrite Hy. by apply list_elem_of_fmap_2.
Qed.

Lemma filter_size {K V} `{Countable K} (Q : K * V -> Prop) `{!forall x, Decision (Q x)}
    (m : gmap K V) : length (filter Q (map_to_list m)) = size (filter Q m).
Proof.
  rewrite map_filter_alt, map_size_list_to_map; [done|].
  by apply filter_keys, NoDup_fst_map_to_list.
Qed.

(** A board of groups: the score is the number of rows in the group. *)
Lemma group_board {V} n (f : string * V -> string) (t : gmap string V) :
  0 <= n ->
  exact_board n (fun a => count (filter (fun kr => f kr = a) t))
    (Stats.top n (group_count (f <$> map_to_list t))).
Proof.
  intros Hn. apply top_exact; [done|apply group_count_nodup|].
  intros a c. rewrite elem_of_group_count, count_of_pos, count_of_fmap, filter_size.
  unfold count. split; [intros [? ->]|intros [-> ?]]; done.
Qed.

(** C28: The three leaderboards.  Attesters are ranked by the attestations they submitted,
    owners by the schemas they registered, attestor sets by the schemas that point at
    them; ties go to the smaller text; nobody without a point is on a board, and nobody
    better than the last of a full board is missing. *)
Theorem leaderboards_exact n d :
  0 <= n ->
  exact_board n (fun a => count (filter (fun kr => kr.2.(at_submitter) = a) d.(attestations)))
    (top_attesters_rows n d) /\
  exact_board n (fun a => count (filter (fun kr => kr.2.(sc_owner) = a) d.(schemas)))
    (top_schema_owners_rows n d) /\
  exact_board n (fun s => default 0 (as_schema_count <$> d.(attestor_sets) !! s))
    (top_attestor_sets_rows n d).
Proof.
  intros Hn. split; [by apply group_board|]. split; [by apply group_board|].
  unfold top_attestor_sets_rows. apply top_exact; [done| |].
  - apply filter_keys. rewrite <- list_fmap_compose. apply NoDup_fst_map_to_list.
  - intros s c. rewrite list_elem_of_filter, list_elem_of_fmap. simpl. split.
    + intros [Hc ([s' row] & [= -> ->] & Hin)]. apply elem_of_map_to_list in Hin.
      by rewrite Hin.
    + intros [-> Hc]. split; [done|].
      destruct (d.(attestor_sets) !! s) as [row|] eqn:E; simpl in *; [|done].
      exists (s, row). split; [done|]. by apply elem_of_map_to_list.
Qed.

(** ** The faucet's daily drips *)

(** Different days print differently. *)
Definition days_print_apart : Prop :=
  forall a b, a `mod` DAY_MS = 0 -> b `mod` DAY_MS = 0 -> format_day a = format_day b -> a = b.
Hypothesis days_apart : days_print_apart.

Definition day_start (day : Z) : Prop := day `mod` DAY_MS = 0.

Lemma date_trunc_start t : day_start (date_trunc_day t).
Proof. unfold day_start, date_trunc_day. by rewrite Z_mod_mult. Qed.

(** One of the two passes over the day rows: [set] writes the row's count. *)
Lemma fold_days (set : Z * Z -> Z -> Z * Z) rows (by_day : gmap string (Z * Z)) day :
  day_start day -> Forall (fun r => day_start r.1) rows -> NoDup rows.*1 ->
  fold_left (fun m r => <[format_day r.1 := set (default (0, 0) (m !! format_day r.1)) r.2]> m)
    rows by_day !! format_day day =
  match list_find (fun r : Z * Z => r.1 = day) rows with
  | Some (_, r) => Some (set (default (0, 0) (by_day !! format_day day)) r.2)
  | None => by_day !! format_day day
  end.
Proof.
  intros Hday. revert by_day. induction rows as [|[k n] rows IH]; intros by_day; [done|].
  intros [Hk Hrows]%Forall_cons [Hn Hnd]%NoDup_cons. simpl in *. rewrite IH by done.
  destruct (decide (k = day)) as [->|Hne].
  - assert (list_find (fun r : Z * Z => r.1 = day) rows = None) as ->.
    { apply list_find_None, Forall_forall. intros [k' n'] Hin Hk'. simpl in *. subst.
      apply Hn. apply list_elem_of_fmap. by exists (day, n'). }
    by rewrite lookup_insert_eq.
  - rewrite lookup_insert_ne by (intros He; apply Hne; by apply days_apart).
    destruct (list_find _ rows) as [[i r]|]; done.
Qed.

Lemma find_day since times day :
  match list_find (fun r : Z * Z => r.1 = day) (daily_counts since times) with
  | Some (_, r) => r.2 = per_day day (filter (fun t => since <= t) times) /\ 0 < r.2
  | None => per_day day (filter (fun t => since <= t) times) = 0
  end.
Proof.
  destruct (list_find _ _) as [[i [k n]]|] eqn:E.
  - apply list_find_Some in E as (Hl & Hk & _). simpl in *. subst k.
    apply day_rows. by eapply list_elem_of_lookup_2.
  - apply list_find_None in E. rewrite Forall_forall in E.
    set (c := per_day day _). assert (0 <= c) by (unfold c, per_day, count_of; lia).
    destruct (decide (0 < c)) as [Hc|]; [|lia]. exfalso.
    apply (E (day, c)); [|done]. by apply day_rows.
Qed.

Lemma daily_counts_shape since times :
  Forall (fun r => day_start r.1) (daily_counts since times) /\ NoDup (daily_counts since times).*1.
Proof.
  unfold daily_counts. split.
  - apply Forall_forall. intros [k n] Hin. rewrite elem_of_order_by, elem_of_group_count in Hin.
    destruct Hin as [Hk _]. apply list_elem_of_fmap in Hk as (t & -> & _). apply date_trunc_start.
  - rewrite (fmap_Permutation fst _ _ (order_by_perm _ _ _)). apply group_count_nodup.
Qed.

Lemma per_day_inside since times day :
  per_day day (filter (fun t => since <= t) times) =
  Z.of_nat (length (filter (fun t => date_trunc_day t = day) (filter (fun t => since <= t) times))).
Proof. apply count_of_fmap. Qed.

Lemma merged_day since web bot day :
  day_start day ->
  let of_day times := per_day day (filter (fun t => since <= t) times) in
  merge_days (daily_counts since web) (daily_counts since bot) !! format_day day =
  if decide (of_day web = 0 /\ of_day bot = 0) then None else Some (of_day web, of_day bot).
Proof.
  intros Hday of_day. unfold merge_days, add_bot, add_web.
  destruct (daily_counts_shape since web) as [Hw Hwn].
  destruct (daily_counts_shape since bot) as [Hb Hbn].
  rewrite (fold_days (fun old n => (old.1, n))) by done.
  rewrite (fold_days (fun old n => (n, old.2))) by done. rewrite lookup_empty.
  pose proof (find_day since web day) as Fw. pose proof (find_day since bot day) as Fb.
  fold (of_day web) in Fw. fold (of_day bot) in Fb.
  destruct (list_find _ (daily_counts since web)) as [[i rw]|];
    destruct (list_find _ (daily_counts since bot)) as [[j rb]|]; simpl;
    case_decide; try lia; try done; do 2 f_equal; try done; lia.
Qed.

(** The daily drips.  A day is in the series exactly when the faucet's address sent a
    transfer or the bot dripped on it inside the window; [web] is the exact number of
    transfers and [bot] the exact number of bot drips, a source that is silent on the day
    counting zero. *)
Theorem drips_daily_exact since web bot day :
  day `mod` DAY_MS = 0 ->
  let of_day times :=
    Z.of_nat (length (filter (fun t => date_trunc_day t = day) (filter (fun t => since <= t) times))) in
  merge_days (daily_counts since web) (daily_counts since bot) !! format_day day =
  if decide (of_day web = 0 /\ of_day bot = 0) then None else Some (of_day web, of_day bot).
Proof.
  intros Hday of_day. rewrite merged_day by done. by rewrite !per_day_inside.
Qed.

(** A bot drip is a transfer from the faucet's address, so it is counted on both
    sides: when the transfers of a window are the bot's and others, day by day, the total
    of a day is twice its bot drips and the others. *)
Theorem drips_daily_counts_bot_twice since web bot others day w b :
  date_trunc_day <$> filter (fun t => since <= t) web ≡ₚ
    (date_trunc_day <$> filter (fun t => since <= t) bot) ++ others ->
  day `mod` DAY_MS = 0 ->
  merge_days (daily_counts since web) (daily_counts since bot) !! format_day day = Some (w, b) ->
  w + b = 2 * b + count_of day others.
Proof.
  intros Hweb Hday. rewrite merged_day by done. case_decide; [done|]. intros [= <- <-].
  unfold per_day. rewrite (count_of_perm _ _ _ Hweb). unfold count_of.
  rewrite filter_app, length_app. lia.
Qed.
End StatsSpec.

(** ** Witnesses *)
Import SampleSdk SampleCalendar.

Lemma calendar_days_apart : days_print_apart.
Proof.
  intros a b Ha Hb. unfold format_day, calendar. intros He.
  apply (f_equal parse_signed) in He. rewrite !parse_signed_to_string in He.
  injection He as He. pose proof (Z.div_mod a DAY_MS ltac:(done)).
  pose proof (Z.div_mod b DAY_MS ltac:(done)). lia.
Qed.

Section StatsWitnesses.
#[local] Existing Instances SampleText.text SampleText.text_laws Rfc8259.json.

Definition stats_signer : Signer :=
  {| private_key := [] : list Z; submitter_url := "u"; sg_chain_hash := []; sg_chain_id := 1;
     avow_token_id := [] : list Z; sg_nonce := 0 |}.
Definition stats_world : World := sample_world (sample_db "pending" None).

Lemma totals_bracketed_witness :
  match compute_totals stats_signer (Some "lig1treasury") sample_env stats_world with
  | (Done (Ok r), _) =>
      r.(to_blocks) = 1 /\ r.(to_schemas) = 1 /\ r.(to_attestations) = 0 /\
      r.(to_treasury_balance_nano) = Some "10000000000000"
  | _ => False
  end.
Proof.
  destruct (compute_totals stats_signer (Some "lig1treasury") sample_env stats_world)
    as [[[r|m]|] w'] eqn:E; [|vm_compute in E; discriminate..].
  destruct (totals_bracketed stats_signer (Some "lig1treasury") sample_env stats_world r w')
    as (Hb & _ & _ & _ & Hs & _ & Ha); [intros t d; reflexivity|exact E|].
  assert (w_db w' = sample_db "pending" None) as Hw
    by (vm_compute in E; injection E as _ <-; reflexivity).
  rewrite Hw in Hb, Hs, Ha. unfold bracketed in Hb, Hs, Ha. vm_compute in Hb, Hs, Ha.
  vm_compute in E. injection E as <- _. split_and!; reflexivity.
Defined.

Lemma leaderboards_exact_witness :
  top_schema_owners_rows 10 (sample_db "pending" None) = [("lig1owner", 1)] /\
  exact_board 10 (fun a => count (filter (fun kr => kr.2.(sc_owner) = a)
    (sample_db "pending" None).(schemas))) [("lig1owner", 1)].
Proof.
  assert (top_schema_owners_rows 10 (sample_db "pending" None) = [("lig1owner", 1)]) as He
    by (vm_compute; reflexivity).
  split; [exact He|]. rewrite <- He.
  destruct (leaderboards_exact 10 (sample_db "pending" None)) as (_ & Ho & _); [lia|].
  exact Ho.
Defined.

(** One web transfer and one bot drip, which is also a transfer, on day zero. *)
Lemma drips_daily_exact_witness :
  merge_days (daily_counts 0 [5; 7]) (daily_counts 0 [7]) !! "0" = Some (2, 1).
Proof.
  change "0" with (format_day 0).
  rewrite (drips_daily_exact calendar_days_apart 0 [5; 7] [7] 0) by reflexivity.
  vm_compute. reflexivity.
Defined.

Lemma drips_daily_counts_bot_twice_witness : 2 + 1 = 2 * 1 + count_of 0 [0].
Proof.
  apply (drips_daily_counts_bot_twice calendar_days_apart 0 [5; 7] [7] [0] 0 2 1).
  - vm_compute. reflexivity.
  - reflexivity.
  - change (format_day 0) with "0". vm_compute. reflexivity.
Defined.

(** Two requests for one key: the first computes, the second is served its body. *)
Definition two_requests : gmap nat Request :=
  let r := {| rq_key := "totals"; rq_ttl := DEFAULT_TTL; rq_max_age := 10; rq_place := Asked |} in
  {[ 0%nat := r; 1%nat := r ]}.
Definition first_computes : list Event :=
  [(0%nat, 0, Err ""); (0%nat, 10, Ok (JString "totals"))].

Lemma served_is_recent_witness :
  exists t0, ("totals", t0, Rfc8259.write (JString "totals")) ∈ (run_events (start two_requests) first_computes).(sy_computed) /\
    20 - t0 < DEFAULT_TTL.
Proof.
  destruct (served_is_recent two_requests first_computes 1 20 (Err "")
    {| rq_key := "totals"; rq_ttl := DEFAULT_TTL; rq_max_age := 10; rq_place := Asked |}
    ltac:(apply map_Forall_insert_2; [reflexivity|by apply map_Forall_singleton])
    ltac:(vm_compute; reflexivity)
    (cached_json_response (Rfc8259.write (JString "totals")) 10) ltac:(vm_compute; reflexivity))
    as [(_ & t0 & Ht & Hlt & _)|[[Hp _]|Hp]]; [|discriminate Hp..].
  exists t0. split; [exact Ht|exact Hlt].
Defined.

(** The grammar accepts a window of a hundred million days, and it panics the handler. *)
Example long_window_panics :
  match parse_interval "100000000d" with
  | Ok secs => (compute_active_addresses "100000000d" secs sample_env stats_world).1 = Panicked
  | Err _ => False
  end.
Proof. vm_compute. reflexivity. Qed.
End StatsWitnesses.
