(* ===== verification/StatsApi.v ===== *)
(** * The statistics endpoints ([crates/api/src/stats.rs], [main.rs])

    The twelve handlers: the cache key each request is filed under, how long an entry
    serves, the [max-age] of the reply, and the computation behind a miss.  The theorem
    is that the keys never mix requests up. *)

From S2P Require Import Prelude JsonSyntax Json Types Schema Io Client Config Drip BotDrip Startup Listing Responses Sql F64 StatsCache Stats Eta Samples ListingSpec.
From stdpp Require Import sorting.
Open Scope string_scope.
Open Scope list_scope.
Open Scope Z_scope.
Open Scope io_scope.

Section StatsApi.
Context `{JsonText} `{PgText} `{Rfc3339} `{Calendar} `{CalendarEnd} `{PgPercentile} `{Urls} `{SdkReads}.
Context (mono : nat -> Z).

(** What the handlers read of [AppState]: the signer, the treasury's address, the node's
    URL and the faucet's table as it is at a tick. *)
Record StatsState := {
  ss_signer : Signer; ss_treasury : option string; ss_chain_rpc : string;
  ss_bot_drips : nat -> result DbError (list BotDripRow) }.

Definition Handler : Type :=
  StatsCache -> Env -> World -> outcome StatsReply * (StatsCache * World).

Section Handlers.
Context (state : StatsState).

Definition totals_payload : IO (result string Value) :=
  r ←? compute_totals state.(ss_signer) state.(ss_treasury); mret (Ok (ser_TotalsResponse r)).
Definition totals : Handler := serve mono "totals" DEFAULT_TTL TTL_STATS_TOTALS_SECS totals_payload.

(** [format!(..)] of a key with a number. *)
Definition keyed (name : string) (n : Z) : string := (name ++ ":" ++ to_string n)%string.

(** An unreadable window is answered before the cache is looked at. *)
Definition active_addresses (window : option string) : Handler := fun cache e w =>
  let window := default "24h" window in
  match parse_interval window with
  | Err err => (Done (error_response err), (cache, w))
  | Ok interval =>
      serve mono ("active-addresses:" ++ window)%string DEFAULT_TTL TTL_STATS_DEFAULT_SECS
        (compute_active_addresses window interval) cache e w
  end.

Definition new_wallets_daily (days : option Z) : Handler :=
  let days := min_days days 7 in
  serve mono (keyed "new-wallets-daily" days) DEFAULT_TTL TTL_STATS_DEFAULT_SECS
    (compute_new_wallets_daily days).
Definition attestations_daily (days : option Z) : Handler :=
  let days := min_days days 30 in
  serve mono (keyed "attestations-daily" days) DEFAULT_TTL TTL_STATS_DEFAULT_SECS
    (compute_attestations_daily days).
Definition tx_rate_daily (days : option Z) : Handler :=
  let days := min_days days 7 in
  serve mono (keyed "tx-rate-daily" days) DEFAULT_TTL TTL_STATS_DEFAULT_SECS
    (compute_tx_rate_daily days).

Definition finality : Handler :=
  serve mono "finality" DEFAULT_TTL TTL_STATS_DEFAULT_SECS finality_payload.
Definition next_block_eta : Handler :=
  serve mono "next-block-eta" TTL_NEXT_BLOCK_ETA TTL_STATS_NEXT_BLOCK_ETA_SECS
    (next_block_eta_payload state.(ss_chain_rpc)).

Definition top_holders (n : option Z) : Handler :=
  let n := clamp_n n in
  serve mono (keyed "top-holders" n) DEFAULT_TTL TTL_STATS_DEFAULT_SECS
    (compute_top_holders state.(ss_signer) n).

Definition drips_daily (days : option Z) : Handler :=
  let days := min_days days 30 in
  let faucet_addr := signer_address state.(ss_signer) in
  serve mono (keyed ("drips-daily:" ++ faucet_addr)%string days) DEFAULT_TTL
    TTL_STATS_DEFAULT_SECS (compute_drips_daily state.(ss_bot_drips) days faucet_addr).

Definition top_attesters (n : option Z) : Handler :=
  let n := clamp_n n in
  serve mono (keyed "top-attesters" n) DEFAULT_TTL TTL_STATS_DEFAULT_SECS
    (compute_top_attesters n).
Definition top_schema_owners (n : option Z) : Handler :=
  let n := clamp_n n in
  serve mono (keyed "top-schema-owners" n) DEFAULT_TTL TTL_STATS_DEFAULT_SECS
    (compute_top_schema_owners n).
Definition top_attestor_sets (n : option Z) : Handler :=
  let n := clamp_n n in
  serve mono (keyed "top-attestor-sets" n) DEFAULT_TTL TTL_STATS_DEFAULT_SECS
    (compute_top_attestor_sets n).

(** ** The routes *)

Inductive StatsRequest :=
| Totals
| Finality
| NextBlockEta
| ActiveAddresses (window : option string)
| NewWalletsDaily (days : option Z)
| TxRateDaily (days : option Z)
| AttestationsDaily (days : option Z)
| DripsDaily (days : option Z)
| TopHolders (n : option Z)
| TopAttesters (n : option Z)
| TopSchemaOwners (n : option Z)
| TopAttestorSets (n : option Z).

Definition route (r : StatsRequest) : Handler :=
  match r with
  | Totals => totals
  | Finality => finality
  | NextBlockEta => next_block_eta
  | ActiveAddresses window => active_addresses window
  | NewWalletsDaily days => new_wallets_daily days
  | TxRateDaily days => tx_rate_daily days
  | AttestationsDaily days => attestations_daily days
  | DripsDaily days => drips_daily days
  | TopHolders n => top_holders n
  | TopAttesters n => top_attesters n
  | TopSchemaOwners n => top_schema_owners n
  | TopAttestorSets n => top_attestor_sets n
  end.

(** ** What each request asks for

    The specification the handlers are held to: the computation a request stands for,
    and how old its answer may be. *)

Definition asked_for (r : StatsRequest) : IO (result string Value) :=
  match r with
  | Totals => totals_payload
  | Finality => finality_payload
  | NextBlockEta => next_block_eta_payload state.(ss_chain_rpc)
  | ActiveAddresses window =>
      match parse_interval (default "24h" window) with
      | Ok interval => compute_active_addresses (default "24h" window) interval
      | Err err => mret (Err err)
      end
  | NewWalletsDaily days => compute_new_wallets_daily (min_days days 7)
  | TxRateDaily days => compute_tx_rate_daily (min_days days 7)
  | AttestationsDaily days => compute_attestations_daily (min_days days 30)
  | DripsDaily days => compute_drips_daily state.(ss_bot_drips) (min_days days 30)
                         (signer_address state.(ss_signer))
  | TopHolders n => compute_top_holders state.(ss_signer) (clamp_n n)
  | TopAttesters n => compute_top_attesters (clamp_n n)
  | TopSchemaOwners n => compute_top_schema_owners (clamp_n n)
  | TopAttestorSets n => compute_top_attestor_sets (clamp_n n)
  end.

Definition may_be_old (r : StatsRequest) : Z :=
  match r with NextBlockEta => 5000000000 | _ => 30000000000 end.

Definition max_age_of (r : StatsRequest) : Z :=
  match r with NextBlockEta => 5 | Totals => 10 | _ => 30 end.

(** Query parameters are [u32]. *)
Definition typed_request (r : StatsRequest) : Prop :=
  match r with
  | NewWalletsDaily (Some n) | TxRateDaily (Some n) | AttestationsDaily (Some n)
  | DripsDaily (Some n) | TopHolders (Some n) | TopAttesters (Some n)
  | TopSchemaOwners (Some n) | TopAttestorSets (Some n) => in_u32 n
  | _ => True
  end.

Definition key_of (r : StatsRequest) : string :=
  match r with
  | Totals => "totals"
  | Finality => "finality"
  | NextBlockEta => "next-block-eta"
  | ActiveAddresses window => ("active-addresses:" ++ default "24h" window)%string
  | NewWalletsDaily days => keyed "new-wallets-daily" (min_days days 7)
  | TxRateDaily days => keyed "tx-rate-daily" (min_days days 7)
  | AttestationsDaily days => keyed "attestations-daily" (min_days days 30)
  | DripsDaily days => keyed ("drips-daily:" ++ signer_address state.(ss_signer))%string
                         (min_days days 30)
  | TopHolders n => keyed "top-holders" (clamp_n n)
  | TopAttesters n => keyed "top-attesters" (clamp_n n)
  | TopSchemaOwners n => keyed "top-schema-owners" (clamp_n n)
  | TopAttestorSets n => keyed "top-attestor-sets" (clamp_n n)
  end.

Lemma route_serve r cache e w :
  (exists err, asked_for r = mret (Err err) /\ route r cache e w = (Done (error_response err), (cache, w))) \/
  route r cache e w = serve mono (key_of r) (may_be_old r) (max_age_of r) (asked_for r) cache e w.
Proof.
  destruct r; try (right; reflexivity). simpl. unfold active_addresses.
  destruct (parse_interval (default "24h" window)) as [i|err]; [by right|left; by exists err].
Qed.

Lemma keyed_inj name m n : 0 <= m -> 0 <= n -> keyed name m = keyed name n -> m = n.
Proof.
  intros Hm Hn He%string_app_inj%string_app_inj. apply (f_equal parse_digits) in He.
  rewrite !parse_digits_to_string in He by done. congruence.
Qed.

Lemma keys_apart r r' :
  typed_request r -> typed_request r' -> key_of r = key_of r' -> asked_for r = asked_for r'.
Proof.
  assert (forall o dflt, 0 <= dflt -> match o with Some n => in_u32 n | None => True end ->
    0 <= min_days o dflt) as Hd.
  { unfold min_days, in_u32. intros [n|] dflt ? ?; simpl; lia. }
  assert (forall o, match o with Some n => in_u32 n | None => True end -> 0 <= clamp_n o) as Hn.
  { unfold clamp_n, in_u32. intros [n|] ?; simpl; lia. }
  destruct r, r'; simpl; intros Ht Ht' Hk; try reflexivity;
    try (unfold keyed in Hk; cbv [String.append] in Hk; discriminate Hk);
    try (apply keyed_inj in Hk; [by rewrite Hk|first [apply Hn; exact Ht|apply Hd; [lia|exact Ht]]|
      first [apply Hn; exact Ht'|apply Hd; [lia|exact Ht']]]).
  apply (string_app_inj "active-addresses:") in Hk. by rewrite Hk.
Qed.

(** *** Every answer is an answer to the request *)

(** One request against the cache; the database and the clock are as they are by then. *)
Definition Served : Type := StatsRequest * Env * World.
Definition cache_after (cache : StatsCache) (s : Served) : StatsCache :=
  (route s.1.1 cache s.1.2 s.2).2.1.
Definition caches (served : list Served) : StatsCache := fold_left cache_after served new_cache.

(** An entry was computed by one of the requests, under its key, and stamped when that
    computation ended. *)
Definition honest (served : list Served) (cache : StatsCache) : Prop :=
  forall k stamp body, cache.(inner) !! k = Some (stamp, body) ->
  exists r v e w w', (r, e, w) ∈ served /\ key_of r = k /\ asked_for r e w = (Done (Ok v), w') /\
    body = value_to_string v /\ stamp = mono w'.(w_tick).

Lemma honest_route served r cache e w :
  honest served cache -> honest (served ++ [(r, e, w)]) (route r cache e w).2.1.
Proof.
  intros Hc. assert (honest (served ++ [(r, e, w)]) cache) as Hold.
  { intros k stamp body (r0 & v & e0 & w0 & w1 & Hin & Hrest)%Hc.
    exists r0, v, e0, w0, w1. split; [set_solver|exact Hrest]. }
  destruct (route_serve r cache e w) as [(err & _ & ->)| ->]; [done|].
  unfold serve. destruct (get_fresh _ _ _ _); [done|].
  destruct (asked_for r e w) as [[[v|err]|] w'] eqn:E; simpl; [|done..].
  intros k stamp body. simpl. rewrite lookup_insert. destruct (decide (key_of r = k)) as [<-|]; [|auto].
  intros [= <- <-]. exists r, v, e, w, w'. split; [set_solver|done].
Qed.

Lemma honest_caches served : honest served (caches served).
Proof.
  unfold caches. induction served as [|[[r e] w] served IH] using rev_ind.
  - intros k stamp body. simpl. by rewrite lookup_empty.
  - rewrite fold_left_app. by apply honest_route.
Qed.

(** C20: what a statistics endpoint answers.  After any sequence of requests to the twelve
    endpoints, handled one after another, whatever the tables and the node did in between,
    a body served with status 200 prints a value that the very computation this request
    asks for gave, under the same parameters: in this request, or in an earlier request of
    the sequence that asked for the same and whose computation ended less than five
    seconds ago for the block estimate and thirty for the others.  A request that is not
    answered from the cache runs the computation now, and its failures become a 500 and
    leave the cache alone. *)
Theorem stats_reply_is_own served r e w reply cache' w' :
  Forall (fun s => typed_request s.1.1) served -> typed_request r ->
  route r (caches served) e w = (Done reply, (cache', w')) ->
  (reply.(st_status) = 200 /\ reply.(st_max_age) = Some (max_age_of r) /\
   exists v e0 w0 w1, asked_for r e0 w0 = (Done (Ok v), w1) /\
     reply.(st_body) = value_to_string v /\
     ((e0, w0, w1) = (e, w, w') \/
      exists r0, (r0, e0, w0) ∈ served /\ asked_for r0 = asked_for r /\
        mono w'.(w_tick) - mono w1.(w_tick) < may_be_old r)) \/
  (exists err, asked_for r e w = (Done (Err err), w') /\ reply = error_response err /\
     cache' = caches served).
Proof.
  intros Hs Hr. pose proof (honest_caches served) as Hh. revert Hh.
  generalize (caches served). intros cache Hh.
  destruct (route_serve r cache e w) as [(err & Ha & ->)| ->].
  { intros [= <- <- <-]. right. exists err. by rewrite Ha. }
  unfold serve. destruct (get_fresh _ _ _ _) as [body|] eqn:Ef.
  - intros [= <- <- <-]. left. split_and!; [done..|].
    apply get_fresh_entry in Ef as (stamp & Hk & Hlt).
    destruct (Hh _ _ _ Hk) as (r0 & v & e0 & w0 & w1 & Hin & Hkey & Hrun & -> & ->).
    pose proof (proj1 (Forall_forall _ _) Hs _ Hin) as Ht. simpl in Ht.
    pose proof (keys_apart r0 r Ht Hr Hkey) as Hasked.
    exists v, e0, w0, w1. rewrite <- Hasked. split_and!; [done..|]. right. by exists r0.
  - destruct (asked_for r e w) as [[[v|err]|] w1] eqn:E; simpl; [| |done]; intros [= <- <- <-].
    + left. split_and!; [done..|]. exists v, e, w, w1. split_and!; [done..|by left].
    + right. by exists err.
Qed.
End Handlers.
End StatsApi.

(** ** At concrete inputs *)
Import SampleSdk SampleCalendar.
Module SampleStats.
(** Linear interpolation between the neighbours of the rank, in seconds. *)
#[export] Instance percentile : PgPercentile := fun p l =>
  let sorted := merge_sort Z.le l in
  let n := Z.of_nat (length l) in
  let rank := p * (n - 1) in
  match sorted !! Z.to_nat (rank / 100) with
  | Some a =>
      let b := default a (sorted !! S (Z.to_nat (rank / 100))) in
      Some (f64_div (f64_of (100 * a + rank `mod` 100 * (b - a))) (f64_of 100000))
  | None => None
  end.

Definition state : StatsState :=
  {| ss_signer := {| private_key := [] : list Z; submitter_url := "u"; sg_chain_hash := [];
                     sg_chain_id := 1; avow_token_id := [] : list Z; sg_nonce := 0 |};
     ss_treasury := None; ss_chain_rpc := "http://node/"; ss_bot_drips _ := Ok [] |}.

(** The monotonic clock ticks once a second. *)
Definition mono (t : nat) : Z := Z.of_nat t * 1000000000.
End SampleStats.
Import SampleStats.

Section StatsApiWitness.
#[local] Existing Instances SampleText.text Rfc8259.json Samples.urls.

(** The second request has the default parameter the first one names, and is served the
    first one's answer a second later. *)
Lemma stats_reply_is_own_witness :
  let w := sample_world (sample_db "pending" None) in
  let served := [(TopSchemaOwners (Some 10), sample_env, w)] in
  exists v e0 w0 w1,
    asked_for SampleStats.state (TopSchemaOwners None) e0 w0 = (Done (Ok v), w1) /\
    ((e0, w0, w1) = (sample_env, tick w, tick w) \/
     exists r0, (r0, e0, w0) ∈ served /\
       asked_for SampleStats.state r0 = asked_for SampleStats.state (TopSchemaOwners None) /\
       SampleStats.mono 1 - SampleStats.mono w1.(w_tick) < 30000000000).
Proof.
  intros w served.
  destruct (route SampleStats.mono SampleStats.state (TopSchemaOwners None)
    (caches SampleStats.mono SampleStats.state served) sample_env (tick w))
    as [[reply|] [cache' w']] eqn:E; [|vm_compute in E; discriminate].
  destruct (stats_reply_is_own SampleStats.mono SampleStats.state served (TopSchemaOwners None)
    sample_env (tick w) reply cache' w')
    as [(_ & _ & v & e0 & w0 & w1 & Hrun & _ & Ht)|(err & Herr & _)].
  - apply Forall_singleton. simpl. split; vm_compute; discriminate.
  - exact I.
  - exact E.
  - exists v, e0, w0, w1. split; [exact Hrun|].
    assert (w' = tick w) as -> by (vm_compute in E; injection E as _ _ <-; reflexivity).
    exact Ht.
  - vm_compute in Herr. discriminate Herr.
Defined.
End StatsApiWitness.
