(* ===== verification/Cluster.v ===== *)
(** * The cluster proxy ([crates/api/src/cluster.rs])

    [GET /v1/cluster/nodes]: the node's topology without addresses, a one-word health, and
    a cache of one body for five seconds.  What it guarantees: the health word is exact,
    an outage is answered as one and never cached, and no address leaves. *)

From S2P Require Import Prelude Json JsonSyntax Types Schema Io Client Drip StatsCache Samples.
Open Scope string_scope.
Open Scope list_scope.
Open Scope Z_scope.
Open Scope io_scope.

Definition CACHE_TTL : Z := 5 * 1000000000.
Definition CACHE_CONTROL_MAX_AGE_SECS : Z := 5.
Definition UNKNOWN_CACHE_MAX_AGE_SECS : Z := 10.
Definition HEARTBEAT_FRESHNESS_MS : Z := 2000.

(** ** The public shape *)

Definition public_node (n : ChainClusterNode) : ClusterNode :=
  {| cn_node_id := n.(ccn_node_id); cn_is_leader := n.(ccn_is_leader);
     cn_last_heartbeat_age_ms := n.(ccn_last_heartbeat_age_ms) |}.

Definition transform (chain : ChainClusterTopology) (now_unix_ms : Z) : ClusterTopology :=
  let nodes := public_node <$> chain.(cct_nodes) in
  let cluster_health :=
    match chain.(cct_leader_node_id) with
    | None => Leaderless
    | Some _ =>
        if existsb (fun n => HEARTBEAT_FRESHNESS_MS <? n.(cn_last_heartbeat_age_ms)) nodes
        then Degraded else Healthy
    end in
  {| ct_nodes := nodes; ct_leader_node_id := chain.(cct_leader_node_id);
     ct_leader_acquired_at_epoch_ms := chain.(cct_leader_acquired_at_epoch_ms);
     ct_generated_at_epoch_ms := now_unix_ms; ct_cluster_health := cluster_health |}.

Definition unknown_topology (now_unix_ms : Z) : ClusterTopology :=
  {| ct_nodes := []; ct_leader_node_id := None; ct_leader_acquired_at_epoch_ms := None;
     ct_generated_at_epoch_ms := now_unix_ms; ct_cluster_health := Unreachable |}.

(** ** The handler *)

(** [Option<(Instant, String)>]. *)
Definition ClusterCache : Type := option (Z * string).

Definition get_fresh (cache : ClusterCache) (now : Z) : option string :=
  match cache with
  | Some (stamped_at, body) => if duration_since now stamped_at <? CACHE_TTL then Some body else None
  | None => None
  end.

Definition put (body : string) (now : Z) : ClusterCache := Some (now, body).

Definition cached_json (body : string) (max_age_secs status : Z) : StatsReply :=
  {| st_status := status; st_max_age := Some max_age_secs; st_body := body |}.

(** The milliseconds since the epoch, zero when they are not an [i64]. *)
Definition unix_ms (now : Z) : Z := if (0 <=? now) && (now <=? i64_max) then now else 0.

Section Cluster.
Context `{U : Urls} `{JsonText} (mono : nat -> Z).
Context (chain_rpc : string) (chain_cluster_auth_token : option string).

Definition fetch_and_transform : IO ClusterTopology :=
  now ← io_now;
  let now_unix_ms := unix_ms now in
  match new chain_rpc with
  | Err _ => mret (unknown_topology now_unix_ms)
  | Ok client =>
      t ← cluster_nodes client chain_cluster_auth_token;
      match t with
      | Ok chain_topology => mret (transform chain_topology now_unix_ms)
      | Err _ => mret (unknown_topology now_unix_ms)
      end
  end.

Definition nodes (cache : ClusterCache) (e : Env) (w : World)
  : outcome StatsReply * (ClusterCache * World) :=
  match get_fresh cache (mono w.(w_tick)) with
  | Some cached => (Done (cached_json cached CACHE_CONTROL_MAX_AGE_SECS 200), (cache, w))
  | None =>
      match fetch_and_transform e w with
      | (Done topology, w') =>
          let body := value_to_string (ser_ClusterTopology topology) in
          match topology.(ct_cluster_health) with
          | Unreachable => (Done (cached_json body UNKNOWN_CACHE_MAX_AGE_SECS 503), (cache, w'))
          | Healthy | Degraded | Leaderless =>
              (Done (cached_json body CACHE_CONTROL_MAX_AGE_SECS 200),
               (put body (mono w'.(w_tick)), w'))
          end
      | (Panicked, w') => (Panicked, (cache, w'))
      end
  end.

(** ** The health word *)

(** The health of a reachable cluster: leaderless exactly without a leader, degraded
    exactly when a leader exists and some heartbeat is over two seconds old, healthy
    exactly when a leader exists and none is; never unknown. *)
Theorem cluster_health_exact chain now :
  let health := (transform chain now).(ct_cluster_health) in
  let stale n := 2000 < n.(ccn_last_heartbeat_age_ms) in
  (health = Leaderless <-> chain.(cct_leader_node_id) = None) /\
  (health = Degraded <-> chain.(cct_leader_node_id) <> None /\ Exists stale chain.(cct_nodes)) /\
  (health = Healthy <->
     chain.(cct_leader_node_id) <> None /\ Forall (fun n => ~ stale n) chain.(cct_nodes)) /\
  health <> Unreachable.
Proof.
  intros health stale. unfold health, transform. simpl.
  destruct (cct_leader_node_id chain) as [l|]; [|naive_solver].
  assert (existsb (fun n => HEARTBEAT_FRESHNESS_MS <? cn_last_heartbeat_age_ms n)
    (public_node <$> cct_nodes chain) = true <-> Exists stale (cct_nodes chain)) as Hex.
  { rewrite existsb_exists, Exists_exists. unfold stale. split.
    - intros (n & Hn%list_elem_of_In & Hs%Z.ltb_lt).
      apply list_elem_of_fmap in Hn as (m & -> & Hm). by exists m.
    - intros (m & Hm & Hs). exists (public_node m). split.
      + by apply list_elem_of_In, list_elem_of_fmap_2.
      + by apply Z.ltb_lt. }
  pose proof (Forall_Exists_neg stale (cct_nodes chain)) as Hneg.
  destruct (existsb _ _); naive_solver.
Qed.

(** ** What the node answers *)

(** The topology in the node's reply at a tick: a success status and a body of the shape. *)
Definition answered (e : Env) (t : nat) (u : string) : option ChainClusterTopology :=
  match e.(env_http) t chain_cluster_auth_token u with
  | Reply status body =>
      if (200 <=? status) && (status <? 300)
      then json_parse body ≫= de_ChainClusterTopology else None
  | NoReply => None
  end.

(** The snapshot of a fetch that starts at tick [t]. *)
Definition snapshot (e : Env) (t : nat) : ClusterTopology :=
  let now := unix_ms (e.(env_now) t) in
  match (c ← result_ok (new chain_rpc); u ← url_join c.(base) "v1/cluster/nodes";
         answered e (S t) u) with
  | Some chain => transform chain now
  | None => unknown_topology now
  end.

(** The configured URL, when the client accepts it, can be a base. *)
Definition can_be_asked : Prop :=
  forall c, new chain_rpc = Ok c -> cannot_be_a_base c.(base) = false.

Context `{UL : !UrlsLaws U}.

(** A fetch panics on the URL, whatever the node answers, or gives the snapshot. *)
Lemma fetch_snapshot w :
  (~ can_be_asked /\ exists w', forall e, fetch_and_transform e w = (Panicked, w')) \/
  exists w', w'.(w_db) = w.(w_db) /\
    (forall e, fetch_and_transform e w = (Done (snapshot e w.(w_tick)), w')) /\
    (w'.(w_tick) = S (S w.(w_tick)) \/
     forall e, (snapshot e w.(w_tick)).(ct_cluster_health) = Unreachable).
Proof.
  unfold fetch_and_transform, snapshot, can_be_asked, mbind, io_bind, io_now.
  destruct (new chain_rpc) as [c|err] eqn:En; [|right; exists (tick w); split_and!; eauto].
  simpl. unfold cluster_nodes, mbind, io_bind, lift, url.
  destruct (url_join (base c) "v1/cluster/nodes") as [u|] eqn:Ej; [right|left].
  - exists (tick (tick w)). split; [done|]. split; [|by left]. intros e.
    unfold http_get, answered, from_slice. simpl.
    destruct (env_http e (S (w_tick w)) chain_cluster_auth_token u) as [|status body]; [done|].
    destruct (_ && _); simpl; [|done].
    by destruct (json_parse body ≫= de_ChainClusterTopology).
  - split; [|by eexists]. intros Hc. apply new_parses in En as (s & Hs).
    apply (join_relative s (base c) "v1/cluster/nodes" Hs); [|done..]. by apply Hc.
Qed.

(** ** What clients are told *)

(** The cached body prints the snapshot of a fetch one of the requests made, in which the
    node answered, and is stamped with the tick after the reply. *)
Definition good_cache (requests : list (Env * World)) (cache : ClusterCache) : Prop :=
  match cache with
  | Some (stamp, body) => exists e0 w0, let topology := snapshot e0 w0.(w_tick) in
      (e0, w0) ∈ requests /\ stamp = mono (S (S w0.(w_tick))) /\
      body = value_to_string (ser_ClusterTopology topology) /\
      topology.(ct_cluster_health) <> Unreachable
  | None => True
  end.

Lemma get_fresh_recent cache now body :
  get_fresh cache now = Some body ->
  exists stamp, cache = Some (stamp, body) /\ now - stamp < CACHE_TTL.
Proof.
  unfold get_fresh, duration_since. destruct cache as [[stamp b]|]; [|done].
  destruct (Z.ltb_spec (Z.max 0 (now - stamp)) CACHE_TTL); [|done].
  intros [= ->]. exists stamp. split; [done|lia].
Qed.

(** The cache after a sequence of requests. *)
Definition cache_after (requests : list (Env * World)) : ClusterCache :=
  fold_left (fun cache ew => (nodes cache ew.1 ew.2).2.1) requests None.

Lemma good_nodes requests cache e w :
  good_cache requests cache -> good_cache (requests ++ [(e, w)]) (nodes cache e w).2.1.
Proof.
  intros Hc.
  assert (good_cache (requests ++ [(e, w)]) cache) as Hold.
  { destruct cache as [[stamp body]|]; [|done]. destruct Hc as (e0 & w0 & Hin & Hrest).
    exists e0, w0. split; [set_solver|exact Hrest]. }
  unfold nodes. destruct (get_fresh _ _); [done|].
  destruct (fetch_snapshot w) as [(_ & w' & Hf)|(w' & _ & Hf & Ht)]; rewrite Hf; [done|].
  destruct (ct_cluster_health (snapshot e (w_tick w))) eqn:Eh; simpl; [..|done];
    (destruct Ht as [->|Hu]; [|by rewrite Hu in Eh]);
    exists e, w; rewrite Eh; (split_and!; [set_solver|done..]).
Qed.

Lemma good_after requests : good_cache requests (cache_after requests).
Proof.
  unfold cache_after. induction requests as [|[e w] requests IH] using rev_ind; [done|].
  rewrite fold_left_app. by apply good_nodes.
Qed.

(** C21: what the cluster endpoint answers, after any sequence of requests handled one
    after another, when the configured [CHAIN_RPC] is no URL that cannot be a base (with
    such a one every request panics): it always answers; with status 200 and a max-age of
    five it prints the snapshot of a fetch in which the node answered, made by this
    request or by an earlier one of the sequence, whose reply had come less than five
    seconds before; with 503 and a max-age of ten it prints the unknown topology of its own
    failed fetch, and leaves the cache alone, so that the next request asks the node
    again. *)
Theorem cluster_nodes_answers requests e w :
  can_be_asked ->
  let cache := cache_after requests in
  exists reply cache' w',
  nodes cache e w = (Done reply, (cache', w')) /\ w'.(w_db) = w.(w_db) /\
  ((reply.(st_status) = 200 /\ reply.(st_max_age) = Some 5 /\
    exists e0 w0, let topology := snapshot e0 w0.(w_tick) in
      reply.(st_body) = value_to_string (ser_ClusterTopology topology) /\
      topology.(ct_cluster_health) <> Unreachable /\
      ((e0, w0) = (e, w) \/
       (e0, w0) ∈ requests /\ mono w.(w_tick) - mono (S (S w0.(w_tick))) < 5000000000)) \/
   (reply.(st_status) = 503 /\ reply.(st_max_age) = Some 10 /\ cache' = cache /\
    (snapshot e w.(w_tick)).(ct_cluster_health) = Unreachable /\
    reply.(st_body) = value_to_string (ser_ClusterTopology (snapshot e w.(w_tick))))).
Proof.
  intros Hask cache. pose proof (good_after requests) as Hg. fold cache in Hg. clearbody cache.
  unfold nodes. destruct (get_fresh cache (mono (w_tick w))) as [body|] eqn:Ef.
  - eexists _, _, _. split; [done|]. split; [done|]. left. split_and!; [done..|].
    apply get_fresh_recent in Ef as (stamp & -> & Hlt).
    destruct Hg as (e0 & w0 & Hin & -> & Hb & Hh). exists e0, w0.
    split; [exact Hb|]. split; [exact Hh|]. right. split; [exact Hin|exact Hlt].
  - destruct (fetch_snapshot w) as [[Hno _]|(w' & Hw' & Hf & _)]; [done|]. rewrite Hf.
    destruct (ct_cluster_health (snapshot e (w_tick w))) eqn:Eh;
      (eexists _, _, _; split; [done|]; split; [done|]); [left..|by right];
      (split_and!; [done..|]); exists e, w; rewrite Eh; by split_and!; [..|left].
Qed.

(** ** Addresses *)

(** What the public may know of a topology. *)
Definition public_view (chain : ChainClusterTopology) :=
  ((fun n => (n.(ccn_node_id), n.(ccn_is_leader), n.(ccn_last_heartbeat_age_ms))) <$> chain.(cct_nodes),
   chain.(cct_leader_node_id), chain.(cct_leader_acquired_at_epoch_ms)).

(** Two nodes a client of the api must not be able to tell apart. *)
Definition same_in_public (e e' : Env) : Prop :=
  (forall t, e.(env_now) t = e'.(env_now) t) /\
  forall t u, public_view <$> answered e t u = public_view <$> answered e' t u.

Lemma transform_public chain chain' now :
  public_view chain = public_view chain' -> transform chain now = transform chain' now.
Proof.
  unfold public_view. intros [= Hn Hl Ha].
  assert (public_node <$> cct_nodes chain = public_node <$> cct_nodes chain') as Hp.
  { revert Hn. generalize (cct_nodes chain'). induction (cct_nodes chain) as [|n ns IH];
      intros [|n' ns']; rewrite ?fmap_nil, ?fmap_cons; try done.
    intros Hc. injection Hc as H1 H2 H3 Hr. f_equal; [unfold public_node; congruence|by apply IH]. }
  unfold transform. by rewrite Hl, Ha, Hp.
Qed.

Lemma snapshot_public e e' t : same_in_public e e' -> snapshot e t = snapshot e' t.
Proof.
  intros [Hnow Hans]. unfold snapshot. rewrite (Hnow t).
  destruct (result_ok (new chain_rpc)) as [c|]; [|done]. simpl.
  destruct (url_join (base c) "v1/cluster/nodes") as [u|]; [|done]. simpl.
  specialize (Hans (S t) u). destruct (answered e (S t) u), (answered e' (S t) u);
    try done. apply (inj Some) in Hans. by apply transform_public.
Qed.

(** C22: the private addresses stay private.  Two nodes whose topologies differ only in
    their addresses, and in the time the node itself generated them, get the same reply
    byte for byte and leave the same cache behind. *)
Theorem addresses_stay_private cache e e' w :
  same_in_public e e' ->
  (nodes cache e w).1 = (nodes cache e' w).1 /\ (nodes cache e w).2.1 = (nodes cache e' w).2.1.
Proof.
  intros Hs. unfold nodes. destruct (get_fresh _ _); [done|].
  destruct (fetch_snapshot w) as [(_ & w' & Hf)|(w' & _ & Hf & _)]; rewrite !Hf; [done|].
  rewrite (snapshot_public e e') by done.
  by destruct (ct_cluster_health (snapshot e' (w_tick w))).
Qed.
End Cluster.

(** ** At concrete inputs

    A node that reports a leader and a stale follower, then nothing. *)
Module SampleCluster.
Definition topology (addr : string) : ChainClusterTopology :=
  {| cct_nodes := [ {| ccn_node_id := "n1"; ccn_address := addr; ccn_is_leader := true;
                       ccn_last_heartbeat_age_ms := 30 |};
                    {| ccn_node_id := "n2"; ccn_address := "10.0.0.6"; ccn_is_leader := false;
                       ccn_last_heartbeat_age_ms := 5000 |} ];
     cct_leader_node_id := Some "n1"; cct_leader_acquired_at_epoch_ms := Some 1;
     cct_generated_at_epoch_ms := 2 |}.

#[export] Existing Instance Rfc8259.json.

Definition env (addr : string) : Env :=
  {| env_http t _ _ := if (t <? 5)%nat then
    Reply 200 (value_to_string (ser_ChainClusterTopology (topology addr))) else NoReply; env_now t := Z.of_nat t;
     env_fault _ := NoFault; env_other _ d := d |}.
Definition world (t : nat) : World := {| w_db := empty_db; w_tick := t |}.
Definition mono (t : nat) : Z := Z.of_nat t * 1000000000.
Lemma asked : can_be_asked (U := Samples.urls) "http://node/".
Proof. intros c Hc. injection Hc as <-. reflexivity. Qed.
End SampleCluster.
Import SampleCluster.

Section ClusterWitnesses.
#[local] Existing Instances Samples.urls Samples.urls_laws.

(** Two seconds after the first request's fetch its snapshot is served; long after, when the
    node is down, the reply says so. *)
Lemma cluster_nodes_answers_witness :
  let first := (SampleCluster.env "10.0.0.3", SampleCluster.world 0) in
  let nodes := nodes SampleCluster.mono "http://node/" None
    (cache_after SampleCluster.mono "http://node/" None [first]) in
  (exists reply cw, nodes (SampleCluster.env "10.0.0.3") (SampleCluster.world 4) = (Done reply, cw) /\
     reply.(st_status) = 200) /\
  exists reply cw, nodes (SampleCluster.env "10.0.0.3") (SampleCluster.world 9) = (Done reply, cw) /\
     reply.(st_status) = 503.
Proof.
  intros first nodes. split.
  - destruct (cluster_nodes_answers SampleCluster.mono "http://node/" None [first]
      (SampleCluster.env "10.0.0.3") (SampleCluster.world 4) SampleCluster.asked)
      as (reply & cache' & w' & Hn & _ & [(Hs & _)|(Hs & _)]).
    + exists reply, (cache', w'). split; [exact Hn|exact Hs].
    + vm_compute in Hn. injection Hn as <- _ _. discriminate Hs.
  - destruct (cluster_nodes_answers SampleCluster.mono "http://node/" None [first]
      (SampleCluster.env "10.0.0.3") (SampleCluster.world 9) SampleCluster.asked)
      as (reply & cache' & w' & Hn & _ & [(Hs & _)|(Hs & _)]).
    + vm_compute in Hn. injection Hn as <- _ _. discriminate Hs.
    + exists reply, (cache', w'). split; [exact Hn|exact Hs].
Defined.

Lemma addresses_stay_private_witness :
  (nodes SampleCluster.mono "http://node/" None None (SampleCluster.env "10.0.0.3")
    (SampleCluster.world 0)).1 =
  (nodes SampleCluster.mono "http://node/" None None (SampleCluster.env "10.0.0.4")
    (SampleCluster.world 0)).1.
Proof.
  apply (addresses_stay_private SampleCluster.mono "http://node/" None).
  split; [reflexivity|]. intros t u. unfold answered, SampleCluster.env, env_http.
  destruct (t <? 5)%nat; reflexivity.
Defined.
End ClusterWitnesses.
