(* ===== verification/FaucetApi.v ===== *)
(** * The web faucet's endpoints ([crates/api/src/handlers.rs])

    [/health], the replies of [POST /v1/drip], and [GET /v1/drip/status] in both its
    shapes, over the faucet of [Drip]; with what the status promises of the next drip. *)

From S2P Require Import Prelude Json Types Config Drip DripSpec Responses F64 Stats Eta Lookup.
Open Scope string_scope.
Open Scope list_scope.
Open Scope Z_scope.

Definition health : Response := json_ok (JObject [("status", JString "ok")]).

(** [(nano as f64) / 1_000_000_000.0]. *)
Definition nano_to_avow (nano : Z) : f64 := f64_div (f64_of nano) (f64_of 1000000000).

(** ** /v1/drip *)

Definition ser_DripResponse (address : string) (receipt : DripReceipt) : Value :=
  JObject [("address", JString address); ("tx_hash", JString receipt.(r_tx_hash));
           ("amount_nano", ser_uint receipt.(r_amount_nano));
           ("drip_amount_avow", ser_f64 (nano_to_avow receipt.(r_amount_nano)))].
Definition ser_ErrorResponse (error : string) (retry_after_secs : option Z) : Value :=
  JObject [("error", JString error); ("retry_after_secs", ser_option ser_uint retry_after_secs)].

(** The wire form of a reply. *)
Definition drip_response (reply : DripReply) : Response :=
  match reply with
  | Dripped address receipt => json_ok (ser_DripResponse address receipt)
  | Refused status error retry =>
      {| rs_status := status; rs_max_age := None; rs_body := ser_ErrorResponse error retry |}
  end.

(** ** /v1/drip/status *)

Record DripStatusResponse := {
  ds_drip_amount_nano : Z; ds_rate_limit_secs : Z; ds_addresses_dripped : Z;
  ds_faucet_address : string }.
Record AddressDripStatusResponse := { can_drip : bool; next_drip_at : option string }.

Inductive DripStatusBody :=
| Global (body : DripStatusResponse)
| PerAddress (body : AddressDripStatusResponse).

(** Untagged. *)
Definition ser_DripStatusBody (b : DripStatusBody) : Value :=
  match b with
  | Global x =>
      JObject [("drip_amount_nano", ser_uint x.(ds_drip_amount_nano));
               ("drip_amount_avow", ser_f64 (nano_to_avow x.(ds_drip_amount_nano)));
               ("rate_limit_secs", ser_uint x.(ds_rate_limit_secs));
               ("addresses_dripped", ser_uint x.(ds_addresses_dripped));
               ("faucet_address", JString x.(ds_faucet_address))]
  | PerAddress x =>
      JObject [("can_drip", JBool x.(can_drip)); ("next_drip_at", ser_option JString x.(next_drip_at))]
  end.

Section Status.
Context `{Rfc3339} `{Calendar} `{CalendarEnd}.

(** [chrono::Duration::from_std], zero beyond its range; in nanoseconds. *)
Definition bump_of (retry_after : Z) : Z :=
  if retry_after <=? i64_max * 1000000 then retry_after else 0.

(** [t] is the monotonic clock and [now] the wall clock, in nanoseconds; the instant is
    printed to the millisecond. *)
Definition drip_status (s : Faucet) (rate_limit_secs : Z) (faucet_address : string)
    (address : option string) (t now : Z) : outcome DripStatusBody :=
  match address ≫= nonempty with
  | Some addr =>
      match peek s.(limiter) addr t with
      | Allowed => Done (PerAddress {| can_drip := true; next_drip_at := None |})
      | Blocked retry_after =>
          let next := now + bump_of retry_after in
          if next <=? max_utc * 1000000 + 999999
          then Done (PerAddress {| can_drip := false;
                                   next_drip_at := Some (rfc3339_millis (next / 1000000)) |})
          else Panicked
      end
  | None =>
      Done (Global {| ds_drip_amount_nano := s.(drip_amount); ds_rate_limit_secs := rate_limit_secs;
                      ds_addresses_dripped := Z.of_nat (drip_count s.(limiter));
                      ds_faucet_address := faucet_address |})
  end.

(** ** What the status promises *)

Context `{ChainSdk}.

Definition rate_limited_reply (r : DripReply) : Prop :=
  match r with Refused status _ _ => status = 429 | Dripped _ _ => False end.

Lemma drip_limited s addr t t1 t2 :
  rate_limited_reply (drip s addr t t1 t2).1 <-> exists wait, check s.(limiter) addr t = Blocked wait.
Proof.
  unfold drip. destruct (check _ _ _) as [|wait]; simpl.
  - split; [|by intros []]. destruct (signer_drip _ _ _ _) as [[r|[]] n]; done.
  - split; [by exists wait|done].
Qed.

(** No drip is recorded in the future of the monotonic clock. *)
Definition recorded_before (rl : RateLimiter) (t : Z) : Prop :=
  map_Forall (fun _ last => last <= t) rl.(last_drip).

(** A blocked address stays blocked for exactly the wait. *)
Lemma blocked_until rl addr t wait :
  recorded_before rl t -> peek rl addr t = Blocked wait ->
  0 < wait <= window rl /\
  forall t', t <= t' -> (exists w, check rl addr t' = Blocked w) <-> t' < t + wait.
Proof.
  unfold peek, check, duration_since. intros Hpast.
  destruct (last_drip rl !! addr) as [last|] eqn:El; [|done]. apply Hpast in El.
  destruct (Z.leb_spec (window rl) (Z.max 0 (t - last))) as [|Hlt]; [done|]. intros [= <-].
  split; [lia|]. intros t' Ht.
  destruct (Z.leb_spec (window rl) (Z.max 0 (t' - last))) as [Hle|Hle].
  - split; [by intros []|lia].
  - split; [lia|intros _; by eexists].
Qed.

Lemma allowed_now rl addr t : peek rl addr t = Allowed -> check rl addr t = Allowed.
Proof. done. Qed.

(** C37: the status of an address and the faucet agree.  With no drip recorded in the
    future and a window chrono can hold: [can_drip] means a drip asked for now is not
    rate-limited; otherwise the announced instant is the end of a wait, at most the
    window, within which every drip is answered 429 and after which none is; asking
    changes nothing.  The handler panics only when that instant is beyond the calendar. *)
Theorem drip_status_predicts s secs faucet addr t now t1 t2 :
  addr <> "" -> recorded_before s.(limiter) t -> window s.(limiter) <= i64_max * 1000000 ->
  let limited t' := rate_limited_reply (drip s addr t' t1 t2).1 in
  match drip_status s secs faucet (Some addr) t now with
  | Done (PerAddress {| can_drip := true; next_drip_at := next |}) => next = None /\ ~ limited t
  | Done (PerAddress {| can_drip := false; next_drip_at := next |}) =>
      exists wait, 0 < wait <= window s.(limiter) /\
        next = Some (rfc3339_millis ((now + wait) / 1000000)) /\
        forall t', t <= t' -> limited t' <-> t' < t + wait
  | Done (Global _) => False
  | Panicked => max_utc * 1000000 < now + window s.(limiter)
  end.
Proof.
  intros Ha Hpast Hw limited. unfold drip_status. simpl. unfold nonempty.
  destruct (String.eqb_spec addr "") as [|_]; [done|]. simpl.
  destruct (peek (limiter s) addr t) as [|wait] eqn:Ep.
  - split; [done|]. unfold limited. rewrite drip_limited, (allowed_now _ _ _ Ep). by intros [].
  - destruct (blocked_until _ _ _ _ Hpast Ep) as [Hwait Huntil].
    unfold bump_of. destruct (Z.leb_spec wait (i64_max * 1000000)); [|lia].
    destruct (Z.leb_spec (now + wait) (max_utc * 1000000 + 999999)); [|lia].
    exists wait. split_and!; [lia..|done|]. intros t' Ht. unfold limited.
    rewrite drip_limited. by apply Huntil.
Qed.

(** The wait a refusal announces is rounded down to seconds: a client that honours it
    comes back too early, and is refused again, unless the wait is a whole number of
    seconds. *)
Theorem retry_after_rounds_down s addr t t1 t2 wait :
  recorded_before s.(limiter) t -> peek s.(limiter) addr t = Blocked wait ->
  exists error secs, (drip s addr t t1 t2).1 = Refused 429 error (Some secs) /\
    (rate_limited_reply (drip s addr (t + secs * 1000000000) t1 t2).1 <-> wait `mod` 1000000000 <> 0).
Proof.
  intros Hpast Hb. destruct (blocked_until _ _ _ _ Hpast Hb) as [Hwait Huntil].
  exists ("address rate-limited; retry in " ++ to_string (as_secs wait) ++ " seconds")%string,
    (as_secs wait). split.
  - unfold drip. assert (check (limiter s) addr t = Blocked wait) as -> by exact Hb. done.
  - rewrite drip_limited, Huntil; unfold as_secs;
      pose proof (Z.div_mod wait 1000000000 ltac:(done));
      pose proof (Z.mod_pos_bound wait 1000000000 ltac:(done)); lia.
Qed.
End Status.

(** ** At concrete inputs

    A window of ten seconds, a drip at second one, a status at second five and a half. *)
Import SampleCalendar.

Section FaucetWitnesses.
#[local] Existing Instance sample_sdk.

Definition ten_seconds : Faucet :=
  {| limiter := record (new_limiter 10000000000) "lig1a" 1000000000; nonce_counter := 7;
     drip_amount := 1000 |}.

Lemma drip_status_predicts_witness :
  drip_status ten_seconds 10 "lig1faucet" (Some "lig1a") 5500000000 0 =
    Done (PerAddress {| can_drip := false; next_drip_at := Some "5500" |}) /\
  exists wait, next_drip_at {| can_drip := false; next_drip_at := Some "5500" |} =
    Some (rfc3339_millis (wait / 1000000)) /\
    ~ rate_limited_reply (drip ten_seconds "lig1a" (5500000000 + wait) 0 0).1.
Proof.
  assert (drip_status ten_seconds 10 "lig1faucet" (Some "lig1a") 5500000000 0 =
    Done (PerAddress {| can_drip := false; next_drip_at := Some "5500" |})) as Hs
    by (vm_compute; reflexivity).
  pose proof (drip_status_predicts ten_seconds 10 "lig1faucet" "lig1a" 5500000000 0 0 0
    ltac:(discriminate) ltac:(apply map_Forall_insert_2; [vm_compute; discriminate|apply map_Forall_empty])
    ltac:(vm_compute; discriminate)) as Hp.
  cbv zeta in Hp. rewrite Hs in Hp. destruct Hp as (wait & Hw & Hn & Hl).
  split; [exact Hs|]. exists wait. split; [exact Hn|].
  rewrite Hl by lia. lia.
Defined.

Lemma retry_after_rounds_down_witness :
  exists error secs,
    (drip ten_seconds "lig1a" 5500000000 0 0).1 = Refused 429 error (Some secs) /\
    rate_limited_reply (drip ten_seconds "lig1a" (5500000000 + secs * 1000000000) 0 0).1.
Proof.
  destruct (retry_after_rounds_down ten_seconds "lig1a" 5500000000 0 0 5500000000)
    as (error & secs & Hr & Hl).
  - apply map_Forall_insert_2; [vm_compute; discriminate|apply map_Forall_empty].
  - vm_compute. reflexivity.
  - exists error, secs. split; [exact Hr|]. apply Hl. vm_compute. discriminate.
Defined.
End FaucetWitnesses.
