(* ===== verification/Typed.v ===== *)
(** * Column types

    The integer columns the statements compute stay within their SQL types: heights and
    nonces are [BIGINT], counters and versions [INTEGER].  The casts of the Rust code and
    the overflow errors of the SQL arithmetic are what keeps them there. *)

From S2P Require Import Prelude JsonSyntax Json Types Standards Bech32m Sha2 AttestationId Decode Parser Schema Io Db DbFacts Client Samples Ingest IngestSpec.
Open Scope string_scope.
Open Scope list_scope.
Open Scope Z_scope.

(** ** Rows *)

Definition slot_typed (h : Z) (r : SlotRow) : Prop :=
  in_i64 h /\ in_i32 r.(sl_batch_count) /\ in_i32 r.(sl_tx_count) /\
  opt_in_i64 r.(sl_da_block_height).
Definition tx_typed (r : TxRow) : Prop :=
  in_i64 r.(tr_slot) /\ in_i32 r.(tr_position) /\ opt_in_i64 r.(tr_nonce) /\ opt_in_i64 r.(tr_protocol_fee_nano) /\
  opt_in_i64 r.(tr_fee_paid_nano).
Definition attestor_set_typed (r : AttestorSetRow) : Prop :=
  in_i64 r.(as_registered_at_slot) /\ in_i32 r.(as_threshold) /\ in_i32 r.(as_schema_count).
Definition schema_typed (r : SchemaRow) : Prop :=
  in_i64 r.(sc_registered_at_slot) /\ in_i32 r.(sc_version) /\ in_i32 r.(sc_fee_routing_bps) /\
  in_i32 r.(sc_attestation_count).
Definition attestation_typed (r : AttestationRow) : Prop :=
  in_i64 r.(at_submitted_at_slot) /\ in_i32 r.(at_signature_count).
Definition address_typed (r : AddressRow) : Prop :=
  in_i64 r.(ad_txs_sent_count) /\ in_i64 r.(ad_txs_received_count) /\
  in_i32 r.(ad_schemas_owned_count) /\ in_i32 r.(ad_attestor_member_count) /\
  opt_in_i64 r.(ad_first_seen_slot) /\ opt_in_i64 r.(ad_last_seen_slot).
Definition bounty_typed (r : BountyRow) : Prop :=
  in_i64 r.(bo_expiry_da_height) /\ in_i32 r.(bo_dispute_window_blocks) /\
  in_i64 r.(bo_posted_at_slot) /\ in_i32 r.(bo_claim_count) /\
  opt_in_i64 r.(bo_last_claim_at_slot).
Definition contract_typed (r : ContractRow) : Prop :=
  in_i64 r.(co_expiry_da_height) /\ in_i32 r.(co_dispute_window_blocks) /\
  in_i64 r.(co_posted_at_slot) /\ in_i32 r.(co_arbiter_fee_bps).

Record typed (d : DB) : Prop := {
  t_slots : map_Forall slot_typed d.(slots);
  t_transactions : map_Forall (fun _ => tx_typed) d.(transactions);
  t_attestor_sets : map_Forall (fun _ => attestor_set_typed) d.(attestor_sets);
  t_schemas : map_Forall (fun _ => schema_typed) d.(schemas);
  t_attestations : map_Forall (fun _ => attestation_typed) d.(attestations);
  t_addresses : map_Forall (fun _ => address_typed) d.(address_summaries);
  t_bounties : map_Forall (fun _ => bounty_typed) d.(bounties);
  t_contracts : map_Forall (fun _ => contract_typed) d.(contracts)
}.

Lemma typed_empty : typed empty_db.
Proof. split; apply map_Forall_empty. Qed.

(** ** Statements *)

(** The row an upsert stores is typed when the proposed one is and the conflict arm keeps
    types; the same for an update. *)
Lemma upsert_typed {K V} `{Countable K} (T : K -> V -> Prop) ok k new f (t : gmap K V) row :
  upsert ok k new f t = Ok row -> map_Forall T t ->
  (ok new = true -> T k new) ->
  (forall old r, T k old -> f old = Ok r -> ok r = true -> T k r) ->
  map_Forall T (<[k := row]> t).
Proof.
  intros [Hok Hu]%upsert_ok Ht Hnew Hf. apply map_Forall_insert_2; [|done].
  destruct Hu as [[_ ->]|(old & Hk & Hr)]; [by apply Hnew|]. eapply Hf; [|done..]. by apply (Ht k old).
Qed.

Lemma update_typed {K V} `{Countable K} (T : K -> V -> Prop) ok k f (t t' : gmap K V) :
  update_key ok k f t = Ok t' -> map_Forall T t ->
  (forall old r, T k old -> f old = Ok r -> T k r) -> map_Forall T t'.
Proof.
  intros [->|(old & row & Hk & Hr & _ & ->)]%update_key_ok Ht Hf; [done|].
  apply map_Forall_insert_2; [|done]. eapply Hf; [|done]. by apply (Ht k old).
Qed.

Lemma opt_coalesce a b : opt_in_i64 a -> opt_in_i64 b -> opt_in_i64 (coalesce a b).
Proof. by destruct a. Qed.
Lemma opt_least a b : opt_in_i64 a -> opt_in_i64 b -> opt_in_i64 (least a b).
Proof. destruct a, b; simpl; try done. lia_int. Qed.
Lemma opt_greatest a b : opt_in_i64 a -> opt_in_i64 b -> opt_in_i64 (greatest a b).
Proof. destruct a, b; simpl; try done. lia_int. Qed.
Lemma opt_clamp o : opt_in_i64 (clamp_i64 <$> o).
Proof. destruct o; [apply clamp_i64_range|done]. Qed.
Lemma opt_fee k : opt_in_i64 (protocol_fee_nano k).
Proof. destruct k; simpl; try done; lia_int. Qed.
Lemma opt_some z : opt_in_i64 (Some (as_i64 z)).
Proof. apply as_i64_range. Qed.

#[local] Hint Resolve as_i64_range as_i32_range clamp_i32_range clamp_i64_range opt_coalesce
  opt_least opt_greatest opt_clamp opt_fee opt_some : ints.

(** What is left of a column: a cast, a checked sum, a bound of the row's constraint, or
    the old value. *)
Ltac column :=
  first [ assumption | solve [auto with ints] | lia_int | (simpl; lia_int) ].

Ltac typed_stmt :=
  let Hs := fresh "Hs" in let Ht := fresh "Ht" in
  intros ?now ?d ?u ?d' Hs Ht;
  unfold upsert_slot_stmt, insert_attestor_set, insert_schema, insert_attestation,
    upsert_bounty, apply_bounty_claim, set_bounty_escrow_zero, upsert_contract,
    set_contract_escrow_zero, bump_attestor_set_schema_count,
    bump_schema_attestation_count, bump_address_schemas_owned,
    upsert_address_activity in Hs; cbv zeta in Hs;
  repeat match goal with
  | H : _ ≫= _ = Ok _ |- _ => apply result_bind_ok in H as (? & ? & ?)
  | H : Ok _ = Ok _ |- _ => injection H as ? H; subst
  end;
  destruct Ht; split; simpl; try assumption;
  first [ eapply upsert_typed; [eassumption|assumption|..]
        | eapply update_typed; [eassumption|assumption|..] ].

(** The two rows a statement may store, column by column. *)
Ltac checked :=
  unfold slot_typed, attestor_set_typed, schema_typed, attestation_typed, address_typed,
    bounty_typed, contract_typed, attestor_set_row_ok, schema_row_ok, attestation_row_ok in *;
  repeat match goal with
  | H : (_ && _) = true |- _ => apply andb_prop in H as [? ?]
  | H : (_ <=? _) = true |- _ => apply Z.leb_le in H
  end; simpl in *.
Ltac row_case :=
  intros; cbv beta in *; unfold activity_merge in *; stmt_inv; subst; checked;
  destruct_and?; split_and?; simpl; column.

#[export] Instance typed_guarantee `{Bech32} `{Sha256} `{Chrono} `{PgNumeric} : Guarantee (keeping typed).
Proof.
  split; [apply _|..]; intros.
  - intros now d [] d' [= <-] []. by split.
  - intros now d [] d' Hs []. unfold write_chain_identity in Hs. simpl in Hs.
    injection Hs as <-. by split.
  - typed_stmt; row_case.
  - intros now d n d' Hs Ht. unfold flip_pending_stmt in Hs.
    repeat case_match; simplify_eq; try assumption. destruct Ht. split; simpl; try assumption.
    apply map_Forall_insert_2; [|assumption].
    match goal with Hk : slots d !! _ = Some _ |- _ => destruct (t_slots0 _ _ Hk) as (? & ? & ? & ?) end.
    by split_and!.
  - intros now d u d' Hs Ht. apply insert_transaction_inv in Hs as (row & -> & _ & _ & Hrow).
    destruct Ht. split; simpl; try assumption. apply map_Forall_insert_2; [|assumption].
    destruct Hrow as [[_ ->]|(old & Hold & ->)].
    + split_and!; simpl; column.
    + destruct (t_transactions0 _ _ Hold) as (? & ? & ? & ? & ?). split_and!; simpl; column.
  - typed_stmt; row_case.
  - typed_stmt; row_case.
  - typed_stmt; row_case.
  - typed_stmt; row_case.
  - typed_stmt; intros; cbv beta in *; case_match; try discriminate; row_case.
  - typed_stmt; row_case.
  - typed_stmt; row_case.
  - typed_stmt; row_case.
  - typed_stmt; row_case.
  - typed_stmt; row_case.
  - typed_stmt; row_case.
  - typed_stmt; destruct role; row_case.
Qed.

Section TypedSafety.
Context `{B : Bech32} `{H : Sha256} `{C : Chrono} `{N : PgNumeric} `{U : Urls}
  `{J : JsonText} (base64_decode : string -> option (list Z)) (client : NodeClient).

(** C13: column types.  Whatever numbers the node reports, in every state that a run of
    the walk or a pass of the re-poll reaches from a database whose integer columns are
    within their types, they still are: heights, nonces, fees and sighting counters are
    64-bit, positions, batch counts, versions, thresholds and the other counters 32-bit. *)
Theorem indexer_keeps_types tries n start cid e w :
  interleaved e -> typed w.(w_db) ->
  typed (run base64_decode client tries n start cid e w).2.(w_db) /\
  typed (repoll_step client e w).2.(w_db).
Proof.
  intros He Ht. pose proof (interleaved_rely (keeping typed) e He) as Hr. split.
  - by apply (run_evolves base64_decode client (keeping typed) tries n start cid e w).
  - by apply (repoll_evolves client (keeping typed) e w).
Qed.
End TypedSafety.

Section TypedWitness.
#[local] Existing Instances Bip350.bech32m Fips180.sha2 clock numeric urls Rfc8259.json.

Lemma indexer_keeps_types_witness :
  typed (run (fun _ => None) sample_client 1 1 (Some 3) 1 sample_env (sample_world empty_db)).2.(w_db).
Proof.
  apply (indexer_keeps_types (fun _ => None) sample_client 1 1 (Some 3) 1).
  - apply sample_env_interleaved.
  - apply typed_empty.
Defined.
End TypedWitness.
