(* ===== verification/EndToEnd.v ===== *)
(** * From the node to the reader

    The indexer and the API meet in the tables.  What the indexer writes is what the API
    assumes of a store, so its guarantees hold over every database the two tasks reach
    from an empty one; and a client that pages through a list while they run misses
    nothing that was stored when it began. *)

From S2P Require Import Prelude Json JsonSyntax Types Standards Bech32m Sha2 AttestationId Decode Parser Schema Io Db DbFacts History Client Samples Ingest IngestSpec Typed Pages Listing ListingSpec.
From stdpp Require Import sorting.
Open Scope string_scope.
Open Scope list_scope.
Open Scope Z_scope.

(** ** Attestation ids *)

Section Ids.
Context `{Bech32} `{Sha256} `{Chrono} `{PgNumeric}.

(** The key of an attestation is the id derived from its schema and payload hash. *)
Definition ids_ok (d : DB) : Prop :=
  map_Forall (fun id r =>
    compute_attestation_id r.(at_schema_id) r.(at_payload_hash) = Done (Ok id)) d.(attestations).

#[export] Instance ids_ok_guarantee : Guarantee (keeping ids_ok).
Proof.
  split; [apply _|..]; intros; try other_table.
  - intros now d u d' Hs Hd. by apply insert_transaction_inv in Hs as (row & -> & _).
  - intros now d u d' Hs Hd. unfold insert_attestation in Hs. cbv zeta in Hs.
    apply result_bind_ok in Hs as (row & Hu & Hs). stmt_inv.
    apply map_Forall_insert_2; [|done].
    destruct Hu as [[_ ->]|(old & Hold & Hr)]; [done|]. injection Hr as <-. by apply (Hd _ old).
Qed.

(** ** The store the API reads *)

Definition good (d : DB) : Prop := db_ok d /\ typed d /\ ids_ok d.

Lemma good_empty : good empty_db.
Proof. split_and!; [apply db_ok_empty|apply typed_empty|apply map_Forall_empty]. Qed.

Lemma good_steps d d' : rtc task_step d d' -> good d -> good d'.
Proof.
  intros Hs (Hok & Ht & Hi). split_and!.
  - by apply (task_steps_guarantee (keeping db_ok) d d' Hs).
  - by apply (task_steps_guarantee (keeping typed) d d' Hs).
  - by apply (task_steps_guarantee (keeping ids_ok) d d' Hs).
Qed.

Lemma good_store d : good d -> store_ok d.
Proof.
  intros (Hok & [Hs Htx Has Hsc Hat _ Hbo Hco] & Hi). split; [done|..].
  - intros h r Hr. apply (Hs h r Hr).
  - intros h r Hr. destruct (Htx h r Hr) as (? & ? & _). done.
  - intros i r Hr. apply (Hsc i r Hr).
  - intros i r Hr. apply (Has i r Hr).
  - intros i r Hr. destruct (Hbo i r Hr) as (_ & _ & ? & _). done.
  - intros i r Hr. destruct (Hco i r Hr) as (_ & _ & ? & _). done.
  - intros i r Hr. apply (Hat i r Hr).
  - intros k1 k2 v1 v2 Hk1 Hk2 He. apply Hi in Hk1. apply Hi in Hk2.
    unfold at_pair in He. injection He as Hs' Hp. rewrite Hs', Hp in Hk1. congruence.
Qed.
End Ids.

Section Safety.
Context `{B : Bech32} `{H : Sha256} `{C : Chrono} `{N : PgNumeric} `{U : Urls}
  `{J : JsonText} (base64_decode : string -> option (list Z)) (client : NodeClient).

(** C6: the indexer writes the store the API assumes.  Every database that a run of the
    walk or a pass of the re-poll reaches from an empty one, interleaved in any way, is a
    store for the reading theorems: its constraints hold, its keys and positions are
    within their types, and no two attestations share a schema and a payload hash. *)
Theorem indexer_feeds_api tries n start cid e w :
  interleaved e -> rtc task_step empty_db w.(w_db) ->
  store_ok (run base64_decode client tries n start cid e w).2.(w_db) /\
  store_ok (repoll_step client e w).2.(w_db).
Proof.
  intros He Hw. assert (Hg : good (w_db w)) by (eapply good_steps; [exact Hw|apply good_empty]).
  pose proof (interleaved_rely (rtc task_step) e He) as Hr.
  split; apply good_store.
  - eapply good_steps; [|exact Hg]. exact (run_evolves base64_decode client (rtc task_step) tries n start cid e w Hr).
  - eapply good_steps; [|exact Hg]. exact (repoll_evolves client (rtc task_step) e w Hr).
Qed.
End Safety.

(** ** Reading while the indexer runs *)

Section Reading.
Context `{Bech32} `{Sha256} `{Chrono} `{PgNumeric}
  `{J : JsonText} `{JL : !JsonTextLaws J} `{B64 : Base64Url} `{BL : !Base64UrlLaws B64}
  `{P : PgText} `{PL : !PgTextLaws P}.

(** The columns of a row a list orders or filters by stay as they are. *)
Definition same_in {K V C} `{Countable K} (columns : V -> C) (t t' : gmap K V) : Prop :=
  table_rel (fun r r' => columns r' = columns r) t t'.

Definition tx_columns (r : TxRow) := (slot_position r, r.(tr_kind)).
Definition party_columns (r : TxRow) :=
  (slot_position r, r.(tr_kind), r.(tr_sender), r.(tr_details)).
Definition set_columns (r : AttestorSetRow) := (r.(as_registered_at_slot), r.(as_members)).
Definition bounty_columns (r : BountyRow) := (r.(bo_board_schema_id), r.(bo_status)).
Definition contract_columns (r : ContractRow) :=
  (r.(co_status), r.(co_poster), r.(co_arbiter)).

Definition nothing_asked (d d' : DB) : Prop := True.

(** What each list asks of one database and the next for its rows to stay in it.  Blocks,
    schemas, attestations and the unfiltered bounties and contracts ask nothing: the
    indexer never changes the columns they are selected by.  The other lists are selected
    by columns that a repeated event overwrites. *)
Inductive lasting_endpoint : Listing -> relation DB -> Prop :=
| L_blocks : lasting_endpoint slots_page nothing_asked
| L_schemas set : lasting_endpoint (schemas_page set) nothing_asked
| L_all_bounties : lasting_endpoint (bounties_page None None) nothing_asked
| L_all_contracts : lasting_endpoint (contracts_page None None None) nothing_asked
| L_attestations schema : lasting_endpoint (attestations_page schema) nothing_asked
| L_set_attestations set : lasting_endpoint (attestations_by_attestor_set set) nothing_asked
| L_txs kind height : lasting_endpoint (txs_page kind height)
    (fun d d' => same_in tx_columns d.(transactions) d'.(transactions))
| L_address_txs addr : lasting_endpoint (address_txs_page addr)
    (fun d d' => same_in party_columns d.(transactions) d'.(transactions))
| L_attestor_sets : lasting_endpoint attestor_sets_page
    (fun d d' => same_in set_columns d.(attestor_sets) d'.(attestor_sets))
| L_member_sets pubkey : lasting_endpoint (attestor_sets_for_member_page pubkey)
    (fun d d' => same_in set_columns d.(attestor_sets) d'.(attestor_sets))
| L_bounties board status : lasting_endpoint (bounties_page board status)
    (fun d d' => same_in bounty_columns d.(bounties) d'.(bounties))
| L_contracts status poster arbiter : lasting_endpoint (contracts_page status poster arbiter)
    (fun d d' => same_in contract_columns d.(contracts) d'.(contracts)).

Lemma lasting_list l R : lasting_endpoint l R -> list_endpoint l.
Proof. destruct 1; constructor. Qed.

(** Every list has its place in the table. *)
Lemma list_lasting l : list_endpoint l -> exists R, lasting_endpoint l R.
Proof. destruct 1; eexists; constructor. Qed.

(** The transactions a list keeps by columns that stay. *)
Lemma tx_rows_stay {C} (columns : TxRow -> C) keep d d' r :
  (forall t t', columns t' = columns t -> slot_position t' = slot_position t /\ keep t' = keep t) ->
  history d d' -> same_in columns d.(transactions) d'.(transactions) ->
  r ∈ l_rows (tx_listing keep) d ->
  exists r', r' ∈ l_rows (tx_listing keep) d' /\
    l_key (tx_listing keep) r' = l_key (tx_listing keep) r.
Proof.
  intros Hc Hh Hs. simpl. intros [Hk Hr]%list_elem_of_filter. destruct r as [[h t] s].
  apply joined_txs_elem in Hr as [Ht Hsl]. destruct (Hs _ _ Ht) as (t' & Ht' & He).
  destruct (Hc _ _ He) as [Hpos Hkeep]. destruct (h_slots _ _ Hh _ _ Hsl) as (s' & Hsl' & _).
  exists (h, t', s'). split; [|exact Hpos]. apply list_elem_of_filter. simpl in *.
  split; [by rewrite Hkeep|]. apply joined_txs_elem. split; [done|].
  unfold slot_position in Hpos. injection Hpos as -> _. done.
Qed.

(** The rows of a table keyed by slot and id. *)
Lemma slot_id_rows_stay {V} (slot_of : V -> Z) (t : DB -> gmap string V) (keep : V -> bool) d d' r :
  (forall i v, t d !! i = Some v -> keep v = true ->
     exists v', t d' !! i = Some v' /\ keep v' = true /\ slot_of v' = slot_of v) ->
  let l := slot_id_listing slot_of (fun d => filter (fun r => keep r.2 = true) (map_to_list (t d))) in
  r ∈ l_rows l d -> exists r', r' ∈ l_rows l d' /\ l_key l r' = l_key l r.
Proof.
  intros Ht. simpl. intros [Hk Hr]%list_elem_of_filter. destruct r as [i v].
  apply elem_of_map_to_list in Hr. destruct (Ht _ _ Hr Hk) as (v' & Hv' & Hk' & Hslot).
  exists (i, v'). simpl. rewrite Hslot. split; [|done]. apply list_elem_of_filter.
  split; [done|]. by apply elem_of_map_to_list.
Qed.

(** A row in the list stays in it, under its key. *)
Lemma lasting_rows l R d d' r :
  lasting_endpoint l R -> history d d' -> R d d' -> r ∈ l_rows l d ->
  exists r', r' ∈ l_rows l d' /\ l_key l r' = l_key l r.
Proof.
  intros Hl Hh HR. destruct Hl.
  - simpl. intros Hr. destruct r as [h row]. apply elem_of_map_to_list in Hr.
    destruct (h_slots _ _ Hh _ _ Hr) as (row' & Hr' & _). exists (h, row').
    split; [by apply elem_of_map_to_list|done].
  - simpl. intros [[Hm Hs] Hr]%list_elem_of_filter. destruct r as [i row].
    apply elem_of_map_to_list in Hr.
    destruct (h_schemas _ _ Hh _ _ Hr) as (row' & Hr' & Hi & _). unfold schema_identity in Hi.
    injection Hi as _ _ _ Hset _ _ _ Hslot _ _. exists (i, row'). simpl in *. split.
    + apply list_elem_of_filter. simpl. rewrite <- Hset. split; [split; [done|]|by apply elem_of_map_to_list].
      destruct Hs as [a Ha]. destruct (h_attestor_sets _ _ Hh _ _ Ha) as (a' & Ha' & _).
      by exists a'.
    + by rewrite Hslot.
  - apply (slot_id_rows_stay bo_posted_at_slot bounties
      (fun v => matches None (bo_board_schema_id v) && matches None (bo_status v))).
    intros i v Hv _. destruct (h_bounties _ _ Hh _ _ Hv) as (v' & Hv' & Hi).
    injection Hi as Hslot _ _. exists v'. by split_and!.
  - apply (slot_id_rows_stay co_posted_at_slot contracts
      (fun v => matches None (co_status v) && matches None (co_poster v) && matches None (co_arbiter v))).
    intros i v Hv _. destruct (h_contracts _ _ Hh _ _ Hv) as (v' & Hv' & Hi).
    injection Hi as Hslot _ _. exists v'. by split_and!.
  - simpl. intros [Hm Hr]%list_elem_of_filter. destruct r as [i row]. apply elem_of_map_to_list in Hr.
    destruct (h_attestations _ _ Hh _ _ Hr) as (row' & Hr' & Hi). injection Hi as Hs Hp _ Hslot _ _.
    exists (i, row'). simpl in *. rewrite <- Hs, <- Hp, <- Hslot. split; [|done].
    apply list_elem_of_filter. simpl. rewrite <- Hs. split; [done|by apply elem_of_map_to_list].
  - simpl. intros [Hm Hr]%list_elem_of_filter. destruct r as [i row]. apply elem_of_map_to_list in Hr.
    destruct (h_attestations _ _ Hh _ _ Hr) as (row' & Hr' & Hi). injection Hi as Hs Hp _ Hslot _ _.
    exists (i, row'). simpl in *. rewrite <- Hs, <- Hp, <- Hslot. split; [|done].
    apply list_elem_of_filter. simpl. rewrite <- Hs. split; [|by apply elem_of_map_to_list].
    destruct (d.(schemas) !! at_schema_id row) as [sc|] eqn:Esc; [|done].
    destruct (h_schemas _ _ Hh _ _ Esc) as (sc' & Hsc' & Hid & _). unfold schema_identity in Hid.
    injection Hid as _ _ _ Hset _ _ _ _ _ _. rewrite Hsc'. simpl in *. by rewrite <- Hset.
  - apply (tx_rows_stay tx_columns); [|done|done]. unfold tx_columns, slot_position.
    intros t t' [= -> -> ->]. done.
  - apply (tx_rows_stay party_columns); [|done|done]. unfold party_columns, slot_position.
    intros t t' [= -> -> -> -> ->]. done.
  - simpl. intros Hr. destruct r as [i row]. apply elem_of_map_to_list in Hr.
    destruct (HR _ _ Hr) as (row' & Hr' & [= Hslot _]). exists (i, row').
    split; [by apply elem_of_map_to_list|]. simpl. by rewrite Hslot.
  - apply (slot_id_rows_stay as_registered_at_slot attestor_sets
      (fun v => contains_member (as_members v) pubkey)).
    intros i v Hv Hk. destruct (HR _ _ Hv) as (v' & Hv' & [= Hslot Hm]). exists v'. by rewrite Hm.
  - apply (slot_id_rows_stay bo_posted_at_slot bounties
      (fun v => matches board (bo_board_schema_id v) && matches status (bo_status v))).
    intros i v Hv Hk. destruct (h_bounties _ _ Hh _ _ Hv) as (v' & Hv' & [= Hslot _ _]).
    destruct (HR _ _ Hv) as (v2 & Hv2 & [= Hb Hst]). assert (v2 = v') as -> by congruence.
    exists v'. by rewrite Hb, Hst.
  - apply (slot_id_rows_stay co_posted_at_slot contracts
      (fun v => matches status (co_status v) && matches poster (co_poster v) && matches arbiter (co_arbiter v))).
    intros i v Hv Hk. destruct (h_contracts _ _ Hh _ _ Hv) as (v' & Hv' & [= Hslot _ _]).
    destruct (HR _ _ Hv) as (v2 & Hv2 & [= Hst Hp Ha]). assert (v2 = v') as -> by congruence.
    exists v'. by rewrite Hst, Hp, Ha.
Qed.

(** C5: paging while the indexer runs.  A client follows the cursors of any list endpoint
    over databases the indexer's two tasks reach, one after the other, from an empty one:
    it is never given a key twice, the keys come newest first, and when it is told there
    is no further page it holds every row that was in the list at its first request.  For
    blocks, schemas, attestations and the unfiltered bounties and contracts this holds
    whatever the indexer writes meanwhile; for transactions, attestor sets and the
    filtered bounties and contracts, provided no repeated event changes, of a row stored
    already, the columns the list is ordered and filtered by.  Rows newer than the first
    page are not promised. *)
Theorem pages_miss_nothing l R limit dbs fuel :
  lasting_endpoint l R -> (forall k, R (dbs k) (dbs (S k))) ->
  (forall n, limit = Some n -> 0 <= n) ->
  rtc task_step empty_db (dbs 0%nat) -> (forall k, rtc task_step (dbs k) (dbs (S k))) ->
  let '(rows, finished) := browse l limit dbs fuel 0 None in
  StronglySorted (newer (l_key l) (l_lt l)) rows /\ NoDup (l_key l <$> rows) /\
  (finished = true -> forall r, r ∈ l_rows l (dbs 0%nat) -> l_key l r ∈ l_key l <$> rows).
Proof.
  intros Hl HR Hn Hstart Hs.
  assert (forall k, good (dbs k)) as Hg.
  { intros k. induction k as [|k IH]; [eapply good_steps; [exact Hstart|apply good_empty]|].
    eapply good_steps; [apply (Hs k)|exact IH]. }
  pose proof (browse_stable l limit dbs fuel (lasting_list l R Hl)
    (fun k => good_store _ (Hg k)) Hn) as Hb.
  destruct (browse l limit dbs fuel 0 None) as [rows finished].
  destruct Hb as (Hsort & Hnd & _ & Hall). split_and!; [done..|].
  intros Hf r Hr. apply (Hall Hf). intros k. induction k as [|k (r' & Hr' & Hk)]; [by exists r|].
  destruct (lasting_rows l R (dbs k) (dbs (S k)) r' Hl) as (r2 & Hr2 & Hk2); [|done|done|].
  - apply task_steps_guarantee; [apply _|apply Hs].
  - exists r2. split; [done|congruence].
Qed.
End Reading.

(** ** At concrete inputs

    Slots 3 and 4 are stored when a client asks for its first page; slot 5 arrives before
    the second. *)
Section EndToEndWitnesses.
#[local] Existing Instances Bip350.bech32m Fips180.sha2 clock numeric urls.

Definition with_slot (h : Z) (d : DB) : DB :=
  match upsert_slot_stmt (sample_slot h "pending") None None None 0 d with
  | Ok (_, d') => d'
  | Err _ => d
  end.

Lemma with_slot_step h d : task_step d (with_slot h d).
Proof.
  refine (TaskStep _ _ _ (upsert_slot_stmt (sample_slot h "pending") None None None) 0 tt _ _);
    [by constructor|]. unfold with_slot, upsert_slot_stmt, upsert, no_check. simpl.
  by destruct (slots d !! as_i64 h).
Qed.

Definition two_slots : DB := with_slot 4 (with_slot 3 empty_db).
Definition growing (k : nat) : DB := match k with O => two_slots | S _ => with_slot 5 two_slots end.

Lemma two_slots_reached : rtc task_step empty_db two_slots.
Proof. eapply rtc_l; [apply with_slot_step|]. apply rtc_once, with_slot_step. Qed.
Lemma growing_steps k : rtc task_step (growing k) (growing (S k)).
Proof. destruct k; [apply rtc_once, with_slot_step|apply rtc_refl]. Qed.

Section Writing.
#[local] Existing Instance Rfc8259.json.

Lemma indexer_feeds_api_witness :
  store_ok (run (fun _ => None) sample_client 1 1 (Some 3) 1 sample_env (sample_world two_slots)).2.(w_db).
Proof.
  apply (indexer_feeds_api (fun _ => None) sample_client 1 1 (Some 3) 1 sample_env
    (sample_world two_slots)).
  - intros t d. apply rtc_refl.
  - apply two_slots_reached.
Defined.
End Writing.

#[local] Existing Instances SampleText.b64 SampleText.b64_laws Rfc8259.json
  Rfc8259.json_laws SampleText.text SampleText.text_laws.

Lemma pages_miss_nothing_witness :
  let '(rows, finished) := browse slots_page (Some 1) growing 3 0 None in
  rows.*1 = [4; 3] /\ NoDup rows.*1 /\ finished = true /\
  forall r, r ∈ map_to_list (slots two_slots) -> r.1 ∈ rows.*1.
Proof.
  pose proof (pages_miss_nothing slots_page nothing_asked (Some 1) growing 3) as Hp.
  destruct (browse slots_page (Some 1) growing 3 0 None) as [rows finished] eqn:Eb.
  simpl in Hp. destruct Hp as (_ & Hnd & Hall).
  - constructor.
  - intros k. exact I.
  - intros n [= <-]. lia.
  - apply two_slots_reached.
  - apply growing_steps.
  - assert (rows.*1 = [4; 3] /\ finished = true) as [Hr Hf]
      by (vm_compute in Eb; injection Eb as <- <-; split; reflexivity).
    split; [exact Hr|]. split; [exact Hnd|]. split; [exact Hf|exact (Hall Hf)].
Defined.
End EndToEndWitnesses.
