(* ===== verification/Routes.v ===== *)
(** * The router ([crates/api/src/main.rs])

    The table of [main]: which path pattern and method leads to which handler.  Choosing a
    pattern for a path is axum's work, the interface [Router]; that the choice is forced by
    the table, up to one path, is proved here. *)

From S2P Require Import Prelude.
Open Scope string_scope.
Open Scope list_scope.

(** A segment of a pattern is a word or a capture such as [{id}], which takes any
    non-empty segment. *)
Inductive Segment := Word (w : string) | Capture (name : string).

#[export] Instance segment_eq_dec : EqDecision Segment.
Proof. solve_decision. Defined.

(** [OPTIONS] never reaches the table: the CORS layer around the router answers it. *)
Inductive Method := GET | HEAD | POST | OPTIONS | OtherMethod.

#[export] Instance method_eq_dec : EqDecision Method.
Proof. solve_decision. Defined.

Inductive Endpoint :=
| health | info | drip | drip_status | drip_bot
| blocks_list | block_by_height | txs_list | tx_by_hash | address_summary | address_txs
| schemas_list | schema_by_id | attestor_sets_list | attestor_sets_by_member
| attestor_set_by_id | attestations_by_attestor_set | attestations_by_schema
| attestations_list | attestation_by_id
| bounties_list | bounties_matching | bounty_detail | contracts_list | contract_detail
| search
| totals | finality | next_block_eta | active_addresses | new_wallets_daily | tx_rate_daily
| attestations_daily | drips_daily | top_holders | top_attesters | top_schema_owners
| top_attestor_sets
| nodes.

#[export] Instance endpoint_eq_dec : EqDecision Endpoint.
Proof. solve_decision. Defined.

(** [.route(pattern, get(handler))] and [.route(pattern, post(handler))]. *)
Record Route := { rt_pattern : list Segment; rt_method : Method; rt_handler : Endpoint }.

Definition get (pattern : list Segment) (h : Endpoint) : Route :=
  {| rt_pattern := pattern; rt_method := GET; rt_handler := h |}.
Definition post (pattern : list Segment) (h : Endpoint) : Route :=
  {| rt_pattern := pattern; rt_method := POST; rt_handler := h |}.

(** A pattern below [/v1]. *)
Definition v1 (rest : list Segment) : list Segment := Word "v1" :: rest.

Definition routes : list Route := [
  get [Word "health"] health;
  get (v1 [Word "health"]) health;
  get (v1 [Word "info"]) info;
  post (v1 [Word "drip"]) drip;
  get (v1 [Word "drip"; Word "status"]) drip_status;
  post (v1 [Word "drip-bot"]) drip_bot;
  get (v1 [Word "blocks"]) blocks_list;
  get (v1 [Word "blocks"; Capture "height"]) block_by_height;
  get (v1 [Word "txs"]) txs_list;
  get (v1 [Word "txs"; Capture "hash"]) tx_by_hash;
  get (v1 [Word "addresses"; Capture "addr"]) address_summary;
  get (v1 [Word "addresses"; Capture "addr"; Word "txs"]) address_txs;
  get (v1 [Word "schemas"]) schemas_list;
  get (v1 [Word "schemas"; Capture "id"]) schema_by_id;
  get (v1 [Word "attestor-sets"]) attestor_sets_list;
  get (v1 [Word "attestor-sets"; Word "by-member"; Capture "pubkey"]) attestor_sets_by_member;
  get (v1 [Word "attestor-sets"; Capture "id"]) attestor_set_by_id;
  get (v1 [Word "attestor-sets"; Capture "id"; Word "attestations"])
    attestations_by_attestor_set;
  get (v1 [Word "schemas"; Capture "id"; Word "attestations"]) attestations_by_schema;
  get (v1 [Word "attestations"]) attestations_list;
  get (v1 [Word "attestations"; Capture "id"]) attestation_by_id;
  get (v1 [Word "bounties"]) bounties_list;
  get (v1 [Word "bounties"; Word "matching"; Capture "address"]) bounties_matching;
  get (v1 [Word "bounties"; Capture "bountyId"]) bounty_detail;
  get (v1 [Word "contracts"]) contracts_list;
  get (v1 [Word "contracts"; Capture "contractId"]) contract_detail;
  get (v1 [Word "search"]) search;
  get (v1 [Word "stats"; Word "totals"]) totals;
  get (v1 [Word "stats"; Word "finality"]) finality;
  get (v1 [Word "stats"; Word "next-block-eta"]) next_block_eta;
  get (v1 [Word "stats"; Word "active-addresses"]) active_addresses;
  get (v1 [Word "stats"; Word "new-wallets-daily"]) new_wallets_daily;
  get (v1 [Word "stats"; Word "tx-rate-daily"]) tx_rate_daily;
  get (v1 [Word "stats"; Word "attestations-daily"]) attestations_daily;
  get (v1 [Word "stats"; Word "drips-daily"]) drips_daily;
  get (v1 [Word "stats"; Word "top-holders"]) top_holders;
  get (v1 [Word "stats"; Word "top-attesters"]) top_attesters;
  get (v1 [Word "stats"; Word "top-schema-owners"]) top_schema_owners;
  get (v1 [Word "stats"; Word "top-attestor-sets"]) top_attestor_sets;
  get (v1 [Word "cluster"; Word "nodes"]) nodes ].

(** Does a path, cut at its slashes, have the shape of a pattern?  The captures come in
    the order of the pattern, which is the order [Path] extracts them in. *)
Fixpoint captures (pattern : list Segment) (path : list string) : option (list string) :=
  match pattern, path with
  | [], [] => Some []
  | Word w :: pattern, s :: path => if decide (w = s) then captures pattern path else None
  | Capture _ :: pattern, s :: path =>
      if decide (s = "") then None else cons s <$> captures pattern path
  | _, _ => None
  end.

(** [get] also answers HEAD. *)
Definition allows (r : Route) (m : Method) : bool :=
  match r.(rt_method), m with
  | GET, GET | GET, HEAD | POST, POST => true
  | _, _ => false
  end.

(** The router picks one of the patterns that have the shape of the path, when there is
    one. *)
Class Router := choose : list (list Segment) -> list string -> option (list Segment).
Class RouterLaws (R : Router) := {
  choose_some ps path p : choose ps path = Some p -> p ∈ ps /\ is_Some (captures p path);
  choose_none ps path : choose ps path = None -> forall p, p ∈ ps -> captures p path = None
}.

Inductive Routed :=
| Handled (h : Endpoint) (args : list string)
| NotFound
| MethodNotAllowed.

Section Routing.
Context `{Router}.

Definition dispatch (m : Method) (path : list string) : Routed :=
  match choose (rt_pattern <$> routes) path with
  | None => NotFound
  | Some p =>
      match list_find (fun r => rt_pattern r = p /\ allows r m = true) routes with
      | Some (_, r) => Handled r.(rt_handler) (default [] (captures p path))
      | None => MethodNotAllowed
      end
  end.
End Routing.

(** ** No two patterns meet *)

Definition meets (a b : Segment) : bool :=
  match a, b with Word v, Word w => bool_decide (v = w) | _, _ => true end.

Fixpoint overlap (p q : list Segment) : bool :=
  match p, q with
  | [], [] => true
  | a :: p, b :: q => meets a b && overlap p q
  | _, _ => false
  end.

Definition takes (a : Segment) (s : string) : Prop :=
  match a with Word w => w = s | Capture _ => s <> "" end.

Lemma captures_cons a p s path :
  is_Some (captures (a :: p) (s :: path)) <-> takes a s /\ is_Some (captures p path).
Proof.
  destruct a as [w|w]; simpl; case_decide; rewrite ?fmap_is_Some; split; try naive_solver;
    by intros [? ?].
Qed.

Lemma captures_overlap p q path :
  is_Some (captures p path) -> is_Some (captures q path) -> overlap p q = true.
Proof.
  revert q path. induction p as [|a p IH]; intros q path Hp Hq.
  - destruct path as [|s path]; [|by destruct Hp]. destruct q as [|[w|w] q]; by destruct Hq.
  - destruct path as [|s path]; [by destruct a; destruct Hp|].
    destruct q as [|b q]; [by destruct Hq|].
    apply captures_cons in Hp as [Ha Hp]. apply captures_cons in Hq as [Hb Hq].
    cbn [overlap]. rewrite (IH q path Hp Hq), andb_true_r.
    destruct a as [v|v], b as [w|w]; simpl in *; try done.
    apply bool_decide_eq_true_2. congruence.
Qed.

#[export] Instance route_eq_dec : EqDecision Route.
Proof. solve_decision. Defined.

(** The one path two patterns have the shape of. *)
Definition shared_path : list string := ["v1"; "attestor-sets"; "by-member"; "attestations"].
Definition by_member : Route :=
  get (v1 [Word "attestor-sets"; Word "by-member"; Capture "pubkey"]) attestor_sets_by_member.
Definition set_attestations : Route :=
  get (v1 [Word "attestor-sets"; Capture "id"; Word "attestations"])
    attestations_by_attestor_set.

Lemma by_member_in : by_member ∈ routes.
Proof. apply (bool_decide_unpack _). vm_compute. exact I. Qed.

Definition apart (r r' : Route) : Prop :=
  overlap r.(rt_pattern) r'.(rt_pattern) = false \/ r = r' \/
  (r = by_member /\ r' = set_attestations) \/ (r = set_attestations /\ r' = by_member).

#[export] Instance apart_dec r r' : Decision (apart r r').
Proof. unfold apart. apply _. Defined.

Lemma routes_apart r r' : r ∈ routes -> r' ∈ routes -> apart r r'.
Proof.
  assert (Forall (fun r => Forall (apart r) routes) routes) as Hall
    by (apply (bool_decide_unpack _); vm_compute; exact I).
  intros Hr Hr'. rewrite Forall_forall in Hall. specialize (Hall r Hr). simpl in Hall.
  rewrite Forall_forall in Hall. by apply Hall.
Qed.

Lemma both_shapes path :
  is_Some (captures by_member.(rt_pattern) path) ->
  is_Some (captures set_attestations.(rt_pattern) path) -> path = shared_path.
Proof.
  intros Hb Hs. destruct path as [|a [|b [|c [|d [|e path]]]]]; simpl in *; repeat case_decide;
    simplify_eq/=; by (destruct Hb as [? Hb] || destruct Hs as [? Hs]).
Qed.

(** A pattern is registered once, with one method. *)
Lemma same_pattern r r' :
  r ∈ routes -> r' ∈ routes -> r'.(rt_pattern) = r.(rt_pattern) -> r = r'.
Proof.
  intros Hr Hr' Hp. destruct (routes_apart r r' Hr Hr') as [Ho|[->|[[-> ->]|[-> ->]]]]; try done.
  rewrite Hp in Ho. exfalso. clear -Ho. induction (rt_pattern r) as [|[w|w] p IH]; simpl in Ho; [done| |auto].
  rewrite bool_decide_eq_true_2 in Ho by done. auto.
Qed.

Lemma one_route path r r' :
  r ∈ routes -> r' ∈ routes -> is_Some (captures r.(rt_pattern) path) ->
  is_Some (captures r'.(rt_pattern) path) -> path = shared_path \/ r = r'.
Proof.
  intros Hr Hr' Hc Hc'.
  destruct (routes_apart r r' Hr Hr') as [Ho|[->|[[-> ->]|[-> ->]]]].
  - by rewrite (captures_overlap _ _ _ Hc Hc') in Ho.
  - by right.
  - left. by apply both_shapes.
  - left. by apply both_shapes.
Qed.

Section Dispatch.
Context `{R : Router} `{RL : !RouterLaws R}.

Lemma dispatch_cases m path :
  (dispatch m path = NotFound /\
    forall r, r ∈ routes -> captures r.(rt_pattern) path = None) \/
  exists r args, r ∈ routes /\ captures r.(rt_pattern) path = Some args /\
    dispatch m path = if allows r m then Handled r.(rt_handler) args else MethodNotAllowed.
Proof.
  unfold dispatch. destruct (choose (rt_pattern <$> routes) path) as [p|] eqn:Ec.
  2: { left. split; [done|]. intros r Hr. eapply choose_none; [exact Ec|].
       by apply list_elem_of_fmap_2. }
  right. destruct (choose_some _ _ _ Ec) as [Hp [args Ha]].
  apply list_elem_of_fmap in Hp as (r & -> & Hr). exists r, args. split; [done|].
  split; [done|]. rewrite Ha. change (default [] (Some args)) with args.
  destruct (list_find (fun r0 => rt_pattern r0 = rt_pattern r /\ allows r0 m = true) routes)
    as [[i r']|] eqn:Ef.
  - apply list_find_Some in Ef as (Hi & [Hp Hm] & _).
    assert (r = r') as -> by (apply same_pattern; [done|by eapply list_elem_of_lookup_2|done]).
    by rewrite Hm.
  - destruct (allows r m) eqn:Em; [|done].
    apply list_find_None in Ef. rewrite Forall_forall in Ef. exfalso. apply (Ef r Hr). done.
Qed.

(** A handler is reached by a route of the table only. *)
Lemma handled_route m path h args :
  dispatch m path = Handled h args ->
  exists r, r ∈ routes /\ r.(rt_handler) = h /\ allows r m = true /\
    captures r.(rt_pattern) path = Some args.
Proof.
  destruct (dispatch_cases m path) as [[-> _]|(r & args' & Hr & Ha & ->)]; [done|].
  destruct (allows r m) eqn:Em; [|done]. intros [= <- <-]. by exists r.
Qed.

(** The route a path has the shape of is the one it takes. *)
Lemma dispatch_handled m path r args :
  path <> shared_path -> r ∈ routes -> allows r m = true ->
  captures r.(rt_pattern) path = Some args -> dispatch m path = Handled r.(rt_handler) args.
Proof.
  intros Hp Hr Hm Ha.
  destruct (dispatch_cases m path) as [[_ Hn]|(r' & args' & Hr' & Ha' & ->)].
  - by rewrite (Hn r Hr) in Ha.
  - destruct (one_route path r' r Hr' Hr (mk_is_Some _ _ Ha') (mk_is_Some _ _ Ha)) as [|<-]; [done|].
    rewrite Hm. congruence.
Qed.

(** C31: a request reaches exactly one handler.  For every path but one, the routing table
    alone decides: a request is handled by [h] with arguments [args] exactly when a route
    of [h] has the shape of the path, captures [args] and allows the method; it is 404
    exactly when no route has the shape, and 405 in the remaining cases.  The one path is
    of the shape of two routes, and goes to one of them. *)
Theorem routes_exact m path :
  (path <> shared_path ->
     (forall h args, dispatch m path = Handled h args <->
        exists r, r ∈ routes /\ r.(rt_handler) = h /\ allows r m = true /\
          captures r.(rt_pattern) path = Some args) /\
     (dispatch m path = NotFound <->
        forall r, r ∈ routes -> captures r.(rt_pattern) path = None)) /\
  (dispatch GET shared_path = Handled attestor_sets_by_member ["attestations"] \/
   dispatch GET shared_path = Handled attestations_by_attestor_set ["by-member"]).
Proof.
  split.
  - intros Hp. split.
    + intros h args. split; [apply handled_route|].
      intros (r & Hr & <- & Hm & Ha). by apply dispatch_handled.
    + destruct (dispatch_cases m path) as [[-> Hn]|(r & args & Hr & Ha & ->)]; [done|].
      split; [by destruct (allows r m)|]. intros Hn. by rewrite (Hn r Hr) in Ha.
  - destruct (dispatch_cases GET shared_path) as [[_ Hn]|(r & args & Hr & Ha & ->)].
    + by specialize (Hn by_member by_member_in).
    + assert (r = by_member \/ r = set_attestations) as [-> | ->].
      { destruct (routes_apart r by_member Hr by_member_in)
          as [Ho|[H1|[[H1 _]|[H1 _]]]]; [|by left|by left|by right].
        exfalso. by rewrite (captures_overlap r.(rt_pattern) by_member.(rt_pattern)
          shared_path (mk_is_Some _ _ Ha)) in Ho. }
      * left. by injection Ha as <-.
      * right. by injection Ha as <-.
Qed.
End Dispatch.

(** ** At concrete inputs *)

Module FirstMatch.
#[export] Instance router : Router := fun ps path =>
  snd <$> list_find (fun p => is_Some (captures p path)) ps.
#[export] Instance router_laws : RouterLaws router.
Proof.
  split.
  - intros ps path p. unfold choose, router.
    destruct (list_find (fun p => is_Some (captures p path)) ps) as [[i q]|] eqn:E; [|done]. intros [= <-].
    apply list_find_Some in E as (Hi & Hs & _). split; [by eapply list_elem_of_lookup_2|done].
  - intros ps path. unfold choose, router.
    destruct (list_find (fun p => is_Some (captures p path)) ps) as [[i q]|] eqn:E; [done|]. intros _ p Hp.
    apply list_find_None in E. rewrite Forall_forall in E. apply eq_None_not_Some, (E p Hp).
Qed.
End FirstMatch.

Section RoutesWitness.
#[local] Existing Instances FirstMatch.router FirstMatch.router_laws.

Lemma routes_exact_witness :
  (exists r, r ∈ routes /\ r.(rt_handler) = bounties_matching /\ allows r GET = true /\
     captures r.(rt_pattern) ["v1"; "bounties"; "matching"; "lig1a"] = Some ["lig1a"]) /\
  forall r, r ∈ routes -> captures r.(rt_pattern) ["v1"; "bounties"; ""] = None.
Proof.
  split.
  - destruct (routes_exact GET ["v1"; "bounties"; "matching"; "lig1a"]) as [He _].
    destruct He as [He _]; [discriminate|].
    apply (He bounties_matching ["lig1a"]). vm_compute. reflexivity.
  - destruct (routes_exact GET ["v1"; "bounties"; ""]) as [He _].
    destruct He as [_ He]; [discriminate|]. apply He. vm_compute. reflexivity.
Defined.

Example get_does_not_drip : dispatch GET ["v1"; "drip"] = MethodNotAllowed.
Proof. vm_compute. reflexivity. Qed.
End RoutesWitness.
