(* ===== verification/Migrations.v ===== *)
(** * The backfills of the migrations ([migrations/*.sql])

    Beside declaring the tables, four migrations rewrite rows that earlier versions of the
    indexer left: protocol fees by kind, parent hashes, finality of old slots, the fee
    column, and the attestations of the old id format.  Each is a function on the tables;
    they keep everything the reading theorems ask of a store.  What they label is final:
    the re-poll only looks at pending rows. *)

From S2P Require Import Prelude JsonSyntax Json Types Standards Bech32m Sha2 AttestationId Decode Parser Schema Io Db DbFacts Client Samples Ingest IngestSpec Pages Listing ListingSpec Lookup Typed EndToEnd.
Open Scope string_scope.
Open Scope list_scope.
Open Scope Z_scope.

(** ** The updates *)

Definition set_protocol_fee (r : TxRow) (fee : option Z) : TxRow :=
  {| tr_slot := r.(tr_slot); tr_position := r.(tr_position); tr_sender := r.(tr_sender);
     tr_sender_pubkey := r.(tr_sender_pubkey); tr_nonce := r.(tr_nonce);
     tr_fee_paid_nano := r.(tr_fee_paid_nano); tr_protocol_fee_nano := fee;
     tr_kind := r.(tr_kind); tr_details := r.(tr_details); tr_raw := r.(tr_raw);
     tr_outcome := r.(tr_outcome); tr_revert_reason := r.(tr_revert_reason);
     tr_indexed_at := r.(tr_indexed_at) |}.

Definition set_fee_paid (r : TxRow) (fee : option Z) : TxRow :=
  {| tr_slot := r.(tr_slot); tr_position := r.(tr_position); tr_sender := r.(tr_sender);
     tr_sender_pubkey := r.(tr_sender_pubkey); tr_nonce := r.(tr_nonce);
     tr_fee_paid_nano := fee; tr_protocol_fee_nano := r.(tr_protocol_fee_nano);
     tr_kind := r.(tr_kind); tr_details := r.(tr_details); tr_raw := r.(tr_raw);
     tr_outcome := r.(tr_outcome); tr_revert_reason := r.(tr_revert_reason);
     tr_indexed_at := r.(tr_indexed_at) |}.

Definition set_prev_hash (r : SlotRow) (h : option string) : SlotRow :=
  {| sl_hash := r.(sl_hash); sl_prev_hash := h; sl_state_root := r.(sl_state_root);
     sl_timestamp := r.(sl_timestamp); sl_batch_count := r.(sl_batch_count);
     sl_tx_count := r.(sl_tx_count); sl_proposer := r.(sl_proposer);
     sl_finality_status := r.(sl_finality_status); sl_finalized_at := r.(sl_finalized_at);
     sl_raw := r.(sl_raw); sl_da_block_height := r.(sl_da_block_height);
     sl_indexed_at := r.(sl_indexed_at) |}.

Definition set_finality (r : SlotRow) (status : option string) : SlotRow :=
  {| sl_hash := r.(sl_hash); sl_prev_hash := r.(sl_prev_hash);
     sl_state_root := r.(sl_state_root); sl_timestamp := r.(sl_timestamp);
     sl_batch_count := r.(sl_batch_count); sl_tx_count := r.(sl_tx_count);
     sl_proposer := r.(sl_proposer); sl_finality_status := status;
     sl_finalized_at := r.(sl_finalized_at); sl_raw := r.(sl_raw);
     sl_da_block_height := r.(sl_da_block_height); sl_indexed_at := r.(sl_indexed_at) |}.

(** [CASE kind WHEN ..]. *)
Definition historic_fee (kind : string) : option Z :=
  if (kind =? "register_attestor_set")%string then Some 50000000
  else if (kind =? "register_schema")%string then Some 100000000
  else if (kind =? "submit_attestation")%string then Some 100000
  else if (kind =? "transfer")%string then Some 0
  else None.

Definition update_txs (f : TxRow -> TxRow) (d : DB) : DB :=
  with_transactions (f <$> d.(transactions)) d.
Definition update_slots (f : Z -> SlotRow -> SlotRow) (d : DB) : DB :=
  with_slots (map_imap (fun h r => Some (f h r)) d.(slots)) d.

Definition backfill_protocol_fee : DB -> DB := update_txs (fun r =>
  match r.(tr_protocol_fee_nano) with
  | None => set_protocol_fee r (historic_fee r.(tr_kind))
  | Some _ => r
  end).

(** The subquery reads the hashes, which the statement does not change. *)
Definition backfill_prev_hash (d : DB) : DB := update_slots (fun h r =>
  if decide (r.(sl_prev_hash) = None /\ 0 < h)
  then set_prev_hash r (sl_hash <$> d.(slots) !! (h - 1))
  else r) d.

Definition backfill_finality (d : DB) : DB := update_slots (fun h r =>
  match r.(sl_finality_status), max_slot_height d with
  | None, Some top => if h <? top - 5 then set_finality r (Some FINALIZED) else r
  | _, _ => r
  end) d.

Definition backfill_fee_paid : DB -> DB := update_txs (fun r =>
  match r.(tr_fee_paid_nano) with None => set_fee_paid r (Some 0) | Some _ => r end).

(** [TRUNCATE TABLE attestations]. *)
Definition truncate_attestations (d : DB) : DB := with_attestations ∅ d.

(** In the order of the files. *)
Definition backfills (d : DB) : DB :=
  truncate_attestations (backfill_fee_paid (backfill_finality (backfill_prev_hash
    (backfill_protocol_fee d)))).

(** ** What they keep *)

Section Keep.
Context `{Bech32} `{Sha256} `{Chrono} `{PgNumeric}.

(** What a constraint, a type or a listing reads of a transaction or slot row. *)
Definition same_tx (r r' : TxRow) : Prop :=
  tr_slot r' = tr_slot r /\ tr_position r' = tr_position r /\ tr_nonce r' = tr_nonce r /\
  tr_kind r' = tr_kind r /\ tr_outcome r' = tr_outcome r /\
  tr_revert_reason r' = tr_revert_reason r.
Definition same_slot (r r' : SlotRow) : Prop :=
  sl_hash r' = sl_hash r /\ sl_batch_count r' = sl_batch_count r /\
  sl_tx_count r' = sl_tx_count r /\ sl_da_block_height r' = sl_da_block_height r.

Lemma historic_fee_typed k : opt_in_i64 (historic_fee k).
Proof. unfold historic_fee. repeat case_match; simpl; try done; lia_int. Qed.

Lemma has_slot_update f d h : has_slot (update_slots f d) h <-> has_slot d h.
Proof.
  unfold has_slot, update_slots. simpl. rewrite map_lookup_imap.
  by destruct (slots d !! h).
Qed.
Lemma has_tx_update f d h : has_tx (update_txs f d) h <-> has_tx d h.
Proof. unfold has_tx, update_txs. simpl. by rewrite lookup_fmap, fmap_is_Some. Qed.

Lemma update_txs_good f d :
  (forall r, same_tx r (f r)) ->
  (forall r, opt_in_i64 (tr_protocol_fee_nano r) -> opt_in_i64 (tr_protocol_fee_nano (f r))) ->
  (forall r, opt_in_i64 (tr_fee_paid_nano r) -> opt_in_i64 (tr_fee_paid_nano (f r))) ->
  good d -> good (update_txs f d).
Proof.
  intros Hf Hp Hq (Hok & Ht & Hi). split_and!; [|destruct Ht; split; simpl; try done|done].
  - destruct Hok. split; simpl; try done.
    + apply map_Forall_fmap. intros h r Hr. simpl. destruct (Hf r) as (_ & _ & _ & Hk & Ho & Hv).
      unfold tx_row_ok. rewrite Hk, Ho, Hv. by apply (ok_tx_rows h).
    + apply map_Forall_fmap. intros h r Hr. simpl. destruct (Hf r) as (Hs & _).
      unfold tx_refs. rewrite Hs. by apply (ok_tx_refs h).
    + intros k1 k2 v1 v2. rewrite !lookup_fmap, !fmap_Some.
      intros (r1 & Hr1 & ->) (r2 & Hr2 & ->). unfold slot_position.
      destruct (Hf r1) as (-> & -> & _), (Hf r2) as (-> & -> & _). by apply ok_tx_unique.
    + intros i r Hr. destruct (ok_set_refs i r Hr). split; [done|by apply has_tx_update].
    + intros i r Hr. destruct (ok_schema_refs i r Hr) as (? & ? & ?).
      split_and!; [done..|by apply has_tx_update].
    + intros i r Hr. destruct (ok_att_refs i r Hr) as (? & ? & ?).
      split_and!; [done..|by apply has_tx_update].
  - apply map_Forall_fmap. intros h r Hr. simpl. destruct (t_transactions h r Hr) as (? & ? & ? & ? & ?).
    destruct (Hf r) as (Hs & Hpo & Hn & _). unfold tx_typed. rewrite Hs, Hpo, Hn. auto 6.
Qed.

Lemma update_slots_good f d :
  (forall h r, same_slot r (f h r)) -> good d -> good (update_slots f d).
Proof.
  intros Hf (Hok & Ht & Hi). split_and!; [|destruct Ht; split; simpl; try done|done].
  - destruct Hok. split; simpl; try done.
    + intros i r Hr. apply has_slot_update. by apply (ok_tx_refs i).
    + intros i r Hr. destruct (ok_set_refs i r Hr). split; [by apply has_slot_update|done].
    + intros i r Hr. destruct (ok_schema_refs i r Hr) as (? & ? & ?).
      split_and!; [done|by apply has_slot_update|done].
    + intros i r Hr. destruct (ok_att_refs i r Hr) as (? & ? & ?).
      split_and!; [done|by apply has_slot_update|done].
  - intros h r. rewrite map_lookup_imap. destruct (slots d !! h) as [r0|] eqn:E; [|done].
    intros [= <-]. destruct (Hf h r0) as (_ & Hb & Hc & Hd). unfold slot_typed. rewrite Hb, Hc, Hd.
    by apply t_slots.
Qed.
End Keep.

Section Backfilled.
Context `{Bech32} `{Sha256} `{Chrono} `{PgNumeric}.

Lemma protocol_fee_good d : good d -> good (backfill_protocol_fee d).
Proof.
  apply update_txs_good; intros r; case_match;
    first [by split_and?|intros; congruence|intros; assumption|intros _; apply historic_fee_typed].
Qed.
Lemma fee_paid_good d : good d -> good (backfill_fee_paid d).
Proof.
  apply update_txs_good; intros r; case_match;
    first [by split_and?|intros; congruence|intros; assumption|intros _; simpl; lia_int].
Qed.
Lemma prev_hash_good d : good d -> good (backfill_prev_hash d).
Proof. apply update_slots_good. intros h r. by case_decide. Qed.
Lemma finality_good d : good d -> good (backfill_finality d).
Proof. apply update_slots_good. intros h r. repeat case_match; done. Qed.
Lemma truncate_good d : good d -> good (truncate_attestations d).
Proof.
  intros (Hok & Ht & _). split_and!; [destruct Hok|destruct Ht|]; try split; simpl;
    try done; try apply map_Forall_empty; intros k1 k2 v1 v2 Hk; by rewrite lookup_empty in Hk.
Qed.

(** The backfills leave a store the reading theorems speak about. *)
Theorem backfills_keep_store d : good d -> good (backfills d).
Proof.
  intros Hd. apply truncate_good, fee_paid_good, finality_good, prev_hash_good.
  by apply protocol_fee_good.
Qed.

(** [MAX(height)] only depends on which heights are stored. *)
Lemma max_slot_height_top d m :
  max_slot_height d = Some m <-> has_slot d m /\ forall h, has_slot d h -> h <= m.
Proof.
  assert (forall h, has_slot d h <-> h ∈ (map_to_list d.(slots)).*1) as Hin.
  { intros h. unfold has_slot. rewrite list_elem_of_fmap. split.
    - intros [r Hr]. exists (h, r). split; [done|by apply elem_of_map_to_list].
    - intros ([k r] & -> & Hr). apply elem_of_map_to_list in Hr. by exists r. }
  setoid_rewrite Hin. unfold max_slot_height. generalize (map_to_list d.(slots)).*1. clear.
  intros l. revert m. induction l as [|a l IH]; intros m; simpl.
  - split; [done|]. intros [Hm _]. by apply elem_of_nil in Hm.
  - setoid_rewrite elem_of_cons. destruct (fold_right _ _ l) as [x|] eqn:Ex.
    + destruct (proj1 (IH x) eq_refl) as [Hx Hl]. split.
      * intros [= <-]. split; [destruct (Z.max_spec a x) as [[_ ->]|[_ ->]]; auto|].
        intros h [->|Hh]; [lia|]. specialize (Hl h Hh). lia.
      * intros [Hm Ht]. f_equal. destruct Hm as [->|Hm].
        -- specialize (Ht x (or_intror Hx)). lia.
        -- specialize (Hl m Hm). pose proof (Ht x (or_intror Hx)). pose proof (Ht a (or_introl eq_refl)). lia.
    + destruct l as [|b l]; [|done].
      split; [intros [= <-]; split; [by left|intros h [->|Hh]; [lia|by apply elem_of_nil in Hh]]|].
      intros [[->|Hm] _]; [done|by apply elem_of_nil in Hm].
Qed.

Lemma max_slot_height_same d d' :
  (forall h, has_slot d' h <-> has_slot d h) -> max_slot_height d' = max_slot_height d.
Proof.
  intros Hs. apply option_eq. intros m. rewrite !max_slot_height_top.
  by setoid_rewrite Hs.
Qed.

Lemma stored_max d h r : d.(slots) !! h = Some r -> max_slot_height d <> None.
Proof.
  intros Hr. unfold max_slot_height. destruct (map_to_list d.(slots)) eqn:E; [|done].
  apply map_to_list_empty_iff in E. by rewrite E, lookup_empty in Hr.
Qed.

(** What the backfills make of a slot. *)
Definition backfilled (d : DB) (h : Z) (r : SlotRow) : SlotRow :=
  set_finality
    (set_prev_hash r (if decide (sl_prev_hash r = None /\ 0 < h)
                      then sl_hash <$> d.(slots) !! (h - 1) else sl_prev_hash r))
    (match sl_finality_status r, max_slot_height d with
     | None, Some top => if h <? top - 5 then Some FINALIZED else None
     | s, _ => s
     end).

Lemma backfilled_slot d h r :
  d.(slots) !! h = Some r -> (backfills d).(slots) !! h = Some (backfilled d h r).
Proof.
  intros Hr. set (d1 := backfill_prev_hash (backfill_protocol_fee d)).
  assert (max_slot_height d1 = max_slot_height d) as Hm.
  { apply max_slot_height_same. intros h'. unfold d1, backfill_prev_hash. by rewrite has_slot_update. }
  change ((backfills d).(slots)) with ((backfill_finality d1).(slots)).
  unfold backfill_finality. rewrite Hm. unfold update_slots at 1. simpl.
  rewrite !map_lookup_imap, Hr. simpl. unfold backfilled.
  destruct r as [? p ? ? ? ? ? f]; simpl. f_equal. case_decide as Hd; simpl;
    destruct f; try done; destruct (max_slot_height d) as [top|]; try done; by case_match.
Qed.

(** The file calls the update of the parent hashes idempotent. *)
Lemma prev_hash_idempotent d : backfill_prev_hash (backfill_prev_hash d) = backfill_prev_hash d.
Proof.
  unfold backfill_prev_hash, update_slots, with_slots. simpl. f_equal. apply map_eq. intros h.
  rewrite !map_lookup_imap. destruct (slots d !! h) as [r|] eqn:E; [|done]. simpl. f_equal.
  case_decide as Hd; simpl; case_decide as Hd'; try done; unfold set_prev_hash; simpl; f_equal.
  destruct (slots d !! (h - 1)) as [p|]; [|done]. simpl. f_equal.
  by case_decide.
Qed.

(** ** The re-poll after a migration *)

(** Row [h] is [r] and stays [r]. *)
Definition frozen (h : Z) (r : SlotRow) : relation DB := fun d d' =>
  d.(slots) !! h = Some r -> d'.(slots) !! h = Some r.

#[export] Instance frozen_preorder h r : PreOrder (frozen h r).
Proof. split; unfold frozen; [by intros d|intros x y z; auto]. Qed.

Lemma flip_frozen k h r :
  sl_finality_status r <> Some PENDING -> stmt_evolves (frozen h r) (flip_pending_stmt k).
Proof.
  intros Hr now d a d' Hs Hd. unfold flip_pending_stmt in Hs. cbv zeta in Hs.
  destruct (slots d !! as_i64 k) as [r0|] eqn:E; [|by injection Hs as _ <-].
  case_decide; [|by injection Hs as _ <-]. injection Hs as _ <-. simpl.
  rewrite lookup_insert_ne; [done|]. intros Hk. rewrite Hk in E. congruence.
Qed.

Context `{Urls} `{JsonText}.

Lemma repoll_frozen client h r :
  sl_finality_status r <> Some PENDING -> evolves (frozen h r) (repoll_step client).
Proof.
  intros Hr. unfold repoll_step.
  assert (forall l n, evolves (frozen h r) (flip_pending_loop l n)) as Hl.
  { intros l. induction l as [|[k s] l IH]; intros n; simpl; [by apply evolves_ret; apply _|].
    case_decide; [|apply IH].
    apply evolves_bind; [apply _|by apply evolves_exec, flip_frozen; [apply _|]|].
    intros [m|e]; [apply IH|by apply evolves_ret; apply _]. }
  assert (forall l, evolves (frozen h r) (observe client l)) as Ho.
  { intros l. induction l as [|k l IH]; simpl; unfold slot_at; evolves_go. }
  apply evolves_bind; [apply _|by apply query_evolves; apply _|].
  intros [[|k l]|e]; [apply evolves_ret; apply _| |apply evolves_ret; apply _].
  apply evolves_bind; [apply _|apply Ho|]. intros obs. unfold flip_pending_slots.
  destruct obs; [apply evolves_ret; apply _|apply Hl].
Qed.

(** A migration has the last word on finality.  A slot without a finality status is
    labelled finalized when it lies more than five below the highest one, and keeps no
    status otherwise; and whatever the node then reports, no pass of the re-poll changes
    that row: it looks at pending rows only. *)
Theorem backfilled_finality_stays client d h r e w :
  d.(slots) !! h = Some r -> sl_finality_status r = None ->
  w.(w_db) = backfills d -> rely (frozen h (backfilled d h r)) e ->
  (sl_finality_status (backfilled d h r) = Some FINALIZED /\
     (exists top, has_slot d top /\ h + 5 < top) \/
   sl_finality_status (backfilled d h r) = None /\
     forall top, has_slot d top -> top <= h + 5) /\
  (repoll_step client e w).2.(w_db).(slots) !! h = Some (backfilled d h r).
Proof.
  intros Hr Hn Hw He.
  assert (sl_finality_status (backfilled d h r) = Some FINALIZED /\
     (exists top, has_slot d top /\ h + 5 < top) \/
   sl_finality_status (backfilled d h r) = None /\
     forall top, has_slot d top -> top <= h + 5) as Hs.
  { unfold backfilled. simpl. rewrite Hn. destruct (max_slot_height d) as [top|] eqn:Em.
    - apply max_slot_height_top in Em as [Ht Hall].
      destruct (Z.ltb_spec h (top - 5)); [left|right]; split; try done.
      + exists top. split; [done|lia].
      + intros t Htt. specialize (Hall t Htt). lia.
    - exfalso. assert (max_slot_height d <> None) as []; [|done]. by apply (stored_max d h r). }
  split; [exact Hs|].
  apply (repoll_frozen client h (backfilled d h r)); [|done|].
  - destruct Hs as [[-> _]|[-> _]]; done.
  - rewrite Hw. by apply backfilled_slot.
Qed.
End Backfilled.

(** ** At concrete inputs

    Two slots an indexer of the first version stored, without finality. *)
Section MigrationsWitness.
#[local] Existing Instances Bip350.bech32m Fips180.sha2 clock numeric urls Rfc8259.json.

Definition legacy_slot : SlotRow := {|
  sl_hash := "0xaa"; sl_prev_hash := None; sl_state_root := None; sl_timestamp := 0;
  sl_batch_count := 0; sl_tx_count := 0; sl_proposer := None; sl_finality_status := None;
  sl_finalized_at := None; sl_raw := JNull; sl_da_block_height := None; sl_indexed_at := 0 |}.
Definition legacy_db : DB := with_slots {[1 := legacy_slot; 10 := legacy_slot]} empty_db.

Lemma backfilled_finality_stays_witness :
  (repoll_step sample_client sample_env (sample_world (backfills legacy_db))).2.(w_db).(slots)
    !! 10 = Some (backfilled legacy_db 10 legacy_slot).
Proof.
  destruct (backfilled_finality_stays sample_client legacy_db 10 legacy_slot sample_env
    (sample_world (backfills legacy_db))) as (_ & Hk).
  - reflexivity.
  - reflexivity.
  - reflexivity.
  - intros t d. unfold frozen. by intros Hd.
  - exact Hk.
Defined.

Example legacy_labels :
  (sl_finality_status <$> (backfills legacy_db).(slots) !! 1,
   sl_finality_status <$> (backfills legacy_db).(slots) !! 10) =
  (Some (Some "finalized"), Some None).
Proof. vm_compute. reflexivity. Qed.
End MigrationsWitness.
