(* ===== verification/Service.v ===== *)
(** * The process ([crates/api/src/main.rs], [crates/indexer/src/lib.rs])

    [main] from the environment to the two things it starts: the state every handler
    shares, and the indexer task.  Connecting to Postgres, running the migrations and
    opening the socket are sqlx's and tokio's, the interface [Platform]. *)

From S2P Require Import Prelude JsonSyntax Json Types Standards Bech32m Sha2 AttestationId Decode Parser Schema Io Db DbFacts History Client Samples Ingest IngestSpec Config Drip Startup StatsCache Cluster Pages Listing ListingSpec Typed EndToEnd Migrations.
Open Scope string_scope.
Open Scope list_scope.
Open Scope Z_scope.
Open Scope io_scope.

Class Platform := {
  SocketAddr : Type;
  parse_socket_addr : string -> option SocketAddr;
  display_addr : SocketAddr -> string;
  (** At an instant: does a pool of so many connections open; do the migrations run, and
      to what tables; does the port open? *)
  pool_connect : nat -> string -> Z -> bool;
  run_migrations : nat -> DB -> result string DB;
  tcp_bind : nat -> SocketAddr -> bool
}.

Section Service.
Context `{HX : Hex} `{SdkReads} `{Bech32} `{Sha256} `{Chrono} `{PgNumeric} `{Urls} `{JsonText}
  `{PF : Platform} (base64_decode : string -> option (list Z)).

(** [AppState]; the pool is the database of the world. *)
Record AppState := {
  config : Config;
  signer : Signer;
  rate_limiter : RateLimiter;
  stats_cache : StatsCache;
  cluster_cache : ClusterCache
}.

Record IndexerConfig := {
  rpc_url : string;
  ix_database_url : string;
  start_height : option Z;
  numeric_chain_id : Z
}.

(** A read of the outside world that is an error when it is [false]. *)
Definition attempt_at (f : nat -> bool) (err : string) : IO (result string unit) :=
  ok ← at_tick f; mret (if ok : bool then Ok tt else Err err).

Definition connect (database_url : string) : IO (result string unit) :=
  attempt_at (fun t => pool_connect t database_url 8) "connect".

Definition migrate : IO (result string unit) := fun e w =>
  let d := e.(env_other) w.(w_tick) w.(w_db) in
  match run_migrations w.(w_tick) d with
  | Ok d' => (Done (Ok tt), {| w_db := d'; w_tick := S w.(w_tick) |})
  | Err _ => (Done (Err "running sqlx migrations"), {| w_db := d; w_tick := S w.(w_tick) |})
  end.

(** [ligate_api_indexer::run], observed for [tries] bootstrap passes and [n] main passes:
    the loop itself never returns, so an error is the only way out. *)
Definition indexer_run (tries n : nat) (cfg : IndexerConfig) : IO (result string (option Z)) :=
  match new cfg.(rpc_url) with
  | Err _ => mret (Err "client")
  | Ok client =>
      _ ←? connect cfg.(ix_database_url);
      next ← run base64_decode client tries n cfg.(start_height) cfg.(numeric_chain_id);
      mret (Ok next)
  end.

(** What a started process is: the state behind the router, the task beside it, and the
    address it listens on. *)
Record Serving := { sv_state : AppState; sv_indexer : IndexerConfig; sv_addr : SocketAddr }.

Definition app_state (c : Config) (s : Signer) : AppState := {|
  config := c; signer := s;
  rate_limiter := new_limiter (c.(drip_rate_limit_secs) * 1000000000);
  stats_cache := new_cache; cluster_cache := None |}.

Definition indexer_config (c : Config) : IndexerConfig := {|
  rpc_url := c.(chain_rpc); ix_database_url := c.(database_url);
  start_height := c.(indexer_start_height); numeric_chain_id := c.(Config.chain_id) |}.

Definition main (vars : Vars) : IO (result string Serving) :=
  loaded ← lift (from_env vars);
  match loaded with
  | Err _ => mret (Err "loading config from env")
  | Ok c =>
      match parse_socket_addr c.(bind) with
      | None => mret (Err "parsing API_BIND as SocketAddr")
      | Some addr =>
          _ ←? attempt_at (fun t => pool_connect t c.(database_url) c.(pg_pool_size))
                 ("connecting to Postgres at " ++ redact_pg_url c.(database_url))%string;
          _ ←? migrate;
          s ←? boot_signer c;
          _ ←? attempt_at (fun t => tcp_bind t addr)
                 ("binding listener at " ++ display_addr addr)%string;
          mret (Ok {| sv_state := app_state c s; sv_indexer := indexer_config c;
                      sv_addr := addr |})
      end
  end.

(** ** What a started process is *)

Definition interim (R : relation DB) : Prop :=
  forall t d d', run_migrations t d = Ok d' -> R d d'.

Lemma migrate_evolves R `{!PreOrder R} : interim R -> evolves R migrate.
Proof.
  intros Hm e w He. unfold migrate.
  destruct (run_migrations _ _) as [d'|] eqn:Ed; simpl; [|apply He].
  etrans; [apply He|by eapply Hm].
Qed.

#[local] Hint Resolve at_tick_evolves migrate_evolves : io.

Lemma retry_evolves R `{!PreOrder R} s n last : evolves R (query_balance_with_retry s n last).
Proof.
  revert last. induction n as [|n IH]; intros last; simpl;
    unfold query_self_balance, query_balance_for; evolves_go.
Qed.
#[local] Hint Resolve retry_evolves : io.

(** Starting the process only migrates the tables. *)
Lemma main_evolves R `{!PreOrder R} vars : interim R -> evolves R (main vars).
Proof.
  intros Hm. unfold main, boot_signer, new_with_chain_seed, budget_check, attempt_at. evolves_go.
Qed.

Lemma indexer_run_evolves R `{!Guarantee R} tries n cfg :
  evolves R (indexer_run tries n cfg).
Proof.
  unfold indexer_run, connect, attempt_at. destruct (new _) as [client|]; [|evolves_go].
  apply evolves_try; [apply _|evolves_go|]. intros _.
  apply evolves_bind; [apply _|exact (run_evolves base64_decode client R tries n _ _)|evolves_go].
Qed.

(** The steps of a start that succeeded. *)
Lemma main_serves vars e w sv w' :
  main vars e w = (Done (Ok sv), w') ->
  exists c addr s w1 w2, from_env vars = Done (Ok c) /\ parse_socket_addr c.(bind) = Some addr /\
    boot_signer c e w1 = (Done (Ok s), w2) /\
    sv = {| sv_state := app_state c s; sv_indexer := indexer_config c; sv_addr := addr |}.
Proof.
  unfold main, attempt_at, at_tick, lift, try, mbind, io_bind, mret, io_ret.
  destruct (from_env vars) as [[c|]|]; try done. cbv beta iota.
  destruct (parse_socket_addr _) as [addr|] eqn:Ea; [|done].
  destruct (pool_connect _ _ _); [|done]. cbv beta iota.
  destruct (migrate e _) as [[[[]|]|] w1]; try done. cbv beta iota.
  destruct (boot_signer c e w1) as [[[s|]|] w2] eqn:Eb; try done. cbv beta iota.
  destruct (tcp_bind _ _); [|done]. intros [= <- _]. by exists c, addr, s, w1, w2.
Qed.

Lemma keeping_good e : interleaved e -> rely (keeping good) e.
Proof. intros He t d. unfold keeping. apply good_steps, He. Qed.

(** The migrations of the repository, where they rewrite rows, are as the next theorem
    asks. *)
Lemma backfills_interim :
  (forall t d, run_migrations t d = Ok (backfills d)) -> interim (keeping good).
Proof. intros Hm t d d'. rewrite Hm. intros [= <-]. exact (backfills_keep_store d). Qed.

Context `{HL : !HexLaws HX}.

(** C26: what a process that serves has been wired to.  Its configuration is the one the
    environment declares; the limiter and both caches are fresh; the indexer walks the
    node the signer pays through, decodes transactions with the chain id the signer signs
    with, and starts where the configuration says; the signer could pay for the minimal
    number of drips and counts from the pinned nonce, or the chain's.  When the
    migrations leave a store the API can read, every state the spawned indexer then
    reaches is one. *)
Theorem main_wires vars e w sv w' :
  (forall t u a k b, get_balance_for_holder t u a k = Ok b -> 0 <= b) ->
  main vars e w = (Done (Ok sv), w') ->
  let c := config sv.(sv_state) in
  let s := signer sv.(sv_state) in
  configured vars c /\
  sv.(sv_state) = app_state c s /\ sv.(sv_indexer) = indexer_config c /\
  s.(sg_chain_id) = numeric_chain_id sv.(sv_indexer) /\
  s.(submitter_url) = chain_rpc_with_v1 (rpc_url sv.(sv_indexer)) /\
  (0 < c.(drip_min_budget) ->
     exists t balance,
       get_balance_for_holder t s.(submitter_url) (sov_address s.(private_key))
         s.(avow_token_id) = Ok balance /\
       c.(drip_min_budget) * c.(cfg_drip_amount) <= balance) /\
  match c.(drip_starting_nonce) with
  | Some n => s.(sg_nonce) = n
  | None => exists t, get_nonce_for_public_key t s.(submitter_url) s.(private_key) =
                        Ok s.(sg_nonce)
  end /\
  (interleaved e -> interim (keeping good) -> good w.(w_db) ->
     forall tries n, store_ok (indexer_run tries n sv.(sv_indexer) e w').2.(w_db)).
Proof.
  intros Hbal Hm. destruct (main_serves vars e w sv w' Hm) as (c & addr & s & w1 & w2 & Hc & _ & Hb & ->).
  cbv zeta. simpl. apply from_env_sound in Hc.
  assert (0 <= cfg_drip_amount c) as Ha.
  { pose proof (c_drip_amount _ _ Hc) as Hv. unfold var_value in Hv.
    destruct (vars "DRIP_AMOUNT"); [|lia]. by apply parse_uint_range in Hv as [? _]. }
  destruct (boot_signer_ready c e w1 s w2 Hbal Ha Hb) as (Hbud & _ & Hid & Hu & Hn).
  split_and!; try done. intros He Hi Hg tries n. apply good_store.
  assert (good w'.(w_db)) as Hg'.
  { pose proof (main_evolves (keeping good) vars Hi e w (keeping_good e He) Hg) as Hd.
    by rewrite Hm in Hd. }
  eapply good_steps; [|exact Hg'].
  exact (indexer_run_evolves (rtc task_step) tries n _ e w' (interleaved_rely (rtc task_step) e He)).
Qed.
End Service.

(** ** At concrete inputs

    A fresh Postgres and a chain that answers from the fourth instant on. *)
Section ServiceWitness.
#[local] Existing Instances SampleHex.hex SampleHex.hex_laws SampleSdk.sdk
  Bip350.bech32m Fips180.sha2 clock numeric urls Rfc8259.json.

#[local] Instance platform : Platform := {|
  SocketAddr := string;
  parse_socket_addr := Some;
  display_addr a := a;
  pool_connect _ _ _ := true;
  run_migrations _ d := Ok d;
  tcp_bind _ _ := true
|}.

Definition serves (o : outcome (result string Serving) * World) : bool :=
  match o with (Done (Ok _), _) => true | _ => false end.

Lemma main_wires_witness :
  match main (SampleSdk.vars "100000000000") SampleSdk.env SampleSdk.world with
  | (Done (Ok sv), w') =>
      rate_limiter sv.(sv_state) = new_limiter (86400 * 1000000000) /\
      sg_chain_id (signer sv.(sv_state)) = numeric_chain_id sv.(sv_indexer) /\
      store_ok (indexer_run (fun _ => None) 1 1 sv.(sv_indexer) SampleSdk.env w').2.(w_db)
  | _ => False
  end.
Proof.
  assert (serves (main (SampleSdk.vars "100000000000") SampleSdk.env SampleSdk.world) = true)
    as Hok by (vm_compute; reflexivity).
  destruct (main (SampleSdk.vars "100000000000") SampleSdk.env SampleSdk.world)
    as [[[sv|m]|] w'] eqn:Em; [|discriminate Hok..].
  destruct (main_wires (fun _ => None) (SampleSdk.vars "100000000000") SampleSdk.env
    SampleSdk.world sv w') as (Hc & Hs & _ & Hid & _ & _ & _ & Hst).
  - intros t u a k b. simpl. destruct (t <? 3)%nat; [done|]. intros [= <-]. done.
  - exact Em.
  - split; [|split; [exact Hid|]].
    + assert (drip_rate_limit_secs (config sv.(sv_state)) = 86400) as Hr
        by exact (c_rate_limit _ _ Hc).
      rewrite Hs. unfold app_state. cbn [rate_limiter]. by rewrite Hr.
    + apply Hst; [intros t d; apply rtc_refl| |apply good_empty].
      intros t d d' [= <-]. by unfold keeping.
Defined.

(** A port in use stops the start after the migrations and the signer's queries. *)
Example port_in_use :
  (main (PF := {| SocketAddr := string; parse_socket_addr := Some; display_addr a := a;
          pool_connect _ _ _ := true; run_migrations _ d := Ok d; tcp_bind _ _ := false |})
     (SampleSdk.vars "100000000000") SampleSdk.env SampleSdk.world).1 =
  Done (Err "binding listener at 0.0.0.0:8080").
Proof. vm_compute. reflexivity. Qed.
End ServiceWitness.
