(* ===== verification/Extract.v ===== *)
(** * Extractors ([crates/api/src/handlers.rs], [stats.rs], [bot_drip.rs])

    From an HTTP request to the typed call of a handler: path captures, the query structs,
    the JSON bodies, and axum's rejections.  Percent decoding, the splitting of a query
    string, MIME types and the text of JSON are axum's and serde's, the interface [Web]. *)

From S2P Require Import Prelude Json Types BotDrip Pages Listing StatsApi Routes.
Open Scope string_scope.
Open Scope list_scope.
Open Scope Z_scope.

(** The header names are in lower case; the query is the text after the question mark. *)
Record HttpRequest := {
  hr_method : Method;
  hr_path : list string;
  hr_query : string;
  hr_headers : list (string * string);
  hr_body : string
}.

Class Web := {
  (** A captured segment, decoded; [None] when it is not UTF-8. *)
  percent_decode : string -> option string;
  (** The decoded pairs of a query string, in order. *)
  query_pairs : string -> list (string * string);
  is_json_mime : string -> bool;
  (** A JSON text with its integers exact and repeated members kept. *)
  json_body : string -> option Value;
  (** For a text that is not JSON: does a member of the wrong shape come before the
      fault? *)
  data_error_first : Endpoint -> string -> bool
}.

(** A text as chrono's [DateTime<Utc>] reads it, in microseconds. *)
Class DateTimeText := parse_datetime : string -> option Z.

(** ** Query structs

    A derived query struct takes each field at most once, reads a number with
    [str::parse], ignores unknown keys and leaves an absent [Option] at [None]. *)

Definition values_of (k : string) (pairs : list (string * string)) : list string :=
  (filter (fun kv : string * string => kv.1 = k) pairs).*2.

Definition query_opt {A} (parse : string -> option A) (k : string)
    (pairs : list (string * string)) : option (option A) :=
  match values_of k pairs with
  | [] => Some None
  | [v] => Some <$> parse v
  | _ => None
  end.

(** A field that is not an [Option] must be there. *)
Definition query_req {A} (parse : string -> option A) (k : string)
    (pairs : list (string * string)) : option A :=
  o ← query_opt parse k pairs; o.

Definition text_param : string -> option string := Some.
Definition u32_param : string -> option Z := parse_uint u32_max.
Definition u64_param : string -> option Z := parse_uint u64_max.

Definition de_PaginationParams (q : list (string * string)) : option PaginationParams :=
  limit ← query_opt u32_param "limit" q; before ← query_opt text_param "before" q;
  Some {| p_limit := limit; p_before := before |}.

Record SchemasListParams := { sp_page : PaginationParams; sp_attestor_set_id : option string }.
Definition de_SchemasListParams (q : list (string * string)) : option SchemasListParams :=
  page ← de_PaginationParams q;
  attestor_set_id ← query_opt text_param "attestor_set_id" q;
  Some {| sp_page := page; sp_attestor_set_id := attestor_set_id |}.

Record TxsListParams := {
  tp_page : PaginationParams; tp_kind : option string; tp_block_height : option Z }.
Definition de_TxsListParams (q : list (string * string)) : option TxsListParams :=
  page ← de_PaginationParams q;
  kind ← query_opt text_param "kind" q; block_height ← query_opt u64_param "block_height" q;
  Some {| tp_page := page; tp_kind := kind; tp_block_height := block_height |}.

Record BountiesListParams := {
  bp_page : PaginationParams; bp_board : option string; bp_status : option string }.
Definition de_BountiesListParams (q : list (string * string)) : option BountiesListParams :=
  page ← de_PaginationParams q;
  board ← query_opt text_param "board" q; status ← query_opt text_param "status" q;
  Some {| bp_page := page; bp_board := board; bp_status := status |}.

Record ContractsListParams := {
  cp_page : PaginationParams; cp_status : option string; cp_poster : option string;
  cp_arbiter : option string }.
Definition de_ContractsListParams (q : list (string * string)) : option ContractsListParams :=
  page ← de_PaginationParams q;
  status ← query_opt text_param "status" q; poster ← query_opt text_param "poster" q;
  arbiter ← query_opt text_param "arbiter" q;
  Some {| cp_page := page; cp_status := status; cp_poster := poster; cp_arbiter := arbiter |}.

Definition de_SearchParams : list (string * string) -> option string := query_req text_param "q".
Definition de_DripStatusQuery : list (string * string) -> option (option string) :=
  query_opt text_param "address".
Definition de_ActiveAddressesQuery : list (string * string) -> option (option string) :=
  query_opt text_param "window".
(** [NewWalletsDailyQuery], [AttestationsDailyQuery], [TxRateDailyQuery],
    [DripsDailyQuery]. *)
Definition de_DaysQuery : list (string * string) -> option (option Z) := query_opt u32_param "days".
(** [TopHoldersQuery], [LeaderboardQuery]. *)
Definition de_LeaderboardQuery : list (string * string) -> option (option Z) := query_opt u32_param "n".

(** ** Bodies *)

(** A member that a struct declares may come once only. *)
Definition repeats (names : list string) (v : Value) : bool :=
  match v with
  | JObject m => existsb (fun k => (1 <? length (filter (fun kv : string * Value => kv.1 = k) m))%nat) names
  | _ => false
  end.
Definition body_fields (names : list string) (v : Value) : option (list slot) :=
  if repeats names v then None else struct_fields names v.

Definition de_DripRequest (v : Value) : option string :=
  match body_fields ["address"] v with
  | Some [x_address] => field de_string x_address
  | _ => None
  end.

(** A unit variant is its name, or an object of the name and [null]. *)
Definition variant_name (v : Value) : option string :=
  match v with JString s => Some s | JObject [(k, JNull)] => Some k | _ => None end.
Definition de_Tier (v : Value) : option Tier :=
  name ← variant_name v;
  if (name =? "newcomer")%string then Some Newcomer
  else if (name =? "regular")%string then Some Regular
  else if (name =? "veteran")%string then Some Veteran
  else if (name =? "elder")%string then Some Elder
  else None.
Definition ser_Tier (t : Tier) : Value := JString (BotDrip.as_str t).

Definition de_u128 : Value -> option Z := de_uint u128_max.

Section Bodies.
Context `{DateTimeText}.

Definition de_datetime (v : Value) : option Z := s ← de_string v; parse_datetime s.

Definition de_TierEvidence (v : Value) : option TierEvidence :=
  match body_fields ["joined_at"; "account_created_at"] v with
  | Some [x_joined_at; x_account_created_at] =>
      joined ← field_opt de_datetime x_joined_at;
      created ← field_opt de_datetime x_account_created_at;
      Some {| joined_at := joined; account_created_at := created |}
  | _ => None
  end.

Definition de_DripBotRequest (v : Value) : option DripBotRequest :=
  match body_fields ["address"; "discord_user_id"; "tier"; "amount_nano"; "tier_evidence"] v with
  | Some [x_address; x_discord_user_id; x_tier; x_amount_nano; x_tier_evidence] =>
      address ← field de_string x_address;
      user ← field de_string x_discord_user_id;
      tier ← field de_Tier x_tier;
      amount ← field de_u128 x_amount_nano;
      evidence ← field_opt de_TierEvidence x_tier_evidence;
      Some {| req_address := address; req_discord_user_id := user; req_tier := tier;
              req_amount_nano := amount; req_tier_evidence := evidence |}
  | _ => None
  end.
End Bodies.

(** ** Calls

    A handler with its extracted arguments. *)
Inductive Call :=
| Health
| Info
| DripTo (address : string)
| DripStatus (address : option string)
| DripBot (provided : option string) (req : DripBotRequest)
| BlocksList (params : PaginationParams)
| BlockByHeight (height : Z)
| TxsList (params : TxsListParams)
| TxByHash (hash : string)
| AddressSummary (addr : string)
| AddressTxs (addr : string) (params : PaginationParams)
| SchemasList (params : SchemasListParams)
| SchemaById (id : string)
| AttestorSetsList (params : PaginationParams)
| AttestorSetsByMember (pubkey : string) (params : PaginationParams)
| AttestorSetById (id : string)
| AttestationsByAttestorSet (id : string) (params : PaginationParams)
| AttestationsBySchema (id : string) (params : PaginationParams)
| AttestationsList (params : PaginationParams)
| AttestationById (id : string)
| BountiesList (params : BountiesListParams)
| BountiesMatching (address : string)
| BountyDetail (id : string)
| ContractsList (params : ContractsListParams)
| ContractDetail (id : string)
| Search (q : string)
| Stats (r : StatsRequest)
| Nodes.

Section Extract.
Context `{Web} `{DateTimeText}.

(** axum's rejections: a capture or a query that does not read is 400; a body is 415
    without a JSON content type, 413 beyond two megabytes, 400 when it is not JSON, 422
    when it has another shape. *)
Definition REJECT_PARAM : Z := 400.
Definition BODY_LIMIT : Z := 2097152.

Definition path_param {A} (parse : string -> option A) (s : string) : result Z A :=
  match percent_decode s ≫= parse with Some a => Ok a | None => Err REJECT_PARAM end.

Definition query_params {A} (de : list (string * string) -> option A) (r : HttpRequest)
  : result Z A :=
  match de (query_pairs r.(hr_query)) with Some a => Ok a | None => Err REJECT_PARAM end.

Definition header (k : string) (r : HttpRequest) : option string := head (values_of k r.(hr_headers)).

Definition json_params {A} (h : Endpoint) (de : Value -> option A) (r : HttpRequest)
  : result Z A :=
  if negb (match header "content-type" r with Some m => is_json_mime m | None => false end)
  then Err 415
  else if BODY_LIMIT <? Z.of_nat (String.length r.(hr_body)) then Err 413
  else match json_body r.(hr_body) with
  | None => Err (if data_error_first h r.(hr_body) then 422 else 400)
  | Some v => match de v with Some a => Ok a | None => Err 422 end
  end.

(** [headers.get("x-bot-secret").and_then(|h| h.to_str().ok())]: visible ASCII. *)
Definition visible (c : ascii) : bool :=
  let n := N_of_ascii c in ((32 <=? n) && (n <? 127) || (n =? 9))%N.
Definition bot_secret (r : HttpRequest) : option string :=
  s ← header "x-bot-secret" r;
  if forallb visible (list_ascii_of_string s) then Some s else None.

(** The one capture of a pattern. *)
Definition arg (args : list string) : string := default "" (head args).

Definition extract (h : Endpoint) (args : list string) (r : HttpRequest) : result Z Call :=
  let text := path_param text_param (arg args) in
  let page := query_params de_PaginationParams r in
  match h with
  | health => Ok Health
  | info => Ok Info
  | drip => a ← json_params h de_DripRequest r; Ok (DripTo a)
  | drip_status => a ← query_params de_DripStatusQuery r; Ok (DripStatus a)
  | drip_bot => req ← json_params h de_DripBotRequest r; Ok (DripBot (bot_secret r) req)
  | blocks_list => p ← page; Ok (BlocksList p)
  | block_by_height => n ← path_param u64_param (arg args); Ok (BlockByHeight n)
  | txs_list => p ← query_params de_TxsListParams r; Ok (TxsList p)
  | tx_by_hash => a ← text; Ok (TxByHash a)
  | address_summary => a ← text; Ok (AddressSummary a)
  | address_txs => a ← text; p ← page; Ok (AddressTxs a p)
  | schemas_list => p ← query_params de_SchemasListParams r; Ok (SchemasList p)
  | schema_by_id => a ← text; Ok (SchemaById a)
  | attestor_sets_list => p ← page; Ok (AttestorSetsList p)
  | attestor_sets_by_member => a ← text; p ← page; Ok (AttestorSetsByMember a p)
  | attestor_set_by_id => a ← text; Ok (AttestorSetById a)
  | attestations_by_attestor_set => a ← text; p ← page; Ok (AttestationsByAttestorSet a p)
  | attestations_by_schema => a ← text; p ← page; Ok (AttestationsBySchema a p)
  | attestations_list => p ← page; Ok (AttestationsList p)
  | attestation_by_id => a ← text; Ok (AttestationById a)
  | bounties_list => p ← query_params de_BountiesListParams r; Ok (BountiesList p)
  | bounties_matching => a ← text; Ok (BountiesMatching a)
  | bounty_detail => a ← text; Ok (BountyDetail a)
  | contracts_list => p ← query_params de_ContractsListParams r; Ok (ContractsList p)
  | contract_detail => a ← text; Ok (ContractDetail a)
  | search => q ← query_params de_SearchParams r; Ok (Search q)
  | totals => Ok (Stats Totals)
  | finality => Ok (Stats Finality)
  | next_block_eta => Ok (Stats NextBlockEta)
  | active_addresses => o ← query_params de_ActiveAddressesQuery r; Ok (Stats (ActiveAddresses o))
  | new_wallets_daily => o ← query_params de_DaysQuery r; Ok (Stats (NewWalletsDaily o))
  | tx_rate_daily => o ← query_params de_DaysQuery r; Ok (Stats (TxRateDaily o))
  | attestations_daily => o ← query_params de_DaysQuery r; Ok (Stats (AttestationsDaily o))
  | drips_daily => o ← query_params de_DaysQuery r; Ok (Stats (DripsDaily o))
  | top_holders => o ← query_params de_LeaderboardQuery r; Ok (Stats (TopHolders o))
  | top_attesters => o ← query_params de_LeaderboardQuery r; Ok (Stats (TopAttesters o))
  | top_schema_owners => o ← query_params de_LeaderboardQuery r; Ok (Stats (TopSchemaOwners o))
  | top_attestor_sets => o ← query_params de_LeaderboardQuery r; Ok (Stats (TopAttestorSets o))
  | nodes => Ok Nodes
  end.

(** Routing and extraction: what a request calls, or the status it is turned away with. *)
Definition call_of `{Router} (r : HttpRequest) : result Z Call :=
  match dispatch r.(hr_method) r.(hr_path) with
  | Handled h args => extract h args r
  | NotFound => Err 404
  | MethodNotAllowed => Err 405
  end.
End Extract.
