(* ===== verification/ExtractSpec.v ===== *)
(** * Every call has a request

    A client's side of the extractors: the request for a call, and that the router and the
    extractors give the call back.  What a request is turned away with. *)

From S2P Require Import Prelude Json Types BotDrip Pages Listing StatsApi Lookup LookupSpec Standards AttestationId Samples Routes Extract.
From stdpp Require Import countable list.
Open Scope string_scope.
Open Scope list_scope.
Open Scope Z_scope.

(** ** Clients

    How a client writes what axum and serde read.  Texts are UTF-8. *)

(** The values of request bodies: objects of texts, unsigned numbers, and objects of
    texts. *)
Definition scalar (v : Value) : Prop :=
  match v with JString _ => True | JNumber (PosInt n) => 0 <= n | _ => False end.
Definition body_member (v : Value) : Prop :=
  match v with JObject m => Forall (fun kv => exists s, kv.2 = JString s) m | _ => scalar v end.
Definition body_shape (v : Value) : Prop :=
  match v with JObject m => Forall (fun kv => body_member kv.2) m | _ => False end.

Class Client := {
  is_text : string -> Prop;
  percent_encode : string -> string;
  form_encode : list (string * string) -> string;
  body_print : Value -> string;
  print_datetime : Z -> string
}.
Class ClientLaws (W : Web) (T : DateTimeText) (C : Client) := {
  ascii_text s : is_ascii s = true -> is_text s;
  percent_roundtrip s : is_text s -> percent_decode (percent_encode s) = Some s;
  percent_nonempty s : s <> "" -> percent_encode s <> "";
  form_roundtrip q : Forall (fun kv => is_text kv.1 /\ is_text kv.2) q ->
    query_pairs (form_encode q) = q;
  json_mime : is_json_mime "application/json" = true;
  body_roundtrip v : body_shape v -> json_body (body_print v) = Some v;
  datetime_roundtrip t : parse_datetime (print_datetime t) = Some t
}.

(** ** The request for a call *)

Definition param (k : string) (o : option string) : list (string * string) :=
  match o with Some v => [(k, v)] | None => [] end.
Definition number_param (k : string) (o : option Z) : list (string * string) :=
  param k (to_string <$> o).
Definition page_query (p : PaginationParams) : list (string * string) :=
  number_param "limit" p.(p_limit) ++ param "before" p.(p_before).

Definition stats_endpoint (r : StatsRequest) : Endpoint :=
  match r with
  | Totals => totals | Finality => finality | NextBlockEta => next_block_eta
  | ActiveAddresses _ => active_addresses | NewWalletsDaily _ => new_wallets_daily
  | TxRateDaily _ => tx_rate_daily | AttestationsDaily _ => attestations_daily
  | DripsDaily _ => drips_daily | TopHolders _ => top_holders
  | TopAttesters _ => top_attesters | TopSchemaOwners _ => top_schema_owners
  | TopAttestorSets _ => top_attestor_sets
  end.
Definition stats_query (r : StatsRequest) : list (string * string) :=
  match r with
  | Totals | Finality | NextBlockEta => []
  | ActiveAddresses window => param "window" window
  | NewWalletsDaily days | TxRateDaily days | AttestationsDaily days | DripsDaily days =>
      number_param "days" days
  | TopHolders n | TopAttesters n | TopSchemaOwners n | TopAttestorSets n =>
      number_param "n" n
  end.

Definition endpoint_of (c : Call) : Endpoint :=
  match c with
  | Health => health | Info => info | DripTo _ => drip | DripStatus _ => drip_status
  | DripBot _ _ => drip_bot | BlocksList _ => blocks_list | BlockByHeight _ => block_by_height
  | TxsList _ => txs_list | TxByHash _ => tx_by_hash | AddressSummary _ => address_summary
  | AddressTxs _ _ => address_txs | SchemasList _ => schemas_list | SchemaById _ => schema_by_id
  | AttestorSetsList _ => attestor_sets_list
  | AttestorSetsByMember _ _ => attestor_sets_by_member
  | AttestorSetById _ => attestor_set_by_id
  | AttestationsByAttestorSet _ _ => attestations_by_attestor_set
  | AttestationsBySchema _ _ => attestations_by_schema
  | AttestationsList _ => attestations_list | AttestationById _ => attestation_by_id
  | BountiesList _ => bounties_list | BountiesMatching _ => bounties_matching
  | BountyDetail _ => bounty_detail | ContractsList _ => contracts_list
  | ContractDetail _ => contract_detail | Search _ => search
  | Stats r => stats_endpoint r | Nodes => nodes
  end.

Definition args_of (c : Call) : list string :=
  match c with
  | BlockByHeight h => [to_string h]
  | TxByHash a | AddressSummary a | AddressTxs a _ | SchemaById a | AttestorSetsByMember a _
  | AttestorSetById a | AttestationsByAttestorSet a _ | AttestationsBySchema a _
  | AttestationById a | BountiesMatching a | BountyDetail a | ContractDetail a => [a]
  | _ => []
  end.

Definition query_of (c : Call) : list (string * string) :=
  match c with
  | DripStatus a => param "address" a
  | BlocksList p | AddressTxs _ p | AttestorSetsList p | AttestorSetsByMember _ p
  | AttestationsByAttestorSet _ p | AttestationsBySchema _ p | AttestationsList p =>
      page_query p
  | TxsList p => page_query p.(tp_page) ++ param "kind" p.(tp_kind) ++
                 number_param "block_height" p.(tp_block_height)
  | SchemasList p => page_query p.(sp_page) ++ param "attestor_set_id" p.(sp_attestor_set_id)
  | BountiesList p =>
      page_query p.(bp_page) ++ param "board" p.(bp_board) ++ param "status" p.(bp_status)
  | ContractsList p =>
      page_query p.(cp_page) ++ param "status" p.(cp_status) ++ param "poster" p.(cp_poster) ++
      param "arbiter" p.(cp_arbiter)
  | Search q => [("q", q)]
  | Stats r => stats_query r
  | _ => []
  end.

(** The path of a pattern with its captures filled in. *)
Fixpoint fill (pattern : list Segment) (args : list string) : list string :=
  match pattern, args with
  | Word w :: pattern, _ => w :: fill pattern args
  | Capture _ :: pattern, a :: args => a :: fill pattern args
  | _, _ => []
  end.
Fixpoint captured (pattern : list Segment) : nat :=
  match pattern with
  | [] => 0
  | Word _ :: pattern => captured pattern
  | Capture _ :: pattern => S (captured pattern)
  end.

Definition route_to (h : Endpoint) : option Route :=
  snd <$> list_find (fun r => r.(rt_handler) = h) routes.

Section Requests.
Context `{Client}.

Definition ser_evidence (ev : TierEvidence) : Value :=
  JObject ((match ev.(joined_at) with
            | Some t => [("joined_at", JString (print_datetime t))] | None => [] end) ++
           (match ev.(account_created_at) with
            | Some t => [("account_created_at", JString (print_datetime t))] | None => [] end)).

Definition body_of (c : Call) : option Value :=
  match c with
  | DripTo a => Some (JObject [("address", JString a)])
  | DripBot _ req => Some (JObject (
      [("address", JString req.(req_address));
       ("discord_user_id", JString req.(req_discord_user_id));
       ("tier", ser_Tier req.(req_tier)); ("amount_nano", ser_uint req.(req_amount_nano))] ++
      match req.(req_tier_evidence) with
      | Some ev => [("tier_evidence", ser_evidence ev)] | None => [] end))
  | _ => None
  end.

Definition secret_of (c : Call) : list (string * string) :=
  match c with DripBot (Some s) _ => [("x-bot-secret", s)] | _ => [] end.

Definition method_of (c : Call) : Method := match body_of c with Some _ => POST | None => GET end.

Definition request_of (c : Call) : HttpRequest := {|
  hr_method := method_of c;
  hr_path := match route_to (endpoint_of c) with
             | Some r => fill r.(rt_pattern) (percent_encode <$> args_of c)
             | None => []
             end;
  hr_query := form_encode (query_of c);
  hr_headers := ("content-type", "application/json") :: secret_of c;
  hr_body := match body_of c with Some v => body_print v | None => "" end |}.

(** The calls a request can make: UTF-8, non-empty captures, numbers of their types. *)
Definition in_range (max : Z) (o : option Z) : Prop := forall n, o = Some n -> 0 <= n <= max.
Definition page_ok (p : PaginationParams) : Prop := in_range u32_max p.(p_limit).
Definition numbers_ok (c : Call) : Prop :=
  match c with
  | BlockByHeight h => 0 <= h <= u64_max
  | BlocksList p | AddressTxs _ p | AttestorSetsList p | AttestorSetsByMember _ p
  | AttestationsByAttestorSet _ p | AttestationsBySchema _ p | AttestationsList p => page_ok p
  | TxsList p => page_ok p.(tp_page) /\ in_range u64_max p.(tp_block_height)
  | SchemasList p => page_ok p.(sp_page)
  | BountiesList p => page_ok p.(bp_page)
  | ContractsList p => page_ok p.(cp_page)
  | Stats (NewWalletsDaily o | TxRateDaily o | AttestationsDaily o | DripsDaily o |
           TopHolders o | TopAttesters o | TopSchemaOwners o | TopAttestorSets o) =>
      in_range u32_max o
  | DripBot _ req => 0 <= req.(req_amount_nano) <= u128_max
  | _ => True
  end.
Definition visible_secret (c : Call) : Prop :=
  match c with
  | DripBot (Some s) _ => forallb visible (list_ascii_of_string s) = true
  | _ => True
  end.

Record sendable (c : Call) : Prop := {
  sd_numbers : numbers_ok c;
  sd_args : Forall (fun a => a <> "" /\ is_text a) (args_of c);
  sd_query : Forall (fun kv => is_text kv.2) (query_of c);
  sd_secret : visible_secret c;
  sd_size v : body_of c = Some v -> Z.of_nat (String.length (body_print v)) <= BODY_LIMIT;
  sd_path : hr_path (request_of c) <> shared_path
}.
End Requests.

(** ** Queries read back *)

Lemma values_of_app k q q' : values_of k (q ++ q') = values_of k q ++ values_of k q'.
Proof. unfold values_of. by rewrite filter_app, fmap_app. Qed.
Lemma values_of_param k k' o :
  values_of k (param k' o) = if (k' =? k)%string then option_list o else [].
Proof.
  unfold values_of. destruct o as [v|]; [|by destruct (k' =? k)%string].
  unfold param. rewrite filter_cons. simpl. destruct (String.eqb_spec k' k); [by rewrite decide_True|].
  by rewrite decide_False.
Qed.

Lemma query_opt_read {A} parse (print : A -> string) k (o : option A) q :
  values_of k q = option_list (print <$> o) -> (forall a, o = Some a -> parse (print a) = Some a) ->
  query_opt parse k q = Some o.
Proof.
  unfold query_opt. intros -> Hp. destruct o as [a|]; simpl; [|done]. by rewrite Hp.
Qed.

(** [query_values] computes the values of a key in a client's query. *)
Ltac query_values :=
  unfold page_query, number_param; rewrite ?values_of_app, ?values_of_param; simpl;
  rewrite ?app_nil_r; reflexivity.

Lemma text_read k o q :
  values_of k q = option_list o -> query_opt text_param k q = Some o.
Proof. intros Hq. apply (query_opt_read _ id); [by destruct o|done]. Qed.
Lemma number_read max k o q :
  in_range max o -> values_of k q = option_list (to_string <$> o) ->
  query_opt (parse_uint max) k q = Some o.
Proof.
  intros Ho Hq. apply (query_opt_read _ to_string); [done|].
  intros n Hn. by apply parse_uint_to_string, Ho.
Qed.

Lemma page_read p q :
  page_ok p -> values_of "limit" q = option_list (to_string <$> p.(p_limit)) ->
  values_of "before" q = option_list p.(p_before) -> de_PaginationParams q = Some p.
Proof.
  intros Hp Hl Hb. unfold de_PaginationParams.
  rewrite (number_read u32_max "limit" p.(p_limit)), (text_read "before" p.(p_before)) by done.
  by destruct p.
Qed.

(** ** Paths *)

Lemma captures_fill p args :
  captured p = length args -> Forall (fun a => a <> "") args ->
  captures p (fill p args) = Some args.
Proof.
  revert args. induction p as [|[w|w] p IH]; intros args; simpl.
  - by destruct args.
  - intros Hl Ha. rewrite decide_True by done. by apply IH.
  - destruct args as [|a args]; [done|]. simpl. intros [= Hl] [Ha Hargs]%Forall_cons.
    rewrite decide_False by done. by rewrite IH.
Qed.

(** The route a call takes. *)
Lemma route_to_spec h :
  exists r, route_to h = Some r /\ r ∈ routes /\ r.(rt_handler) = h.
Proof.
  unfold route_to.
  assert (is_Some (list_find (fun r => r.(rt_handler) = h) routes)) as [[i r] Hf]
    by (apply (bool_decide_unpack _); destruct h; vm_compute; exact I).
  rewrite Hf. exists r. apply list_find_Some in Hf as (Hi & Hh & _).
  split; [done|]. split; [by eapply list_elem_of_lookup_2|done].
Qed.

Section ReadBack.
Context `{R : Router} `{RL : !RouterLaws R} `{W : Web} `{T : DateTimeText} `{C : Client}
  `{CL : !ClientLaws W T C}.

Lemma call_shape c r :
  route_to (endpoint_of c) = Some r ->
  captured r.(rt_pattern) = length (args_of c) /\
  allows r (method_of c) = true.
Proof.
  intros Hr. assert (r = default r (route_to (endpoint_of c))) as -> by by rewrite Hr.
  destruct c as [| | | | | | | | | | | | | | | | | | | | | | | | | |q|];
    try (split; reflexivity). by destruct q.
Qed.

Lemma request_dispatched c :
  sendable c ->
  dispatch (hr_method (request_of c)) (hr_path (request_of c)) =
    Handled (endpoint_of c) (percent_encode <$> args_of c).
Proof.
  intros Hc. destruct (route_to_spec (endpoint_of c)) as (r & Hr & Hin & Hh).
  destruct (call_shape c r Hr) as [Hl Hm]. pose proof (sd_path c Hc) as Hp.
  unfold request_of in *. simpl in *. rewrite Hr in *. rewrite <- Hh at 1.
  apply dispatch_handled; [done..|]. apply captures_fill; [by rewrite length_fmap|].
  apply Forall_fmap. eapply Forall_impl; [exact (sd_args c Hc)|].
  intros a [Ha _]. simpl. by eapply percent_nonempty.
Qed.

(** ** The round trip *)

Lemma query_of_text c : Forall (fun kv => is_text kv.2) (query_of c) ->
  query_pairs (hr_query (request_of c)) = query_of c.
Proof.
  intros Hq. simpl. apply form_roundtrip.
  assert (Forall (fun kv : string * string => is_ascii kv.1 = true) (query_of c)) as Hk.
  { apply Forall_forall. intros [k v] Hin. revert Hin. unfold query_of, stats_query, page_query,
      number_param, param.
    destruct c;
      rewrite ?elem_of_app; repeat case_match; set_solver. }
  apply Forall_forall. intros kv Hin. rewrite Forall_forall in Hq, Hk.
  split; [apply (ascii_text _), Hk|]; auto.
Qed.

Lemma arg_read c a : args_of c = [a] -> is_text a ->
  path_param text_param (arg (percent_encode <$> args_of c)) = Ok a.
Proof.
  intros -> Ha. unfold path_param, arg. simpl. by rewrite (percent_roundtrip a Ha).
Qed.

Lemma json_read {A} h (de : Value -> option A) c v a :
  body_of c = Some v -> body_shape v -> Z.of_nat (String.length (body_print v)) <= BODY_LIMIT ->
  de v = Some a -> json_params h de (request_of c) = Ok a.
Proof.
  intros Hb Hs Hl Hd. unfold json_params, request_of, header, values_of. simpl.
  rewrite json_mime. simpl. rewrite Hb.
  destruct (Z.ltb_spec BODY_LIMIT (Z.of_nat (String.length (body_print v)))); [lia|].
  by rewrite (body_roundtrip v Hs), Hd.
Qed.

Lemma evidence_read ev : de_TierEvidence (ser_evidence ev) = Some ev.
Proof.
  destruct ev as [[j|] [k|]]; unfold de_TierEvidence, ser_evidence; simpl;
    unfold field_opt, de_option, de_datetime; simpl; rewrite ?datetime_roundtrip; done.
Qed.

Lemma bot_request_read provided req v :
  0 <= req.(req_amount_nano) <= u128_max -> body_of (DripBot provided req) = Some v ->
  body_shape v /\ de_DripBotRequest v = Some req.
Proof.
  intros Ha [= <-]. destruct req as [a u t n [ev|]]; simpl in *.
  - split.
    + repeat constructor; simpl; [lia|]. unfold ser_evidence.
      destruct ev as [[j|] [k|]]; simpl; repeat constructor; by eexists.
    + unfold de_DripBotRequest. simpl.
      unfold field_opt, of_key. simpl. unfold de_u128, de_uint. simpl.
      destruct (Z.leb_spec 0 n), (Z.leb_spec n u128_max); try lia.
      pose proof (evidence_read ev) as He. unfold ser_evidence in *. simpl in *. rewrite He.
      by destruct t.
  - split; [repeat constructor; simpl; lia|].
    unfold de_DripBotRequest. simpl. unfold de_u128, de_uint. simpl.
    destruct (Z.leb_spec 0 n), (Z.leb_spec n u128_max); try lia. by destruct t.
Qed.

Lemma query_read {A} (de : list (string * string) -> option A) c a :
  Forall (fun kv => is_text kv.2) (query_of c) -> de (query_of c) = Some a ->
  query_params de (request_of c) = Ok a.
Proof. intros Hq Hd. unfold query_params. by rewrite (query_of_text c Hq), Hd. Qed.

(** [fields_read] reads a client's query field by field. *)
Ltac fields_read :=
  repeat first
    [ erewrite page_read by (eassumption || query_values)
    | erewrite text_read by query_values
    | erewrite number_read by (eassumption || query_values)
    | progress simpl ].

Lemma page_params p : page_ok p -> de_PaginationParams (page_query p) = Some p.
Proof. intros Hp. by fields_read. Qed.
Lemma schemas_params p : page_ok p.(sp_page) ->
  de_SchemasListParams (page_query p.(sp_page) ++ param "attestor_set_id" p.(sp_attestor_set_id)) = Some p.
Proof. intros Hp. unfold de_SchemasListParams. fields_read. by destruct p. Qed.
Lemma txs_params p : page_ok p.(tp_page) -> in_range u64_max p.(tp_block_height) ->
  de_TxsListParams (page_query p.(tp_page) ++ param "kind" p.(tp_kind) ++
    number_param "block_height" p.(tp_block_height)) = Some p.
Proof. intros Hp Hb. unfold de_TxsListParams, u64_param. fields_read. by destruct p. Qed.
Lemma bounties_params p : page_ok p.(bp_page) ->
  de_BountiesListParams (page_query p.(bp_page) ++ param "board" p.(bp_board) ++
    param "status" p.(bp_status)) = Some p.
Proof. intros Hp. unfold de_BountiesListParams. fields_read. by destruct p. Qed.
Lemma contracts_params p : page_ok p.(cp_page) ->
  de_ContractsListParams (page_query p.(cp_page) ++ param "status" p.(cp_status) ++
    param "poster" p.(cp_poster) ++ param "arbiter" p.(cp_arbiter)) = Some p.
Proof. intros Hp. unfold de_ContractsListParams. fields_read. by destruct p. Qed.
Lemma number_params k o : in_range u32_max o -> query_opt u32_param k (number_param k o) = Some o.
Proof.
  intros Ho. apply number_read; [done|]. unfold number_param.
  rewrite values_of_param, String.eqb_refl. done.
Qed.
Lemma text_params k o : query_opt text_param k (param k o) = Some o.
Proof. apply text_read. by rewrite values_of_param, String.eqb_refl. Qed.

Lemma height_read h : 0 <= h <= u64_max ->
  path_param u64_param (arg (percent_encode <$> [to_string h])) = Ok h.
Proof.
  intros Hh. unfold path_param, arg. simpl.
  rewrite percent_roundtrip by (eapply ascii_text, to_string_ascii; lia). simpl.
  unfold u64_param. by rewrite parse_uint_to_string.
Qed.

Lemma secret_read provided req : visible_secret (DripBot provided req) ->
  bot_secret (request_of (DripBot provided req)) = provided.
Proof.
  unfold bot_secret, header, values_of. destruct provided as [s|]; [|done]. simpl.
  by intros ->.
Qed.

Lemma stats_read r :
  numbers_ok (Stats r) -> Forall (fun kv => is_text kv.2) (query_of (Stats r)) ->
  extract (stats_endpoint r) [] (request_of (Stats r)) = Ok (Stats r).
Proof.
  intros Hn Hq. destruct r; cbn [stats_endpoint extract]; try done;
    (erewrite query_read; [|exact Hq|]; [reflexivity|]);
    (apply number_params, Hn || apply text_params).
Qed.

(** C17: Every call has a request.  Whatever a handler can be called with (UTF-8 texts,
    non-empty captures, numbers of their types, a body within the limit) a client can ask
    for: the router and the extractors give exactly that call back, on every path that is
    not the one two routes share. *)
Theorem calls_roundtrip c : sendable c -> call_of (request_of c) = Ok c.
Proof.
  intros Hc. unfold call_of. rewrite request_dispatched by done. destruct Hc as [Hn Ha Hq Hs Hb _].
  destruct c; try by apply stats_read.
  all: cbn [endpoint_of extract]; try done;
    try (erewrite arg_read by (reflexivity || by apply Forall_singleton in Ha as [_ ?]); simpl);
    try (erewrite query_read; [|exact Hq|]); try reflexivity.
  all: try (apply page_params || apply txs_params || apply schemas_params ||
            apply bounties_params || apply contracts_params || apply text_params); try apply Hn.
  - erewrite json_read; [done|done|by repeat constructor|by apply Hb|done].
  - destruct (bot_request_read provided req _ Hn eq_refl) as [Hshape Hread].
    erewrite json_read; [|done|exact Hshape|by apply Hb|exact Hread]. simpl.
    by rewrite secret_read.
  - cbn [args_of]. by rewrite height_read.
Qed.
End ReadBack.

(** ** At concrete inputs

    Paths in the clear, and pairs and bodies as the codes of their lists. *)
Module SampleWeb.
Definition MemberCode : Type := string + (Z + list (string * string)).

Definition text_code (kv : string * Value) : option (string * string) :=
  match kv.2 with JString s => Some (kv.1, s) | _ => None end.
Definition member_code (kv : string * Value) : option (string * MemberCode) :=
  match kv.2 with
  | JString s => Some (kv.1, inl s)
  | JNumber (PosInt n) => Some (kv.1, inr (inl n))
  | JObject m => l ← mapM text_code m; Some (kv.1, inr (inr l))
  | _ => None
  end.
Definition text_member (kc : string * string) : string * Value := (kc.1, JString kc.2).
Definition member (kc : string * MemberCode) : string * Value :=
  (kc.1, match kc.2 with
         | inl s => JString s
         | inr (inl n) => JNumber (PosInt n)
         | inr (inr l) => JObject (text_member <$> l)
         end).

#[export] Instance web : Web := {|
  percent_decode := Some;
  query_pairs s := default [] (Toy.unbits s ≫= countable.decode (A := list (string * string)));
  is_json_mime m := (m =? "application/json")%string;
  json_body s := l ← Toy.unbits s ≫= countable.decode (A := list (string * MemberCode));
                 Some (JObject (member <$> l));
  data_error_first _ _ := false
|}.
#[export] Instance datetimes : DateTimeText := parse_signed.
#[export] Instance client : Client := {|
  is_text _ := True;
  percent_encode s := s;
  form_encode q := Toy.bits (countable.encode q);
  body_print v := match v with
                  | JObject m => match mapM member_code m with
                                 | Some l => Toy.bits (countable.encode l) | None => "" end
                  | _ => "" end;
  print_datetime t := to_string t
|}.

(** The codes decode to the members they came from. *)
Lemma mapM_back {A B} (f : A -> option B) (g : B -> A) (P : A -> Prop) l :
  (forall a, P a -> exists b, f a = Some b /\ g b = a) -> Forall P l ->
  exists l', mapM f l = Some l' /\ g <$> l' = l.
Proof.
  intros Hf Hl. induction Hl as [|a l Ha Hl (l' & Hm & Hg)]; [by exists []|].
  destruct (Hf a Ha) as (b & Hb & <-). exists (b :: l'). simpl. rewrite Hb, Hm. split; [done|].
  by rewrite <- Hg.
Qed.

Lemma member_back kv : body_member kv.2 -> exists c, member_code kv = Some c /\ member c = kv.
Proof.
  destruct kv as [k v]. unfold member_code. simpl. destruct v as [| |[n| |]|s| |m]; simpl; try done.
  - intros _. by exists (k, inr (inl n)).
  - intros _. by exists (k, inl s).
  - intros Hm. destruct (mapM_back text_code text_member (fun kv => exists s, kv.2 = JString s) m)
      as (l & -> & Hl); [|done|].
    + intros [k' v'] [s Hs]. simpl in Hs. subst v'. by exists (k', s).
    + exists (k, inr (inr l)). split; [done|]. unfold member. simpl. by rewrite Hl.
Qed.

#[export] Instance client_laws : ClientLaws web datetimes client.
Proof.
  split; try done.
  - intros q _. simpl. by rewrite Toy.unbits_bits; simpl; rewrite decode_encode.
  - intros v Hv. destruct v as [| | | | |m]; try done. simpl.
    destruct (mapM_back member_code member (fun kv => body_member kv.2) m member_back Hv)
      as (l & -> & Hl).
    rewrite Toy.unbits_bits. simpl. by rewrite decode_encode; simpl; rewrite Hl.
  - apply parse_signed_to_string.
Qed.
End SampleWeb.
Import SampleWeb.

Section ExtractWitness.
#[local] Existing Instances FirstMatch.router FirstMatch.router_laws.

Definition bot_call : Call :=
  DripBot (Some "s3cret")
    {| req_address := "lig1a"; req_discord_user_id := "1"; req_tier := Regular;
       req_amount_nano := 250000000000;
       req_tier_evidence := Some {| joined_at := Some 5; account_created_at := None |} |}.
Definition txs_call : Call :=
  TxsList {| tp_page := {| p_limit := Some 50; p_before := Some "x&y" |};
             tp_kind := Some "transfer"; tp_block_height := Some 7 |}.

Lemma bot_call_sendable : sendable bot_call.
Proof.
  split; simpl; [lia_int|constructor|constructor|reflexivity| |discriminate].
  intros v [= <-]. vm_compute. discriminate.
Qed.
Lemma txs_call_sendable : sendable txs_call.
Proof.
  split; simpl; [|constructor| |done|done|discriminate].
  - split; intros n [= <-]; lia_int.
  - repeat constructor.
Qed.

Lemma calls_roundtrip_witness :
  call_of (request_of bot_call) = Ok bot_call /\ call_of (request_of txs_call) = Ok txs_call.
Proof.
  split; apply calls_roundtrip; [apply bot_call_sendable|apply txs_call_sendable].
Defined.

(** A limit that is not a number, a limit given twice, and a capture that is not a
    height. *)
Definition blocks_with (q : list (string * string)) : HttpRequest := {|
  hr_method := GET; hr_path := ["v1"; "blocks"]; hr_query := form_encode q; hr_headers := [];
  hr_body := "" |}.
Example bad_limit : call_of (blocks_with [("limit", "ten")]) = Err 400.
Proof. vm_compute. reflexivity. Qed.
Example empty_limit : call_of (blocks_with [("limit", "")]) = Err 400.
Proof. vm_compute. reflexivity. Qed.
Example limit_twice : call_of (blocks_with [("limit", "1"); ("limit", "1")]) = Err 400.
Proof. vm_compute. reflexivity. Qed.
Example unknown_key : call_of (blocks_with [("colour", "red"); ("limit", "5")]) =
  Ok (BlocksList {| p_limit := Some 5; p_before := None |}).
Proof. vm_compute. reflexivity. Qed.
Example bare_drip :
  call_of {| hr_method := POST; hr_path := ["v1"; "drip"]; hr_query := ""; hr_headers := [];
             hr_body := "" |} = Err 415.
Proof. vm_compute. reflexivity. Qed.
End ExtractWitness.
