(* ===== verification/Api.v ===== *)
(** * The running server ([crates/api/src/main.rs])

    The router of [main] with every handler behind it, over the one state they share: an
    HTTP request is routed, its arguments are extracted, and the handler runs on the
    limiter, the nonce counter, the two caches, the bot's table and the database.
    Requests are served one at a time here, while the indexer's tasks write in between;
    [Drip], [BotDrip] and [StatsCache] interleave the requests themselves. *)

From S2P Require Import Prelude Routes Json Types Standards AttestationId Schema Io Client Config Drip BotDrip Startup Pages Listing Responses Sql Lookup F64 StatsCache Stats Eta StatsApi Cluster FaucetApi Service Extract.
Open Scope string_scope.
Open Scope list_scope.
Open Scope Z_scope.

(** The clocks at each tick: the monotonic one and the wall clock in nanoseconds, the
    database's in microseconds. *)
Record Clocks := { mono : nat -> Z; utc : nat -> Z; db_now : nat -> Z }.

(** [rp_body] is [None] where axum writes the text, or none. *)
Record Reply := { rp_status : Z; rp_max_age : option Z; rp_body : option string }.

(** ** The bot's wire shapes *)

Definition ser_DripBotResponse `{Rfc3339} (r : DripBotResponse) : Value :=
  JObject [("address", JString r.(resp_address));
           ("discord_user_id", JString r.(resp_discord_user_id));
           ("tx_hash", JString r.(resp_tx_hash)); ("amount_nano", ser_uint r.(resp_amount_nano));
           ("amount_avow", ser_f64 (nano_to_avow r.(resp_amount_nano)));
           ("tier", ser_Tier r.(resp_tier));
           ("next_drip_available_at",
            JString (rfc3339_millis (r.(resp_next_drip_available_at) / 1000)))].
Definition ser_BotErrorResponse (e : BotErrorResponse) : Value :=
  JObject (("error", JString e.(bot_error)) ::
           skip_none "retry_after_secs" ser_i64 e.(bot_retry_after)).

Definition bot_response `{Rfc3339} (r : result BotErrorResponse DripBotResponse) : Response :=
  match r with
  | Ok resp => json_ok (ser_DripBotResponse resp)
  | Err e => {| rs_status := e.(bot_status); rs_max_age := None;
                rs_body := ser_BotErrorResponse e |}
  end.

Section Api.
Context `{JsonText} `{Base64Url} `{PgText} `{Urls} `{Rfc3339} `{Unicode} `{Bech32} `{SdkReads}
  `{ChainSdk} `{BotTime} `{Calendar} `{CalendarEnd} `{PgPercentile} `{Web} `{DateTimeText}
  `{Router}.
Context (decode_error_text : DecodeError -> string).

(** [AppState], the bot's table, and the database with the instant. *)
Record Server := { srv_app : AppState; srv_bot_drips : list BotDripRow; srv_world : World }.

(** ** Access to the shared state *)

Definition with_world (w : World) (s : Server) : Server :=
  {| srv_app := s.(srv_app); srv_bot_drips := s.(srv_bot_drips); srv_world := w |}.
Definition with_app (a : AppState) (s : Server) : Server :=
  {| srv_app := a; srv_bot_drips := s.(srv_bot_drips); srv_world := s.(srv_world) |}.
Definition after_ticks (n : nat) (s : Server) : Server :=
  with_world {| w_db := s.(srv_world).(w_db); w_tick := s.(srv_world).(w_tick) + n |} s.

Definition faucet_of (a : AppState) : Faucet := {|
  limiter := rate_limiter a; nonce_counter := (signer a).(sg_nonce);
  drip_amount := (config a).(cfg_drip_amount) |}.
Definition with_faucet (f : Faucet) (a : AppState) : AppState := {|
  config := config a; signer := store_nonce f.(nonce_counter) (signer a);
  rate_limiter := f.(limiter); stats_cache := stats_cache a; cluster_cache := cluster_cache a |}.
Definition with_stats (c : StatsCache) (a : AppState) : AppState := {|
  config := config a; signer := signer a; rate_limiter := rate_limiter a; stats_cache := c;
  cluster_cache := cluster_cache a |}.
Definition with_cluster (c : ClusterCache) (a : AppState) : AppState := {|
  config := config a; signer := signer a; rate_limiter := rate_limiter a;
  stats_cache := stats_cache a; cluster_cache := c |}.

(** What the statistics handlers read of the state. *)
Definition stats_state (s : Server) (e : Env) : StatsState := {|
  ss_signer := signer s.(srv_app);
  ss_treasury := (config s.(srv_app)).(avow_treasury_addr);
  ss_chain_rpc := (config s.(srv_app)).(chain_rpc);
  ss_bot_drips t := match e.(env_fault) t with
                    | NoFault => Ok s.(srv_bot_drips)
                    | _ => Err ConnectionLost
                    end |}.

(** ** Replies *)

Definition of_response (r : Response) : Reply :=
  {| rp_status := r.(rs_status); rp_max_age := r.(rs_max_age);
     rp_body := Some (value_to_string r.(rs_body)) |}.
Definition of_stats (r : StatsReply) : Reply :=
  {| rp_status := r.(st_status); rp_max_age := r.(st_max_age); rp_body := Some r.(st_body) |}.
Definition bare (status : Z) : Reply :=
  {| rp_status := status; rp_max_age := None; rp_body := None |}.

Definition reply_of {A} (f : A -> Reply) (o : outcome A) : outcome Reply :=
  match o with Done a => Done (f a) | Panicked => Panicked end.

(** ** The handlers on the shared state *)

Definition reading (m : IO Response) (s : Server) (e : Env) : outcome Reply * Server :=
  let '(o, w) := m e s.(srv_world) in (reply_of of_response o, with_world w s).

Definition stats_call (r : StatsRequest) (s : Server) (e : Env) (k : Clocks)
  : outcome Reply * Server :=
  let '(o, (c, w)) :=
    route k.(mono) (stats_state s e) r (stats_cache s.(srv_app)) e s.(srv_world) in
  (reply_of of_stats o, with_world w (with_app (with_stats c s.(srv_app)) s)).

Definition nodes_call (s : Server) (e : Env) (k : Clocks) : outcome Reply * Server :=
  let '(o, (c, w)) :=
    nodes k.(mono) (config s.(srv_app)).(chain_rpc) (config s.(srv_app)).(chain_cluster_auth_token)
      (cluster_cache s.(srv_app)) e s.(srv_world) in
  (reply_of of_stats o, with_world w (with_app (with_cluster c s.(srv_app)) s)).

(** The check, the submission and the record each take a tick. *)
Definition drip_call (address : string) (s : Server) (k : Clocks) : Reply * Server :=
  let t := s.(srv_world).(w_tick) in
  let '(reply, f) :=
    drip (faucet_of s.(srv_app)) address (k.(mono) t) (k.(mono) (t + 1)) (k.(mono) (t + 2)) in
  (of_response (drip_response reply), after_ticks 3 (with_app (with_faucet f s.(srv_app)) s)).

Definition drip_status_call (address : option string) (s : Server) (k : Clocks)
  : outcome Reply * Server :=
  let t := s.(srv_world).(w_tick) in
  (reply_of (fun b => of_response (json_ok (ser_DripStatusBody b)))
     (drip_status (faucet_of s.(srv_app)) (config s.(srv_app)).(drip_rate_limit_secs)
        (signer_address (signer s.(srv_app))) address (k.(mono) t) (k.(utc) t)),
   after_ticks 1 s).

(** The bot's five effects, the web faucet's nonce counter among them. *)
Definition bot_env (e : Env) (k : Clocks) (t : nat) : BotEnv := {|
  be_db_now i := k.(db_now) (t + i); be_utc_now i := k.(utc) (t + i) / 1000;
  be_fault i := e.(env_fault) (t + i)%nat; be_other _ st := st |}.
Definition bot_state (s : Server) : BotState :=
  {| bot_drips := s.(srv_bot_drips); bot_nonce := (signer s.(srv_app)).(sg_nonce) |}.
Definition with_bot (st : BotState) (s : Server) : Server := {|
  srv_app := {| config := config s.(srv_app);
                signer := store_nonce st.(bot_nonce) (signer s.(srv_app));
                rate_limiter := rate_limiter s.(srv_app);
                stats_cache := stats_cache s.(srv_app);
                cluster_cache := cluster_cache s.(srv_app) |};
  srv_bot_drips := st.(bot_drips); srv_world := s.(srv_world) |}.
Definition drip_bot_call (provided : option string) (req : DripBotRequest) (s : Server)
    (e : Env) (k : Clocks) : outcome Reply * Server :=
  let '(o, st) :=
    drip_bot (config s.(srv_app)) (bot_env e k s.(srv_world).(w_tick)) provided req
      (bot_state s) in
  (reply_of (fun r => of_response (bot_response r)) o, after_ticks 5 (with_bot st s)).

(** ** The server *)

Definition run_call (c : Call) (s : Server) (e : Env) (k : Clocks) : outcome Reply * Server :=
  match c with
  | Health => (Done (of_response FaucetApi.health), s)
  | Info => reading (Lookup.info (config s.(srv_app)).(chain_rpc)) s e
  | DripTo address => let '(r, s) := drip_call address s k in (Done r, s)
  | DripStatus address => drip_status_call address s k
  | DripBot provided req => drip_bot_call provided req s e k
  | BlocksList p => reading (Lookup.blocks_list p) s e
  | BlockByHeight h => reading (Lookup.block_by_height h) s e
  | TxsList p => reading (Lookup.txs_list p.(tp_kind) p.(tp_block_height) p.(tp_page)) s e
  | TxByHash h => reading (tx_by_hash_reply h) s e
  | AddressSummary a => reading (Lookup.address_summary (signer s.(srv_app)) a) s e
  | AddressTxs a p => reading (Lookup.address_txs a p) s e
  | SchemasList p => reading (Lookup.schemas_list p.(sp_attestor_set_id) p.(sp_page)) s e
  | SchemaById i => reading (schema_by_id_reply i) s e
  | AttestorSetsList p => reading (Lookup.attestor_sets_list p) s e
  | AttestorSetsByMember m p =>
      reading (Lookup.attestor_sets_by_member decode_error_text m p) s e
  | AttestorSetById i => reading (attestor_set_by_id_reply i) s e
  | AttestationsByAttestorSet i p => reading (attestations_by_set i p) s e
  | AttestationsBySchema i p => reading (Lookup.attestations_by_schema i p) s e
  | AttestationsList p => reading (Lookup.attestations_list p) s e
  | AttestationById i => reading (attestation_by_id_reply i) s e
  | BountiesList p => reading (Lookup.bounties_list p.(bp_board) p.(bp_status) p.(bp_page)) s e
  | BountiesMatching a => reading (Lookup.bounties_matching a) s e
  | BountyDetail i => reading (Lookup.bounty_detail i) s e
  | ContractsList p =>
      reading (Lookup.contracts_list p.(cp_status) p.(cp_poster) p.(cp_arbiter) p.(cp_page)) s e
  | ContractDetail i => reading (Lookup.contract_detail i) s e
  | Search q => reading (Lookup.search q) s e
  | Stats r => stats_call r s e k
  | Nodes => nodes_call s e k
  end.

(** The reply to HEAD has the headers only. *)
Definition for_method (m : Method) (r : Reply) : Reply :=
  match m with
  | HEAD => {| rp_status := r.(rp_status); rp_max_age := r.(rp_max_age); rp_body := None |}
  | _ => r
  end.

Definition handle (r : HttpRequest) (s : Server) (e : Env) (k : Clocks)
  : outcome Reply * Server :=
  match r.(hr_method) with
  | OPTIONS => (Done (bare 200), s)
  | m =>
      match call_of r with
      | Err status => (Done (for_method m (bare status)), s)
      | Ok c => let '(o, s) := run_call c s e k in (reply_of (for_method m) o, s)
      end
  end.

(** Requests one after another; a panic ends its request only. *)
Fixpoint serve_all (l : list HttpRequest) (s : Server) (e : Env) (k : Clocks)
  : list (HttpRequest * outcome Reply) * Server :=
  match l with
  | [] => ([], s)
  | r :: rest =>
      let '(o, s) := handle r s e k in
      let '(log, s) := serve_all rest s e k in
      ((r, o) :: log, s)
  end.

(** The server [main] starts; the bot's table outlives the process. *)
Definition started `{Platform} (sv : Serving) (bot : list BotDripRow) (w : World) : Server :=
  {| srv_app := sv.(sv_state); srv_bot_drips := bot; srv_world := w |}.
End Api.
