(* ===== verification/ApiSpec.v ===== *)
(** * What the running server guarantees

    Theorems about the composed server: the database is only read, the faucets keep
    their cooldown and one nonce stream over any mix of requests, and which requests are
    answered. *)

From S2P Require Import Prelude JsonSyntax Routes Json Types Standards Bech32m Sha2 AttestationId Schema Io Client Config Drip DripSpec BotDrip Startup Pages Listing Responses Sql Lookup LookupSpec F64 StatsCache Stats Eta StatsApi Cluster FaucetApi Service Extract Api Samples ListingSpec ExtractSpec StatsSpec.
Open Scope string_scope.
Open Scope list_scope.
Open Scope Z_scope.
Open Scope io_scope.

Section ApiSpec.
Context `{JsonText} `{Base64Url} `{PgText} `{U : Urls} `{UL : !UrlsLaws U} `{Rfc3339} `{Unicode} `{Bech32} `{SdkReads}
  `{ChainSdk} `{BotTime} `{Calendar} `{CalendarEnd} `{PgPercentile} `{Web} `{DateTimeText}
  `{R : Router} `{RL : !RouterLaws R}.
Context (decode_error_text : DecodeError -> string).

Abbreviation db s := (s.(srv_world).(w_db)).

(** ** The statistics only read *)

Section Reads.
Context (Rel : relation DB) `{!PreOrder Rel}.

#[local] Hint Resolve query_evolves at_tick_evolves : io.

Lemma read_evolves {A} context (f : DB -> A) : evolves Rel (read context f).
Proof. unfold read. evolves_go. Qed.
#[local] Hint Resolve read_evolves : io.

Lemma read_since_evolves {A} context since (f : DB -> A) : evolves Rel (read_since context since f).
Proof. unfold read_since. evolves_go. Qed.
#[local] Hint Resolve read_since_evolves : io.

Lemma balance_evolves s a : evolves Rel (query_balance_for s a).
Proof. unfold query_balance_for. evolves_go. Qed.
#[local] Hint Resolve balance_evolves : io.

Lemma balances_evolves s l : evolves Rel (query_balances s l).
Proof. induction l; simpl; evolves_go. Qed.
#[local] Hint Resolve balances_evolves : io.

Lemma totals_evolves s t : evolves Rel (compute_totals s t).
Proof. unfold compute_totals, query_total_supply. evolves_go. Qed.
Lemma daily_evolves context times days : evolves Rel (compute_daily context times days).
Proof. unfold compute_daily. evolves_go. Qed.
Lemma leaderboard_evolves context rows n : evolves Rel (compute_leaderboard context rows n).
Proof. unfold compute_leaderboard. evolves_go. Qed.
#[local] Hint Resolve totals_evolves daily_evolves leaderboard_evolves : io.

Lemma finality_evolves : evolves Rel finality_payload.
Proof.
  unfold finality_payload, compute_observed_finality, estimated_finality. evolves_go.
  apply evolves_exec; [done|]. intros now d a d' [= _ <-]. reflexivity.
Qed.
Lemma eta_evolves u : evolves Rel (next_block_eta_payload u).
Proof. unfold next_block_eta_payload, compute_next_block_eta. evolves_go. Qed.

Lemma asked_for_evolves st r : evolves Rel (asked_for st r).
Proof.
  destruct r; simpl; try apply finality_evolves; try apply eta_evolves;
    unfold totals_payload, compute_active_addresses, compute_new_wallets_daily,
      compute_tx_rate_daily, compute_attestations_daily, compute_drips_daily,
      compute_top_holders, compute_top_attesters, compute_top_schema_owners,
      compute_top_attestor_sets; evolves_go.
Qed.

Lemma serve_evolves mono key ttl age m cache e w :
  rely Rel e -> evolves Rel m -> Rel w.(w_db) (serve mono key ttl age m cache e w).2.2.(w_db).
Proof.
  intros He Hm. unfold serve. destruct (StatsCache.get_fresh _ _ _ _); [done|].
  specialize (Hm e w He). destruct (m e w) as [[r|] w']; [|done].
  by destruct (finish _ _ _ _ _).
Qed.

Lemma route_evolves mono st r cache e w :
  rely Rel e -> Rel w.(w_db) (route mono st r cache e w).2.2.(w_db).
Proof.
  intros He. destruct (route_serve mono st r cache e w) as [(err & _ & ->)| ->]; [done|].
  by apply serve_evolves; [|apply asked_for_evolves].
Qed.

Lemma nodes_evolves mono u token cache e w :
  rely Rel e -> Rel w.(w_db) (nodes mono u token cache e w).2.2.(w_db).
Proof.
  intros He. unfold nodes. destruct (Cluster.get_fresh _ _); [done|].
  assert (evolves Rel (fetch_and_transform u token)) as Hf.
  { unfold fetch_and_transform, cluster_nodes. evolves_go. }
  specialize (Hf e w He). destruct (fetch_and_transform _ _ _ _) as [[t|] w']; [|done].
  by destruct (ct_cluster_health t).
Qed.

Lemma reading_evolves m s e : rely Rel e -> evolves Rel m -> Rel (db s) (db (reading m s e).2).
Proof.
  intros He Hm. unfold reading. specialize (Hm e (srv_world s) He).
  by destruct (m e (srv_world s)) as [o w'].
Qed.

(** The program of a call that only looks things up. *)
Definition lookup_call (c : Call) (a : AppState) : option (IO Response) :=
  match c with
  | Health | DripTo _ | DripStatus _ | DripBot _ _ | Stats _ | Nodes => None
  | Info => Some (Lookup.info (config a).(chain_rpc))
  | BlocksList p => Some (Lookup.blocks_list p)
  | BlockByHeight h => Some (Lookup.block_by_height h)
  | TxsList p => Some (Lookup.txs_list p.(tp_kind) p.(tp_block_height) p.(tp_page))
  | TxByHash h => Some (tx_by_hash_reply h)
  | AddressSummary x => Some (Lookup.address_summary (signer a) x)
  | AddressTxs x p => Some (Lookup.address_txs x p)
  | SchemasList p => Some (Lookup.schemas_list p.(sp_attestor_set_id) p.(sp_page))
  | SchemaById i => Some (schema_by_id_reply i)
  | AttestorSetsList p => Some (Lookup.attestor_sets_list p)
  | AttestorSetsByMember m p => Some (Lookup.attestor_sets_by_member decode_error_text m p)
  | AttestorSetById i => Some (attestor_set_by_id_reply i)
  | AttestationsByAttestorSet i p => Some (attestations_by_set i p)
  | AttestationsBySchema i p => Some (Lookup.attestations_by_schema i p)
  | AttestationsList p => Some (Lookup.attestations_list p)
  | AttestationById i => Some (attestation_by_id_reply i)
  | BountiesList p => Some (Lookup.bounties_list p.(bp_board) p.(bp_status) p.(bp_page))
  | BountiesMatching x => Some (Lookup.bounties_matching x)
  | BountyDetail i => Some (Lookup.bounty_detail i)
  | ContractsList p =>
      Some (Lookup.contracts_list p.(cp_status) p.(cp_poster) p.(cp_arbiter) p.(cp_page))
  | ContractDetail i => Some (Lookup.contract_detail i)
  | Search q => Some (Lookup.search q)
  end.

Lemma run_lookup c m s e k :
  lookup_call c s.(srv_app) = Some m -> run_call decode_error_text c s e k = reading m s e.
Proof. by destruct c; intros [= <-]. Qed.

Lemma lookup_reads c a m :
  lookup_call c a = Some m -> read_endpoint decode_error_text (signer a) (config a).(chain_rpc) m.
Proof.
  destruct c; intros [= <-];
    [apply E_info|apply E_blocks|apply E_block|apply E_txs|apply E_tx|apply E_address|
     apply E_address_txs|apply E_schemas|apply E_schema|apply E_sets|apply E_member|apply E_set|
     apply E_set_attestations|apply E_schema_attestations|apply E_attestations|
     apply E_attestation|apply E_bounties|apply E_matching|apply E_bounty|apply E_contracts|
     apply E_contract|apply E_search].
Qed.

Lemma run_call_evolves c s e k :
  rely Rel e -> Rel (db s) (db (run_call decode_error_text c s e k).2).
Proof.
  intros He. destruct (lookup_call c (srv_app s)) as [m|] eqn:El.
  { rewrite (run_lookup _ _ _ _ _ El). apply reading_evolves; [done|].
    eapply api_only_reads; [apply _|]. by eapply lookup_reads. }
  destruct c; try discriminate El; cbn [run_call]; try reflexivity; clear El.
  - unfold drip_call. by destruct (drip _ _ _ _ _).
  - unfold drip_bot_call. by destruct (drip_bot _ _ _ _ _).
  - unfold stats_call. pose proof (route_evolves k.(mono) (stats_state s e) r
      (stats_cache (srv_app s)) e (srv_world s) He) as Hr. by destruct (route _ _ _ _ _ _) as [? []].
  - unfold nodes_call. pose proof (nodes_evolves k.(mono) (chain_rpc (config (srv_app s)))
      (chain_cluster_auth_token (config (srv_app s))) (cluster_cache (srv_app s)) e (srv_world s) He)
      as Hr. by destruct (nodes _ _ _ _ _ _) as [? []].
Qed.

Lemma handle_evolves r s e k :
  rely Rel e -> Rel (db s) (db (handle decode_error_text r s e k).2).
Proof.
  intros He. unfold handle. destruct (hr_method r); try done.
  all: destruct (call_of r) as [c|]; [|done]; pose proof (run_call_evolves c s e k He) as Hc;
    by destruct (run_call _ c s e k).
Qed.

Lemma serve_all_evolves l s e k :
  rely Rel e -> Rel (db s) (db (serve_all decode_error_text l s e k).2).
Proof.
  intros He. revert s. induction l as [|r l IH]; intros s; simpl; [done|].
  pose proof (handle_evolves r s e k He) as Hh. destruct (handle _ r s e k) as [o s1].
  specialize (IH s1). destruct (serve_all _ l s1 e k) as [log s2]. by etrans.
Qed.
End Reads.

(** ** Who moves the money *)

(** Everything the faucets decide on. *)
Definition money (s : Server) : Config * Signer * RateLimiter * list BotDripRow :=
  (config s.(srv_app), signer s.(srv_app), rate_limiter s.(srv_app), s.(srv_bot_drips)).

Lemma reading_money m s e : money (reading m s e).2 = money s.
Proof. unfold reading. by destruct (m e (srv_world s)). Qed.

Lemma run_call_money c s e k :
  match c with DripTo _ | DripBot _ _ => True | _ => money (run_call decode_error_text c s e k).2 = money s end.
Proof.
  destruct (lookup_call c (srv_app s)) as [m|] eqn:El.
  { rewrite (run_lookup _ _ _ _ _ El), reading_money. by destruct c. }
  destruct c; try discriminate El; cbn [run_call]; try done; clear El.
  - unfold stats_call. by destruct (route _ _ _ _ _ _) as [? []].
  - unfold nodes_call. by destruct (nodes _ _ _ _ _ _) as [? []].
Qed.

(** The faucets are behind POST. *)
Definition faucet_endpoint (h : Endpoint) : bool :=
  match h with Routes.drip | Routes.drip_bot => true | _ => false end.

Lemma faucet_routes r : r ∈ routes -> faucet_endpoint r.(rt_handler) = true -> r.(rt_method) = POST.
Proof.
  assert (Forall (fun r => faucet_endpoint r.(rt_handler) = true -> r.(rt_method) = POST) routes)
    as Hall by (apply (bool_decide_unpack _); vm_compute; exact I).
  rewrite Forall_forall in Hall. apply Hall.
Qed.

Lemma extract_faucet h args r c :
  extract h args r = Ok c ->
  match c with DripTo _ | DripBot _ _ => faucet_endpoint h = true | _ => True end.
Proof.
  destruct c; try done; destruct h; try done; cbn [extract];
    repeat match goal with |- context [?m ≫= _] => destruct m; simpl; try done end.
Qed.

Lemma call_money r c :
  call_of r = Ok c ->
  match c with DripTo _ | DripBot _ _ => hr_method r = POST | _ => True end.
Proof.
  unfold call_of. destruct (dispatch _ _) as [h args| |] eqn:Ed; try done. intros Hx.
  pose proof (extract_faucet h args r c Hx) as Hf.
  apply handled_route in Ed as (rt & Hin & <- & Hm & _).
  assert (faucet_endpoint (rt_handler rt) = true -> hr_method r = POST) as Hp.
  { intros Ht. pose proof (faucet_routes rt Hin Ht) as Hpost. unfold allows in Hm.
    rewrite Hpost in Hm. by destruct (hr_method r). }
  destruct c; try done; by apply Hp.
Qed.

Lemma handle_money r s e k :
  hr_method r <> POST -> money (handle decode_error_text r s e k).2 = money s.
Proof.
  intros Hr. unfold handle. destruct (hr_method r) eqn:Em; try done.
  all: destruct (call_of r) as [c|] eqn:Ec; [|done]; pose proof (call_money r c Ec) as Hp;
    pose proof (run_call_money c s e k) as Hm; destruct (run_call _ c s e k) as [o s'];
    destruct c; simpl in *; congruence.
Qed.

Abbreviation serve := (serve_all decode_error_text).
Abbreviation respond := (handle decode_error_text).

Lemma serve_money l s e k :
  Forall (fun r => hr_method r <> POST) l -> money (serve l s e k).2 = money s.
Proof.
  intros Hl. revert s. induction Hl as [|r l Hr Hl IH]; intros s; simpl; [done|].
  pose proof (handle_money r s e k Hr) as Hm. destruct (respond r s e k) as [o s1].
  specialize (IH s1). destruct (serve l s1 e k) as [log s2]. simpl in *. congruence.
Qed.

(** C16: The API only reads.  Over any sequence of HTTP requests, whatever relation the other
    writers keep among databases, it holds from before to after: no request, a faucet's
    included, writes a table of the indexer.  And requests that are not POST leave
    everything the faucets decide on as it was: the configuration, the nonce, the web
    limiter and the bot's table. *)
Theorem server_only_reads Rel `{!PreOrder Rel} l s e k :
  rely Rel e ->
  let s' := (serve l s e k).2 in
  Rel (db s) (db s') /\ (Forall (fun r => hr_method r <> POST) l -> money s' = money s).
Proof. intros He s'. split; [by apply serve_all_evolves|apply serve_money]. Qed.

(** ** The cooldown over any mix of requests *)

(** The web drip a request is answered with: its address, and the monotonic clock at the
    check and at the record. *)
Definition web_drip (r : HttpRequest) (s : Server) (e : Env) (k : Clocks) : option DripAt :=
  match call_of r, (respond r s e k).1 with
  | Ok (DripTo a), Done reply =>
      if reply.(rp_status) =? 200
      then let t := s.(srv_world).(w_tick) in Some (a, k.(mono) t, k.(mono) (t + 2)%nat)
      else None
  | _, _ => None
  end.
Fixpoint web_drips (l : list HttpRequest) (s : Server) (e : Env) (k : Clocks) : list DripAt :=
  match l with
  | [] => []
  | r :: rest =>
      option_list (web_drip r s e k) ++ web_drips rest (respond r s e k).2 e k
  end.

Lemma post_id o : reply_of (for_method POST) o = o.
Proof. by destruct o. Qed.

Lemma respond_drip r a s e k :
  call_of r = Ok (DripTo a) ->
  respond r s e k = (Done (drip_call a s k).1, (drip_call a s k).2).
Proof.
  intros Hc. pose proof (call_money r _ Hc) as Hm. simpl in Hm. unfold handle.
  rewrite Hm, Hc. cbn [run_call]. by destruct (drip_call a s k).
Qed.

Lemma respond_bot r provided req s e k :
  call_of r = Ok (DripBot provided req) -> respond r s e k = drip_bot_call provided req s e k.
Proof.
  intros Hc. pose proof (call_money r _ Hc) as Hm. simpl in Hm. unfold handle.
  rewrite Hm, Hc. cbn [run_call]. destruct (drip_bot_call provided req s e k) as [o s'].
  by rewrite post_id.
Qed.

(** What any other request does to the faucets. *)
Lemma respond_other r s e k :
  match call_of r with Ok (DripTo _) | Ok (DripBot _ _) => True
  | _ => money (respond r s e k).2 = money s end.
Proof.
  unfold handle. destruct (call_of r) as [c|] eqn:Ec; [|by destruct (hr_method r)].
  pose proof (run_call_money c s e k) as Hm. destruct (run_call _ c s e k) as [o s'].
  destruct c; try done; by destruct (hr_method r).
Qed.

Lemma drip_status_codes s a t0 t1 t2 :
  match (drip s a t0 t1 t2).1 with Dripped _ _ => True | Drip.Refused st _ _ => st <> 200 end.
Proof.
  unfold drip. destruct (check _ _ _); [|done].
  destruct (signer_drip _ _ _ _) as [[r|[]] n]; done.
Qed.

Lemma web_drip_step r s e k :
  let rl := rate_limiter s.(srv_app) in
  let rl' := rate_limiter (respond r s e k).2.(srv_app) in
  match web_drip r s e k with
  | Some (a, t0, t2) => check rl a t0 = Allowed /\ rl' = record rl a t2
  | None => rl' = rl
  end.
Proof.
  unfold web_drip. pose proof (respond_other r s e k) as Ho.
  destruct (call_of r) as [c|] eqn:Ec; [|by injection Ho].
  destruct c; try (by injection Ho).
  - rewrite (respond_drip r address s e k Ec). cbn [fst snd]. unfold drip_call.
    set (f := faucet_of (srv_app s)). set (t := w_tick (srv_world s)).
    pose proof (drip_cases f address (k.(mono) t) (k.(mono) (t + 1)%nat) (k.(mono) (t + 2)%nat)) as Hd.
    pose proof (drip_status_codes f address (k.(mono) t) (k.(mono) (t + 1)%nat)
      (k.(mono) (t + 2)%nat)) as Hs.
    destruct (drip f address _ _ _) as [reply f'].
    destruct Hd as [(st & m & w & -> & Hl)|(receipt & -> & Hc & Hl)]; simpl in *.
    + by destruct (Z.eqb_spec st 200).
    + done.
  - rewrite (respond_bot r provided req s e k Ec). unfold drip_bot_call.
    by destruct (drip_bot _ _ _ _ _) as [[?|] st].
Qed.

Lemma web_drips_admitted l s e k : admits (rate_limiter s.(srv_app)) (web_drips l s e k).
Proof.
  revert s. induction l as [|r l IH]; intros s; simpl; [done|].
  pose proof (web_drip_step r s e k) as Hs. specialize (IH (respond r s e k).2).
  destruct (web_drip r s e k) as [[[a t0] t2]|]; simpl.
  - destruct Hs as [Hc Hl]. split; [done|]. by rewrite <- Hl.
  - by rewrite <- Hs.
Qed.

(** ** One stream of nonces *)

Abbreviation nonce s := ((signer s.(srv_app)).(sg_nonce)).

(** A transfer the chain accepted for a request of either faucet: its nonce, recipient and
    amount.  A bot request that panics after the submission has been paid. *)
Definition Payout : Type := Z * string * Z.
Definition payout (r : HttpRequest) (s : Server) (e : Env) (k : Clocks) : option Payout :=
  let paid o := match o with Done reply => reply.(rp_status) =? 200 | Panicked => true end in
  match call_of r with
  | Ok (DripTo a) =>
      if paid (respond r s e k).1
      then Some (nonce s, a, (config s.(srv_app)).(cfg_drip_amount)) else None
  | Ok (DripBot _ req) =>
      if paid (respond r s e k).1
      then Some (nonce s, req.(req_address), req.(req_amount_nano)) else None
  | _ => None
  end.
Fixpoint payouts (l : list HttpRequest) (s : Server) (e : Env) (k : Clocks) : list Payout :=
  match l with
  | [] => []
  | r :: rest => option_list (payout r s e k) ++ payouts rest (respond r s e k).2 e k
  end.

(** The amounts the configuration allows. *)
Definition configured_amount (c : Config) (n : Z) : Prop :=
  n = c.(cfg_drip_amount) \/ exists t, n = tier_to_amount c t.

Lemma signer_drip_nonce a n nc t :
  match signer_drip a n nc t with
  | (Ok receipt, nc') => nc' = as_u64 (nc + 1) /\ receipt.(r_amount_nano) = n
  | (Err _, nc') => nc' = nc \/ nc' = as_u64 (nc + 1)
  end.
Proof.
  unfold signer_drip, prepare, submit. destruct (parse_address a); [|by left]. simpl.
  destruct (sign_transfer _ _ _) as [bytes|]; [|by right].
  destruct (submit_raw_tx _ _); [done|by right].
Qed.

Lemma drip_nonce s a t0 t1 t2 :
  match (drip s a t0 t1 t2).1 with
  | Dripped _ _ => nonce_counter (drip s a t0 t1 t2).2 = as_u64 (nonce_counter s + 1)
  | Drip.Refused _ _ _ =>
      nonce_counter (drip s a t0 t1 t2).2 = nonce_counter s \/
      nonce_counter (drip s a t0 t1 t2).2 = as_u64 (nonce_counter s + 1)
  end.
Proof.
  unfold drip. destruct (check _ _ _); [|by left].
  pose proof (signer_drip_nonce a (drip_amount s) (nonce_counter s) t1) as Hn.
  destruct (signer_drip _ _ _ _) as [[receipt|err] n]; simpl in *; [by destruct Hn|done].
Qed.

(** One bot request on the running server. *)
Lemma bot_nonce_step cfg env provided req st :
  (forall i x, be_other env i x = x) ->
  match drip_bot cfg env provided req st with
  | (Done (Err err), st') => bot_status err <> 200 /\
      (bot_nonce st' = bot_nonce st \/ bot_nonce st' = as_u64 (bot_nonce st + 1))
  | (_, st') => req_amount_nano req = tier_to_amount cfg (req_tier req) /\
      bot_nonce st' = as_u64 (bot_nonce st + 1)
  end.
Proof.
  intros Ha. pose proof (drip_bot_cases cfg env provided req st) as Hc.
  pose proof (cooldown_checks_cases cfg env req st) as Hk.
  unfold seen2, seen1, seen0 in Hc, Hk. rewrite !Ha in *.
  pose proof (signer_drip_nonce (req_address req) (req_amount_nano req) (bot_nonce st)
    (be_utc_now env 2)) as Hn.
  destruct (drip_bot cfg env provided req st) as [o st'].
  destruct Hc as [(err & -> & Hc)|(secret & receipt & n' & Ho & _ & _ & Ht & _ & Hs & ->)].
  - destruct Hc as [(_ & -> & ->)|(secret & _ & [(_ & -> & ->)|(_ & [(_ & -> & ->)|(_ & Hc)])])];
      [split; [done|by left]..|].
    destruct (cooldown_checks cfg env 0 (both_checks req) st) as [[x|] stc]; simpl in Hc.
    + destruct Hc as [[[= ->] ->]|[? _]]; [|done]. destruct Hk as [Hst Hb].
      split; [destruct Hb as [[-> _]| ->]; done|]. left. by destruct Hst as [-> | ->].
    + destruct Hc as [[? _]|(_ & err' & Hs & -> & _)]; [done|]. rewrite Hs in Hn.
      split; [by destruct err'|done].
  - rewrite Hs in Hn. destruct Hn as [-> _]. rewrite Ha.
    assert (forall row f x, bot_nonce (insert_drip row f x) = bot_nonce x) as ->
      by (by intros ? []).
    by destruct Ho as [-> |(resp & -> & _)].
Qed.

Lemma config_stays r s e k : config (respond r s e k).2.(srv_app) = config s.(srv_app).
Proof.
  pose proof (respond_other r s e k) as Ho.
  destruct (call_of r) as [c|] eqn:Ec; [|by injection Ho].
  destruct c; try (by injection Ho).
  - rewrite (respond_drip r address s e k Ec). unfold drip_call. by destruct (drip _ _ _ _ _).
  - rewrite (respond_bot r provided req s e k Ec). unfold drip_bot_call.
    by destruct (drip_bot _ _ _ _ _).
Qed.

Lemma payout_step r s e k :
  match payout r s e k with
  | Some (n, _, amount) => n = nonce s /\ nonce (respond r s e k).2 = as_u64 (nonce s + 1) /\
      configured_amount (config s.(srv_app)) amount
  | None => nonce (respond r s e k).2 = nonce s \/
            nonce (respond r s e k).2 = as_u64 (nonce s + 1)
  end.
Proof.
  unfold payout. pose proof (respond_other r s e k) as Ho.
  destruct (call_of r) as [c|] eqn:Ec; [|injection Ho; intros; left; congruence].
  destruct c; try (injection Ho; intros; left; congruence).
  - rewrite (respond_drip r address s e k Ec). cbn [fst snd]. unfold drip_call.
    set (f := faucet_of (srv_app s)). set (t := w_tick (srv_world s)).
    pose proof (drip_nonce f address (k.(mono) t) (k.(mono) (t + 1)%nat) (k.(mono) (t + 2)%nat)) as Hn.
    pose proof (drip_status_codes f address (k.(mono) t) (k.(mono) (t + 1)%nat)
      (k.(mono) (t + 2)%nat)) as Hs.
    destruct (drip f address _ _ _) as [[a receipt|st m w] f']; simpl in *.
    + split_and!; [done|done|by left].
    + by destruct (Z.eqb_spec st 200).
  - rewrite (respond_bot r provided req s e k Ec). unfold drip_bot_call.
    pose proof (bot_nonce_step (config (srv_app s)) (bot_env e k (w_tick (srv_world s))) provided
      req (bot_state s) ltac:(done)) as Hn.
    destruct (drip_bot _ _ _ _ _) as [[[resp|err]|] st]; simpl in *.
    + destruct Hn as [Ha Hn]. split_and!; [done|done|]. right. eauto.
    + destruct Hn as [Hst Hn]. by destruct (Z.eqb_spec (bot_status err) 200).
    + destruct Hn as [Ha Hn]. split_and!; [done|done|]. right. eauto.
Qed.

(** The nonces of the payouts, as offsets from the counter. *)
Lemma payouts_offsets l s e k first i :
  nonce s = as_u64 (first + i) ->
  exists offs n, (payouts l s e k).*1.*1 = (fun o => as_u64 (first + o)) <$> offs /\
    i <= n <= i + Z.of_nat (length l) /\ nonce (serve l s e k).2 = as_u64 (first + n) /\
    Forall (fun o => i <= o < n) offs /\ NoDup offs /\
    Forall (fun p : Payout => configured_amount (config s.(srv_app)) p.2) (payouts l s e k).
Proof.
  revert s i. induction l as [|r l IH]; intros s i Hi.
  { exists [], i. simpl. split_and!; [done|lia|lia|done|constructor|constructor|constructor]. }
  assert (forall x, as_u64 (as_u64 (first + x) + 1) = as_u64 (first + (x + 1))) as Hnext.
  { intros x. unfold as_u64, as_unsigned. rewrite Zplus_mod_idemp_l. f_equal. lia. }
  pose proof (payout_step r s e k) as Hp. pose proof (config_stays r s e k) as Hcfg.
  cbn [payouts serve_all length]. destruct (respond r s e k) as [o s1]. simpl in *.
  destruct (payout r s e k) as [[[n a] amount]|]; simpl.
  - destruct Hp as (-> & Hn & Ha). rewrite Hi, Hnext in Hn.
    destruct (IH s1 (i + 1) Hn) as (offs & m & Ho & Hm & Hm' & Hr & Hnd & Hf).
    destruct (serve l s1 e k) as [log s2]. simpl in *. exists (i :: offs), m.
    split_and!; try lia; [rewrite fmap_cons, <- Ho, <- Hi; reflexivity| | |].
    + constructor; [lia|]. eapply Forall_impl; [exact Hr|]. simpl. lia.
    + constructor; [|done]. intros Hin. rewrite Forall_forall in Hr. specialize (Hr i Hin). lia.
    + constructor; [done|]. by rewrite <- Hcfg.
  - assert (exists j, i <= j <= i + 1 /\ nonce s1 = as_u64 (first + j)) as (j & Hj & Hn).
    { destruct Hp as [-> | ->]; [exists i|exists (i + 1)]; rewrite Hi, ?Hnext; split; lia || done. }
    destruct (IH s1 j Hn) as (offs & m & Ho & Hm & Hm' & Hr & Hnd & Hf).
    destruct (serve l s1 e k) as [log s2]. simpl in *. exists offs, m. rewrite <- Hcfg.
    split_and!; try lia; try done. eapply Forall_impl; [exact Hr|]. simpl. lia.
Qed.

(** One nonce stream for two faucets.  Over any mix of HTTP requests, up to 2^64 of them,
    the transfers accepted for the web faucet and for the bot carry pairwise distinct
    nonces, and each has exactly the amount the configuration names: the web drip's or
    the one of a tier. *)
Theorem faucets_share_nonces l s e k :
  in_u64 (nonce s) -> Z.of_nat (length l) <= u64_max ->
  NoDup ((payouts l s e k).*1.*1) /\
  Forall (fun p : Payout => configured_amount (config s.(srv_app)) p.2) (payouts l s e k).
Proof.
  intros Hn Hl.
  destruct (payouts_offsets l s e k (nonce s) 0) as (offs & n & -> & Hb & _ & Hr & Hnd & Hf).
  { by rewrite Z.add_0_r, as_u64_id. }
  split; [|done]. apply NoDup_fmap_2_strong; [|done].
  intros x y Hx Hy He. rewrite Forall_forall in Hr.
  pose proof (Hr x Hx). pose proof (Hr y Hy). eapply as_u64_inj_near; [..|exact He]; lia.
Qed.

(** ** Which requests are answered *)

Section Answers.
Context (e : Env).

Definition answers {A} (m : IO A) : Prop := forall w, exists a w', m e w = (Done a, w').

Lemma answers_no_panic {A} (m : IO A) : no_panic m -> answers m.
Proof. intros Hm w. apply Hm. Qed.

Lemma answers_bind {A B} (m : IO A) (f : A -> IO B) :
  answers m -> (forall a, answers (f a)) -> answers (m ≫= f).
Proof.
  intros Hm Hf w. destruct (Hm w) as (a & w' & Ha). rewrite (io_bind_done _ _ _ _ _ _ Ha).
  apply Hf.
Qed.

Lemma answers_try {E A B} (m : IO (result E A)) (f : A -> IO (result E B)) :
  answers m -> (forall a, answers (f a)) -> answers (try m f).
Proof.
  intros Hm Hf. apply answers_bind; [done|]. intros [a|x]; [apply Hf|by intros w; eexists _, _].
Qed.

Lemma answers_now {B} (f : Z -> IO B) :
  (forall t, answers (f (e.(env_now) t))) -> answers (io_now ≫= f).
Proof. intros Hf w. apply Hf. Qed.

Lemma answers_lift {A B} (o : outcome A) (f : A -> IO B) a :
  o = Done a -> answers (f a) -> answers (lift o ≫= f).
Proof. intros -> Hf w. apply Hf. Qed.

Lemma answers_at_tick {A} (f : nat -> A) : answers (at_tick f).
Proof. intros w. by eexists _, _. Qed.
Lemma answers_ret {A} (a : A) : answers (mret a).
Proof. intros w. by eexists _, _. Qed.
Lemma answers_http t u : answers (http_get t u).
Proof. intros w. by eexists _, _. Qed.
Lemma answers_clock : answers io_now.
Proof. intros w. by eexists _, _. Qed.
Lemma answers_query {A} (f : DB -> A) : answers (query f).
Proof. apply answers_no_panic, no_panic_exec. Qed.
End Answers.

#[local] Hint Resolve answers_at_tick answers_ret answers_http answers_clock answers_query : io.

(** [answers_go] walks through a program: [?], binds and matches. *)
Ltac answers_go :=
  repeat first
    [ progress intros
    | solve [eauto with io nocore]
    | apply answers_try
    | apply answers_bind
    | progress (cbv beta iota zeta)
    | case_match ].

(** The clock is ninety days inside the calendar. *)
Definition clock_in_range (e : Env) : Prop := forall t, min_utc + 90 * DAY_MS <= e.(env_now) t.

Lemma url_answers e c path :
  usable c -> relative path = true -> answers e (lift (url c path)).
Proof. intros Hc Hp w. destruct (usable_url c path Hc Hp) as (u & _ & ->). by eexists _, _. Qed.

Section Calls.
Context (e : Env) (rpc : string) (Hrpc : can_be_asked rpc) (Hclock : clock_in_range e).
#[local] Hint Resolve url_answers : io.
#[local] Hint Extern 1 (relative _ = true) => reflexivity : io.

Lemma asked_client c : new rpc = Ok c -> usable c.
Proof. intros Hn. eapply new_usable; [done|by apply Hrpc]. Qed.
#[local] Hint Resolve asked_client : io.

Lemma fetch_answers c u : answers e (fetch c u).
Proof. unfold fetch. answers_go. Qed.
#[local] Hint Resolve fetch_answers : io.
Lemma head_answers c : usable c -> answers e (latest_slot c).
Proof. intros Hc. unfold latest_slot. answers_go. Qed.
Lemma rollup_info_answers c : usable c -> answers e (rollup_info c).
Proof. intros Hc. unfold rollup_info. answers_go. Qed.
#[local] Hint Resolve head_answers rollup_info_answers : io.

Lemma found_query_answers {A} (f : DB -> option A) answer otherwise :
  answers e (found f answer otherwise).
Proof. unfold found. answers_go. Qed.
#[local] Hint Resolve found_query_answers : io.

Lemma search_replies q : answers e (Lookup.search q).
Proof. unfold Lookup.search, prefix_dispatch. answers_go. Qed.
Lemma info_answers : answers e (Lookup.info rpc).
Proof. unfold Lookup.info. answers_go. Qed.
#[local] Hint Resolve search_replies info_answers : io.

(** Every lookup is answered. *)
Lemma lookup_answers a m : read_endpoint decode_error_text a rpc m -> answers e m.
Proof.
  intros Hm. destruct Hm; auto with io;
    try (unfold blocks_list, txs_list, address_txs, schemas_list, attestations_list,
           attestations_by_schema, attestations_by_set, attestor_sets_list, bounties_list,
           contracts_list, attestor_sets_by_member, list_reply;
         answers_go; fail);
    unfold block_by_height, tx_by_hash_reply, schema_by_id_reply, attestor_set_by_id_reply,
      bounty_detail, contract_detail, detail, attestation_by_id_reply, address_summary,
      query_balance_for, bounties_matching; answers_go.
Qed.

(** The statistics that are answered, from database [d] on: an address window must not
    reach before the calendar, and the block estimate must stay inside it, whatever the
    indexer writes before the slots are read. *)
Definition stats_answerable (d : DB) (r : StatsRequest) : Prop :=
  match r with
  | ActiveAddresses window =>
      forall secs dur, parse_interval (default "24h" window) = Ok secs ->
        duration_from_std secs = Some dur -> forall t, min_utc <= e.(env_now) t - dur
  | NextBlockEta =>
      forall t x, expected_next (recent_slots (e.(env_other) t d)) = Some x -> in_calendar x
  | _ => True
  end.

Lemma read_answers {A} context (f : DB -> A) : answers e (read context f).
Proof. unfold read. answers_go. Qed.
#[local] Hint Resolve read_answers : io.
Lemma read_since_answers {A} context since (f : DB -> A) : answers e (read_since context since f).
Proof. unfold read_since. answers_go. Qed.
#[local] Hint Resolve read_since_answers : io.
Lemma balance_answers s a : answers e (query_balance_for s a).
Proof. unfold query_balance_for. answers_go. Qed.
#[local] Hint Resolve balance_answers : io.
Lemma balances_answers s l : answers e (query_balances s l).
Proof. induction l; simpl; answers_go. Qed.
#[local] Hint Resolve balances_answers : io.

(** [Utc::now()] minus a number of days. *)
Lemma days_ago {B} o dflt (f : Z -> IO B) :
  0 <= dflt -> match o with Some n => 0 <= n | None => True end ->
  (forall since, answers e (f since)) ->
  answers e (now ← io_now; since ← lift (utc_sub now (min_days o dflt * DAY_MS)); f since).
Proof.
  intros Hd Ho Hf. apply answers_now. intros t.
  eapply answers_lift; [|apply Hf]. unfold utc_sub.
  assert (0 <= min_days o dflt <= 90) by (unfold min_days; destruct o; simpl; lia).
  specialize (Hclock t). unfold DAY_MS in *.
  destruct (Z.leb_spec min_utc (env_now e t - min_days o dflt * 86400000)); [done|lia].
Qed.

Lemma daily_answers context times o dflt :
  0 <= dflt -> match o with Some n => 0 <= n | None => True end ->
  answers e (compute_daily context times (min_days o dflt)).
Proof. intros Hd Ho. unfold compute_daily. apply days_ago; [done..|]. answers_go. Qed.

Lemma leaderboard_answers context rows n : answers e (compute_leaderboard context rows n).
Proof. unfold compute_leaderboard. answers_go. Qed.

Lemma active_answers label secs :
  (forall dur, duration_from_std secs = Some dur -> forall t, min_utc <= e.(env_now) t - dur) ->
  answers e (compute_active_addresses label secs).
Proof.
  intros Hs. unfold compute_active_addresses. apply answers_now. intros t.
  destruct (duration_from_std secs) as [dur|]; [|answers_go].
  eapply answers_lift; [|answers_go]. unfold utc_sub. specialize (Hs dur eq_refl t).
  destruct (Z.leb_spec min_utc (env_now e t - dur)); [done|lia].
Qed.

(** The head is asked for without touching the database. *)
Lemma head_keeps c w : usable c ->
  exists r w', latest_slot c e w = (Done r, w') /\ w'.(w_db) = w.(w_db).
Proof.
  intros Hc. destruct (usable_url c "v1/ledger/slots/latest" Hc eq_refl) as (u & _ & Hu).
  unfold latest_slot, fetch, try, mbind, io_bind, lift, http_get. rewrite Hu.
  destruct (env_http e _ _ _); by eexists _, _.
Qed.

Lemma recent_slots_length d : (length (recent_slots d) <= 100)%nat.
Proof. unfold recent_slots, limit. rewrite length_take. lia. Qed.

Lemma compute_eta_answers head w :
  stats_answerable w.(w_db) NextBlockEta ->
  exists r w', compute_next_block_eta head e w = (Done r, w').
Proof.
  intros Hr. unfold compute_next_block_eta, read, try, query, exec, mbind, io_bind. simpl.
  pose proof (recent_slots_length (env_other e (w_tick w) (w_db w))) as Hl.
  pose proof (Hr (w_tick w)) as Hx.
  set (rows := recent_slots (env_other e (w_tick w) (w_db w))) in *.
  assert (forall now, exists r, eta_response rows head now = Done r) as Heta.
  { intros now. pose proof (eta_cases rows head now Hl) as Hc.
    destruct (eta_response rows head now) as [r|]; [eauto|].
    destruct Hc as (x & Hs & Hno). by destruct Hno; apply Hx. }
  destruct (env_fault e (w_tick w)); simpl; [|by eexists _, _..].
  destruct rows as [|row rows'] eqn:Er; [by eexists _, _|]. unfold io_now, lift.
  match goal with |- context [eta_response _ head ?now] => destruct (Heta now) as [r Ho] end.
  rewrite Ho. by eexists _, _.
Qed.

Lemma eta_answers w : stats_answerable w.(w_db) NextBlockEta ->
  exists r w', next_block_eta_payload rpc e w = (Done r, w').
Proof.
  intros Hr. unfold next_block_eta_payload.
  assert (exists head w1, match new rpc with
      | Ok client => s ← latest_slot client; mret (slot_number <$> result_ok s)
      | Err _ => mret None
      end e w = (Done head, w1) /\ w1.(w_db) = w.(w_db)) as (head & w1 & Hhead & Hd).
  { destruct (new rpc) as [c|] eqn:Ec; [|by eexists _, _].
    destruct (head_keeps c w (asked_client c Ec)) as (s & w1 & Hs & Hd).
    rewrite (io_bind_done _ _ _ _ _ _ Hs). by eexists _, _. }
  rewrite (io_bind_done _ _ _ _ _ _ Hhead). rewrite <- Hd in Hr.
  destruct (compute_eta_answers head w1 Hr) as (r & w2 & Hc).
  unfold try. rewrite (io_bind_done _ _ _ _ _ _ Hc). destruct r; by eexists _, _.
Qed.

Lemma asked_answers st r w :
  ss_chain_rpc st = rpc -> typed_request r -> stats_answerable w.(w_db) r ->
  exists o w', asked_for st r e w = (Done o, w').
Proof.
  assert (forall o : option Z, match o with Some n => in_u32 n | None => True end ->
    match o with Some n => 0 <= n | None => True end) as Hdays by (intros [n|] Hn; [apply Hn|done]).
  intros Hst.
  destruct r; simpl; intros Ht Hr; try (apply daily_answers; [done|by apply Hdays]).
  - enough (answers e (totals_payload st)) as Ha by apply Ha.
    unfold totals_payload, compute_totals, query_total_supply. answers_go.
  - enough (answers e finality_payload) as Ha by apply Ha.
    unfold finality_payload, compute_observed_finality, estimated_finality. answers_go.
    apply answers_no_panic, no_panic_exec.
  - rewrite Hst. by apply eta_answers.
  - destruct (parse_interval _) as [secs|] eqn:Ep; [|by eexists _, _]. apply active_answers.
    intros dur. by apply Hr.
  - unfold compute_tx_rate_daily. apply days_ago; [done|by apply Hdays|]. answers_go.
  - unfold compute_drips_daily. apply days_ago; [done|by apply Hdays|]. answers_go.
  - enough (answers e (compute_top_holders st.(ss_signer) (clamp_n n))) as Ha by apply Ha.
    unfold compute_top_holders. answers_go.
  - apply leaderboard_answers.
  - apply leaderboard_answers.
  - apply leaderboard_answers.
Qed.

Lemma route_answers mono st r cache w :
  ss_chain_rpc st = rpc -> typed_request r -> stats_answerable w.(w_db) r ->
  exists reply cw, route mono st r cache e w = (Done reply, cw).
Proof.
  intros Hst Ht Hr. destruct (route_serve mono st r cache e w) as [(err & _ & ->)| ->]; [eauto|].
  unfold StatsCache.serve. destruct (StatsCache.get_fresh _ _ _ _); [eauto|].
  destruct (asked_answers st r w Hst Ht Hr) as (o & w' & ->). destruct (finish _ _ _ _ _). eauto.
Qed.

Lemma nodes_answers mono token cache w :
  exists reply cw, nodes mono rpc token cache e w = (Done reply, cw).
Proof.
  unfold nodes. destruct (Cluster.get_fresh _ _); [eauto|].
  assert (answers e (fetch_and_transform rpc token)) as Hf.
  { unfold fetch_and_transform, cluster_nodes. answers_go. }
  destruct (Hf w) as (t & w' & ->). destruct (ct_cluster_health t); eauto.
Qed.
End Calls.

(** A query parameter is of its type. *)
Lemma query_param_range k q o : query_opt u32_param k q = Some o ->
  match o with Some n => in_u32 n | None => True end.
Proof.
  unfold query_opt. destruct (values_of k q) as [|v [|]]; [by intros [= <-]| |done].
  destruct (u32_param v) as [n|] eqn:En; [|done]. intros [= <-]. by apply parse_uint_range in En.
Qed.

Lemma stats_call_typed r q : call_of r = Ok (Stats q) -> typed_request q.
Proof.
  unfold call_of. destruct (dispatch _ _) as [h args| |]; try done.
  destruct h; cbn [extract]; try done;
    try (repeat match goal with |- context [json_params ?h ?d ?r] => destruct (json_params h d r) end; done);
    try (repeat match goal with |- context [path_param ?d ?r] => destruct (path_param d r); simpl end;
         repeat match goal with |- context [query_params ?d ?r] => destruct (query_params d r) end; done).
  all: try (by intros [= <-]).
  all: unfold query_params; match goal with |- context [?d (query_pairs ?x)] =>
    destruct (d (query_pairs x)) as [o|] eqn:Eo; simpl; [|done] end; intros [= <-]; try done;
    by apply query_param_range in Eo.
Qed.

(** What keeps the handlers that compute a date inside the calendar: the ends of the two
    cooldowns, at the instants the request reads, and the statistics' dates. *)
Definition answerable (c : Call) (s : Server) (e : Env) (k : Clocks) : Prop :=
  match c with
  | DripStatus (Some _) =>
      0 <= window (rate_limiter s.(srv_app)) /\
      k.(utc) s.(srv_world).(w_tick) + window (rate_limiter s.(srv_app)) <= max_utc * 1000000
  | DripBot _ _ =>
      utc_add_seconds (k.(utc) (s.(srv_world).(w_tick) + 4)%nat / 1000)
        (as_i64 (config s.(srv_app)).(bot_drip_rate_limit_secs)) <> None
  | Stats r => stats_answerable e (db s) r
  | _ => True
  end.

Lemma drip_status_answers f secs faucet address t now :
  0 <= window f.(limiter) -> now + window f.(limiter) <= max_utc * 1000000 ->
  drip_status f secs faucet address t now <> Panicked.
Proof.
  intros Hw Hn. unfold drip_status. destruct (address ≫= nonempty) as [a|]; [|done].
  unfold peek. destruct (last_drip (limiter f) !! a) as [last|]; [|done].
  destruct (Z.leb_spec (window (limiter f)) (duration_since t last)) as [|Hl]; [done|].
  assert (0 <= duration_since t last) by (unfold duration_since; lia).
  unfold bump_of. destruct (_ <=? i64_max * 1000000); case_match eqn:E; try done; lia.
Qed.

Lemma drip_bot_answers cfg env provided req st :
  utc_add_seconds (be_utc_now env 4) (as_i64 cfg.(bot_drip_rate_limit_secs)) <> None ->
  (drip_bot cfg env provided req st).1 <> Panicked.
Proof.
  intros Hu. unfold drip_bot. destruct (bot_guards _ _ _); [done|].
  destruct (cooldown_checks _ _ _ _ _) as [[] st1]; [done|].
  destruct (signer_drip _ _ _ _) as [[]]; [|done]. unfold bot_reply. simpl.
  by destruct (utc_add_seconds _ _).
Qed.

Lemma reply_of_done {A} (f : A -> Reply) o : o <> Panicked -> exists r, reply_of f o = Done r.
Proof. destruct o as [a|]; [by exists (f a)|done]. Qed.

Lemma run_call_answers c s e k :
  can_be_asked (config s.(srv_app)).(chain_rpc) -> clock_in_range e -> answerable c s e k ->
  match c with Stats q => typed_request q | _ => True end ->
  exists reply s', run_call decode_error_text c s e k = (Done reply, s').
Proof.
  intros Hj Hclock Hc Ht. destruct (lookup_call c (srv_app s)) as [m|] eqn:El.
  { rewrite (run_lookup _ _ _ _ _ El). unfold reading.
    destruct (lookup_answers e _ Hj _ m (lookup_reads _ _ _ El) (srv_world s)) as (a & w' & ->).
    eauto. }
  destruct c; try discriminate El; cbn [run_call]; clear El; [eauto| | | | |].
  - destruct (drip_call address s k). eauto.
  - unfold drip_status_call. destruct address as [a|]; [|simpl; eauto].
    destruct Hc as [Hw Hn]. edestruct (reply_of_done (A := DripStatusBody)) as [reply Hr];
      [by apply (drip_status_answers (faucet_of (srv_app s)))|]. rewrite Hr. eauto.
  - unfold drip_bot_call. pose proof (drip_bot_answers (config (srv_app s))
      (bot_env e k (w_tick (srv_world s))) provided req (bot_state s) Hc) as Hd.
    destruct (drip_bot _ _ _ _ _) as [[x|] st]; [simpl; eauto|done].
  - unfold stats_call.
    destruct (route_answers e _ Hj Hclock k.(mono) (stats_state s e) r (stats_cache (srv_app s))
      (srv_world s) eq_refl Ht Hc) as (reply & [c' w'] & ->). simpl. eauto.
  - unfold nodes_call.
    destruct (nodes_answers e _ Hj k.(mono) (chain_cluster_auth_token (config (srv_app s)))
      (cluster_cache (srv_app s)) (srv_world s)) as (reply & [c' w'] & ->). simpl. eauto.
Qed.

(** C12: The server answers.  When the configured [CHAIN_RPC] is no URL that cannot be a
    base (requests that ask the node panic with such a one) and the clock is ninety days
    inside chrono's calendar, every HTTP request gets a reply: unknown paths, wrong
    methods, unreadable parameters and bodies, failing statements and an unreachable node
    included.  Only the handlers that compute a date ask for more, of the instants and
    slots this request reads: that the end of the cooldown, the start of an address window
    and the next block's instant lie inside the calendar. *)
Theorem server_answers r s e k :
  can_be_asked (config s.(srv_app)).(chain_rpc) -> clock_in_range e ->
  (forall c, call_of r = Ok c -> answerable c s e k) ->
  exists reply s', respond r s e k = (Done reply, s').
Proof.
  intros Hj Hclock Hc. unfold handle.
  destruct (call_of r) as [c|status] eqn:Ec; [|destruct (hr_method r); eauto].
  destruct (run_call_answers c s e k Hj Hclock (Hc c eq_refl)) as (reply & s' & ->).
  { destruct c; try done. by eapply stats_call_typed. }
  destruct (hr_method r); simpl; eauto.
Qed.

(** Any server. *)
Lemma served_cooldown s l e k t :
  0 < window (rate_limiter s.(srv_app)) -> in_order t (web_drips l s e k) ->
  ForallOrdPairs (fun g g' : DripAt =>
      g.1.1 = g'.1.1 -> window (rate_limiter s.(srv_app)) <= g'.1.2 - g.2) (web_drips l s e k).
Proof. intros Hw Ho. eapply admits_cooldown; [done|done|]. apply web_drips_admitted. Qed.

Section Started.
Context `{Hex} `{Sha256} `{Chrono} `{PgNumeric} `{PF : Platform}.

(** C27: The cooldown of a running process.  Over any mix of HTTP requests handled one after
    another by a server that [main] started, two web drips to one address are at least the
    configured number of seconds apart, from the record of the first to the check of the
    second, whatever bot requests, reads, refusals and failures lie between.  Requests that
    overlap can be paid twice: [ConcurrentSpec.cooldown_unless_overlapping] states what
    holds of every interleaving. *)
Theorem started_cooldown vars e0 w sv w' bot l e k t :
  main vars e0 w = (Done (Ok sv), w') ->
  let s := started sv bot w' in
  let W := (config sv.(sv_state)).(drip_rate_limit_secs) * 1000000000 in
  0 < W -> in_order t (web_drips l s e k) ->
  ForallOrdPairs (fun g g' : DripAt => g.1.1 = g'.1.1 -> W <= g'.1.2 - g.2) (web_drips l s e k).
Proof.
  intros Hm s W Hw Ho. destruct (main_serves vars e0 w sv w' Hm) as (c & addr & sg & w1 & w2 & _ & _ & _ & ->).
  by apply (served_cooldown s l e k t).
Qed.
End Started.
End ApiSpec.

(** ** At concrete inputs

    The server of a started process; its clocks advance by fifty thousand seconds a
    tick, so that a drip's three ticks are longer than the web faucet's day. *)
Import SampleWeb SampleCalendar.
Section ApiWitnesses.
#[local] Existing Instances SampleText.b64 SampleText.text Rfc8259.json Samples.urls Samples.urls_laws
  SampleHex.hex SampleSdk.sdk sample_sdk sample_time Bip350.bech32m Fips180.sha2 clock numeric
  FirstMatch.router FirstMatch.router_laws platform SampleStats.percentile SampleApi.unicode.

Definition no_text (_ : DecodeError) : string := "".

Definition sample_clocks : Clocks := {|
  mono t := Z.of_nat t * 50000000000000; utc t := Z.of_nat t * 50000000000000;
  db_now t := Z.of_nat t * 50000000000 |}.

Definition started_server : Server :=
  match main (SampleSdk.vars "100000000000") SampleSdk.env SampleSdk.world with
  | (Done (Ok sv), w) => started sv [] w
  | _ => {| srv_app := app_state bot_config (ss_signer SampleStats.state); srv_bot_drips := [];
            srv_world := SampleSdk.world |}
  end.

Definition two_drips : list HttpRequest :=
  [request_of (DripTo "lig1a"); request_of (BlocksList {| p_limit := None; p_before := None |});
   request_of (DripTo "lig1a")].
Example two_drips_paid :
  web_drips no_text two_drips started_server SampleSdk.env sample_clocks =
    [("lig1a", 250000000000000, 350000000000000); ("lig1a", 450000000000000, 550000000000000)].
Proof. vm_compute. reflexivity. Qed.

Definition main_serving (o : outcome (result string Serving) * World) : bool :=
  match o with (Done (Ok _), _) => true | _ => false end.

Lemma started_cooldown_witness :
  match main (SampleSdk.vars "100000000000") SampleSdk.env SampleSdk.world with
  | (Done (Ok sv), w) =>
      ForallOrdPairs (fun g g' : DripAt => g.1.1 = g'.1.1 -> 86400 * 1000000000 <= g'.1.2 - g.2)
        (web_drips no_text two_drips (started sv [] w) SampleSdk.env sample_clocks)
  | _ => False
  end.
Proof.
  destruct (main (SampleSdk.vars "100000000000") SampleSdk.env SampleSdk.world)
    as [[[sv|m]|] w] eqn:Em;
    [|apply (f_equal main_serving) in Em; vm_compute in Em; discriminate Em..].
  assert ((config sv.(sv_state)).(drip_rate_limit_secs) = 86400) as Hr.
  { apply (f_equal (fun o => match o.1 with Done (Ok sv) =>
      (config sv.(sv_state)).(drip_rate_limit_secs) | _ => 0 end)) in Em.
    vm_compute in Em. exact (eq_sym Em). }
  assert (web_drips no_text two_drips (started sv [] w) SampleSdk.env sample_clocks =
    [("lig1a", 250000000000000, 350000000000000); ("lig1a", 450000000000000, 550000000000000)]) as Hd.
  { rewrite <- two_drips_paid. unfold started_server. by rewrite Em. }
  pose proof (started_cooldown no_text (SampleSdk.vars "100000000000") SampleSdk.env
    SampleSdk.world sv w [] two_drips SampleSdk.env sample_clocks 0 Em) as Hc.
  cbv zeta in Hc. rewrite Hr in Hc. apply Hc; [reflexivity|].
  rewrite Hd. simpl. lia.
Defined.

(** A web drip, a bot drip and another web drip: three nonces. *)
Definition bot_server : Server :=
  {| srv_app := app_state bot_config (ss_signer SampleStats.state); srv_bot_drips := [];
     srv_world := SampleSdk.world |}.
Definition three_payouts : list HttpRequest :=
  [request_of (DripTo "lig1a"); request_of bot_call; request_of (DripTo "lig1b")].
Example three_nonces :
  (payouts no_text three_payouts bot_server SampleSdk.env sample_clocks).*1.*1 = [0; 1; 2].
Proof. vm_compute. reflexivity. Qed.

Lemma faucets_share_nonces_witness :
  NoDup ((payouts no_text three_payouts bot_server SampleSdk.env sample_clocks).*1.*1).
Proof.
  apply (faucets_share_nonces no_text three_payouts bot_server SampleSdk.env sample_clocks);
    vm_compute; [split|]; discriminate.
Defined.

Lemma server_only_reads_witness :
  (serve_all no_text three_payouts bot_server SampleSdk.env sample_clocks).2.(srv_world).(w_db)
    = empty_db /\
  money (serve_all no_text [request_of (Search "3")] bot_server SampleSdk.env sample_clocks).2 =
    money bot_server.
Proof.
  split.
  - symmetry. apply (server_only_reads no_text eq three_payouts bot_server SampleSdk.env sample_clocks).
    intros t d. reflexivity.
  - apply (server_only_reads no_text eq [request_of (Search "3")] bot_server SampleSdk.env
      sample_clocks); [intros t d; reflexivity|].
    repeat constructor. discriminate.
Defined.

(** An address window, a bot drip and the block estimate. *)
Lemma server_answers_witness :
  let answered r := exists reply s', handle no_text r bot_server SampleSdk.env sample_clocks =
    (Done reply, s') in
  answered (request_of (Stats (ActiveAddresses (Some "7d")))) /\ answered (request_of bot_call) /\
  answered (request_of (Stats NextBlockEta)).
Proof.
  assert (can_be_asked (config (srv_app bot_server)).(chain_rpc)) as Hj.
  { intros c Hc. apply (f_equal (fun r => match r with Ok c => cannot_be_a_base (base c)
      | Err _ => false end)) in Hc. vm_compute in Hc. exact (eq_sym Hc). }
  assert (clock_in_range SampleSdk.env) as Hclock by (intros t; vm_compute; discriminate).
  split; [|split]; apply (server_answers no_text _ _ _ _ Hj Hclock); intros c Hc;
    vm_compute in Hc; injection Hc as <-; simpl.
  - intros secs dur Hp Hd t. vm_compute in Hp. injection Hp as <-. vm_compute in Hd.
    injection Hd as <-. vm_compute. discriminate.
  - vm_compute. discriminate.
  - intros t x Hx. vm_compute in Hx. discriminate Hx.
Defined.

(** Without the secret the bot is refused; without a body it is not asked for one. *)
Example bot_needs_a_body :
  (handle no_text {| hr_method := POST; hr_path := ["v1"; "drip-bot"]; hr_query := "";
     hr_headers := [("content-type", "application/json")]; hr_body := "{" |}
     bot_server SampleSdk.env sample_clocks).1 = Done (bare 400).
Proof. vm_compute. reflexivity. Qed.
End ApiWitnesses.
