(* ===== verification/Permalinks.v ===== *)
(** * From the chain to a page that stays

    The composition of the whole: what the walk leaves behind is served by the HTTP
    server, and a resource that was served once is served again, through any later
    requests and whatever the indexer's tasks write in between. *)

From S2P Require Import Prelude JsonSyntax Routes Json Types Standards Bech32m Sha2 AttestationId Decode Parser Schema Io Db DbFacts History Client Samples Ingest IngestSpec Walk Config Drip DripSpec BotDrip Startup Pages Listing ListingSpec Responses Sql Lookup LookupSpec F64 StatsCache Stats Eta StatsSpec StatsApi Cluster FaucetApi Typed EndToEnd Service Extract ExtractSpec Api ApiSpec.
Open Scope string_scope.
Open Scope list_scope.
Open Scope Z_scope.
Open Scope io_scope.

(** ** Resources that stay *)

Section Permalinks.
Context `{Base64Url} `{PgText} `{Rfc3339} `{Unicode} `{B : Bech32} `{S : Sha256} `{C : Chrono}
  `{N : PgNumeric} `{U : Urls} `{J : JsonText} `{SdkReads} `{ChainSdk} `{BotTime} `{Calendar}
  `{CalendarEnd} `{PgPercentile} `{Web} `{DateTimeText} `{R : Router} `{RL : !RouterLaws R}.
Context (decode_error_text : DecodeError -> string).

Abbreviation serve := (serve_all decode_error_text).
Abbreviation respond := (handle decode_error_text).
Abbreviation db s := (s.(srv_world).(w_db)).

(** The calls that look up one row of a table no row ever leaves. *)
Inductive permalink : Call -> Prop :=
| P_block h : permalink (BlockByHeight h)
| P_tx h : permalink (TxByHash h)
| P_schema i : permalink (SchemaById i)
| P_set i : permalink (AttestorSetById i)
| P_attestation i : starts_with "lat1" (to_lowercase i) = true ->
    permalink (AttestationById i)
| P_bounty i : permalink (BountyDetail i)
| P_contract i : permalink (ContractDetail i).

(** Is the row there? *)
Definition stored (c : Call) (d : DB) : Prop :=
  match c with
  | BlockByHeight h => is_Some (slot_by_height (as_i64 h) d)
  | TxByHash h => is_Some (Lookup.tx_by_hash h d)
  | SchemaById i => is_Some (Lookup.schema_by_id i d)
  | AttestorSetById i => is_Some (Lookup.attestor_set_by_id i d)
  | AttestationById i =>
      starts_with "lat1" (to_lowercase i) = true /\
      is_Some (Lookup.attestation_by_id (to_lowercase i) d)
  | BountyDetail i => is_Some (bounty_by_id i d)
  | ContractDetail i => is_Some (contract_by_id i d)
  | _ => False
  end.

Lemma table_keeps {K V} `{Countable K} (rel : relation V) (t t' : gmap K V) k :
  table_rel rel t t' -> is_Some (t !! k) -> is_Some (t' !! k).
Proof. intros Ht [v Hv]. destruct (Ht k v Hv) as (v' & Hv' & _). by eexists. Qed.

Lemma stored_stays c d d' :
  history d d' -> db_ok d' -> stored c d -> stored c d'.
Proof.
  intros Hh Hok. destruct c; simpl; try done;
    unfold slot_by_height, Lookup.tx_by_hash, Lookup.schema_by_id, with_threshold,
      Lookup.attestor_set_by_id, Lookup.attestation_by_id, bounty_by_id, contract_by_id;
    rewrite ?fmap_is_Some.
  - apply table_keeps with (1 := h_slots _ _ Hh).
  - intros Hs. assert (is_Some (d.(transactions) !! hash)) as Ht
      by (destruct (transactions d !! hash); [done|by destruct Hs]).
    apply (table_keeps _ _ _ _ (h_transactions _ _ Hh)) in Ht as [r Hr]. rewrite Hr. simpl.
    destruct (ok_tx_refs d' Hok _ _ Hr) as [sl Hsl]. by rewrite Hsl.
  - intros Hs. assert (is_Some (d.(schemas) !! id)) as Ht
      by (destruct (schemas d !! id); [done|by destruct Hs]).
    apply (table_keeps _ _ _ _ (h_schemas _ _ Hh)) in Ht as [r Hr]. rewrite Hr. simpl.
    destruct (ok_schema_refs d' Hok _ _ Hr) as ([a Ha] & _). by rewrite Ha.
  - apply table_keeps with (1 := h_attestor_sets _ _ Hh).
  - intros [Hp Ha]. split; [done|]. revert Ha. apply table_keeps with (1 := h_attestations _ _ Hh).
  - apply table_keeps with (1 := h_bounties _ _ Hh).
  - apply table_keeps with (1 := h_contracts _ _ Hh).
Qed.

(** ** What a page answers *)

(** The database as a query at the current instant sees it, and whether it is answered. *)
Definition seen (e : Env) (w : World) : DB := e.(env_other) w.(w_tick) w.(w_db).
Definition fault (e : Env) (w : World) : Fault := e.(env_fault) w.(w_tick).

(** 200 exactly when the row is there and the database answers; 500 when the row is there
    and it does not. *)
Definition page_status (e : Env) (w : World) (there : Prop) (status : Z) : Prop :=
  (status = 200 <-> fault e w = NoFault /\ there) /\
  (there -> fault e w <> NoFault -> status = 500).

Lemma query_reply {A} (f : DB -> A) e w :
  exists w', query f e w =
    (Done (match fault e w with NoFault => Ok (f (seen e w)) | _ => Err ConnectionLost end), w') /\
    w'.(w_db) = seen e w.
Proof. unfold query, exec, fault, seen. destruct (env_fault e (w_tick w)); by eexists. Qed.

Lemma page_answered e w (there : Prop) status :
  fault e w = NoFault -> (status = 200 <-> there) -> page_status e w there status.
Proof. intros Hf Hs. unfold page_status. rewrite Hf, Hs. by split; [tauto|]. Qed.
Lemma page_failed e w (there : Prop) :
  fault e w <> NoFault -> page_status e w there 500.
Proof. intros Hf. split; [|done]. split; [done|by intros []]. Qed.

Lemma detail_status {A} (f : DB -> option A) ser absent ttl e w :
  exists resp w', detail f ser absent ttl e w = (Done resp, w') /\ w'.(w_db) = seen e w /\
    page_status e w (is_Some (f (seen e w))) resp.(rs_status).
Proof.
  unfold detail, mbind, io_bind. destruct (query_reply f e w) as (w' & -> & Hd).
  eexists _, w'. split; [reflexivity|]. split; [done|]. destruct (fault e w) eqn:Ef;
    [|by apply page_failed; rewrite Ef..].
  apply page_answered; [done|]. by destruct (f (seen e w)).
Qed.

Lemma attestation_status i e w :
  starts_with "lat1" (to_lowercase i) = true ->
  exists resp w', attestation_by_id_reply i e w = (Done resp, w') /\ w'.(w_db) = seen e w /\
    page_status e w (stored (AttestationById i) (seen e w)) resp.(rs_status).
Proof.
  intros Ep. unfold attestation_by_id_reply. rewrite Ep. simpl. unfold mbind, io_bind.
  destruct (query_reply (Lookup.attestation_by_id (to_lowercase i)) e w) as (w' & -> & Hd).
  eexists _, w'. split; [reflexivity|]. split; [done|]. destruct (fault e w) eqn:Ef;
    [|by apply page_failed; rewrite Ef..].
  apply page_answered; [done|]. rewrite Ep.
  by destruct (Lookup.attestation_by_id _ _); simpl; split; [..|intros [_ []]].
Qed.

(** The page a call answers with, and the database it leaves. *)
Definition pages (there : Prop) (e : Env) (w : World) (o : outcome Reply * Server) : Prop :=
  exists reply, o.1 = Done reply /\ db o.2 = seen e w /\ page_status e w there reply.(rp_status).

Lemma lookup_page c m s e k resp w' there :
  lookup_call decode_error_text c s.(srv_app) = Some m ->
  m e s.(srv_world) = (Done resp, w') -> w'.(w_db) = seen e s.(srv_world) ->
  page_status e s.(srv_world) there resp.(rs_status) ->
  pages there e s.(srv_world) (run_call decode_error_text c s e k).
Proof.
  intros Hm Hr Hd Hp. rewrite (run_lookup decode_error_text c m s e k Hm). unfold reading.
  rewrite Hr. by exists (of_response resp).
Qed.

Lemma detail_page {A} (f : DB -> option A) ser absent ttl c s e k :
  lookup_call decode_error_text c s.(srv_app) = Some (detail f ser absent ttl) ->
  pages (is_Some (f (seen e s.(srv_world)))) e s.(srv_world) (run_call decode_error_text c s e k).
Proof.
  intros Hm. destruct (detail_status f ser absent ttl e (srv_world s)) as (resp & w' & Hr & Hd & Hp).
  by eapply lookup_page.
Qed.

Lemma permalink_page c s e k :
  permalink c ->
  pages (stored c (seen e s.(srv_world))) e s.(srv_world) (run_call decode_error_text c s e k).
Proof.
  destruct 1 as [| | | |i Hi| |]; try (by eapply detail_page).
  destruct (attestation_status i e (srv_world s) Hi) as (resp & w' & Hr & Hd & Hp).
  by eapply lookup_page.
Qed.

(** GET and HEAD show the same status. *)
Lemma respond_permalink r c s e k :
  call_of r = Ok c -> permalink c ->
  pages (stored c (seen e s.(srv_world))) e s.(srv_world) (respond r s e k).
Proof.
  intros Hr Hc. destruct (permalink_page c s e k Hc) as (reply & Hrep & Hp).
  assert (hr_method r <> OPTIONS) as Ho.
  { intros Ho. unfold call_of in Hr. destruct (dispatch _ _) as [h args| |] eqn:Ed; try done.
    apply handled_route in Ed as (rt & _ & _ & Hm & _). rewrite Ho in Hm.
    unfold allows in Hm. by destruct (rt_method rt). }
  unfold handle. rewrite Hr. destruct (run_call _ c s e k) as [o s']. simpl in Hrep, Hp. subst o.
  destruct (hr_method r); try done; by eexists.
Qed.

(** The status of a row that is there. *)
Definition stored_status (e : Env) (w : World) : Z :=
  match fault e w with NoFault => 200 | _ => 500 end.

Lemma stored_answers c e s there :
  page_status e s.(srv_world) (stored c (seen e s.(srv_world))) there ->
  stored c (seen e s.(srv_world)) ->
  there = stored_status e s.(srv_world).
Proof.
  intros [Hok Herr] Hs. unfold stored_status.
  destruct (fault e _) eqn:Ef; [by apply Hok|by apply Herr; rewrite ?Ef..].
Qed.

(** C7: Permalinks last.  On a database the indexer has reached, a block, transaction, schema,
    attestor set, attestation, bounty or contract that one request is shown with 200 is
    shown again to every later one: whatever requests are served in between, the
    faucets' included, and whatever the two indexer tasks write, the answer is 200, or 500
    when the database does not answer; never 404. *)
Theorem permalinks_last r c s e k l reply :
  interleaved e -> rtc task_step empty_db (db s) -> call_of r = Ok c -> permalink c ->
  (respond r s e k).1 = Done reply -> reply.(rp_status) = 200 ->
  let s' := (serve l (respond r s e k).2 e k).2 in
  exists reply', (respond r s' e k).1 = Done reply' /\
    reply'.(rp_status) = stored_status e s'.(srv_world).
Proof.
  intros He Hs Hr Hc Hrep H200 s'.
  destruct (respond_permalink r c s e k Hr Hc) as (reply0 & Hrep0 & Hdb & [Hp _]).
  rewrite Hrep in Hrep0. injection Hrep0 as <-. apply Hp in H200 as [_ Hst].
  pose proof (interleaved_rely (rtc task_step) e He) as Hrely.
  assert (rtc task_step (seen e s.(srv_world)) (seen e s'.(srv_world))) as Hsteps.
  { rewrite <- Hdb. etrans; [|apply He]. by apply (serve_all_evolves decode_error_text (rtc task_step)). }
  assert (stored c (seen e s'.(srv_world))) as Hst'.
  { eapply stored_stays; [|..|exact Hst]; [by apply (task_steps_guarantee history)|].
    eapply (good_steps (seen e s.(srv_world))); [exact Hsteps|].
    eapply good_steps; [apply He|]. eapply good_steps; [exact Hs|apply good_empty]. }
  destruct (respond_permalink r c s' e k Hr Hc) as (reply' & Hrep' & _ & Hp').
  exists reply'. split; [done|]. by eapply stored_answers.
Qed.

(** *** From the walk to the page *)

Context (base64_decode : string -> option (list Z)) (client : NodeClient).

(** C2: What the walk leaves behind is served.  Every height behind the cursor the walk
    returns, unless the node answered 404 for it, has its block page: at any database the
    tasks reach from there, the server answers a request for it with 200, or with 500
    when the database does not answer. *)
Theorem walked_blocks_served fuel cid head next e0 w n w' h r s e k :
  interleaved e0 -> Walk.honest client e0 -> 0 <= next -> head < u64_max ->
  walk base64_decode client fuel cid head next e0 w = (Done (Some n), w') ->
  next <= h < n -> ~ answered_404 client e0 h ->
  rtc task_step w'.(w_db) (db s) -> interleaved e -> call_of r = Ok (BlockByHeight h) ->
  exists reply, (respond r s e k).1 = Done reply /\
    reply.(rp_status) = stored_status e s.(srv_world).
Proof.
  intros He0 Hh Hpos Hhead Hw Hrange Hnot Hs He Hr.
  destruct (walk_leaves_stored base64_decode client fuel cid head next e0 w n w' h He0 Hh Hpos Hhead
    Hw Hrange) as [Hslot|]; [|done].
  assert (stored (BlockByHeight h) (seen e s.(srv_world))) as Hst.
  { simpl. unfold slot_by_height. rewrite fmap_is_Some.
    eapply table_keeps; [|exact Hslot]. apply h_slots, task_steps_guarantee; [apply _|].
    etrans; [exact Hs|apply He]. }
  destruct (respond_permalink r (BlockByHeight h) s e k Hr (P_block h)) as (reply & Hrep & _ & Hp).
  exists reply. split; [done|]. by eapply stored_answers.
Qed.
End Permalinks.

(** ** At concrete inputs

    The walk of Walk's witness stores slot 4, and its page is served. *)
Import SampleWeb SampleCalendar.
Section PermalinkWitnesses.
#[local] Existing Instances SampleText.b64 SampleText.text Rfc8259.json Samples.urls
  SampleSdk.sdk sample_sdk sample_time Bip350.bech32m Bip350.bech32m_laws Fips180.sha2 clock numeric
  FirstMatch.router FirstMatch.router_laws SampleStats.percentile SampleApi.unicode.

(** The sample node answers for heights 3 and 4 with their slots. *)
Lemma to_string_is h s : to_string h = s -> parse_signed s = Some h.
Proof. intros <-. apply parse_signed_to_string. Qed.

Lemma sample_env_honest : Walk.honest sample_client sample_env.
Proof.
  intros h st body u slot (u' & t & Hu & Hr) Hs. injection Hu as <-. revert Hr. simpl.
  repeat match goal with |- context [if (?a =? ?b)%string then _ else _] =>
    destruct (String.eqb_spec a b) as [E|_] end; intros [= -> ->]; try (vm_compute in Hs; discriminate Hs);
    vm_compute in Hs; injection Hs as <-; simpl.
  all: apply (to_string_is h) in E; vm_compute in E; congruence.
Qed.

Definition walked : World :=
  (walk (fun _ => None) sample_client 2 1 4 3 sample_env (sample_world empty_db)).2.
Definition walked_server : Server :=
  {| srv_app := app_state bot_config (ss_signer SampleStats.state); srv_bot_drips := [];
     srv_world := walked |}.

Lemma walked_blocks_served_witness :
  exists reply,
    (handle no_text (request_of (BlockByHeight 3)) walked_server sample_env sample_clocks).1 =
      Done reply /\ reply.(rp_status) = 200.
Proof.
  apply (walked_blocks_served no_text (fun _ => None) sample_client 2 1 4 3 sample_env
    (sample_world empty_db) 5 walked 3 (request_of (BlockByHeight 3)) walked_server sample_env
    sample_clocks).
  - intros t d. apply rtc_refl.
  - apply sample_env_honest.
  - lia.
  - vm_compute; reflexivity.
  - vm_compute; reflexivity.
  - lia.
  - intros (body & u & t & Hu & Hr). vm_compute in Hu. injection Hu as <-. discriminate Hr.
  - apply rtc_refl.
  - intros t d. apply rtc_refl.
  - vm_compute. reflexivity.
Defined.

Lemma walked_reached : rtc task_step empty_db walked.(w_db).
Proof.
  exact (walk_evolves (fun _ => None) sample_client (rtc task_step) 2 1 4 3 sample_env
    (sample_world empty_db) (fun t d => rtc_refl _ _)).
Qed.

Definition page_200 (o : outcome Reply * Server) : bool :=
  match o.1 with Done reply => reply.(rp_status) =? 200 | Panicked => false end.

(** A drip, a bot drip and a search later, the page of block 3 is still there. *)
Lemma permalinks_last_witness :
  let r := request_of (BlockByHeight 3) in
  let o := handle no_text r walked_server sample_env sample_clocks in
  exists reply', (handle no_text r (serve_all no_text (request_of (Search "3") :: three_payouts) o.2
      sample_env sample_clocks).2 sample_env sample_clocks).1 = Done reply' /\
    reply'.(rp_status) = 200.
Proof.
  cbv zeta.
  assert (page_200 (handle no_text (request_of (BlockByHeight 3)) walked_server sample_env
    sample_clocks) = true) as Hok by (vm_compute; reflexivity).
  destruct (handle no_text (request_of (BlockByHeight 3)) walked_server sample_env sample_clocks).1
    as [reply|] eqn:E; [|unfold page_200 in Hok; rewrite E in Hok; discriminate Hok].
  apply (permalinks_last no_text (request_of (BlockByHeight 3)) (BlockByHeight 3) walked_server
    sample_env sample_clocks (request_of (Search "3") :: three_payouts) reply).
  - intros t d. apply rtc_refl.
  - apply walked_reached.
  - vm_compute. reflexivity.
  - apply P_block.
  - exact E.
  - unfold page_200 in Hok. rewrite E in Hok. by apply Z.eqb_eq.
Defined.
End PermalinkWitnesses.
