(* ===== verification/Tables.v ===== *)
(** * Columns ([migrations/*.sql])

    The data definition statements of the migrations, run in their order, give the columns
    of each table with their SQL types; the rows of [Schema] as cells under those names,
    and that every row the indexer stores fits them. *)

From S2P Require Import Prelude Json Schema Typed F64.
Open Scope string_scope.
Open Scope list_scope.
Open Scope Z_scope.

(** ** Column declarations *)

(** The last two are types of expressions only. *)
Inductive PgType :=
| TEXT | INTEGER | BIGINT | TIMESTAMPTZ | JSONB | NUMERIC (precision : Z)
| BOOLEAN | DOUBLE_PRECISION.
Record Column := { c_name : string; c_type : PgType; c_null : bool }.
Definition NOT_NULL (t : PgType) (name : string) : Column :=
  {| c_name := name; c_type := t; c_null := false |}.
Definition NULLABLE (t : PgType) (name : string) : Column :=
  {| c_name := name; c_type := t; c_null := true |}.

Inductive Ddl :=
| CREATE_TABLE (table : string) (columns : list Column)
| ADD_COLUMN (table : string) (column : Column)
| DROP_NOT_NULL (table column : string).

Definition Tables := list (string * list Column).

Fixpoint assoc {A} (k : string) (l : list (string * A)) : option A :=
  match l with
  | [] => None
  | (k', a) :: l => if (k =? k')%string then Some a else assoc k l
  end.

Definition alter (table : string) (f : list Column -> list Column) (ts : Tables) : Tables :=
  (fun t : string * list Column => if (t.1 =? table)%string then (t.1, f t.2) else t) <$> ts.

(** [IF NOT EXISTS] keeps what is there. *)
Definition run_ddl (ts : Tables) (s : Ddl) : Tables :=
  match s with
  | CREATE_TABLE t cols => match assoc t ts with Some _ => ts | None => ts ++ [(t, cols)] end
  | ADD_COLUMN t c =>
      alter t (fun cols =>
        if existsb (fun c' => c'.(c_name) =? c.(c_name))%string cols then cols else cols ++ [c]) ts
  | DROP_NOT_NULL t name =>
      alter t (fmap (fun c =>
        if (c.(c_name) =? name)%string then NULLABLE c.(c_type) c.(c_name) else c)) ts
  end.

(** ** The migrations, a [PRIMARY KEY] as [NOT NULL] *)

Definition m20260507000001_init : list Ddl := [
  CREATE_TABLE "slots" [
    NOT_NULL BIGINT "height"; NOT_NULL TEXT "hash"; NULLABLE TEXT "prev_hash";
    NULLABLE TEXT "state_root"; NOT_NULL TIMESTAMPTZ "timestamp"; NOT_NULL INTEGER "batch_count";
    NOT_NULL INTEGER "tx_count"; NOT_NULL JSONB "raw"; NOT_NULL TIMESTAMPTZ "indexed_at"];
  CREATE_TABLE "indexer_state" [
    NOT_NULL TEXT "k"; NOT_NULL TEXT "v"; NOT_NULL TIMESTAMPTZ "updated_at"]].

Definition m20260509000001_indexer_query_tables : list Ddl := [
  CREATE_TABLE "transactions" [
    NOT_NULL TEXT "hash"; NOT_NULL BIGINT "slot"; NOT_NULL INTEGER "position";
    NOT_NULL TEXT "sender"; NOT_NULL TEXT "sender_pubkey"; NOT_NULL BIGINT "nonce";
    NOT_NULL (NUMERIC 78) "fee_paid_nano"; NOT_NULL TEXT "kind"; NOT_NULL JSONB "details";
    NOT_NULL JSONB "raw"; NOT_NULL TEXT "outcome"; NULLABLE TEXT "revert_reason";
    NOT_NULL TIMESTAMPTZ "indexed_at"];
  CREATE_TABLE "attestor_sets" [
    NOT_NULL TEXT "id"; NOT_NULL JSONB "members"; NOT_NULL INTEGER "threshold";
    NOT_NULL BIGINT "registered_at_slot"; NOT_NULL TEXT "registered_at_tx";
    NOT_NULL TIMESTAMPTZ "registered_at_timestamp"; NOT_NULL INTEGER "schema_count";
    NOT_NULL TIMESTAMPTZ "indexed_at"];
  CREATE_TABLE "schemas" [
    NOT_NULL TEXT "id"; NOT_NULL TEXT "name"; NOT_NULL INTEGER "version"; NOT_NULL TEXT "owner";
    NOT_NULL TEXT "attestor_set_id"; NOT_NULL INTEGER "fee_routing_bps";
    NULLABLE TEXT "fee_routing_addr"; NOT_NULL TEXT "payload_shape_hash";
    NOT_NULL BIGINT "registered_at_slot"; NOT_NULL TEXT "registered_at_tx";
    NOT_NULL TIMESTAMPTZ "registered_at_timestamp"; NOT_NULL INTEGER "attestation_count";
    NOT_NULL TIMESTAMPTZ "indexed_at"];
  CREATE_TABLE "attestations" [
    NOT_NULL TEXT "schema_id"; NOT_NULL TEXT "payload_hash"; NOT_NULL TEXT "submitter";
    NOT_NULL TEXT "submitter_pubkey"; NOT_NULL BIGINT "submitted_at_slot";
    NOT_NULL TEXT "submitted_at_tx"; NOT_NULL TIMESTAMPTZ "submitted_at_timestamp";
    NOT_NULL INTEGER "signature_count"; NOT_NULL TIMESTAMPTZ "indexed_at"];
  CREATE_TABLE "address_summaries" [
    NOT_NULL TEXT "address"; NOT_NULL BIGINT "txs_sent_count"; NOT_NULL BIGINT "txs_received_count";
    NULLABLE BIGINT "first_seen_slot"; NULLABLE TEXT "first_seen_tx";
    NULLABLE TIMESTAMPTZ "first_seen_timestamp"; NULLABLE BIGINT "last_seen_slot";
    NULLABLE TEXT "last_seen_tx"; NULLABLE TIMESTAMPTZ "last_seen_timestamp";
    NOT_NULL INTEGER "schemas_owned_count"; NOT_NULL INTEGER "attestor_member_count";
    NOT_NULL TIMESTAMPTZ "indexed_at"]].

Definition m20260509000002_loosen_chain_elided_columns : list Ddl := [
  DROP_NOT_NULL "transactions" "sender_pubkey"; DROP_NOT_NULL "transactions" "nonce";
  DROP_NOT_NULL "transactions" "fee_paid_nano"].
Definition m20260512000001_attestations_pubkey_nullable : list Ddl := [
  DROP_NOT_NULL "attestations" "submitter_pubkey"].
Definition m20260516000001_transactions_protocol_fee : list Ddl := [
  ADD_COLUMN "transactions" (NULLABLE (NUMERIC 78) "protocol_fee_nano")].
Definition m20260516000002_slots_settlement_columns : list Ddl := [
  ADD_COLUMN "slots" (NULLABLE TEXT "proposer");
  ADD_COLUMN "slots" (NULLABLE TEXT "finality_status");
  ADD_COLUMN "slots" (NULLABLE TIMESTAMPTZ "finalized_at")].
Definition m20260517000001_attestation_id_lat : list Ddl := [
  ADD_COLUMN "attestations" (NOT_NULL TEXT "id")].
Definition m20260518000001_bot_drips : list Ddl := [
  CREATE_TABLE "bot_drips" [
    NOT_NULL BIGINT "id"; NOT_NULL TEXT "address"; NOT_NULL TEXT "discord_user_id";
    NOT_NULL (NUMERIC 39) "amount_nano"; NOT_NULL TEXT "tx_hash"; NOT_NULL TEXT "tier";
    NULLABLE INTEGER "server_tenure_days"; NULLABLE INTEGER "account_age_days";
    NOT_NULL TIMESTAMPTZ "dripped_at"]].
Definition m20260518000002_slots_da_block_height : list Ddl := [
  ADD_COLUMN "slots" (NULLABLE BIGINT "da_block_height")].
Definition m20260528000001_bounties : list Ddl := [
  CREATE_TABLE "bounties" [
    NOT_NULL TEXT "id"; NOT_NULL TEXT "poster"; NOT_NULL TEXT "board_schema_id";
    NOT_NULL TEXT "pool_nano"; NOT_NULL TEXT "per_attestation_nano";
    NOT_NULL TEXT "escrow_remaining_nano"; NOT_NULL TEXT "status"; NOT_NULL JSONB "acceptance";
    NOT_NULL BIGINT "expiry_da_height"; NOT_NULL INTEGER "dispute_window_blocks";
    NOT_NULL BIGINT "posted_at_slot"; NOT_NULL TEXT "posted_at_tx";
    NOT_NULL TIMESTAMPTZ "posted_at_timestamp"; NOT_NULL INTEGER "claim_count";
    NULLABLE BIGINT "last_claim_at_slot"]].
Definition m20260529000001_contracts : list Ddl := [
  CREATE_TABLE "contracts" [
    NOT_NULL TEXT "id"; NOT_NULL TEXT "poster"; NOT_NULL TEXT "arbiter";
    NOT_NULL TEXT "criteria_doc_hash"; NOT_NULL TEXT "pool_nano";
    NOT_NULL TEXT "escrow_remaining_nano"; NOT_NULL INTEGER "arbiter_fee_bps";
    NOT_NULL TEXT "status"; NOT_NULL BIGINT "expiry_da_height";
    NOT_NULL INTEGER "dispute_window_blocks"; NOT_NULL BIGINT "posted_at_slot";
    NOT_NULL TEXT "posted_at_tx"; NOT_NULL TIMESTAMPTZ "posted_at_timestamp"]].
Definition m20260529000002_transactions_sender_nullable : list Ddl := [
  DROP_NOT_NULL "transactions" "sender"].

(** Those without a column change (two back-fills, a check) are left out. *)
Definition migrations : list Ddl :=
  m20260507000001_init ++ m20260509000001_indexer_query_tables ++
  m20260509000002_loosen_chain_elided_columns ++ m20260512000001_attestations_pubkey_nullable ++
  m20260516000001_transactions_protocol_fee ++ m20260516000002_slots_settlement_columns ++
  m20260517000001_attestation_id_lat ++ m20260518000001_bot_drips ++
  m20260518000002_slots_da_block_height ++ m20260528000001_bounties ++
  m20260529000001_contracts ++ m20260529000002_transactions_sender_nullable.

Definition columns (table : string) : list Column :=
  default [] (assoc table (fold_left run_ddl migrations [])).

(** ** Cells *)

(** [TIMESTAMPTZ] in milliseconds; a [NUMERIC] of these tables is an integer. *)
Inductive Cell :=
| Null
| Text (s : string)
| Int4 (z : Z)
| Int8 (z : Z)
| Timestamp (ms : Z)
| Json (v : Value)
| Numeric (z : Z)
| Bool (b : bool)
| Float8 (x : f64).

Definition Row := list (string * Cell).

Definition nullable {A} (cell : A -> Cell) (o : option A) : Cell :=
  match o with Some a => cell a | None => Null end.

Definition within (min max z : Z) : bool := (min <=? z) && (z <=? max).

Definition fits (t : PgType) (x : Cell) : bool :=
  match t, x with
  | TEXT, Text _ | TIMESTAMPTZ, Timestamp _ | JSONB, Json _ | BOOLEAN, Bool _
  | DOUBLE_PRECISION, Float8 _ => true
  | INTEGER, Int4 z => within i32_min i32_max z
  | BIGINT, Int8 z => within i64_min i64_max z
  | NUMERIC p, Numeric z => Z.abs z <? 10 ^ p
  | _, _ => false
  end.
Definition conforms (c : Column) (x : Cell) : bool :=
  match x with Null => c.(c_null) | _ => fits c.(c_type) x end.

(** A row that the declared columns admit. *)
Definition row_of (cols : list Column) : Row -> Prop :=
  Forall2 (fun c kx => c.(c_name) = kx.1 /\ conforms c kx.2 = true) cols.

(** [FROM table alias]: the columns under the alias. *)
Definition qualified (alias name : string) : string := (alias ++ "." ++ name)%string.
Definition aliased (alias : string) (cols : list Column) : list Column :=
  (fun c => {| c_name := qualified alias c.(c_name); c_type := c.(c_type); c_null := c.(c_null) |})
    <$> cols.
Definition as_alias (alias : string) (row : Row) : Row :=
  (fun kx => (qualified alias kx.1, kx.2)) <$> row.

Lemma row_of_app cols cols' r r' : row_of cols r -> row_of cols' r' -> row_of (cols ++ cols') (r ++ r').
Proof. apply Forall2_app. Qed.
Lemma row_of_aliased a cols r : row_of cols r -> row_of (aliased a cols) (as_alias a r).
Proof.
  intros Hr. apply Forall2_fmap. eapply Forall2_impl; [exact Hr|].
  intros c [k x] [Hk Hx]. simpl in *. by rewrite Hk.
Qed.

Lemma within_true min max z : min <= z <= max -> within min max z = true.
Proof. unfold within. intros. apply andb_true_iff. split; lia. Qed.

(** ** The stored rows as cells *)

Definition slot_cells (row : Z * SlotRow) : Row :=
  let '(height, r) := row in [
  ("height", Int8 height); ("hash", Text r.(sl_hash)); ("prev_hash", nullable Text r.(sl_prev_hash));
  ("state_root", nullable Text r.(sl_state_root)); ("timestamp", Timestamp r.(sl_timestamp));
  ("batch_count", Int4 r.(sl_batch_count)); ("tx_count", Int4 r.(sl_tx_count));
  ("raw", Json r.(sl_raw)); ("indexed_at", Timestamp r.(sl_indexed_at));
  ("proposer", nullable Text r.(sl_proposer));
  ("finality_status", nullable Text r.(sl_finality_status));
  ("finalized_at", nullable Timestamp r.(sl_finalized_at));
  ("da_block_height", nullable Int8 r.(sl_da_block_height))].

Definition tx_cells (row : string * TxRow) : Row :=
  let '(hash, r) := row in [
  ("hash", Text hash); ("slot", Int8 r.(tr_slot)); ("position", Int4 r.(tr_position));
  ("sender", nullable Text r.(tr_sender)); ("sender_pubkey", nullable Text r.(tr_sender_pubkey));
  ("nonce", nullable Int8 r.(tr_nonce)); ("fee_paid_nano", nullable Numeric r.(tr_fee_paid_nano));
  ("kind", Text r.(tr_kind)); ("details", Json r.(tr_details)); ("raw", Json r.(tr_raw));
  ("outcome", Text r.(tr_outcome)); ("revert_reason", nullable Text r.(tr_revert_reason));
  ("indexed_at", Timestamp r.(tr_indexed_at));
  ("protocol_fee_nano", nullable Numeric r.(tr_protocol_fee_nano))].

Definition attestor_set_cells (row : string * AttestorSetRow) : Row :=
  let '(id, r) := row in [
  ("id", Text id); ("members", Json r.(as_members)); ("threshold", Int4 r.(as_threshold));
  ("registered_at_slot", Int8 r.(as_registered_at_slot));
  ("registered_at_tx", Text r.(as_registered_at_tx));
  ("registered_at_timestamp", Timestamp r.(as_registered_at_timestamp));
  ("schema_count", Int4 r.(as_schema_count)); ("indexed_at", Timestamp r.(as_indexed_at))].

Definition schema_cells (row : string * SchemaRow) : Row :=
  let '(id, r) := row in [
  ("id", Text id); ("name", Text r.(sc_name)); ("version", Int4 r.(sc_version));
  ("owner", Text r.(sc_owner)); ("attestor_set_id", Text r.(sc_attestor_set_id));
  ("fee_routing_bps", Int4 r.(sc_fee_routing_bps));
  ("fee_routing_addr", nullable Text r.(sc_fee_routing_addr));
  ("payload_shape_hash", Text r.(sc_payload_shape_hash));
  ("registered_at_slot", Int8 r.(sc_registered_at_slot));
  ("registered_at_tx", Text r.(sc_registered_at_tx));
  ("registered_at_timestamp", Timestamp r.(sc_registered_at_timestamp));
  ("attestation_count", Int4 r.(sc_attestation_count)); ("indexed_at", Timestamp r.(sc_indexed_at))].

Definition attestation_cells (row : string * AttestationRow) : Row :=
  let '(id, r) := row in [
  ("schema_id", Text r.(at_schema_id)); ("payload_hash", Text r.(at_payload_hash));
  ("submitter", Text r.(at_submitter)); ("submitter_pubkey", nullable Text r.(at_submitter_pubkey));
  ("submitted_at_slot", Int8 r.(at_submitted_at_slot));
  ("submitted_at_tx", Text r.(at_submitted_at_tx));
  ("submitted_at_timestamp", Timestamp r.(at_submitted_at_timestamp));
  ("signature_count", Int4 r.(at_signature_count)); ("indexed_at", Timestamp r.(at_indexed_at));
  ("id", Text id)].

Definition address_cells (row : string * AddressRow) : Row :=
  let '(address, r) := row in [
  ("address", Text address); ("txs_sent_count", Int8 r.(ad_txs_sent_count));
  ("txs_received_count", Int8 r.(ad_txs_received_count));
  ("first_seen_slot", nullable Int8 r.(ad_first_seen_slot));
  ("first_seen_tx", nullable Text r.(ad_first_seen_tx));
  ("first_seen_timestamp", nullable Timestamp r.(ad_first_seen_timestamp));
  ("last_seen_slot", nullable Int8 r.(ad_last_seen_slot));
  ("last_seen_tx", nullable Text r.(ad_last_seen_tx));
  ("last_seen_timestamp", nullable Timestamp r.(ad_last_seen_timestamp));
  ("schemas_owned_count", Int4 r.(ad_schemas_owned_count));
  ("attestor_member_count", Int4 r.(ad_attestor_member_count));
  ("indexed_at", Timestamp r.(ad_indexed_at))].

Definition bounty_cells (row : string * BountyRow) : Row :=
  let '(id, r) := row in [
  ("id", Text id); ("poster", Text r.(bo_poster)); ("board_schema_id", Text r.(bo_board_schema_id));
  ("pool_nano", Text r.(bo_pool_nano)); ("per_attestation_nano", Text r.(bo_per_attestation_nano));
  ("escrow_remaining_nano", Text r.(bo_escrow_remaining_nano)); ("status", Text r.(bo_status));
  ("acceptance", Json r.(bo_acceptance)); ("expiry_da_height", Int8 r.(bo_expiry_da_height));
  ("dispute_window_blocks", Int4 r.(bo_dispute_window_blocks));
  ("posted_at_slot", Int8 r.(bo_posted_at_slot)); ("posted_at_tx", Text r.(bo_posted_at_tx));
  ("posted_at_timestamp", Timestamp r.(bo_posted_at_timestamp));
  ("claim_count", Int4 r.(bo_claim_count));
  ("last_claim_at_slot", nullable Int8 r.(bo_last_claim_at_slot))].

Definition contract_cells (row : string * ContractRow) : Row :=
  let '(id, r) := row in [
  ("id", Text id); ("poster", Text r.(co_poster)); ("arbiter", Text r.(co_arbiter));
  ("criteria_doc_hash", Text r.(co_criteria_doc_hash)); ("pool_nano", Text r.(co_pool_nano));
  ("escrow_remaining_nano", Text r.(co_escrow_remaining_nano));
  ("arbiter_fee_bps", Int4 r.(co_arbiter_fee_bps)); ("status", Text r.(co_status));
  ("expiry_da_height", Int8 r.(co_expiry_da_height));
  ("dispute_window_blocks", Int4 r.(co_dispute_window_blocks));
  ("posted_at_slot", Int8 r.(co_posted_at_slot)); ("posted_at_tx", Text r.(co_posted_at_tx));
  ("posted_at_timestamp", Timestamp r.(co_posted_at_timestamp))].

(** ** Stored rows fit their columns *)

(** The columns of a table, computed. *)
Ltac columns_of_tables :=
  repeat match goal with |- context [columns ?t] =>
    let c := eval vm_compute in (columns t) in change (columns t) with c end.

Ltac fits_columns :=
  columns_of_tables; repeat (constructor; [split; [reflexivity|]|]); try constructor; simpl;
  try reflexivity; try (by apply within_true);
  try (match goal with |- conforms _ (nullable _ ?o) = true => destruct o end;
       simpl in *; first [reflexivity | by apply within_true | apply Z.ltb_lt; lia_int]).

Lemma slot_conforms h r : slot_typed h r -> row_of (columns "slots") (slot_cells (h, r)).
Proof. intros (? & ? & ? & ?). fits_columns. Qed.
Lemma tx_conforms h r : tx_typed r -> row_of (columns "transactions") (tx_cells (h, r)).
Proof. intros (? & ? & ? & ? & ?). fits_columns. Qed.
Lemma attestor_set_conforms i r :
  attestor_set_typed r -> row_of (columns "attestor_sets") (attestor_set_cells (i, r)).
Proof. intros (? & ? & ?). fits_columns. Qed.
Lemma schema_conforms i r : schema_typed r -> row_of (columns "schemas") (schema_cells (i, r)).
Proof. intros (? & ? & ? & ?). fits_columns. Qed.
Lemma attestation_conforms i r :
  attestation_typed r -> row_of (columns "attestations") (attestation_cells (i, r)).
Proof. intros (? & ?). fits_columns. Qed.
Lemma address_conforms a r :
  address_typed r -> row_of (columns "address_summaries") (address_cells (a, r)).
Proof. intros (? & ? & ? & ? & ? & ?). fits_columns. Qed.
Lemma bounty_conforms i r : bounty_typed r -> row_of (columns "bounties") (bounty_cells (i, r)).
Proof. intros (? & ? & ? & ? & ?). fits_columns. Qed.
Lemma contract_conforms i r :
  contract_typed r -> row_of (columns "contracts") (contract_cells (i, r)).
Proof. intros (? & ? & ? & ?). fits_columns. Qed.
