(* ===== verification/Rows.v ===== *)
(** * Rows as sqlx reads them ([crates/api/src/queries.rs], [crates/indexer/src/db.rs])

    A [SELECT] hands sqlx the cells of its column list; [query_as] decodes them by position
    into a Rust tuple, strict about types and NULL, and a mapper names its parts.  The
    statements are checked against the columns the migrations declare, and the rows that
    reach the handlers are shown to be those of [Schema]. *)

From S2P Require Import Prelude Json Schema Typed F64 Tables Listing Responses Lookup.
Open Scope string_scope.
Open Scope list_scope.
Open Scope Z_scope.

(** ** Decoding a row into a tuple *)

(** The Rust types of the tuples, and their values. *)
Inductive Scalar := I32 | I64 | STRING | VALUE | DATETIME | BIGDECIMAL | BOOL | DOUBLE.
Inductive RustTy := Just (s : Scalar) | OPTION (s : Scalar).

Definition denote_scalar (s : Scalar) : Type :=
  match s with
  | I32 | I64 | DATETIME | BIGDECIMAL => Z
  | STRING => string
  | VALUE => Value
  | BOOL => bool
  | DOUBLE => f64
  end.
Definition denote (t : RustTy) : Type :=
  match t with Just s => denote_scalar s | OPTION s => option (denote_scalar s) end.

(** The cell that stands for a value: an [i64] is a BIGINT, an [i32] an INTEGER, a [None]
    NULL. *)
Definition scalar_cell (s : Scalar) : denote_scalar s -> Cell :=
  match s with
  | I32 => Int4 | I64 => Int8 | STRING => Text | VALUE => Json | DATETIME => Timestamp
  | BIGDECIMAL => Numeric | BOOL => Bool | DOUBLE => Float8
  end.
Definition cell_of (t : RustTy) : denote t -> Cell :=
  match t with Just s => scalar_cell s | OPTION s => nullable (scalar_cell s) end.

(** sqlx's [Row::try_get]; [None] is its error.  What the code relies on: a cell of the
    type is read as the value it stands for. *)
Class Sqlx := try_get : forall t : RustTy, Cell -> option (denote t).
Class SqlxLaws (X : Sqlx) := try_get_cell : forall t a, try_get t (cell_of t a) = Some a.

Fixpoint tuple (ts : list RustTy) : Type :=
  match ts with [] => unit | t :: ts => denote t * tuple ts end.

(** [FromRow] of a tuple: its parts by position. *)
Fixpoint from_row `{Sqlx} (ts : list RustTy) (cells : list Cell) : option (tuple ts) :=
  match ts with
  | [] => Some tt
  | t :: ts =>
      match cells with
      | [] => None
      | x :: cells => a ← try_get t x; rest ← from_row ts cells; Some (a, rest)
      end
  end.

(** ** Column lists *)

Fixpoint split_commas (s : string) : list string :=
  match s with
  | EmptyString => [""]
  | String c s =>
      match split_commas s with
      | [] => []
      | w :: ws => if ascii_dec c ","%char then "" :: w :: ws else String c w :: ws
      end
  end.
Definition columns_of (text : string) : list string := trim <$> split_commas text.

Definition select {A} (text : string) (row : list (string * A)) : option (list A) :=
  mapM (fun c => assoc c row) (columns_of text).

(** A statement: its column list, the columns it selects from, the tuple it is decoded
    into, and the mapper of the tuple. *)
Record Statement := {
  st_columns : string;
  st_from : list Column;
  st_tuple : list RustTy;
  st_row : Type;
  st_map : tuple st_tuple -> st_row
}.

Definition query_as `{Sqlx} (st : Statement) (row : Row) : option (st_row st) :=
  cells ← select st.(st_columns) row;
  t ← from_row st.(st_tuple) cells;
  Some (st.(st_map) t).

(** ** The rows of [queries.rs] *)

Module Slot.
Record Row := {
  height : Z; hash : string; prev_hash : option string; state_root : option string;
  timestamp : Z; batch_count : Z; tx_count : Z; proposer : option string;
  finality_status : option string; finalized_at : option Z; da_block_height : option Z }.
Definition Tuple : list RustTy :=
  [Just I64; Just STRING; OPTION STRING; OPTION STRING; Just DATETIME; Just I32; Just I32;
   OPTION STRING; OPTION STRING; OPTION DATETIME; OPTION I64].
Definition row_from_tuple (t : tuple Tuple) : Row :=
  let '(height, (hash, (prev_hash, (state_root, (timestamp, (batch_count, (tx_count,
    (proposer, (finality_status, (finalized_at, (da_block_height, tt))))))))))) := t in
  {| height := height; hash := hash; prev_hash := prev_hash; state_root := state_root;
     timestamp := timestamp; batch_count := batch_count; tx_count := tx_count;
     proposer := proposer; finality_status := finality_status;
     finalized_at := finalized_at; da_block_height := da_block_height |}.
Definition slots : Statement := {|
  st_columns := "height, hash, prev_hash, state_root, timestamp, batch_count, tx_count, proposer, finality_status, finalized_at, da_block_height";
  st_from := columns "slots";
  st_tuple := Tuple; st_row := Row; st_map := row_from_tuple |}.
End Slot.

Module Tx.
Record Row := {
  hash : string; slot : Z; position : Z; sender : option string;
  sender_pubkey : option string; nonce : option Z; fee_paid_nano : option string;
  protocol_fee_nano : option string; kind : string; details : Value; outcome : string;
  revert_reason : option string; block_hash : option string; block_timestamp : option Z }.
Definition Tuple : list RustTy :=
  [Just STRING; Just I64; Just I32; OPTION STRING; OPTION STRING; OPTION I64; OPTION BIGDECIMAL;
   OPTION BIGDECIMAL; Just STRING; Just VALUE; Just STRING; OPTION STRING; OPTION STRING; OPTION
   DATETIME].
(** [bd.with_scale(0).to_string()] of an integer is its decimal text. *)
Definition row_from_tuple (t : tuple Tuple) : Row :=
  let '(hash, (slot, (position, (sender, (sender_pubkey, (nonce, (fee_paid_nano,
    (protocol_fee_nano, (kind, (details, (outcome, (revert_reason, (block_hash,
    (block_timestamp, tt)))))))))))))) := t in
  {| hash := hash; slot := slot; position := position; sender := sender;
     sender_pubkey := sender_pubkey; nonce := nonce;
     fee_paid_nano := to_string <$> fee_paid_nano;
     protocol_fee_nano := to_string <$> protocol_fee_nano; kind := kind; details := details;
     outcome := outcome; revert_reason := revert_reason; block_hash := block_hash;
     block_timestamp := block_timestamp |}.
Definition transactions : Statement := {|
  st_columns := "t.hash, t.slot, t.position, t.sender, t.sender_pubkey, t.nonce, t.fee_paid_nano, t.protocol_fee_nano, t.kind, t.details, t.outcome, t.revert_reason, s.hash, s.timestamp";
  st_from := aliased "t" (columns "transactions") ++ aliased "s" (columns "slots");
  st_tuple := Tuple; st_row := Row; st_map := row_from_tuple |}.
End Tx.

Module Schm.
Record Row := {
  id : string; name : string; version : Z; owner : string; attestor_set_id : string;
  fee_routing_bps : Z; fee_routing_addr : option string; payload_shape_hash : string;
  registered_at_slot : Z; registered_at_tx : string; registered_at_timestamp : Z;
  attestation_count : Z; threshold : Z }.
Definition Tuple : list RustTy :=
  [Just STRING; Just STRING; Just I32; Just STRING; Just STRING; Just I32; OPTION STRING; Just
   STRING; Just I64; Just STRING; Just DATETIME; Just I32; Just I32].
Definition row_from_tuple (t : tuple Tuple) : Row :=
  let '(t0, (t1, (t2, (t3, (t4, (t5, (t6, (t7, (t8, (t9, (t10, (t11, (t12, tt))))))))))))) := t in
  {| id := t0; name := t1; version := t2; owner := t3; attestor_set_id := t4;
     fee_routing_bps := t5; fee_routing_addr := t6; payload_shape_hash := t7;
     registered_at_slot := t8; registered_at_tx := t9; registered_at_timestamp := t10;
     attestation_count := t11; threshold := t12 |}.
Definition schemas : Statement := {|
  st_columns := "s.id, s.name, s.version, s.owner, s.attestor_set_id, s.fee_routing_bps, s.fee_routing_addr, s.payload_shape_hash, s.registered_at_slot, s.registered_at_tx, s.registered_at_timestamp, s.attestation_count, a.threshold";
  st_from := aliased "s" (columns "schemas") ++ aliased "a" (columns "attestor_sets");
  st_tuple := Tuple; st_row := Row; st_map := row_from_tuple |}.
End Schm.

Module AttestorSet.
Record Row := {
  id : string; members : Value; threshold : Z; registered_at_slot : Z;
  registered_at_tx : string; registered_at_timestamp : Z; schema_count : Z }.
Definition Tuple : list RustTy :=
  [Just STRING; Just VALUE; Just I32; Just I64; Just STRING; Just DATETIME; Just I32].
Definition row_from_tuple (t : tuple Tuple) : Row :=
  let '(t0, (t1, (t2, (t3, (t4, (t5, (t6, tt))))))) := t in
  {| id := t0; members := t1; threshold := t2; registered_at_slot := t3;
     registered_at_tx := t4; registered_at_timestamp := t5; schema_count := t6 |}.
Definition attestor_sets : Statement := {|
  st_columns := "id, members, threshold, registered_at_slot, registered_at_tx, registered_at_timestamp, schema_count";
  st_from := columns "attestor_sets";
  st_tuple := Tuple; st_row := Row; st_map := row_from_tuple |}.
End AttestorSet.

Module AddressSummary.
Record Row := {
  txs_sent_count : Z; txs_received_count : Z; first_seen_slot : option Z;
  first_seen_timestamp : option Z; last_seen_slot : option Z;
  last_seen_timestamp : option Z; schemas_owned_count : Z; attestor_member_count : Z }.
Definition Tuple : list RustTy :=
  [Just I64; Just I64; OPTION I64; OPTION DATETIME; OPTION I64; OPTION DATETIME; Just I32; Just
   I32].
Definition row_from_tuple (t : tuple Tuple) : Row :=
  let '(t0, (t1, (t2, (t3, (t4, (t5, (t6, (t7, tt)))))))) := t in
  {| txs_sent_count := t0; txs_received_count := t1; first_seen_slot := t2;
     first_seen_timestamp := t3; last_seen_slot := t4; last_seen_timestamp := t5;
     schemas_owned_count := t6; attestor_member_count := t7 |}.
Definition address_summaries : Statement := {|
  st_columns := "txs_sent_count, txs_received_count, first_seen_slot, first_seen_timestamp, last_seen_slot, last_seen_timestamp, schemas_owned_count, attestor_member_count";
  st_from := columns "address_summaries";
  st_tuple := Tuple; st_row := Row; st_map := row_from_tuple |}.
(** An address without a row reads as zeros. *)
Definition unseen : Row :=
  {| txs_sent_count := 0; txs_received_count := 0; first_seen_slot := None;
     first_seen_timestamp := None; last_seen_slot := None; last_seen_timestamp := None;
     schemas_owned_count := 0; attestor_member_count := 0 |}.
End AddressSummary.

Module Attestation.
Record Row := {
  id : string; schema_id : string; payload_hash : string; submitter : string;
  submitter_pubkey : option string; submitted_at_slot : Z; submitted_at_tx : string;
  submitted_at_timestamp : Z; signature_count : Z }.
Definition Tuple : list RustTy :=
  [Just STRING; Just STRING; Just STRING; Just STRING; OPTION STRING; Just I64; Just STRING;
   Just DATETIME; Just I32].
Definition row_from_tuple (t : tuple Tuple) : Row :=
  let '(t0, (t1, (t2, (t3, (t4, (t5, (t6, (t7, (t8, tt))))))))) := t in
  {| id := t0; schema_id := t1; payload_hash := t2; submitter := t3; submitter_pubkey := t4;
     submitted_at_slot := t5; submitted_at_tx := t6; submitted_at_timestamp := t7;
     signature_count := t8 |}.
Definition attestations : Statement := {|
  st_columns := "id, schema_id, payload_hash, submitter, submitter_pubkey, submitted_at_slot, submitted_at_tx, submitted_at_timestamp, signature_count";
  st_from := columns "attestations";
  st_tuple := Tuple; st_row := Row; st_map := row_from_tuple |}.
(** The join of [attestations_by_attestor_set]. *)
Definition by_attestor_set : Statement := {|
  st_columns := "a.id, a.schema_id, a.payload_hash, a.submitter, a.submitter_pubkey, a.submitted_at_slot, a.submitted_at_tx, a.submitted_at_timestamp, a.signature_count";
  st_from := aliased "a" (columns "attestations") ++ aliased "s" (columns "schemas");
  st_tuple := Tuple; st_row := Row; st_map := row_from_tuple |}.
End Attestation.

Module BountyMatch.
Record Row := {
  id : string; poster : string; board_schema_id : string; per_attestation_nano : string;
  escrow_remaining_nano : string; pool_nano : string; acceptance : Value;
  expiry_da_height : Z; posted_at_slot : Z; my_attestation_count : Z }.
Definition Tuple : list RustTy :=
  [Just STRING; Just STRING; Just STRING; Just STRING; Just STRING; Just STRING; Just VALUE;
   Just I64; Just I64; Just I64].
Definition row_from_tuple (t : tuple Tuple) : Row :=
  let '(t0, (t1, (t2, (t3, (t4, (t5, (t6, (t7, (t8, (t9, tt)))))))))) := t in
  {| id := t0; poster := t1; board_schema_id := t2; per_attestation_nano := t3;
     escrow_remaining_nano := t4; pool_nano := t5; acceptance := t6; expiry_da_height := t7;
     posted_at_slot := t8; my_attestation_count := t9 |}.
(** A group of the join: the bounty's columns, which its key determines, and the count, a
    BIGINT that is never NULL. *)
Definition COUNT : string := "COUNT(a.id) AS my_attestation_count".
Definition matches : Statement := {|
  st_columns := "b.id, b.poster, b.board_schema_id, b.per_attestation_nano, b.escrow_remaining_nano, b.pool_nano, b.acceptance, b.expiry_da_height, b.posted_at_slot, COUNT(a.id) AS my_attestation_count";
  st_from := aliased "b" (columns "bounties") ++ [NOT_NULL BIGINT COUNT];
  st_tuple := Tuple; st_row := Row; st_map := row_from_tuple |}.
End BountyMatch.

Module Bounty.
Record Row := {
  id : string; poster : string; board_schema_id : string; pool_nano : string;
  per_attestation_nano : string; escrow_remaining_nano : string; status : string;
  acceptance : Value; expiry_da_height : Z; dispute_window_blocks : Z; posted_at_slot : Z;
  posted_at_tx : string; posted_at_timestamp : Z; claim_count : Z;
  last_claim_at_slot : option Z }.
Definition Tuple : list RustTy :=
  [Just STRING; Just STRING; Just STRING; Just STRING; Just STRING; Just STRING; Just STRING;
   Just VALUE; Just I64; Just I32; Just I64; Just STRING; Just DATETIME; Just I32; OPTION I64].
Definition row_from_tuple (t : tuple Tuple) : Row :=
  let '(t0, (t1, (t2, (t3, (t4, (t5, (t6, (t7, (t8, (t9, (t10, (t11, (t12, (t13,
    (t14, tt))))))))))))))) := t in
  {| id := t0; poster := t1; board_schema_id := t2; pool_nano := t3;
     per_attestation_nano := t4; escrow_remaining_nano := t5; status := t6; acceptance := t7;
     expiry_da_height := t8; dispute_window_blocks := t9; posted_at_slot := t10;
     posted_at_tx := t11; posted_at_timestamp := t12; claim_count := t13;
     last_claim_at_slot := t14 |}.
Definition BOUNTY_COLUMNS : string :=
  "id, poster, board_schema_id, pool_nano, per_attestation_nano, escrow_remaining_nano, status, acceptance, expiry_da_height, dispute_window_blocks, posted_at_slot, posted_at_tx, posted_at_timestamp, claim_count, last_claim_at_slot".
Definition bounties : Statement := {|
  st_columns := BOUNTY_COLUMNS; st_from := columns "bounties";
  st_tuple := Tuple; st_row := Row; st_map := row_from_tuple |}.
End Bounty.

Module Contract.
Record Row := {
  id : string; poster : string; arbiter : string; criteria_doc_hash : string;
  pool_nano : string; escrow_remaining_nano : string; arbiter_fee_bps : Z; status : string;
  expiry_da_height : Z; dispute_window_blocks : Z; posted_at_slot : Z;
  posted_at_tx : string; posted_at_timestamp : Z }.
Definition Tuple : list RustTy :=
  [Just STRING; Just STRING; Just STRING; Just STRING; Just STRING; Just STRING; Just I32; Just
   STRING; Just I64; Just I32; Just I64; Just STRING; Just DATETIME].
Definition row_from_tuple (t : tuple Tuple) : Row :=
  let '(t0, (t1, (t2, (t3, (t4, (t5, (t6, (t7, (t8, (t9, (t10, (t11, (t12, tt))))))))))))) := t in
  {| id := t0; poster := t1; arbiter := t2; criteria_doc_hash := t3; pool_nano := t4;
     escrow_remaining_nano := t5; arbiter_fee_bps := t6; status := t7;
     expiry_da_height := t8; dispute_window_blocks := t9; posted_at_slot := t10;
     posted_at_tx := t11; posted_at_timestamp := t12 |}.
Definition CONTRACT_COLUMNS : string :=
  "id, poster, arbiter, criteria_doc_hash, pool_nano, escrow_remaining_nano, arbiter_fee_bps, status, expiry_da_height, dispute_window_blocks, posted_at_slot, posted_at_tx, posted_at_timestamp".
Definition contracts : Statement := {|
  st_columns := CONTRACT_COLUMNS; st_from := columns "contracts";
  st_tuple := Tuple; st_row := Row; st_map := row_from_tuple |}.
End Contract.

(** *** Statements read as plain tuples *)

Definition plain (text : string) (from : list Column) (ts : list RustTy) : Statement := {|
  st_columns := text; st_from := from; st_tuple := ts; st_row := tuple ts; st_map := fun t => t |}.

Definition block_hash_height : Statement := plain "height" (columns "slots") [Just I64].
Definition payload_hash_id : Statement := plain "id" (columns "attestations") [Just STRING].
Definition previous_hash : Statement := plain "hash" (columns "slots") [Just STRING].
Definition pending_heights : Statement := plain "height" (columns "slots") [Just I64].
Definition recent_slots : Statement := plain "height, timestamp" (columns "slots") [Just I64; Just DATETIME].
Definition holders : Statement := plain "address" (columns "address_summaries") [Just STRING].
Definition set_ranks : Statement :=
  plain "id, schema_count" (columns "attestor_sets") [Just STRING; Just I32].
Definition last_bot_drip : Statement := plain "dripped_at" (columns "bot_drips") [Just DATETIME].
Definition last_indexed : Statement := plain "v" (columns "indexer_state") [Just STRING].
Definition read_slot : Statement :=
  plain "hash, tx_count" (columns "slots") [Just STRING; Just I32].

(** *** Statements with computed columns

    The expressions of the select lists, with the types Postgres documents for them:
    [COUNT] is a BIGINT and never NULL, [MAX] has its column's type and is NULL on no rows,
    [EXISTS] is a BOOLEAN, [DATE_TRUNC] keeps its argument's type, and [percentile_cont] is
    a double, NULL on no rows. *)
Inductive Expr :=
| COLUMN (name : string)
| COUNT_ROWS
| MAX (name : string)
| EXISTS
| DATE_TRUNC_DAY (name : string)
| PERCENTILE_CONT (percent : Z) (since until : string)
| LITERAL_1.

Definition column_env (cols : list Column) : list (string * Column) :=
  (fun c => (c.(c_name), c)) <$> cols.
Definition is_timestamptz (c : Column) : bool :=
  match c.(c_type) with TIMESTAMPTZ => true | _ => false end.

Definition type_of (cols : list Column) (e : Expr) : option Column :=
  match e with
  | COLUMN k => assoc k (column_env cols)
  | COUNT_ROWS => Some (NOT_NULL BIGINT "count")
  | MAX k => c ← assoc k (column_env cols); Some (NULLABLE c.(c_type) "max")
  | EXISTS => Some (NOT_NULL BOOLEAN "exists")
  | DATE_TRUNC_DAY k =>
      c ← assoc k (column_env cols);
      if is_timestamptz c then Some {| c_name := "date_trunc"; c_type := TIMESTAMPTZ; c_null := c.(c_null) |}
      else None
  | PERCENTILE_CONT _ since until =>
      a ← assoc since (column_env cols); b ← assoc until (column_env cols);
      if is_timestamptz a && is_timestamptz b then
        Some (NULLABLE DOUBLE_PRECISION "percentile_cont")
      else None
  | LITERAL_1 => Some (NOT_NULL INTEGER "?column?")
  end.

(** [WHERE name >= $1] keeps no row whose column is NULL. *)
Definition where_not_null (name : string) (cols : list Column) : list Column :=
  (fun c => if (c.(c_name) =? name)%string then NOT_NULL c.(c_type) c.(c_name) else c) <$> cols.

Record Computed := { cp_exprs : list Expr; cp_from : list Column; cp_tuple : list RustTy }.
Definition scalar_of (e : Expr) (table : string) (t : RustTy) : Computed :=
  {| cp_exprs := [e]; cp_from := columns table; cp_tuple := [t] |}.
Definition per_day (column : string) (from : list Column) : Computed :=
  {| cp_exprs := [DATE_TRUNC_DAY column; COUNT_ROWS]; cp_from := where_not_null column from;
     cp_tuple := [Just DATETIME; Just I64] |}.
Definition ranked (column table : string) : Computed :=
  {| cp_exprs := [COLUMN column; COUNT_ROWS]; cp_from := columns table;
     cp_tuple := [Just STRING; Just I64] |}.

Definition max_height : Computed := scalar_of (MAX "height") "slots" (OPTION I64).
Definition exists_in (table : string) : Computed := scalar_of EXISTS table (Just BOOL).
Definition count_of (table : string) : Computed := scalar_of COUNT_ROWS table (Just I64).
Definition new_wallets : Computed := per_day "first_seen_timestamp" (columns "address_summaries").
Definition attestations_daily : Computed := per_day "submitted_at_timestamp" (columns "attestations").
Definition web_drips : Computed := per_day "indexed_at" (columns "transactions").
Definition bot_drips_daily : Computed := per_day "dripped_at" (columns "bot_drips").
Definition tx_rate : Computed := {|
  cp_exprs := [DATE_TRUNC_DAY "s.timestamp"; COLUMN "t.kind"; COLUMN "t.outcome"; COUNT_ROWS];
  cp_from := aliased "t" (columns "transactions") ++ aliased "s" (columns "slots");
  cp_tuple := [Just DATETIME; Just STRING; Just STRING; Just I64] |}.
Definition FinalityRow : list RustTy := [OPTION DOUBLE; OPTION DOUBLE; OPTION DOUBLE; Just I64].
Definition finality : Computed := {|
  cp_exprs := [PERCENTILE_CONT 50 "timestamp" "finalized_at";
               PERCENTILE_CONT 95 "timestamp" "finalized_at";
               PERCENTILE_CONT 99 "timestamp" "finalized_at"; COUNT_ROWS];
  cp_from := columns "slots"; cp_tuple := FinalityRow |}.
Definition top_attesters : Computed := ranked "submitter" "attestations".
Definition top_schema_owners : Computed := ranked "owner" "schemas".

(** ** From structs to responses

    The row mappers of [handlers.rs], on the structs; those of [Responses] are on the rows
    of [Schema]. *)

Section StructMappers.
Context `{Rfc3339}.

Definition block_of (row : Slot.Row) : BlockResponse :=
  {| blk_height := as_u64 (Slot.height row); blk_hash := Slot.hash row;
     blk_parent_hash := Slot.prev_hash row; blk_state_root := Slot.state_root row;
     blk_timestamp := rfc3339_millis (Slot.timestamp row); blk_tx_count := Slot.tx_count row;
     blk_batch_count := Slot.batch_count row; blk_proposer := Slot.proposer row;
     blk_size_bytes := None; blk_finality_status := Slot.finality_status row;
     blk_finalized_at := rfc3339_millis <$> Slot.finalized_at row;
     blk_da_block_height := as_u64 <$> Slot.da_block_height row |}.

Definition tx_of (row : Tx.Row) : TxResponse :=
  {| txr_hash := Tx.hash row; txr_block_height := as_u64 (Tx.slot row);
     txr_block_hash := Tx.block_hash row;
     txr_block_timestamp := rfc3339_millis <$> Tx.block_timestamp row;
     txr_position := Tx.position row; txr_sender := Tx.sender row;
     txr_sender_pubkey := Tx.sender_pubkey row; txr_nonce := Tx.nonce row;
     txr_fee_paid_nano := Tx.fee_paid_nano row;
     txr_protocol_fee_nano := Tx.protocol_fee_nano row; txr_kind := Tx.kind row;
     txr_details := Tx.details row; txr_outcome := Tx.outcome row;
     txr_revert_reason := Tx.revert_reason row |}.

Definition schema_of (row : Schm.Row) : SchemaResponse :=
  {| scr_id := Schm.id row; scr_name := Schm.name row; scr_version := as_u32 (Schm.version row);
     scr_owner := Schm.owner row; scr_attestor_set_id := Schm.attestor_set_id row;
     scr_threshold := as_u8 (Schm.threshold row);
     scr_fee_routing_bps := as_u16 (Schm.fee_routing_bps row);
     scr_fee_routing_addr := Schm.fee_routing_addr row;
     scr_payload_shape_hash := Schm.payload_shape_hash row;
     scr_registered_at := {| reg_block_height := as_u64 (Schm.registered_at_slot row);
       reg_tx_hash := Schm.registered_at_tx row;
       reg_timestamp := rfc3339_millis (Schm.registered_at_timestamp row) |};
     scr_attestation_count := as_u32 (Schm.attestation_count row) |}.

Definition attestor_set_of (row : AttestorSet.Row) : AttestorSetResponse :=
  {| asr_id := AttestorSet.id row;
     asr_members := match AttestorSet.members row with JArray arr => omap as_str arr | _ => [] end;
     asr_threshold := as_u8 (AttestorSet.threshold row);
     asr_registered_at := {| reg_block_height := as_u64 (AttestorSet.registered_at_slot row);
       reg_tx_hash := AttestorSet.registered_at_tx row;
       reg_timestamp := rfc3339_millis (AttestorSet.registered_at_timestamp row) |};
     asr_schema_count := as_u32 (AttestorSet.schema_count row) |}.

Definition attestation_of (row : Attestation.Row) : AttestationResponse :=
  {| atr_id := Attestation.id row; atr_schema_id := Attestation.schema_id row;
     atr_payload_hash := Attestation.payload_hash row;
     atr_submitter := Attestation.submitter row;
     atr_submitter_pubkey := Attestation.submitter_pubkey row;
     atr_signature_count := as_u32 (Attestation.signature_count row);
     atr_submitted_at := {| reg_block_height := as_u64 (Attestation.submitted_at_slot row);
       reg_tx_hash := Attestation.submitted_at_tx row;
       reg_timestamp := rfc3339_millis (Attestation.submitted_at_timestamp row) |} |}.

Definition bounty_of (row : Bounty.Row) : BountyDetailResponse :=
  {| bdr_id := Bounty.id row; bdr_poster := Bounty.poster row;
     bdr_board_schema_id := Bounty.board_schema_id row; bdr_pool_nano := Bounty.pool_nano row;
     bdr_per_attestation_nano := Bounty.per_attestation_nano row;
     bdr_escrow_remaining_nano := Bounty.escrow_remaining_nano row;
     bdr_status := Bounty.status row; bdr_acceptance := Bounty.acceptance row;
     bdr_expiry_da_height := Bounty.expiry_da_height row;
     bdr_dispute_window_blocks := Bounty.dispute_window_blocks row;
     bdr_claim_count := Bounty.claim_count row;
     bdr_posted_at := {| reg_block_height := as_u64 (Bounty.posted_at_slot row);
       reg_tx_hash := Bounty.posted_at_tx row;
       reg_timestamp := rfc3339_millis (Bounty.posted_at_timestamp row) |};
     bdr_last_claim_at_slot := Bounty.last_claim_at_slot row |}.

Definition contract_of (row : Contract.Row) : ContractDetailResponse :=
  {| cdr_id := Contract.id row; cdr_poster := Contract.poster row;
     cdr_arbiter := Contract.arbiter row; cdr_criteria_doc_hash := Contract.criteria_doc_hash row;
     cdr_pool_nano := Contract.pool_nano row;
     cdr_escrow_remaining_nano := Contract.escrow_remaining_nano row;
     cdr_arbiter_fee_bps := as_u16 (Contract.arbiter_fee_bps row);
     cdr_status := Contract.status row; cdr_expiry_da_height := Contract.expiry_da_height row;
     cdr_dispute_window_blocks := Contract.dispute_window_blocks row;
     cdr_posted_at := {| reg_block_height := as_u64 (Contract.posted_at_slot row);
       reg_tx_hash := Contract.posted_at_tx row;
       reg_timestamp := rfc3339_millis (Contract.posted_at_timestamp row) |} |}.

Definition match_of (r : BountyMatch.Row) : BountyMatchEntry :=
  {| bme_id := BountyMatch.id r; bme_poster := BountyMatch.poster r;
     bme_board_schema_id := BountyMatch.board_schema_id r;
     bme_per_attestation_nano := BountyMatch.per_attestation_nano r;
     bme_escrow_remaining_nano := BountyMatch.escrow_remaining_nano r;
     bme_pool_nano := BountyMatch.pool_nano r; bme_acceptance := BountyMatch.acceptance r;
     bme_expiry_da_height := BountyMatch.expiry_da_height r;
     bme_posted_at_slot := BountyMatch.posted_at_slot r;
     bme_my_attestation_count := BountyMatch.my_attestation_count r |}.

Definition first_last (slot timestamp : option Z) : option SeenAtResponse :=
  match slot, timestamp with
  | Some slot, Some ts =>
      Some {| seen_block_height := as_u64 slot; seen_timestamp := rfc3339_millis ts |}
  | _, _ => None
  end.
Definition address_of (addr : string) (balances : list TokenBalanceResponse)
    (row : AddressSummary.Row) : AddressSummaryResponse :=
  {| adr_address := addr; adr_balances := balances;
     adr_tx_count := as_u64 (AddressSummary.txs_sent_count row
                             + AddressSummary.txs_received_count row);
     adr_first_seen := first_last (AddressSummary.first_seen_slot row)
                         (AddressSummary.first_seen_timestamp row);
     adr_last_seen := first_last (AddressSummary.last_seen_slot row)
                        (AddressSummary.last_seen_timestamp row);
     adr_schemas_owned_count := as_u32 (AddressSummary.schemas_owned_count row);
     adr_attestor_member_count := as_u32 (AddressSummary.attestor_member_count row) |}.
End StructMappers.
