(* ===== verification/RowsSpec.v ===== *)
(** * The rows are the tables'

    No [SELECT] of the API fails to decode, and every field of a row struct holds the
    column of its name; so the responses, which [Responses] maps from the rows of [Schema],
    are those of the structs sqlx hands to the handlers. *)

From S2P Require Import Prelude Json Standards Bech32m Sha2 AttestationId Schema Io Db DbFacts Samples Ingest IngestSpec Typed Listing ListingSpec Responses Sql Lookup LookupSpec EndToEnd Tables Rows.
Open Scope string_scope.
Open Scope list_scope.
Open Scope Z_scope.

(** ** Type checking a statement *)

(** A column of the type, which is not NULL unless the Rust type is an [Option]. *)
Definition compatible (s : Scalar) (p : PgType) : bool :=
  match s, p with
  | I32, INTEGER | I64, BIGINT | STRING, TEXT | VALUE, JSONB | DATETIME, TIMESTAMPTZ
  | BIGDECIMAL, NUMERIC _ | BOOL, BOOLEAN | DOUBLE, DOUBLE_PRECISION => true
  | _, _ => false
  end.
Definition accepts (t : RustTy) (c : Column) : bool :=
  match t with
  | Just s => compatible s c.(c_type) && negb c.(c_null)
  | OPTION s => compatible s c.(c_type)
  end.

Fixpoint all_accepted (ts : list RustTy) (cs : list Column) : bool :=
  match ts, cs with
  | [], [] => true
  | t :: ts, c :: cs => accepts t c && all_accepted ts cs
  | _, _ => false
  end.

Definition type_checks (st : Statement) : bool :=
  match select st.(st_columns) (column_env st.(st_from)) with
  | Some cs => all_accepted st.(st_tuple) cs
  | None => false
  end.

Fixpoint cells_of (ts : list RustTy) : tuple ts -> list Cell :=
  match ts with
  | [] => fun _ => []
  | t :: ts => fun x => cell_of t x.1 :: cells_of ts x.2
  end.

Lemma fitting_value s p x : compatible s p = true -> fits p x = true -> exists a, x = scalar_cell s a.
Proof. destruct s, p; try done; destruct x; try done; by eexists. Qed.

Lemma accepted_value t c x : accepts t c = true -> conforms c x = true -> exists a, x = cell_of t a.
Proof.
  unfold accepts, conforms. destruct t as [s|s].
  - intros [Ht Hn]%andb_prop Hx. apply (fitting_value s (c_type c)); [done|].
    destruct x; try done. by rewrite Hx in Hn.
  - intros Ht Hx. destruct x; [by exists None|..];
      (destruct (fitting_value s _ _ Ht Hx) as [a Ha]; by exists (Some a)).
Qed.

Section Decoding.
Context `{XL : SqlxLaws}.

Lemma from_row_decodes ts cs xs :
  all_accepted ts cs = true -> Forall2 (fun c x => conforms c x = true) cs xs ->
  exists t, from_row ts xs = Some t /\ cells_of ts t = xs.
Proof.
  revert cs xs. induction ts as [|t ts IH]; intros [|c cs] xs Hts Hxs; try done.
  - apply Forall2_nil_inv_l in Hxs as ->. by exists tt.
  - apply Forall2_cons_inv_l in Hxs as (x & xs' & Hx & Hxs & ->). simpl in *.
    apply andb_prop in Hts as [Ht Hts]. destruct (accepted_value t c x Ht Hx) as [a ->].
    destruct (IH cs xs' Hts Hxs) as (rest & -> & Hrest). rewrite try_get_cell. simpl.
    exists (a, rest). split; [done|]. simpl. by rewrite Hrest.
Qed.

(** ** Selecting columns *)

Lemma assoc_row cols row k c :
  row_of cols row -> assoc k (column_env cols) = Some c ->
  exists x, assoc k row = Some x /\ conforms c x = true.
Proof.
  induction 1 as [|c0 [k0 x] cols row [Hk Hx] _ IH]; simpl in *; [done|]. subst k0.
  destruct (k =? c_name c0)%string; [intros [= <-]; eauto|done].
Qed.

Lemma select_row text cols row cs :
  row_of cols row -> select text (column_env cols) = Some cs ->
  exists xs, select text row = Some xs /\ Forall2 (fun c x => conforms c x = true) cs xs /\
    Forall2 (fun k x => assoc k row = Some x) (columns_of text) xs.
Proof.
  intros Hr. unfold select. revert cs. induction (columns_of text) as [|k ks IH]; intros cs Hs.
  - injection Hs as <-. by exists [].
  - simpl in Hs. apply bind_Some in Hs as (c & Hc & (cs' & Hcs & [= <-])%bind_Some).
    destruct (assoc_row cols row k c Hr Hc) as (x & Hx & Hf).
    destruct (IH cs' Hcs) as (xs & Hxs & Hfs & Hk).
    exists (x :: xs). simpl. rewrite Hx, Hxs. simpl. split; [done|]. by split; constructor.
Qed.

(** A statement that type checks decodes every row its columns admit, and the tuple holds
    the cells it selects. *)
Lemma query_decodes st row :
  type_checks st = true -> row_of st.(st_from) row ->
  exists t, query_as st row = Some (st.(st_map) t) /\
    Forall2 (fun k x => assoc k row = Some x) (columns_of st.(st_columns)) (cells_of st.(st_tuple) t).
Proof.
  unfold type_checks, query_as. intros Hc Hr.
  destruct (select (st_columns st) (column_env (st_from st))) as [cs|] eqn:Es; [|done].
  destruct (select_row _ _ _ _ Hr Es) as (xs & -> & Hfs & Hk).
  destruct (from_row_decodes _ _ _ Hc Hfs) as (t & Ht & <-). simpl. rewrite Ht. by exists t.
Qed.

End Decoding.

(** ** Structs *)

(** A statement with what its struct should be: the fields by name, and the column each
    stands for. *)
Record Reading := {
  rd_statement : Statement;
  rd_fields : st_row rd_statement -> list (string * Cell);
  rd_column : string -> string
}.

(** A NUMERIC column reaches its struct as decimal text. *)
Definition shown (x : Cell) : Cell := match x with Numeric z => Text (to_string z) | _ => x end.

Definition reads_by_name (rd : Reading) : Prop := forall t,
  let fields := rd.(rd_fields) (st_map (rd_statement rd) t) in
  columns_of (st_columns (rd_statement rd)) = rd.(rd_column) <$> fields.*1 /\
  fields.*2 = shown <$> cells_of _ t.

Definition own_name (f : string) : string := f.

Definition slots_reading : Reading := {|
  rd_statement := Slot.slots; rd_column := own_name;
  rd_fields r := [
    ("height", Int8 (Slot.height r)); ("hash", Text (Slot.hash r));
    ("prev_hash", nullable Text (Slot.prev_hash r));
    ("state_root", nullable Text (Slot.state_root r)); ("timestamp", Timestamp (Slot.timestamp r));
    ("batch_count", Int4 (Slot.batch_count r)); ("tx_count", Int4 (Slot.tx_count r));
    ("proposer", nullable Text (Slot.proposer r));
    ("finality_status", nullable Text (Slot.finality_status r));
    ("finalized_at", nullable Timestamp (Slot.finalized_at r));
    ("da_block_height", nullable Int8 (Slot.da_block_height r))] |}.

(** The block's hash and time are the slot's, the rest is the transaction's. *)
Definition tx_column (f : string) : string :=
  if (f =? "block_hash")%string then "s.hash"
  else if (f =? "block_timestamp")%string then "s.timestamp" else qualified "t" f.
Definition transactions_reading : Reading := {|
  rd_statement := Tx.transactions; rd_column := tx_column;
  rd_fields r := [
    ("hash", Text (Tx.hash r)); ("slot", Int8 (Tx.slot r)); ("position", Int4 (Tx.position r));
    ("sender", nullable Text (Tx.sender r)); ("sender_pubkey", nullable Text (Tx.sender_pubkey r));
    ("nonce", nullable Int8 (Tx.nonce r)); ("fee_paid_nano", nullable Text (Tx.fee_paid_nano r));
    ("protocol_fee_nano", nullable Text (Tx.protocol_fee_nano r)); ("kind", Text (Tx.kind r));
    ("details", Json (Tx.details r)); ("outcome", Text (Tx.outcome r));
    ("revert_reason", nullable Text (Tx.revert_reason r));
    ("block_hash", nullable Text (Tx.block_hash r));
    ("block_timestamp", nullable Timestamp (Tx.block_timestamp r))] |}.

Definition schema_column (f : string) : string :=
  if (f =? "threshold")%string then "a.threshold" else qualified "s" f.
Definition schemas_reading : Reading := {|
  rd_statement := Schm.schemas; rd_column := schema_column;
  rd_fields r := [
    ("id", Text (Schm.id r)); ("name", Text (Schm.name r)); ("version", Int4 (Schm.version r));
    ("owner", Text (Schm.owner r)); ("attestor_set_id", Text (Schm.attestor_set_id r));
    ("fee_routing_bps", Int4 (Schm.fee_routing_bps r));
    ("fee_routing_addr", nullable Text (Schm.fee_routing_addr r));
    ("payload_shape_hash", Text (Schm.payload_shape_hash r));
    ("registered_at_slot", Int8 (Schm.registered_at_slot r));
    ("registered_at_tx", Text (Schm.registered_at_tx r));
    ("registered_at_timestamp", Timestamp (Schm.registered_at_timestamp r));
    ("attestation_count", Int4 (Schm.attestation_count r));
    ("threshold", Int4 (Schm.threshold r))] |}.

Definition attestor_sets_reading : Reading := {|
  rd_statement := AttestorSet.attestor_sets; rd_column := own_name;
  rd_fields r := [
    ("id", Text (AttestorSet.id r)); ("members", Json (AttestorSet.members r));
    ("threshold", Int4 (AttestorSet.threshold r));
    ("registered_at_slot", Int8 (AttestorSet.registered_at_slot r));
    ("registered_at_tx", Text (AttestorSet.registered_at_tx r));
    ("registered_at_timestamp", Timestamp (AttestorSet.registered_at_timestamp r));
    ("schema_count", Int4 (AttestorSet.schema_count r))] |}.

Definition address_summaries_reading : Reading := {|
  rd_statement := AddressSummary.address_summaries; rd_column := own_name;
  rd_fields r := [
    ("txs_sent_count", Int8 (AddressSummary.txs_sent_count r));
    ("txs_received_count", Int8 (AddressSummary.txs_received_count r));
    ("first_seen_slot", nullable Int8 (AddressSummary.first_seen_slot r));
    ("first_seen_timestamp", nullable Timestamp (AddressSummary.first_seen_timestamp r));
    ("last_seen_slot", nullable Int8 (AddressSummary.last_seen_slot r));
    ("last_seen_timestamp", nullable Timestamp (AddressSummary.last_seen_timestamp r));
    ("schemas_owned_count", Int4 (AddressSummary.schemas_owned_count r));
    ("attestor_member_count", Int4 (AddressSummary.attestor_member_count r))] |}.

Definition attestation_fields (r : Attestation.Row) : list (string * Cell) := [
  ("id", Text (Attestation.id r)); ("schema_id", Text (Attestation.schema_id r));
  ("payload_hash", Text (Attestation.payload_hash r));
  ("submitter", Text (Attestation.submitter r));
  ("submitter_pubkey", nullable Text (Attestation.submitter_pubkey r));
  ("submitted_at_slot", Int8 (Attestation.submitted_at_slot r));
  ("submitted_at_tx", Text (Attestation.submitted_at_tx r));
  ("submitted_at_timestamp", Timestamp (Attestation.submitted_at_timestamp r));
  ("signature_count", Int4 (Attestation.signature_count r))].
Definition attestations_reading : Reading := {|
  rd_statement := Attestation.attestations; rd_column := own_name;
  rd_fields := attestation_fields |}.
Definition set_attestations_reading : Reading := {|
  rd_statement := Attestation.by_attestor_set; rd_column := qualified "a";
  rd_fields := attestation_fields |}.

Definition match_column (f : string) : string :=
  if (f =? "my_attestation_count")%string then BountyMatch.COUNT else qualified "b" f.
Definition matches_reading : Reading := {|
  rd_statement := BountyMatch.matches; rd_column := match_column;
  rd_fields r := [
    ("id", Text (BountyMatch.id r)); ("poster", Text (BountyMatch.poster r));
    ("board_schema_id", Text (BountyMatch.board_schema_id r));
    ("per_attestation_nano", Text (BountyMatch.per_attestation_nano r));
    ("escrow_remaining_nano", Text (BountyMatch.escrow_remaining_nano r));
    ("pool_nano", Text (BountyMatch.pool_nano r)); ("acceptance", Json (BountyMatch.acceptance r));
    ("expiry_da_height", Int8 (BountyMatch.expiry_da_height r));
    ("posted_at_slot", Int8 (BountyMatch.posted_at_slot r));
    ("my_attestation_count", Int8 (BountyMatch.my_attestation_count r))] |}.

Definition bounties_reading : Reading := {|
  rd_statement := Bounty.bounties; rd_column := own_name;
  rd_fields r := [
    ("id", Text (Bounty.id r)); ("poster", Text (Bounty.poster r));
    ("board_schema_id", Text (Bounty.board_schema_id r)); ("pool_nano", Text (Bounty.pool_nano r));
    ("per_attestation_nano", Text (Bounty.per_attestation_nano r));
    ("escrow_remaining_nano", Text (Bounty.escrow_remaining_nano r));
    ("status", Text (Bounty.status r)); ("acceptance", Json (Bounty.acceptance r));
    ("expiry_da_height", Int8 (Bounty.expiry_da_height r));
    ("dispute_window_blocks", Int4 (Bounty.dispute_window_blocks r));
    ("posted_at_slot", Int8 (Bounty.posted_at_slot r)); ("posted_at_tx", Text (Bounty.posted_at_tx r));
    ("posted_at_timestamp", Timestamp (Bounty.posted_at_timestamp r));
    ("claim_count", Int4 (Bounty.claim_count r));
    ("last_claim_at_slot", nullable Int8 (Bounty.last_claim_at_slot r))] |}.

Definition contracts_reading : Reading := {|
  rd_statement := Contract.contracts; rd_column := own_name;
  rd_fields r := [
    ("id", Text (Contract.id r)); ("poster", Text (Contract.poster r));
    ("arbiter", Text (Contract.arbiter r)); ("criteria_doc_hash", Text (Contract.criteria_doc_hash r));
    ("pool_nano", Text (Contract.pool_nano r));
    ("escrow_remaining_nano", Text (Contract.escrow_remaining_nano r));
    ("arbiter_fee_bps", Int4 (Contract.arbiter_fee_bps r)); ("status", Text (Contract.status r));
    ("expiry_da_height", Int8 (Contract.expiry_da_height r));
    ("dispute_window_blocks", Int4 (Contract.dispute_window_blocks r));
    ("posted_at_slot", Int8 (Contract.posted_at_slot r));
    ("posted_at_tx", Text (Contract.posted_at_tx r));
    ("posted_at_timestamp", Timestamp (Contract.posted_at_timestamp r))] |}.

Definition readings : list Reading :=
  [slots_reading; transactions_reading; schemas_reading; attestor_sets_reading;
   address_summaries_reading; attestations_reading; set_attestations_reading; matches_reading;
   bounties_reading; contracts_reading].

(** The statements that are read as plain tuples. *)
Definition plain_statements : list Statement :=
  [block_hash_height; payload_hash_id; previous_hash; pending_heights; recent_slots; holders;
   set_ranks; last_bot_drip; last_indexed; read_slot].

(** The statements with computed columns. *)
Definition computed_statements : list Computed :=
  [max_height; exists_in "address_summaries"; exists_in "schemas"; exists_in "attestor_sets";
   exists_in "attestations"; count_of "slots"; count_of "transactions";
   count_of "address_summaries"; count_of "schemas"; count_of "attestor_sets";
   count_of "attestations"; new_wallets; attestations_daily; web_drips; bot_drips_daily;
   tx_rate; finality; top_attesters; top_schema_owners].

(** A row of the result: a cell of each expression's type. *)
Definition computes (st : Computed) (cells : list Cell) : Prop :=
  exists cs, mapM (type_of st.(cp_from)) st.(cp_exprs) = Some cs /\
    Forall2 (fun c x => conforms c x = true) cs cells.

Definition computed_checks (st : Computed) : bool :=
  match mapM (type_of st.(cp_from)) st.(cp_exprs) with
  | Some cs => all_accepted st.(cp_tuple) cs
  | None => false
  end.

(** [EXISTS] is asked for because the [1] of [SELECT 1] is an INTEGER, and no [i64]. *)
Example select_1_is_no_i64 : computed_checks (scalar_of LITERAL_1 "schemas" (Just I64)) = false.
Proof. vm_compute. reflexivity. Qed.

Lemma computed_statements_check : forallb computed_checks computed_statements = true.
Proof. vm_compute. reflexivity. Qed.

Lemma statements_check :
  forallb type_checks ((rd_statement <$> readings) ++ plain_statements) = true.
Proof. vm_compute. reflexivity. Qed.

Lemma shown_nullable {A} (cell : A -> Cell) o :
  (forall a, shown (cell a) = cell a) -> shown (nullable cell o) = nullable cell o.
Proof. intros Hc. destruct o; simpl; auto. Qed.
Lemma shown_numeric o : shown (nullable Numeric o) = nullable Text (to_string <$> o).
Proof. by destruct o. Qed.

Ltac by_name :=
  intros t fields; subst fields; cbn in t; repeat match goal with
    | x : (_ * _)%type |- _ => destruct x | x : unit |- _ => destruct x end;
  split; [vm_compute; reflexivity|cbn];
  rewrite ?shown_numeric, ?shown_nullable by done; reflexivity.

Lemma readings_by_name : Forall reads_by_name readings.
Proof. unfold readings. repeat (apply Forall_cons_2; [by_name|]). apply Forall_nil_2. Qed.

Lemma fields_by_name (column : string -> string) (row : Row) (fields : list (string * Cell)) :
  Forall2 (fun f x => shown <$> assoc (column f) row = Some x) fields.*1 fields.*2 ->
  Forall (fun fx => shown <$> assoc (column fx.1) row = Some fx.2) fields.
Proof.
  induction fields as [|[f x] fields IH]; simpl; [constructor|].
  intros [Hx Hf]%Forall2_cons. constructor; [done|auto].
Qed.

(** C18: No read of the API or the indexer fails on a row it selects from.  Whatever row the
    columns of the migrations admit, every statement of [queries.rs] that reads columns
    decodes it, and each field of the struct it is mapped to holds the column of the field's
    name, a NUMERIC as its decimal text; the statements read as plain tuples decode too; and
    so does every statement with computed columns ([MAX], [EXISTS], [COUNT], the daily
    buckets, the percentiles), whose expressions are well typed: their result, of whatever
    cells of the types Postgres documents for them, fits the Rust tuple it is read into. *)
Theorem queries_read_by_name `{XL : SqlxLaws} :
  (forall rd row, rd ∈ readings -> row_of (st_from (rd_statement rd)) row ->
    exists r, query_as (rd_statement rd) row = Some r /\
      Forall (fun fx => shown <$> assoc (rd.(rd_column) fx.1) row = Some fx.2) (rd.(rd_fields) r)) /\
  (forall st row, st ∈ plain_statements -> row_of st.(st_from) row ->
    is_Some (query_as st row)) /\
  (forall st, st ∈ computed_statements ->
    is_Some (mapM (type_of st.(cp_from)) st.(cp_exprs)) /\
    forall cells, computes st cells ->
      exists t, from_row st.(cp_tuple) cells = Some t /\ cells_of st.(cp_tuple) t = cells).
Proof.
  pose proof statements_check as Hc. rewrite forallb_app in Hc. apply andb_prop in Hc as [Hc Hp].
  rewrite forallb_forall in Hc, Hp. split_and!.
  - intros rd row Hrd Hrow.
    pose proof (Hc (rd_statement rd) ltac:(by apply list_elem_of_In, list_elem_of_fmap_2)) as Ht.
    destruct (query_decodes _ _ Ht Hrow) as (t & Hq & Hcells). exists (st_map (rd_statement rd) t).
    split; [done|]. pose proof readings_by_name as Hn. rewrite Forall_forall in Hn.
    destruct (Hn rd Hrd t) as [Hcols Hfields]. rewrite Hcols in Hcells.
    apply fields_by_name. rewrite Hfields. apply Forall2_fmap_r.
    apply Forall2_fmap_l in Hcells. eapply Forall2_impl; [exact Hcells|].
    intros k x Hx. simpl. by rewrite Hx.
  - intros st row Hst Hrow. apply list_elem_of_In in Hst.
    destruct (query_decodes _ _ (Hp st Hst) Hrow) as (t & -> & _). by eexists.
  - intros st Hst. pose proof computed_statements_check as Hs. rewrite forallb_forall in Hs.
    apply list_elem_of_In in Hst. specialize (Hs st Hst). unfold computed_checks in Hs.
    destruct (mapM _ _) as [cs|] eqn:Ecs; [|done]. split; [done|].
    intros cells (cs' & Ecs' & Hcells). rewrite Ecs in Ecs'. injection Ecs' as <-.
    exact (from_row_decodes _ _ _ Hs Hcells).
Qed.

(** ** The responses *)

Section Reads.
Context `{XL : SqlxLaws}.
Lemma get_int4 z : try_get (Just I32) (Int4 z) = Some z. Proof. apply (try_get_cell (Just I32)). Qed.
Lemma get_int8 z : try_get (Just I64) (Int8 z) = Some z. Proof. apply (try_get_cell (Just I64)). Qed.
Lemma get_text s : try_get (Just STRING) (Text s) = Some s. Proof. apply (try_get_cell (Just STRING)). Qed.
Lemma get_json v : try_get (Just VALUE) (Json v) = Some v. Proof. apply (try_get_cell (Just VALUE)). Qed.
Lemma get_timestamp t : try_get (Just DATETIME) (Timestamp t) = Some t.
Proof. apply (try_get_cell (Just DATETIME)). Qed.
Lemma get_opt_text o : try_get (OPTION STRING) (nullable Text o) = Some o.
Proof. apply (try_get_cell (OPTION STRING)). Qed.
Lemma get_opt_int8 o : try_get (OPTION I64) (nullable Int8 o) = Some o.
Proof. apply (try_get_cell (OPTION I64)). Qed.
Lemma get_opt_timestamp o : try_get (OPTION DATETIME) (nullable Timestamp o) = Some o.
Proof. apply (try_get_cell (OPTION DATETIME)). Qed.
Lemma get_opt_numeric o : try_get (OPTION BIGDECIMAL) (nullable Numeric o) = Some o.
Proof. apply (try_get_cell (OPTION BIGDECIMAL)). Qed.
Lemma get_some_text s : try_get (OPTION STRING) (Text s) = Some (Some s).
Proof. apply (try_get_cell (OPTION STRING) (Some s)). Qed.
Lemma get_some_timestamp t : try_get (OPTION DATETIME) (Timestamp t) = Some (Some t).
Proof. apply (try_get_cell (OPTION DATETIME) (Some t)). Qed.
End Reads.

Definition joined_tx_cells (x : string * TxRow * SlotRow) : Row :=
  as_alias "t" (tx_cells x.1) ++ as_alias "s" (slot_cells (x.1.2.(tr_slot), x.2)).
Definition joined_schema_cells (x : string * SchemaRow * AttestorSetRow) : Row :=
  as_alias "s" (schema_cells x.1) ++
  as_alias "a" (attestor_set_cells (x.1.2.(sc_attestor_set_id), x.2)).
Definition joined_attestation_cells (x : string * AttestationRow * (string * SchemaRow)) : Row :=
  as_alias "a" (attestation_cells x.1) ++ as_alias "s" (schema_cells x.2).
Definition matched_cells (x : string * BountyRow * Z) : Row :=
  as_alias "b" (bounty_cells x.1) ++ [(BountyMatch.COUNT, Int8 x.2)].

(** The struct of a stored row, field by field. *)
Ltac read_struct :=
  unfold query_as, select; cbn [st_columns st_tuple st_map];
  repeat match goal with |- context [columns_of ?t] =>
    let c := eval vm_compute in (columns_of t) in change (columns_of t) with c end;
  lazy beta iota zeta delta
    [st_tuple st_map Slot.slots Tx.transactions Schm.schemas AttestorSet.attestor_sets
     AddressSummary.address_summaries Attestation.attestations Attestation.by_attestor_set BountyMatch.matches
     Bounty.bounties Contract.contracts joined_tx_cells joined_schema_cells joined_attestation_cells matched_cells tx_cells slot_cells schema_cells
     attestor_set_cells attestation_cells address_cells bounty_cells contract_cells
     BountyMatch.COUNT as_alias qualified String.append app fmap list_fmap fst snd
     mapM assoc String.eqb Ascii.eqb Bool.eqb mbind option_bind mret option_ret from_row
     Slot.Tuple Tx.Tuple Schm.Tuple AttestorSet.Tuple AddressSummary.Tuple
     Attestation.Tuple BountyMatch.Tuple Bounty.Tuple Contract.Tuple];
  rewrite ?get_int4, ?get_int8, ?get_text, ?get_json, ?get_timestamp,
    ?get_opt_text, ?get_opt_int8, ?get_opt_timestamp, ?get_opt_numeric,
    ?get_some_text, ?get_some_timestamp;
  lazy beta iota zeta delta
    [Slot.row_from_tuple Tx.row_from_tuple Schm.row_from_tuple AttestorSet.row_from_tuple
     AddressSummary.row_from_tuple Attestation.row_from_tuple BountyMatch.row_from_tuple
     Bounty.row_from_tuple Contract.row_from_tuple].

Section Served.
Context `{Bech32} `{Sha256} `{Chrono} `{PgNumeric} `{Rfc3339} `{PgText} `{XL : SqlxLaws}.

(** The row is one its columns admit; the statement decodes it into the struct of its
    handler; and the handler's mapper makes the response of that struct. *)
Definition served {R A} (st : Statement) (mapper : st_row st -> A) (cells : R -> Row)
    (response : R -> A) (x : R) : Prop :=
  row_of st.(st_from) (cells x) /\
  exists row, query_as st (cells x) = Some row /\ mapper row = response x.

Definition schema_response (x : string * SchemaRow * AttestorSetRow) : SchemaResponse :=
  schema_row_to_response (x.1, x.2.(as_threshold)).

Ltac mapped := eexists; split; [read_struct; reflexivity|reflexivity].

Lemma slot_served h r :
  slot_typed h r -> served Slot.slots block_of slot_cells slot_to_block_response (h, r).
Proof. intros Ht. split; [by apply slot_conforms|mapped]. Qed.
Lemma tx_served h r s : tx_typed r -> slot_typed r.(tr_slot) s ->
  served Tx.transactions tx_of joined_tx_cells tx_row_to_response (h, r, s).
Proof.
  intros Ht Hs. split; [|mapped].
  apply row_of_app; apply row_of_aliased; [by apply tx_conforms|by apply slot_conforms].
Qed.
Lemma schema_served i r set : schema_typed r -> attestor_set_typed set ->
  served Schm.schemas schema_of joined_schema_cells schema_response (i, r, set).
Proof.
  intros Ht Hs. split; [|mapped].
  apply row_of_app; apply row_of_aliased; [by apply schema_conforms|by apply attestor_set_conforms].
Qed.
Lemma attestor_set_served i r : attestor_set_typed r ->
  served AttestorSet.attestor_sets attestor_set_of attestor_set_cells attestor_set_row_to_response (i, r).
Proof. intros Ht. split; [by apply attestor_set_conforms|mapped]. Qed.
Lemma attestation_served i r : attestation_typed r ->
  served Attestation.attestations attestation_of attestation_cells attestation_row_to_response (i, r).
Proof. intros Ht. split; [by apply attestation_conforms|mapped]. Qed.
Lemma set_attestation_served i r si s : attestation_typed r -> schema_typed s ->
  served Attestation.by_attestor_set attestation_of joined_attestation_cells
    (fun x => attestation_row_to_response x.1) (i, r, (si, s)).
Proof.
  intros Ht Hs. split; [|mapped].
  apply row_of_app; apply row_of_aliased; [by apply attestation_conforms|by apply schema_conforms].
Qed.
Lemma address_served a balances r : address_typed r ->
  served AddressSummary.address_summaries (address_of a balances) address_cells
    (fun x => address_response a balances x.2) (a, r).
Proof. intros Ht. split; [by apply address_conforms|mapped]. Qed.
Lemma bounty_served i r : bounty_typed r ->
  served Bounty.bounties bounty_of bounty_cells bounty_row_to_response (i, r).
Proof. intros Ht. split; [by apply bounty_conforms|mapped]. Qed.
Lemma contract_served i r : contract_typed r ->
  served Contract.contracts contract_of contract_cells contract_row_to_response (i, r).
Proof. intros Ht. split; [by apply contract_conforms|mapped]. Qed.
Lemma match_served i r n : bounty_typed r -> in_i64 n ->
  served BountyMatch.matches match_of matched_cells match_entry (i, r, n).
Proof.
  intros Ht Hn. split; [|mapped]. apply row_of_app.
  - by apply row_of_aliased, bounty_conforms.
  - constructor; [|constructor]. split; [done|]. by apply within_true.
Qed.

(** What the lookups and the joins behind the lists find. *)
Lemma typed_reached d : rtc task_step empty_db d -> typed d.
Proof. intros Hd. by destruct (good_steps _ _ Hd good_empty) as (_ & ? & _). Qed.

(** C11: The clients see the tables.  On every database the indexer reaches, each block,
    transaction, schema, attestor set, attestation, address, bounty, contract and bounty
    match that a query finds is a row its columns admit; the columns the query selects are
    decoded by position into the tuple of its struct; and what the handler's mapper makes of
    the struct is the response that the API of this development serves for the row.  An
    address without a row is the struct of zeros. *)
Theorem rows_served d (Hd : rtc task_step empty_db d) :
  (forall h x, slot_by_height h d = Some x ->
    served Slot.slots block_of slot_cells slot_to_block_response x) /\
  (forall h x, Lookup.tx_by_hash h d = Some x ->
    served Tx.transactions tx_of joined_tx_cells tx_row_to_response x) /\
  (forall i x, Lookup.schema_by_id i d = Some x -> exists set,
    d.(attestor_sets) !! x.1.2.(sc_attestor_set_id) = Some set /\
    schema_row_to_response x = schema_response (x.1, set) /\
    served Schm.schemas schema_of joined_schema_cells schema_response (x.1, set)) /\
  (forall i x, Lookup.attestor_set_by_id i d = Some x ->
    served AttestorSet.attestor_sets attestor_set_of attestor_set_cells
      attestor_set_row_to_response x) /\
  (forall i x, Lookup.attestation_by_id i d = Some x ->
    served Attestation.attestations attestation_of attestation_cells
      attestation_row_to_response x /\
    forall s, d.(schemas) !! x.2.(at_schema_id) = Some s ->
      served Attestation.by_attestor_set attestation_of joined_attestation_cells
        (fun y => attestation_row_to_response y.1) (x, (x.2.(at_schema_id), s))) /\
  (forall a b, match d.(address_summaries) !! a with
    | Some r => address_row a d = r /\
        served AddressSummary.address_summaries (address_of a b) address_cells
          (fun y => address_response a b y.2) (a, r)
    | None => address_of a b AddressSummary.unseen = address_response a b (address_row a d)
    end) /\
  (forall i x, bounty_by_id i d = Some x ->
    served Bounty.bounties bounty_of bounty_cells bounty_row_to_response x) /\
  (forall i x, contract_by_id i d = Some x ->
    served Contract.contracts contract_of contract_cells contract_row_to_response x) /\
  (forall a n x, x ∈ bounties_matching_address a n d -> in_i64 x.2 ->
    served BountyMatch.matches match_of matched_cells match_entry x).
Proof.
  destruct (typed_reached d Hd) as [Hs Ht Has Hsc Hat Had Hbo Hco]. split_and!.
  - intros h x (r & Hr & ->)%fmap_Some. by apply slot_served, (Hs h r).
  - intros h x (r & Hr & (s & Hrs & [= <-])%bind_Some)%bind_Some.
    apply tx_served; [by apply (Ht h)|by apply Hs].
  - intros i x (r & Hr & Hx)%bind_Some. unfold with_threshold in Hx.
    apply bind_Some in Hx as (set & Hset & [= <-]). exists set. split_and!; [done..|].
    apply schema_served; [by apply (Hsc i)|by eapply Has].
  - intros i x (r & Hr & ->)%fmap_Some. by apply attestor_set_served, (Has i).
  - intros i x (r & Hr & ->)%fmap_Some. split; [by apply attestation_served, (Hat i)|].
    intros s Hs'. apply set_attestation_served; [by apply (Hat i)|by eapply Hsc].
  - intros a b. destruct (address_summaries d !! a) as [r|] eqn:Hr.
    + unfold address_row. rewrite Hr. split; [done|]. by apply address_served, (Had a).
    + unfold address_row. by rewrite Hr.
  - intros i x (r & Hr & ->)%fmap_Some. by apply bounty_served, (Hbo i).
  - intros i x (r & Hr & ->)%fmap_Some. by apply contract_served, (Hco i).
  - intros a n [[i r] c] Hx Hc. unfold bounties_matching_address in Hx.
    unfold limit in Hx. apply elem_of_take in Hx as (k & Hk & _). apply list_elem_of_lookup_2 in Hk.
    apply elem_of_order_by, list_elem_of_omap in Hk as ([i' c'] & _ & Hm).
    unfold matched in Hm. apply fmap_Some in Hm as (r' & Hr' & [= -> -> ->]).
    by apply match_served; [apply (Hbo i')|].
Qed.
End Served.

(** Strict as sqlx is: an INTEGER is no [i64], and NULL needs an [Option]. *)
Module SampleSqlx.
Definition scalar (s : Scalar) : Cell -> option (denote_scalar s) :=
  match s with
  | I32 => fun x => match x with Int4 z => Some z | _ => None end
  | I64 => fun x => match x with Int8 z => Some z | _ => None end
  | STRING => fun x => match x with Text s => Some s | _ => None end
  | VALUE => fun x => match x with Json v => Some v | _ => None end
  | DATETIME => fun x => match x with Timestamp ms => Some ms | _ => None end
  | BIGDECIMAL => fun x => match x with Numeric z => Some z | _ => None end
  | BOOL => fun x => match x with Bool b => Some b | _ => None end
  | DOUBLE => fun x => match x with Float8 f => Some f | _ => None end
  end.
#[export] Instance sqlx : Sqlx := fun t =>
  match t with
  | Just s => scalar s
  | OPTION s => fun x => match x with Null => Some None | _ => Some <$> scalar s x end
  end.
#[export] Instance sqlx_laws : SqlxLaws sqlx.
Proof. by intros [[]|[]] []. Qed.
End SampleSqlx.

Section RowsWitness.
#[local] Existing Instances Bip350.bech32m Fips180.sha2 clock numeric SampleApi.rfc3339 SampleText.text SampleSqlx.sqlx
  SampleSqlx.sqlx_laws.

Lemma rows_served_witness :
  match slot_by_height 4 two_slots with
  | Some x => served Slot.slots block_of slot_cells slot_to_block_response x
  | None => False
  end.
Proof.
  destruct (slot_by_height 4 two_slots) as [x|] eqn:Hx; [|discriminate Hx].
  exact (proj1 (rows_served two_slots two_slots_reached) 4 x Hx).
Defined.

(** The row of a slot, with more columns than the list asks for, in another order. *)
Lemma queries_read_by_name_witness :
  exists r, query_as Slot.slots (slot_cells (4, sample_slot_row "pending" None)) = Some r /\ Slot.height r = 4.
Proof.
  destruct (proj1 queries_read_by_name slots_reading (slot_cells (4, sample_slot_row "pending" None))) as (r & Hr & Hf).
  - by left.
  - apply slot_conforms. vm_compute. repeat split; discriminate.
  - exists r. split; [exact Hr|]. apply Forall_cons in Hf as [Hh _]. by injection Hh as <-.
Defined.
End RowsWitness.
