(* ===== verification/TestKit.v ===== *)
(** * Running the repository's unit tests on the model

    A unit test is a proposition: the conjunction of its assertions, with
    [unwrap], [expect] and a [match] whose other arms panic as the combinators below.  The
    tests of a file are a list, and one theorem per file says that the model passes them
    all; bech32m, SHA-256, base64 and JSON text are the reference implementations. *)

From S2P Require Import Prelude Json JsonSyntax Io.
Open Scope string_scope.
Open Scope list_scope.
Open Scope Z_scope.

(** [json!({..})], and [serde_json::from_str] on a literal; the double quotes are written
    as apostrophes. *)
Definition json_of (s : string) : Value := default JNull (Rfc8259.read (Rfc8259.apostrophes s)).
Definition from_str {A} (de : Value -> option A) (s : string) : option A :=
  Rfc8259.read (Rfc8259.apostrophes s) ≫= de.

(** [unwrap] and [expect] on an [Option], [unwrap] and [unwrap_err] on a [Result]. *)
Definition unwrap {A} (o : option A) (k : A -> Prop) : Prop :=
  match o with Some a => k a | None => False end.
Definition unwrap_ok {E A} (r : result E A) (k : A -> Prop) : Prop :=
  match r with Ok a => k a | Err _ => False end.
Definition unwrap_err {E A} (r : result E A) (k : E -> Prop) : Prop :=
  match r with Ok _ => False | Err e => k e end.

(** The call returns. *)
Definition returns {A} (o : outcome A) (k : A -> Prop) : Prop :=
  match o with Done a => k a | Panicked => False end.

(** Indexing a vector. *)
Definition at_index {A} (l : list A) (i : nat) (k : A -> Prop) : Prop := unwrap (l !! i) k.

Definition starts_with (p s : string) : Prop := String.prefix p s = true.

(** Every test of a list passes. *)
Definition all_pass (tests : list Prop) : Prop := foldr and True tests.

Ltac run_tests := vm_compute; repeat split; try discriminate.
