(* ===== verification/TypesTests.v ===== *)
(** * The unit tests of [crates/types/src/lib.rs] *)

From S2P Require Import Prelude Json JsonSyntax Types Io TestKit.
Open Scope string_scope.
Open Scope list_scope.
Open Scope Z_scope.

Definition rollup_info_round_trip : Prop :=
  let body := "{'chain_id':'ligate-devnet-2','chain_hash':'abcd','version':'0.0.1'}" in
  unwrap (from_str de_RollupInfo body) (fun parsed =>
    parsed.(info_chain_id) = "ligate-devnet-2" /\
    parsed.(info_chain_hash) = "abcd" /\
    parsed.(info_version) = "0.0.1").

Definition schema_response_round_trip : Prop :=
  let body := "{
            'schema': {
                'id': 'lsc1xyz',
                'owner': 'lig1abc',
                'name': 'themisra.proof-of-prompt',
                'version': 1,
                'attestor_set': 'las1def',
                'fee_routing_bps': 0,
                'fee_routing_addr': null
            }
        }" in
  unwrap (from_str de_SchemaResponse body) (fun parsed =>
    parsed.(sr_schema).(schema_id) = "lsc1xyz" /\
    parsed.(sr_schema).(schema_fee_routing_bps) = 0 /\
    parsed.(sr_schema).(schema_fee_routing_addr) = None).

Definition attestor_set_response_round_trip : Prop :=
  let body := "{
            'attestor_set': {
                'id': 'las1abc',
                'members': ['lpk1one', 'lpk1two', 'lpk1three'],
                'threshold': 2
            }
        }" in
  unwrap (from_str de_AttestorSetResponse body) (fun parsed =>
    length parsed.(asr_attestor_set).(aset_members) = 3%nat /\
    parsed.(asr_attestor_set).(aset_threshold) = 2).

Definition bounty_response_round_trip : Prop :=
  let body := "{
            'bounty': {
                'poster': 'lig1poster',
                'board_schema_id': 'lsc1board',
                'pool': '5000000000',
                'per_attestation': '1000000000',
                'acceptance': {'Any': {}},
                'expiry_da_height': 123456,
                'dispute_window_blocks': 100,
                'status': 'Open'
            }
        }" in
  unwrap (from_str de_BountyResponse body) (fun parsed =>
    parsed.(br_bounty).(bounty_poster) = "lig1poster" /\
    parsed.(br_bounty).(bounty_board_schema_id) = "lsc1board" /\
    parsed.(br_bounty).(bounty_pool) = "5000000000" /\
    parsed.(br_bounty).(bounty_per_attestation) = "1000000000" /\
    parsed.(br_bounty).(bounty_expiry_da_height) = 123456 /\
    parsed.(br_bounty).(bounty_dispute_window_blocks) = 100 /\
    parsed.(br_bounty).(bounty_status) = "Open" /\
    unwrap (as_object parsed.(br_bounty).(bounty_acceptance) ≫= obj_get "Any") (fun any =>
      any = json_of "{}")).

Definition bounty_event_payloads_round_trip : Prop :=
  unwrap (de_BountyPostedEvent (json_of "{
            'BountyPosted': {
                'bounty_id': 'lbt1abc',
                'poster': 'lig1poster',
                'pool': '5000000000'
            }
        }")) (fun posted =>
    posted.(bpe_bounty_posted).(bpd_bounty_id) = "lbt1abc" /\
    posted.(bpe_bounty_posted).(bpd_pool) = "5000000000") /\
  unwrap (de_BountyClaimedEvent (json_of "{
            'BountyClaimed': {
                'bounty_id': 'lbt1abc',
                'attestation_id': 'lat1xyz',
                'payout': '1000000000',
                'attester': 'lig1attester'
            }
        }")) (fun claimed =>
    claimed.(bce_bounty_claimed).(bcd_bounty_id) = "lbt1abc" /\
    claimed.(bce_bounty_claimed).(bcd_payout) = "1000000000" /\
    claimed.(bce_bounty_claimed).(bcd_attester) = "lig1attester") /\
  unwrap (de_BountyExpiredEvent (json_of "{
            'BountyExpired': { 'bounty_id': 'lbt1abc', 'refunded_to_poster': '4000000000' }
        }")) (fun expired =>
    expired.(bee_bounty_expired).(bed_refunded_to_poster) = "4000000000") /\
  unwrap (de_BountyFinalisedEvent (json_of "{
            'BountyFinalised': { 'bounty_id': 'lbt1abc', 'swept_to_poster': '0' }
        }")) (fun finalised =>
    finalised.(bfe_bounty_finalised).(bfd_swept_to_poster) = "0").

Definition contract_response_round_trip : Prop :=
  let body := "{
            'contract': {
                'poster': 'lig1poster',
                'arbiter': 'lig1arbiter',
                'criteria_doc_hash': '0xdeadbeef',
                'pool': '5000000000',
                'expiry_da_height': 123456,
                'dispute_window_blocks': 100,
                'arbiter_fee_bps': 500,
                'status': 'Open'
            }
        }" in
  unwrap (from_str de_ContractResponse body) (fun parsed =>
    parsed.(cr_contract).(contract_poster) = "lig1poster" /\
    parsed.(cr_contract).(contract_arbiter) = "lig1arbiter" /\
    parsed.(cr_contract).(contract_criteria_doc_hash) = JString "0xdeadbeef" /\
    parsed.(cr_contract).(contract_pool) = "5000000000" /\
    parsed.(cr_contract).(contract_expiry_da_height) = 123456 /\
    parsed.(cr_contract).(contract_dispute_window_blocks) = 100 /\
    parsed.(cr_contract).(contract_arbiter_fee_bps) = 500 /\
    parsed.(cr_contract).(contract_status) = "Open").

Definition contract_event_payloads_round_trip : Prop :=
  unwrap (de_ContractPostedEvent (json_of "{
            'ContractPosted': {
                'contract_id': 'lct1abc',
                'poster': 'lig1poster',
                'arbiter': 'lig1arbiter',
                'pool': '5000000000'
            }
        }")) (fun posted =>
    posted.(cpe_contract_posted).(cpd_contract_id) = "lct1abc" /\
    posted.(cpe_contract_posted).(cpd_arbiter) = "lig1arbiter" /\
    posted.(cpe_contract_posted).(cpd_pool) = "5000000000") /\
  unwrap (de_WorkerCommittedEvent (json_of "{
            'WorkerCommitted': {
                'contract_id': 'lct1abc',
                'worker': 'lig1worker',
                'commit_hash': '0xc0ffee',
                'bond': '250000000'
            }
        }")) (fun committed =>
    committed.(wce_worker_committed).(wcd_worker) = "lig1worker" /\
    committed.(wce_worker_committed).(wcd_bond) = "250000000") /\
  unwrap (de_ContractDeliveredEvent (json_of "{
            'ContractDelivered': {
                'contract_id': 'lct1abc',
                'worker': 'lig1worker',
                'deliverable_attestation_id': 'lat1xyz'
            }
        }")) (fun delivered =>
    delivered.(cde_contract_delivered).(cdd_deliverable_attestation_id) = "lat1xyz") /\
  unwrap (de_DeliveryAcceptedEvent (json_of "{
            'DeliveryAccepted': {
                'contract_id': 'lct1abc',
                'worker': 'lig1worker',
                'payout': '5000000000'
            }
        }")) (fun accepted =>
    accepted.(dae_delivery_accepted).(dad_payout) = "5000000000") /\
  unwrap (de_DeliveryRejectedEvent (json_of "{
            'DeliveryRejected': {
                'contract_id': 'lct1abc',
                'worker': 'lig1worker',
                'reason': 'CriteriaMismatch'
            }
        }")) (fun rejected =>
    rejected.(dre2_delivery_rejected).(drd2_reason) = "CriteriaMismatch") /\
  unwrap (de_ContractDisputeResolvedEvent (json_of "{
            'ContractDisputeResolved': {
                'contract_id': 'lct1abc',
                'decision': 'AcceptDelivery',
                'winner': 'lig1worker'
            }
        }")) (fun resolved =>
    resolved.(cdre_contract_dispute_resolved).(cdrd_decision) = "AcceptDelivery" /\
    resolved.(cdre_contract_dispute_resolved).(cdrd_winner) = "lig1worker") /\
  unwrap (de_ContractCancelledEvent (json_of "{
            'ContractCancelled': { 'contract_id': 'lct1abc', 'refunded_to_poster': '5000000000' }
        }")) (fun cancelled =>
    cancelled.(cce_contract_cancelled).(ccd_refunded_to_poster) = "5000000000") /\
  unwrap (de_ContractExpiredEvent (json_of "{
            'ContractExpired': { 'contract_id': 'lct1abc', 'refunded_to_poster': '5000000000' }
        }")) (fun expired =>
    expired.(cee_contract_expired).(ced_refunded_to_poster) = "5000000000").

Definition slot_response_preserves_unknown_fields : Prop :=
  let body := "{
            'number': 42,
            'hash': 'lblk1abc',
            'prev_hash': 'lblk1def',
            'timestamp': 1700000000,
            'future_field': 'future_value'
        }" in
  unwrap (from_str de_SlotResponse body) (fun parsed =>
    parsed.(slot_number) = 42 /\
    unwrap (obj_get "future_field" parsed.(slot_raw)) (fun v => v = JString "future_value")).

Example types_tests_pass : all_pass
  [rollup_info_round_trip; schema_response_round_trip; attestor_set_response_round_trip;
   bounty_response_round_trip; bounty_event_payloads_round_trip; contract_response_round_trip;
   contract_event_payloads_round_trip; slot_response_preserves_unknown_fields].
Proof. run_tests. Qed.
