(* ===== verification/DecodeTests.v ===== *)
(** * The unit tests of [crates/indexer/src/decode.rs]

    The golden body is a transaction captured from the chain: base64, the wrapper, the key
    and the bech32m texts are all computed. *)

From S2P Require Import Prelude Standards Bech32m Base64 Json JsonSyntax Io AttestationId Decode TestKit.
Open Scope string_scope.
Open Scope list_scope.
Open Scope Z_scope.

#[local] Existing Instance Bip350.bech32m.

Definition STANDARD_encode := Rfc4648.standard_encode.
Definition STANDARD_decode := Rfc4648.standard_decode.

Definition GOLDEN_BODY_B64 : string := "ANoAAAAAMNcxnDmZ4COIN+sWi8JhIqkBoIPiYsDfkRNEJG7hkLE/T8op1N9kJF/+AuKdztskN7tENOeo5HTiZPO/5eQEDLJ6BPDZkJaUfO+LI+o2XYXXODStBJ+0kj41RfEU4K5HAAEAomT/izZ/fCaEMKCtqDR4VjpkdpsvJZlHjZvc5wDodkgXAAAAAAAAAAAAAACZPvy8jsj6hMOrIhaqi208hjUwC2NSFYpXNZHBKMY0WQAFAAAAAAAAAAAAAAAAAAAAAOH1BQAAAAAAAAAAAAAAAACSEAAAAAAAAA==".
Definition GOLDEN_CHAIN_ID : Z := 4242.
Definition GOLDEN_SENDER : string := "lig1kfaqfuxejztfgl803v375djashtnsd9dqj0mfy37x4zlzd3nyqm".
Definition GOLDEN_SENDER_PUBKEY : string :=
  "lpk1kfaqfuxejztfgl803v375djashtnsd9dqj0mfy37x4zlz98q4ersyjqskt".
Definition GOLDEN_NONCE : Z := 5.

Definition decodes_real_wrapped_tx : Prop :=
  returns (decode_tx_body STANDARD_decode GOLDEN_BODY_B64 GOLDEN_CHAIN_ID) (fun o =>
  unwrap o (fun d =>
    d.(sender) = GOLDEN_SENDER /\
    d.(sender_pubkey) = GOLDEN_SENDER_PUBKEY /\
    d.(nonce) = Some GOLDEN_NONCE)).

Definition decodes_bare_unwrapped_tx : Prop :=
  unwrap (STANDARD_decode GOLDEN_BODY_B64) (fun raw =>
  returns (slice WRAPPER_LEN (length raw) raw) (fun bare =>
  let bare_b64 := STANDARD_encode bare in
  returns (decode_tx_body STANDARD_decode bare_b64 GOLDEN_CHAIN_ID) (fun o =>
  unwrap o (fun d =>
    d.(sender) = GOLDEN_SENDER /\
    d.(sender_pubkey) = GOLDEN_SENDER_PUBKEY /\
    d.(nonce) = Some GOLDEN_NONCE)))).

Definition sender_is_front_anchored_even_on_chain_id_mismatch : Prop :=
  returns (decode_tx_body STANDARD_decode GOLDEN_BODY_B64 9999) (fun o =>
  unwrap o (fun d =>
    d.(sender) = GOLDEN_SENDER /\
    d.(sender_pubkey) = GOLDEN_SENDER_PUBKEY /\
    d.(nonce) = None)).

Definition empty_body_is_none : Prop :=
  returns (decode_tx_body STANDARD_decode "" GOLDEN_CHAIN_ID) (fun o => o = None) /\
  returns (decode_tx_body STANDARD_decode "   " GOLDEN_CHAIN_ID) (fun o => o = None).

Definition non_base64_is_none : Prop :=
  returns (decode_tx_body STANDARD_decode "not valid base64 !!!" GOLDEN_CHAIN_ID)
    (fun o => o = None).

Definition truncated_body_is_none : Prop :=
  let short := STANDARD_encode (replicate 10 0) in
  returns (decode_tx_body STANDARD_decode short GOLDEN_CHAIN_ID) (fun o => o = None).

Definition wrong_version_tag_is_none : Prop :=
  let bytes := <[0%nat := 0x07]> (replicate 200 0xFF) in
  let b64 := STANDARD_encode bytes in
  returns (decode_tx_body STANDARD_decode b64 GOLDEN_CHAIN_ID) (fun o => o = None).

Example decode_tests_pass : all_pass
  [decodes_real_wrapped_tx; decodes_bare_unwrapped_tx;
   sender_is_front_anchored_even_on_chain_id_mismatch; empty_body_is_none; non_base64_is_none;
   truncated_body_is_none; wrong_version_tag_is_none].
Proof. run_tests. Qed.

(** The captured body is an instance of the wire layout [wrap (encode_inner _)] the round
    trip of [Decode] is stated for: a transaction of nonce 5 without a gas limit. *)
Definition golden_raw : list Z := Eval vm_compute in default [] (STANDARD_decode GOLDEN_BODY_B64).
Definition golden_tx : SignedTx := {|
  stx_sig := take SIG_LEN (drop 6 golden_raw);
  stx_pub_key := take PUBKEY_LEN (drop 70 golden_raw);
  stx_call := take (length golden_raw - 144) (drop 102 golden_raw);
  stx_nonce := 5; stx_bips := 0; stx_max_fee := 100000000; stx_gas := None;
  stx_chain_id := 4242 |}.

Example golden_body_layout :
  golden_raw = wrap (encode_inner golden_tx) /\ signed_tx_ok golden_tx.
Proof.
  split; [vm_compute; reflexivity|]. unfold signed_tx_ok.
  split_and!; try (vm_compute; reflexivity); try (vm_compute; split; congruence).
  vm_compute. repeat constructor; congruence.
Qed.
