(* ===== verification/AttestationIdTests.v ===== *)
(** * The unit tests of [crates/indexer/src/attestation_id.rs]

    The first compares the id with the chain's own snapshot vector. *)

From S2P Require Import Prelude Standards Bech32m Sha2 Json JsonSyntax Io AttestationId Config TestKit.
Open Scope string_scope.
Open Scope list_scope.
Open Scope Z_scope.

#[local] Existing Instances Bip350.bech32m Fips180.sha2.

Definition bech32m (hrp_str : string) (data : list Z) (k : string -> Prop) : Prop :=
  unwrap (hrp_parse hrp_str) (fun hrp => unwrap_ok (bech32_encode hrp data) k).

Definition snapshot_matches_chain_reference : Prop :=
  bech32m HRP_SCHEMA (replicate 32 0x11) (fun schema_id =>
  bech32m HRP_PAYLOAD (replicate 32 0x33) (fun payload_hash =>
  returns (compute_attestation_id schema_id payload_hash) (fun r =>
  unwrap_ok r (fun id =>
  unwrap (SampleHex.hex "b0dcb09af5496e779e60b21109a718475091191efc7a8638b01d51c622fc9128")
    (fun expected_digest =>
  bech32m HRP_ATTESTATION expected_digest (fun expected =>
    id = expected /\ starts_with "lat1" id)))))).

Definition same_pair_is_deterministic : Prop :=
  bech32m HRP_SCHEMA (replicate 32 0x42) (fun schema_id =>
  bech32m HRP_PAYLOAD (replicate 32 0x99) (fun payload_hash =>
  returns (compute_attestation_id schema_id payload_hash) (fun ra => unwrap_ok ra (fun a =>
  returns (compute_attestation_id schema_id payload_hash) (fun rb => unwrap_ok rb (fun b =>
    a = b)))))).

Definition swapping_inputs_changes_id : Prop :=
  bech32m HRP_SCHEMA (replicate 32 0xAA) (fun a_as_schema =>
  bech32m HRP_PAYLOAD (replicate 32 0xBB) (fun b_as_payload =>
  bech32m HRP_SCHEMA (replicate 32 0xBB) (fun b_as_schema =>
  bech32m HRP_PAYLOAD (replicate 32 0xAA) (fun a_as_payload =>
  returns (compute_attestation_id a_as_schema b_as_payload) (fun r1 => unwrap_ok r1 (fun id_ab =>
  returns (compute_attestation_id b_as_schema a_as_payload) (fun r2 => unwrap_ok r2 (fun id_ba =>
    id_ab <> id_ba)))))))).

Definition wrong_hrp_is_rejected : Prop :=
  bech32m HRP_PAYLOAD (replicate 32 0x11) (fun bad_schema =>
  bech32m HRP_PAYLOAD (replicate 32 0x33) (fun payload_hash =>
  returns (compute_attestation_id bad_schema payload_hash) (fun r => unwrap_err r (fun err =>
    match err with
    | HrpMismatch field expected _ => field = "schema_id" /\ expected = HRP_SCHEMA
    | _ => False
    end)))).

Definition malformed_bech32_is_rejected : Prop :=
  bech32m HRP_PAYLOAD (replicate 32 0x33) (fun payload_hash =>
  returns (compute_attestation_id "not bech32 at all" payload_hash) (fun r =>
  unwrap_err r (fun err =>
    match err with Bech32Decode field _ => field = "schema_id" | _ => False end))).

Example attestation_id_tests_pass : all_pass
  [snapshot_matches_chain_reference; same_pair_is_deterministic; swapping_inputs_changes_id;
   wrong_hrp_is_rejected; malformed_bech32_is_rejected].
Proof. run_tests. Qed.
