(* ===== verification/ParserTests.v ===== *)
(** * The unit tests of [crates/indexer/src/parser.rs]

    Events as the chain emits them, through the classifier; the last test reads the two
    bodies captured from a chain. *)

From S2P Require Import Prelude Standards Bech32m Sha2 Json JsonSyntax Types Io AttestationId Parser TestKit.
Open Scope string_scope.
Open Scope list_scope.
Open Scope Z_scope.

#[local] Existing Instances Bip350.bech32m Fips180.sha2.

Definition bech32m (hrp : string) (data : list Z) (k : string -> Prop) : Prop :=
  unwrap (hrp_parse hrp) (fun hrp => unwrap_ok (bech32_encode hrp data) k).

Definition DEADBEEF : string := "ltx1deadbeef0000000000000000000000000000000000000000000000000".

Definition fixture_tx (receipt_result : string) : LedgerTx := {|
  tx_type := "tx"; tx_hash := DEADBEEF; tx_number := 1;
  tx_event_range := {| rng_start := 1; rng_end := 2 |};
  tx_body := {| fbt_data := ""; fbt_sequencing_data := None |};
  tx_receipt := {| rcpt_result := receipt_result; rcpt_data := json_of "{'gas_used': [0, 0]}" |};
  tx_events := []; tx_batch_number := 8929 |}.

(** The events the tests write out. *)
Definition event_of (number : Z) (key : string) (value : Value) (module tx_hash : string)
  : LedgerEvent := {|
  ev_type := "event"; ev_number := number; ev_key := key; ev_value := value;
  ev_module := {| mr_type := "moduleRef"; mr_name := module |}; ev_tx_hash := tx_hash |}.

(** [classify_tx(&tx, &events).expect("not skipped")]. *)
Definition classified (tx : LedgerTx) (events : list LedgerEvent) (k : ClassifiedTx -> Prop) : Prop :=
  returns (classify_tx Rfc8259.write tx events) (fun o => unwrap o k).

Definition outcome_maps_chain_strings_to_typed_variant : Prop :=
  outcome_of "successful" = Committed /\
  outcome_of "reverted" = Reverted /\
  outcome_of "skipped" = Skipped /\
  outcome_of "future-variant" = Skipped.

Definition classify_drops_skipped_txs : Prop :=
  let tx := fixture_tx "skipped" in
  returns (classify_tx Rfc8259.write tx []) (fun o => o = None).

Definition classify_recognises_token_transferred : Prop :=
  let event_value := json_of "{
            'token_transferred': {
                'from': { 'user': 'lig132yw8ht5p8cetl2jmvknewjawt9xwzdlrk2pyxlnwjyqz3m499u' },
                'to':   { 'user': 'lig13x2xvtj2n3g5zdrc2g27uswja0e9dllxlu33y8estm0gw4dhs6d' },
                'coins': {
                    'amount':   '1000000000',
                    'token_id': 'token_1nyl0e0yweragfsatygt24zmd8jrr2vqtvdfptzjhxkguz2xxx3vs0y07u7'
                }
            }
        }" in
  let event := event_of 1 KEY_BANK_TOKEN_TRANSFERRED event_value "Bank" DEADBEEF in
  classified (fixture_tx "successful") [event] (fun c =>
    c.(ctx_outcome) = Committed /\
    match c.(ctx_kind) with
    | Transfer t =>
        t.(tr_from) = "lig132yw8ht5p8cetl2jmvknewjawt9xwzdlrk2pyxlnwjyqz3m499u" /\
        t.(tr_to) = "lig13x2xvtj2n3g5zdrc2g27uswja0e9dllxlu33y8estm0gw4dhs6d" /\
        t.(tr_amount_nano) = "1000000000" /\
        t.(tr_token_id) = "token_1nyl0e0yweragfsatygt24zmd8jrr2vqtvdfptzjhxkguz2xxx3vs0y07u7"
    | _ => False
    end).

Definition classify_falls_back_to_unknown_for_unrecognised_events : Prop :=
  let event := event_of 1 "Future/SomethingNew" (json_of "{'some_payload': {}}") "Future" DEADBEEF in
  classified (fixture_tx "successful") [event] (fun c =>
    match c.(ctx_kind) with
    | Unknown event_keys => event_keys = ["Future/SomethingNew"]
    | _ => False
    end).

Definition classify_recognises_attestor_set_registered : Prop :=
  let event := event_of 1 "AttestationModule/AttestorSetRegistered" (json_of "{
                'AttestorSetRegistered': {
                    'attestor_set_id': 'las1abc',
                    'members': ['lpk1m1', 'lpk1m2'],
                    'threshold': 2,
                    'registered_by': 'lig1registrar'
                }
            }") "AttestationModule" DEADBEEF in
  classified (fixture_tx "successful") [event] (fun c =>
    match c.(ctx_kind) with
    | RegisterAttestorSet d =>
        d.(ras_attestor_set_id) = "las1abc" /\
        d.(ras_members) = ["lpk1m1"; "lpk1m2"] /\
        d.(ras_threshold) = 2 /\
        d.(ras_registered_by) = "lig1registrar"
    | _ => False
    end).

Definition classify_recognises_schema_registered : Prop :=
  let event := event_of 1 "AttestationModule/SchemaRegistered" (json_of "{
                'SchemaRegistered': {
                    'schema_id': 'lsc1abc',
                    'name': 'themisra.proof-of-prompt',
                    'version': 1,
                    'owner': 'lig1owner',
                    'attestor_set_id': 'las1abc',
                    'fee_routing_bps': 0,
                    'fee_routing_addr': null,
                    'payload_shape_hash': '0xdeadbeef'
                }
            }") "AttestationModule" DEADBEEF in
  classified (fixture_tx "successful") [event] (fun c =>
    match c.(ctx_kind) with
    | RegisterSchema d =>
        d.(rs_schema_id) = "lsc1abc" /\
        d.(rs_name) = "themisra.proof-of-prompt" /\
        d.(rs_version) = 1 /\
        d.(rs_owner) = "lig1owner" /\
        d.(rs_attestor_set_id) = "las1abc" /\
        d.(rs_fee_routing_bps) = 0 /\
        d.(rs_fee_routing_addr) = None /\
        d.(rs_payload_shape_hash) = "0xdeadbeef"
    | _ => False
    end).

Definition classify_recognises_attestation_submitted : Prop :=
  bech32m "lsc" (replicate 32 0x11) (fun schema_id =>
  bech32m "lph" (replicate 32 0x22) (fun payload_hash =>
  returns (compute_attestation_id schema_id payload_hash) (fun r => unwrap_ok r (fun expected_id =>
  let event := event_of 1 "AttestationModule/AttestationSubmitted" (JObject
    [("AttestationSubmitted", JObject
       [("schema_id", JString schema_id); ("payload_hash", JString payload_hash);
        ("submitter", JString "lig1submitter"); ("signature_count", JNumber (PosInt 3))])])
    "AttestationModule" DEADBEEF in
  classified (fixture_tx "successful") [event] (fun c =>
    match c.(ctx_kind) with
    | SubmitAttestation d =>
        d.(sa_id) = expected_id /\ starts_with "lat1" d.(sa_id) /\
        d.(sa_schema_id) = schema_id /\ d.(sa_payload_hash) = payload_hash /\
        d.(sa_submitter) = "lig1submitter" /\ d.(sa_signature_count) = 3
    | _ => False
    end))))).

Definition submit_attestation_with_malformed_pair_falls_through_to_unknown : Prop :=
  let event := event_of 1 "AttestationModule/AttestationSubmitted" (json_of "{
                'AttestationSubmitted': {
                    'schema_id':       'lsc1notbech32m',
                    'payload_hash':    'lph1alsobad',
                    'submitter':       'lig1submitter',
                    'signature_count': 1
                }
            }") "AttestationModule" DEADBEEF in
  classified (fixture_tx "successful") [event] (fun c =>
    match c.(ctx_kind) with
    | Unknown event_keys => event_keys = ["AttestationModule/AttestationSubmitted"]
    | _ => False
    end).

Definition attestation_event_wins_over_bank_fee_transfer : Prop :=
  let semantic := event_of 1 "AttestationModule/SchemaRegistered" (json_of "{
                'SchemaRegistered': {
                    'schema_id': 'lsc1abc',
                    'name': 'x',
                    'version': 1,
                    'owner': 'lig1owner',
                    'attestor_set_id': 'las1abc',
                    'fee_routing_bps': 0,
                    'fee_routing_addr': null,
                    'payload_shape_hash': '0x00'
                }
            }") "AttestationModule" "ltx1abc" in
  let fee := event_of 2 KEY_BANK_TOKEN_TRANSFERRED (json_of "{
                'token_transferred': {
                    'from': {'user': 'lig1owner'},
                    'to':   {'user': 'lig1treasury'},
                    'coins': {'amount': '100', 'token_id': 'token_1lgt'}
                }
            }") "Bank" "ltx1abc" in
  classified (fixture_tx "successful") [semantic; fee] (fun c =>
    match c.(ctx_kind) with RegisterSchema _ => True | _ => False end).

(** ** Bounty events *)

Definition bounty_event (number : Z) (key : string) (value : Value) : LedgerEvent :=
  event_of number key value "Bounty" DEADBEEF.

Definition classify_recognises_bounty_posted : Prop :=
  let event := bounty_event 1 KEY_BOUNTY_POSTED (json_of "{
                'BountyPosted': {
                    'bounty_id': 'lbt1abc',
                    'poster': 'lig1poster',
                    'pool': '5000000000'
                }
            }") in
  classified (fixture_tx "successful") [event] (fun c =>
    match c.(ctx_kind) with
    | BountyEvent bounty_id kind => bounty_id = "lbt1abc" /\ kind = BountyEventKind.Posted
    | _ => False
    end).

Definition classify_recognises_bounty_claimed : Prop :=
  let event := bounty_event 1 KEY_BOUNTY_CLAIMED (json_of "{
                'BountyClaimed': {
                    'bounty_id': 'lbt1abc',
                    'attestation_id': 'lat1xyz',
                    'payout': '1000000000',
                    'attester': 'lig1attester'
                }
            }") in
  classified (fixture_tx "successful") [event] (fun c =>
    match c.(ctx_kind) with
    | BountyEvent bounty_id kind => bounty_id = "lbt1abc" /\ kind = BountyEventKind.Claimed 1 "1000000000"
    | _ => False
    end).

Definition classify_recognises_bounty_disputed : Prop :=
  let event := bounty_event 1 KEY_BOUNTY_DISPUTED (json_of "{
                'BountyDisputed': {
                    'bounty_id': 'lbt1abc',
                    'attestation_id': 'lat1xyz',
                    'disputer': 'lig1disputer',
                    'bond': '250000000'
                }
            }") in
  classified (fixture_tx "successful") [event] (fun c =>
    match c.(ctx_kind) with
    | BountyEvent bounty_id kind => bounty_id = "lbt1abc" /\ kind = BountyEventKind.Disputed
    | _ => False
    end).

Definition classify_recognises_dispute_resolved : Prop :=
  let event := bounty_event 1 KEY_BOUNTY_DISPUTE_RESOLVED (json_of "{
                'DisputeResolved': {
                    'bounty_id': 'lbt1abc',
                    'attestation_id': 'lat1xyz',
                    'decision': 'Accept',
                    'bond_recipient': 'lig1disputer'
                }
            }") in
  classified (fixture_tx "successful") [event] (fun c =>
    match c.(ctx_kind) with
    | BountyEvent bounty_id kind => bounty_id = "lbt1abc" /\ kind = BountyEventKind.DisputeResolved
    | _ => False
    end).

Definition classify_recognises_bounty_expired : Prop :=
  let event := bounty_event 1 KEY_BOUNTY_EXPIRED (json_of "{
                'BountyExpired': { 'bounty_id': 'lbt1abc', 'refunded_to_poster': '4000000000' }
            }") in
  classified (fixture_tx "successful") [event] (fun c =>
    match c.(ctx_kind) with
    | BountyEvent bounty_id kind => bounty_id = "lbt1abc" /\ kind = BountyEventKind.Expired
    | _ => False
    end).

Definition classify_recognises_bounty_finalised : Prop :=
  let event := bounty_event 1 KEY_BOUNTY_FINALISED (json_of "{
                'BountyFinalised': { 'bounty_id': 'lbt1abc', 'swept_to_poster': '0' }
            }") in
  classified (fixture_tx "successful") [event] (fun c =>
    match c.(ctx_kind) with
    | BountyEvent bounty_id kind => bounty_id = "lbt1abc" /\ kind = BountyEventKind.Finalised
    | _ => False
    end).

Definition classify_batch_claim_sums_payouts_and_counts : Prop :=
  let claim1 := bounty_event 1 KEY_BOUNTY_CLAIMED (json_of "{
                'BountyClaimed': {
                    'bounty_id': 'lbt1abc',
                    'attestation_id': 'lat1one',
                    'payout': '1000000000',
                    'attester': 'lig1a'
                }
            }") in
  let claim2 := bounty_event 2 KEY_BOUNTY_CLAIMED (json_of "{
                'BountyClaimed': {
                    'bounty_id': 'lbt1abc',
                    'attestation_id': 'lat1two',
                    'payout': '2500000000',
                    'attester': 'lig1b'
                }
            }") in
  classified (fixture_tx "successful") [claim1; claim2] (fun c =>
    match c.(ctx_kind) with
    | BountyEvent bounty_id kind =>
        bounty_id = "lbt1abc" /\ kind = BountyEventKind.Claimed 2 "3500000000"
    | _ => False
    end).

Definition bounty_event_wins_over_bank_escrow_transfer : Prop :=
  let semantic := bounty_event 1 KEY_BOUNTY_POSTED (json_of "{
                'BountyPosted': {
                    'bounty_id': 'lbt1abc',
                    'poster': 'lig1poster',
                    'pool': '5000000000'
                }
            }") in
  let escrow := event_of 2 KEY_BANK_TOKEN_TRANSFERRED (json_of "{
                'token_transferred': {
                    'from': {'user': 'lig1poster'},
                    'to':   {'user': 'lig1escrow'},
                    'coins': {'amount': '5000000000', 'token_id': 'token_1lgt'}
                }
            }") "Bank" DEADBEEF in
  classified (fixture_tx "successful") [semantic; escrow] (fun c =>
    match c.(ctx_kind) with BountyEvent _ BountyEventKind.Posted => True | _ => False end).

(** ** Contract events *)

Definition contract_event (number : Z) (key : string) (value : Value) : LedgerEvent :=
  event_of number key value "Contracts" DEADBEEF.

Definition classify_recognises_contract_posted : Prop :=
  let event := contract_event 1 KEY_CONTRACT_POSTED (json_of "{
                'ContractPosted': {
                    'contract_id': 'lct1abc',
                    'poster': 'lig1poster',
                    'arbiter': 'lig1arbiter',
                    'pool': '5000000000'
                }
            }") in
  classified (fixture_tx "successful") [event] (fun c =>
    match c.(ctx_kind) with
    | ContractEvent contract_id kind => contract_id = "lct1abc" /\ kind = ContractEventKind.Posted
    | _ => False
    end).

Definition classify_recognises_worker_committed : Prop :=
  let event := contract_event 1 KEY_CONTRACT_WORKER_COMMITTED (json_of "{
                'WorkerCommitted': {
                    'contract_id': 'lct1abc',
                    'worker': 'lig1worker',
                    'commit_hash': '0xc0ffee',
                    'bond': '250000000'
                }
            }") in
  classified (fixture_tx "successful") [event] (fun c =>
    match c.(ctx_kind) with
    | ContractEvent contract_id kind => contract_id = "lct1abc" /\ kind = ContractEventKind.Committed
    | _ => False
    end).

Definition classify_recognises_contract_delivered : Prop :=
  let event := contract_event 1 KEY_CONTRACT_DELIVERED (json_of "{
                'ContractDelivered': {
                    'contract_id': 'lct1abc',
                    'worker': 'lig1worker',
                    'deliverable_attestation_id': 'lat1xyz'
                }
            }") in
  classified (fixture_tx "successful") [event] (fun c =>
    match c.(ctx_kind) with
    | ContractEvent contract_id kind => contract_id = "lct1abc" /\ kind = ContractEventKind.Delivered
    | _ => False
    end).

Definition classify_recognises_delivery_accepted : Prop :=
  let event := contract_event 1 KEY_CONTRACT_DELIVERY_ACCEPTED (json_of "{
                'DeliveryAccepted': {
                    'contract_id': 'lct1abc',
                    'worker': 'lig1worker',
                    'payout': '5000000000'
                }
            }") in
  classified (fixture_tx "successful") [event] (fun c =>
    match c.(ctx_kind) with
    | ContractEvent contract_id kind => contract_id = "lct1abc" /\ kind = ContractEventKind.Accepted
    | _ => False
    end).

Definition classify_recognises_delivery_rejected : Prop :=
  let event := contract_event 1 KEY_CONTRACT_DELIVERY_REJECTED (json_of "{
                'DeliveryRejected': {
                    'contract_id': 'lct1abc',
                    'worker': 'lig1worker',
                    'reason': 'CriteriaMismatch'
                }
            }") in
  classified (fixture_tx "successful") [event] (fun c =>
    match c.(ctx_kind) with
    | ContractEvent contract_id kind => contract_id = "lct1abc" /\ kind = ContractEventKind.Rejected
    | _ => False
    end).

Definition classify_recognises_contract_dispute_resolved : Prop :=
  let event := contract_event 1 KEY_CONTRACT_DISPUTE_RESOLVED (json_of "{
                'ContractDisputeResolved': {
                    'contract_id': 'lct1abc',
                    'decision': 'AcceptDelivery',
                    'winner': 'lig1worker'
                }
            }") in
  classified (fixture_tx "successful") [event] (fun c =>
    match c.(ctx_kind) with
    | ContractEvent contract_id kind => contract_id = "lct1abc" /\ kind = ContractEventKind.DisputeResolved
    | _ => False
    end).

Definition classify_recognises_contract_cancelled : Prop :=
  let event := contract_event 1 KEY_CONTRACT_CANCELLED (json_of "{
                'ContractCancelled': { 'contract_id': 'lct1abc', 'refunded_to_poster': '5000000000' }
            }") in
  classified (fixture_tx "successful") [event] (fun c =>
    match c.(ctx_kind) with
    | ContractEvent contract_id kind => contract_id = "lct1abc" /\ kind = ContractEventKind.Cancelled
    | _ => False
    end).

Definition classify_recognises_contract_expired : Prop :=
  let event := contract_event 1 KEY_CONTRACT_EXPIRED (json_of "{
                'ContractExpired': { 'contract_id': 'lct1abc', 'refunded_to_poster': '5000000000' }
            }") in
  classified (fixture_tx "successful") [event] (fun c =>
    match c.(ctx_kind) with
    | ContractEvent contract_id kind => contract_id = "lct1abc" /\ kind = ContractEventKind.Expired
    | _ => False
    end).

Definition contract_event_wins_over_bank_escrow_transfer : Prop :=
  let semantic := contract_event 1 KEY_CONTRACT_POSTED (json_of "{
                'ContractPosted': {
                    'contract_id': 'lct1abc',
                    'poster': 'lig1poster',
                    'arbiter': 'lig1arbiter',
                    'pool': '5000000000'
                }
            }") in
  let escrow := event_of 2 KEY_BANK_TOKEN_TRANSFERRED (json_of "{
                'token_transferred': {
                    'from': {'user': 'lig1poster'},
                    'to':   {'user': 'lig1escrow'},
                    'coins': {'amount': '5000000000', 'token_id': 'token_1lgt'}
                }
            }") "Bank" DEADBEEF in
  classified (fixture_tx "successful") [semantic; escrow] (fun c =>
    match c.(ctx_kind) with ContractEvent _ ContractEventKind.Posted => True | _ => False end).

Definition singular_contract_prefix_does_not_match : Prop :=
  let event := event_of 1 "Contract/ContractPosted" (json_of "{
                'ContractPosted': {
                    'contract_id': 'lct1abc',
                    'poster': 'lig1poster',
                    'arbiter': 'lig1arbiter',
                    'pool': '5000000000'
                }
            }") "Contract" DEADBEEF in
  classified (fixture_tx "successful") [event] (fun c =>
    match c.(ctx_kind) with
    | Unknown event_keys => event_keys = ["Contract/ContractPosted"]
    | _ => False
    end).

(** [crates/indexer/tests/fixtures/tx-by-hash.json] and [tx-event-0.json]. *)
Definition TX_FIXTURE : string := "{'type':'tx','number':1,'hash':'ltx19zwttsdksue0ef4fan7lnfhcjdq9lq8d592hjpcc30gh5c77ytzqvjmjm4','event_range':{'start':1,'end':2},'body':{'data':'','sequencing_data':null},'receipt':{'result':'successful','data':{'gas_used':[16806,16806]}},'batch_number':8929}".
Definition EVENT_FIXTURE : string := "{'type':'event','number':1,'key':'Bank/TokenTransferred','value':{'token_transferred':{'from':{'user':'lig132yw8ht5p8cetl2jmvknewjawt9xwzdlrk2pyxlnwjyqz3m499u'},'to':{'user':'lig13x2xvtj2n3g5zdrc2g27uswja0e9dllxlu33y8estm0gw4dhs6d'},'coins':{'amount':'1000000000','token_id':'token_1nyl0e0yweragfsatygt24zmd8jrr2vqtvdfptzjhxkguz2xxx3vs0y07u7'}}},'module':{'type':'moduleRef','name':'Bank'},'tx_hash':'ltx19zwttsdksue0ef4fan7lnfhcjdq9lq8d592hjpcc30gh5c77ytzqvjmjm4'}".

Definition fixture_round_trip_from_chain_capture : Prop :=
  unwrap (from_str de_LedgerTx TX_FIXTURE) (fun tx =>
  unwrap (from_str de_LedgerEvent EVENT_FIXTURE) (fun event =>
    tx.(tx_type) = "tx" /\
    tx.(tx_hash) = event.(ev_tx_hash) /\
    tx.(tx_receipt).(rcpt_result) = "successful" /\
    classified tx [event] (fun c =>
      match c.(ctx_kind) with
      | Transfer t => t.(tr_amount_nano) = "1000000000"
      | _ => False
      end))).

Example parser_tests_pass : all_pass
  [outcome_maps_chain_strings_to_typed_variant;
   classify_drops_skipped_txs;
   classify_recognises_token_transferred;
   classify_falls_back_to_unknown_for_unrecognised_events;
   classify_recognises_attestor_set_registered;
   classify_recognises_schema_registered;
   classify_recognises_attestation_submitted;
   submit_attestation_with_malformed_pair_falls_through_to_unknown;
   attestation_event_wins_over_bank_fee_transfer;
   classify_recognises_bounty_posted;
   classify_recognises_bounty_claimed;
   classify_recognises_bounty_disputed;
   classify_recognises_dispute_resolved;
   classify_recognises_bounty_expired;
   classify_recognises_bounty_finalised;
   classify_batch_claim_sums_payouts_and_counts;
   bounty_event_wins_over_bank_escrow_transfer;
   classify_recognises_contract_posted;
   classify_recognises_worker_committed;
   classify_recognises_contract_delivered;
   classify_recognises_delivery_accepted;
   classify_recognises_delivery_rejected;
   classify_recognises_contract_dispute_resolved;
   classify_recognises_contract_cancelled;
   classify_recognises_contract_expired;
   contract_event_wins_over_bank_escrow_transfer;
   singular_contract_prefix_does_not_match;
   fixture_round_trip_from_chain_capture].
Proof. run_tests. Qed.
