(* ===== verification/ClientTests.v ===== *)
(** * The unit tests of [crates/indexer/src/client.rs]

    Against a mock server: one path with its status and body, as mockito sets it up. *)

From S2P Require Import Prelude Json JsonSyntax Types Schema Io Client Samples TestKit.
Open Scope string_scope.
Open Scope list_scope.
Open Scope Z_scope.

#[local] Existing Instances Rfc8259.json Samples.urls.

Definition srv_url : string := "http://127.0.0.1:1234".

(** [srv.mock("GET", path).with_status(status).with_body(body)]; any other request is
    answered 501. *)
Definition mock (path : string) (status : Z) (body : string) : Env := {|
  env_http _ _ u :=
    if (u =? srv_url ++ path)%string then Reply status (Rfc8259.apostrophes body) else Reply 501 "";
  env_now _ := 0; env_fault _ := NoFault; env_other _ d := d |}.

(** [NodeClient::new(&srv.url()).unwrap()], then the call, awaited and unwrapped. *)
Definition with_client {A} (srv : Env) (call : NodeClient -> IO (result IndexerError A))
    (k : A -> Prop) : Prop :=
  unwrap_ok (new srv_url) (fun client =>
  returns (call client srv {| w_db := empty_db; w_tick := 0 |}).1 (fun r => unwrap_ok r k)).

Definition rollup_info_parses_canonical_body : Prop :=
  let srv := mock "/v1/rollup/info" 200
    "{'chain_id':'ligate-devnet-2','chain_hash':'abcd','version':'0.0.1'}" in
  with_client srv rollup_info (fun info =>
    info.(info_chain_id) = "ligate-devnet-2" /\
    info.(info_chain_hash) = "abcd" /\
    info.(info_version) = "0.0.1").

Definition slot_at_returns_none_on_404 : Prop :=
  let srv := mock "/v1/ledger/slots/999" 404 "" in
  with_client srv (fun client => slot_at client 999) (fun slot => slot = None).

Definition batch_at_parses_canonical_body : Prop :=
  let srv := mock "/v1/ledger/batches/95" 200
    "{'type':'batch','number':95,'hash':'lblk1mcfgumhvyx2wpglq6he4rgdr4alv80aq7qjmm3ljpj7trj3kflwq7dv0z5','tx_range':{'start':1,'end':3},'slot_number':100,'receipt':{'gas_used':[0,0]}}" in
  with_client srv (fun client => batch_at client 95) (fun batch => unwrap batch (fun batch =>
    batch.(batch_number) = 95 /\
    batch.(batch_slot_number) = 100 /\
    batch.(batch_tx_range).(rng_start) = 1 /\
    batch.(batch_tx_range).(rng_end) = 3 /\
    obj_get "receipt" batch.(batch_raw) <> None)).

Definition batch_at_returns_none_on_404 : Prop :=
  let srv := mock "/v1/ledger/batches/999" 404 "" in
  with_client srv (fun client => batch_at client 999) (fun batch => batch = None).

Definition tx_at_number_parses_canonical_body : Prop :=
  let srv := mock "/v1/ledger/txs/1" 200
    "{'type':'tx','number':1,'hash':'ltx19zwttsdksue0ef4fan7lnfhcjdq9lq8d592hjpcc30gh5c77ytzqvjmjm4','event_range':{'start':1,'end':2},'body':{'data':'','sequencing_data':null},'receipt':{'result':'successful','data':{'gas_used':[16806,16806]}},'batch_number':8929}" in
  with_client srv (fun client => tx_at_number client 1) (fun tx => unwrap tx (fun tx =>
    tx.(tx_number) = 1 /\
    tx.(tx_batch_number) = 8929 /\
    tx.(tx_receipt).(rcpt_result) = "successful" /\
    starts_with "ltx1" tx.(tx_hash))).

Definition events_for_slot_parses_array_body : Prop :=
  let srv := mock "/v1/ledger/slots/100/events" 200
    "[{'type':'event','number':1,'key':'Bank/TokenTransferred','value':{'token_transferred':{'from':{'user':'lig132yw8ht5p8cetl2jmvknewjawt9xwzdlrk2pyxlnwjyqz3m499u'},'to':{'user':'lig13x2xvtj2n3g5zdrc2g27uswja0e9dllxlu33y8estm0gw4dhs6d'},'coins':{'amount':'1000000000','token_id':'token_1nyl0e0yweragfsatygt24zmd8jrr2vqtvdfptzjhxkguz2xxx3vs0y07u7'}}},'module':{'type':'moduleRef','name':'Bank'},'tx_hash':'ltx19zwttsdksue0ef4fan7lnfhcjdq9lq8d592hjpcc30gh5c77ytzqvjmjm4'}]" in
  with_client srv (fun client => events_for_slot client 100) (fun events =>
    length events = 1%nat /\
    at_index events 0 (fun e => e.(ev_key) = "Bank/TokenTransferred" /\
                                starts_with "ltx1" e.(ev_tx_hash))).

Definition events_for_slot_treats_404_as_empty : Prop :=
  let srv := mock "/v1/ledger/slots/999/events" 404 "" in
  with_client srv (fun client => events_for_slot client 999) (fun events => events = []).

Definition bounty_at_parses_canonical_body : Prop :=
  let srv := mock "/v1/modules/bounty/bounties/lbt1abc" 200
    "{'bounty':{'poster':'lig1poster','board_schema_id':'lsc1board','pool':'5000000000','per_attestation':'1000000000','acceptance':{'Any':{}},'expiry_da_height':123456,'dispute_window_blocks':100,'status':'Open'}}" in
  with_client srv (fun client => bounty_at client "lbt1abc") (fun rec => unwrap rec (fun rec =>
    rec.(bounty_poster) = "lig1poster" /\
    rec.(bounty_board_schema_id) = "lsc1board" /\
    rec.(bounty_pool) = "5000000000" /\
    rec.(bounty_per_attestation) = "1000000000" /\
    rec.(bounty_expiry_da_height) = 123456 /\
    rec.(bounty_dispute_window_blocks) = 100 /\
    rec.(bounty_status) = "Open")).

Definition bounty_at_returns_none_on_404 : Prop :=
  let srv := mock "/v1/modules/bounty/bounties/lbt1missing" 404 "" in
  with_client srv (fun client => bounty_at client "lbt1missing") (fun rec => rec = None).

Definition contract_at_parses_canonical_body : Prop :=
  let srv := mock "/v1/modules/contracts/contracts/lct1abc" 200
    "{'contract':{'poster':'lig1poster','arbiter':'lig1arbiter','criteria_doc_hash':'0xdeadbeef','pool':'5000000000','expiry_da_height':123456,'dispute_window_blocks':100,'arbiter_fee_bps':500,'status':'Open'}}" in
  with_client srv (fun client => contract_at client "lct1abc") (fun rec => unwrap rec (fun rec =>
    rec.(contract_poster) = "lig1poster" /\
    rec.(contract_arbiter) = "lig1arbiter" /\
    rec.(contract_criteria_doc_hash) = JString "0xdeadbeef" /\
    rec.(contract_pool) = "5000000000" /\
    rec.(contract_expiry_da_height) = 123456 /\
    rec.(contract_dispute_window_blocks) = 100 /\
    rec.(contract_arbiter_fee_bps) = 500 /\
    rec.(contract_status) = "Open")).

Definition contract_at_returns_none_on_404 : Prop :=
  let srv := mock "/v1/modules/contracts/contracts/lct1missing" 404 "" in
  with_client srv (fun client => contract_at client "lct1missing") (fun rec => rec = None).

Definition ends_with_text (suffix s : string) : bool :=
  String.prefix (string_of (rev (bytes_of suffix))) (string_of (rev (bytes_of s))).

Definition url_joining_handles_trailing_slash : Prop :=
  unwrap_ok (new "http://x.example:12346") (fun a =>
  unwrap_ok (new "http://x.example:12346/") (fun b =>
    returns (url a "v1/rollup/info") (fun ua =>
    returns (url b "v1/rollup/info") (fun ub =>
      ua = ub /\ ends_with_text "/v1/rollup/info" ua = true)))).

Example client_tests_pass : all_pass
  [rollup_info_parses_canonical_body; slot_at_returns_none_on_404;
   batch_at_parses_canonical_body; batch_at_returns_none_on_404;
   tx_at_number_parses_canonical_body; events_for_slot_parses_array_body;
   events_for_slot_treats_404_as_empty; bounty_at_parses_canonical_body;
   bounty_at_returns_none_on_404; contract_at_parses_canonical_body;
   contract_at_returns_none_on_404; url_joining_handles_trailing_slash].
Proof. run_tests. Qed.
