(* ===== verification/ApiTests.v ===== *)
(** * The unit tests of [crates/api/src] ([cluster.rs], [cursor.rs], [stats.rs], [bot_drip.rs]) *)

From S2P Require Import Prelude Base64 Json JsonSyntax Types Schema Io Config Drip BotDrip Cluster F64 FaucetApi Listing ListingSpec Stats Extract Api TestKit.
Open Scope string_scope.
Open Scope list_scope.
Open Scope Z_scope.

(** ** [cluster.rs] *)

Definition chain_topology_with (nodes : list ChainClusterNode) (leader : option string)
  : ChainClusterTopology := {|
  cct_nodes := nodes; cct_leader_node_id := leader;
  cct_leader_acquired_at_epoch_ms := (fun _ => 1000000) <$> leader;
  cct_generated_at_epoch_ms := 1000100 |}.

Definition node (id addr : string) (is_leader : bool) (age_ms : Z) : ChainClusterNode := {|
  ccn_node_id := id; ccn_address := addr; ccn_is_leader := is_leader;
  ccn_last_heartbeat_age_ms := age_ms |}.

Definition transform_strips_addresses : Prop :=
  let chain := chain_topology_with
    [node "ligate-1" "10.128.0.3:12346" true 30; node "ligate-2" "10.128.0.6:12346" false 50]
    (Some "ligate-1") in
  let public := transform chain 2000000 in
  length public.(ct_nodes) = 2%nat /\
  public.(ct_leader_node_id) = Some "ligate-1" /\
  at_index public.(ct_nodes) 0 (fun n =>
    n.(cn_node_id) = "ligate-1" /\ n.(cn_is_leader) = true /\ n.(cn_last_heartbeat_age_ms) = 30) /\
  public.(ct_generated_at_epoch_ms) = 2000000.

Definition cluster_health_healthy_when_all_fresh : Prop :=
  let chain := chain_topology_with
    [node "ligate-1" "addr" true 30; node "ligate-2" "addr" false 80] (Some "ligate-1") in
  (transform chain 0).(ct_cluster_health) = Healthy.

Definition cluster_health_degraded_when_one_stale : Prop :=
  let chain := chain_topology_with
    [node "ligate-1" "addr" true 30; node "ligate-2" "addr" false 5000] (Some "ligate-1") in
  (transform chain 0).(ct_cluster_health) = Degraded.

Definition cluster_health_leaderless_when_no_leader : Prop :=
  let chain := chain_topology_with [node "ligate-1" "addr" false 30] None in
  (transform chain 0).(ct_cluster_health) = Leaderless.

Definition unknown_topology_has_empty_nodes_and_unknown_health : Prop :=
  let t := unknown_topology 123 in
  t.(ct_nodes) = [] /\
  t.(ct_cluster_health) = Unreachable /\
  t.(ct_generated_at_epoch_ms) = 123 /\
  t.(ct_leader_node_id) = None.

Example cluster_tests_pass : all_pass
  [transform_strips_addresses; cluster_health_healthy_when_all_fresh;
   cluster_health_degraded_when_one_stale; cluster_health_leaderless_when_no_leader;
   unknown_topology_has_empty_nodes_and_unknown_health].
Proof. run_tests. Qed.

(** ** [cursor.rs] *)

#[local] Existing Instances Rfc8259.json SampleText.b64.

Definition resolve_limit_defaults_when_unset : Prop := resolve_limit None = DEFAULT_LIMIT.

Definition resolve_limit_defaults_on_zero : Prop := resolve_limit (Some 0) = DEFAULT_LIMIT.

Definition resolve_limit_clamps_to_max : Prop :=
  resolve_limit (Some (MAX_LIMIT + 1)) = MAX_LIMIT /\
  resolve_limit (Some 10000) = MAX_LIMIT.

Definition resolve_limit_passes_through_in_range : Prop :=
  resolve_limit (Some 1) = 1 /\
  resolve_limit (Some 50) = 50 /\
  resolve_limit (Some MAX_LIMIT) = MAX_LIMIT.

Definition blocks_cursor_roundtrip : Prop :=
  let original := 12345 in
  let encoded := encode (ser_BlocksCursor original) in
  unwrap (decode de_BlocksCursor encoded) (fun decoded => decoded = original).

Definition compound_cursor_roundtrip : Prop :=
  let original := (9876543, 42) in
  let encoded := encode (ser_TxsCursor original.1 original.2) in
  unwrap (decode de_TxsCursor encoded) (fun decoded => decoded = original).

(** [str::contains] of a character. *)
Definition contains (c : ascii) (s : string) : bool :=
  existsb (Ascii.eqb c) (list_ascii_of_string s).

Definition encoded_cursor_is_url_safe : Prop :=
  let encoded := encode (ser_BlocksCursor u64_max) in
  contains "+" encoded = false /\
  contains "/" encoded = false /\
  contains "=" encoded = false.

Definition decode_rejects_garbage_returns_none : Prop :=
  decode de_BlocksCursor "!!! not base64 !!!" = None /\
  decode de_BlocksCursor "aGVsbG8" = None /\
  let wrong_shape := Rfc4648.url_encode (bytes_of (Rfc8259.apostrophes "{'other': 1}")) in
  decode de_BlocksCursor wrong_shape = None.

Example cursor_tests_pass : all_pass
  [resolve_limit_defaults_when_unset; resolve_limit_defaults_on_zero;
   resolve_limit_clamps_to_max; resolve_limit_passes_through_in_range;
   blocks_cursor_roundtrip; compound_cursor_roundtrip; encoded_cursor_is_url_safe;
   decode_rejects_garbage_returns_none].
Proof. run_tests. Qed.

(** ** [stats.rs] *)

Definition parses_intervals : Prop :=
  parse_interval "30s" = Ok 30 /\
  parse_interval "5m" = Ok 300 /\
  parse_interval "24h" = Ok 86400 /\
  parse_interval "7d" = Ok 604800.

Definition rejects_bad_intervals : Prop :=
  unwrap_err (parse_interval "24") (fun _ => True) /\
  unwrap_err (parse_interval "h") (fun _ => True) /\
  unwrap_err (parse_interval "5y") (fun _ => True).

Example stats_tests_pass : all_pass [parses_intervals; rejects_bad_intervals].
Proof. run_tests. Qed.

(** ** [bot_drip.rs] *)

Definition constant_time_eq_basic : Prop :=
  let eq a b := constant_time_eq (bytes_of a) (bytes_of b) in
  eq "abc" "abc" = true /\
  eq "abc" "abd" = false /\
  eq "abc" "abcd" = false /\
  eq "" "x" = false /\
  eq "" "" = true.

Definition tier_str_round_trip : Prop :=
  value_to_string (ser_Tier Newcomer) = Rfc8259.apostrophes "'newcomer'" /\
  value_to_string (ser_Tier Elder) = Rfc8259.apostrophes "'elder'" /\
  unwrap (from_str de_Tier "'veteran'") (fun parsed => parsed = Veteran).

Definition nano_to_avow_precision : Prop :=
  nano_to_avow 100000000000 = f64_of 100 /\
  nano_to_avow 1000000000000 = f64_of 1000 /\
  nano_to_avow 0 = f64_of 0.

Example bot_drip_tests_pass : all_pass
  [constant_time_eq_basic; tier_str_round_trip; nano_to_avow_precision].
Proof. run_tests. Qed.
