(* ===== verification/DripTests.v ===== *)
(** * The unit tests of [crates/drip/src] ([ratelimit.rs], [signer.rs])

    The limiter's tests hold at all instants the clock may show; the signer's for every
    chain SDK, the last one where the SDK takes a private key of zeros. *)

From S2P Require Import Prelude Json Io Client Config Drip Startup TestKit.
Open Scope string_scope.
Open Scope list_scope.
Open Scope Z_scope.

(** ** [ratelimit.rs] *)

Definition from_secs (s : Z) : Z := s * 1000000000.
Definition from_millis (ms : Z) : Z := ms * 1000000.
Definition is_blocked (c : RateCheck) : Prop := match c with Blocked _ => True | Allowed => False end.

Definition first_call_allowed : Prop := forall now,
  let rl := new_limiter (from_secs 60) in
  check rl "lig1abc" now = Allowed.

(** The second instant is less than a minute later. *)
Definition second_call_within_window_blocked : Prop := forall t0 t1,
  t0 <= t1 < t0 + from_secs 60 ->
  let rl := new_limiter (from_secs 60) in
  let rl := record rl "lig1abc" t0 in
  is_blocked (check rl "lig1abc" t1).

Definition different_addresses_independent : Prop := forall t0 t1,
  let rl := new_limiter (from_secs 60) in
  let rl := record rl "lig1abc" t0 in
  check rl "lig1xyz" t1 = Allowed.

Definition drip_count_tracks_records : Prop := forall t0 t1 t2,
  let rl := new_limiter (from_secs 60) in
  drip_count rl = 0%nat /\
  let rl := record rl "lig1abc" t0 in
  let rl := record rl "lig1xyz" t1 in
  let rl := record rl "lig1abc" t2 in
  drip_count rl = 2%nat.

(** [thread::sleep] sleeps at least that long. *)
Definition after_window_allowed : Prop := forall t0 t1,
  t0 + from_millis 15 <= t1 ->
  let rl := new_limiter (from_millis 10) in
  let rl := record rl "lig1abc" t0 in
  check rl "lig1abc" t1 = Allowed.

Definition peek_does_not_burn_window : Prop := forall t0 t1 t2,
  let rl := new_limiter (from_secs 60) in
  peek rl "lig1abc" t0 = Allowed /\
  peek rl "lig1abc" t1 = Allowed /\
  peek rl "lig1abc" t2 = Allowed /\
  drip_count rl = 0%nat.

Definition peek_reflects_recorded_state : Prop := forall t0 t1,
  t0 <= t1 < t0 + from_secs 60 ->
  let rl := new_limiter (from_secs 60) in
  let rl := record rl "lig1abc" t0 in
  is_blocked (peek rl "lig1abc" t1).

#[local] Ltac limiter :=
  unfold from_secs, from_millis in *; unfold check, peek, record, new_limiter; simpl;
  rewrite ?lookup_insert_eq; unfold duration_since;
  try match goal with |- context [?a <=? ?b] => destruct (Z.leb_spec a b) end; try done; try lia.

Example ratelimit_tests_pass : all_pass
  [first_call_allowed; second_call_within_window_blocked; different_addresses_independent;
   drip_count_tracks_records; after_window_allowed; peek_does_not_burn_window;
   peek_reflects_recorded_state].
Proof.
  cbn [all_pass foldr]; split_and!; try exact I.
  - intros now. reflexivity.
  - intros t0 t1 Ht. limiter.
  - intros t0 t1. reflexivity.
  - intros t0 t1 t2. split; reflexivity.
  - intros t0 t1 Ht. limiter.
  - intros t0 t1 t2. split_and!; reflexivity.
  - intros t0 t1 Ht. limiter.
Qed.

(** ** [signer.rs] *)

#[local] Existing Instance SampleHex.hex.

Definition is_invalid_key (e : SignerError) : Prop :=
  match e with InvalidSignerKey _ => True | _ => False end.

Definition rejects_too_short_key : Prop := forall (S : SdkReads) (zero_token_id : TokenId),
  unwrap_err (signer_new "abcd" "http://localhost:12346" 1 (replicate 32 0) zero_token_id 0)
    is_invalid_key.

Definition rejects_non_hex_key : Prop := forall (S : SdkReads) (zero_token_id : TokenId),
  let key := string_of (replicate 64 122) in
  unwrap_err (signer_new key "http://localhost:12346" 1 (replicate 32 0) zero_token_id 0)
    is_invalid_key.

Definition accepts_valid_key : Prop := forall (S : SdkReads) (zero_token_id : TokenId) private,
  private_key_try_from (replicate 32 0) = Ok private ->
  let key := string_of (replicate 64 48) in
  unwrap_ok (signer_new key "http://localhost:12346" 1 (replicate 32 0) zero_token_id 0)
    (fun _ => True).

Example signer_tests_pass : all_pass [rejects_too_short_key; rejects_non_hex_key; accepts_valid_key].
Proof.
  cbn [all_pass foldr]; split_and!; try exact I; intros S zero; try done.
  intros private Hp key. unfold signer_new, unwrap_ok.
  assert (hex_decode key = Some (replicate 32 0)) as -> by (vm_compute; reflexivity).
  replace (String.length key =? 64)%nat with true by (vm_compute; reflexivity).
  simpl. simpl in Hp. by rewrite Hp.
Qed.
