(* ===== verification/Captured.v ===== *)
(** * A captured slot through both programs

    A node whose bodies are the captured JSON texts: the slot of
    [tests/fixtures/slot-latest.json], one batch, and the transaction and event of the
    parser's fixtures, with the body of the decoder's golden transaction.  The indexer runs
    on it from an empty database, and the server is asked over HTTP for what it stored. *)

From S2P Require Import Prelude JsonSyntax Routes Json Types Standards Bech32m Sha2 AttestationId Decode Parser Schema Io Db DbFacts History Client Samples Ingest IngestSpec Walk Config Drip DripSpec BotDrip Startup Pages Listing ListingSpec Responses Sql Lookup LookupSpec F64 StatsCache Stats Eta StatsSpec StatsApi Cluster FaucetApi Typed EndToEnd Service Extract ExtractSpec Api ApiSpec Permalinks Base64 TestKit DecodeTests ParserTests ClientTests.
Open Scope string_scope.
Open Scope list_scope.
Open Scope Z_scope.
Import SampleWeb SampleCalendar.

#[local] Existing Instances SampleText.b64 SampleText.text Rfc8259.json Samples.urls
  SampleSdk.sdk sample_sdk sample_time Bip350.bech32m Fips180.sha2 clock numeric
  FirstMatch.router SampleStats.percentile SampleApi.unicode.

Definition slot_latest : string := "{'type':'slot','number':7934,'hash':'lblk1lryqw2luawwrsgwjru9u5v4dcrxlusutvxvqvcfvr4r0lx2t72gq6qwnkm','state_root':'lsr1pd3vuysaawawfr6qhu2rzn3p2rcpu5yfd5kw2wcs4shzcfscn9t4mgv5mjwaljyjsc4qh5ahe9elsetph5l2w8vunlny7hgd26tuzlsrkcp4t','batch_range':{'start':7888,'end':7889},'finality_status':'finalized','timestamp':1778290684471}".

Definition batch_7888 : string := "{'type':'batch','number':7888,'hash':'lblk1mcfgumhvyx2wpglq6he4rgdr4alv80aq7qjmm3ljpj7trj3kflwq7dv0z5','tx_range':{'start':1,'end':2},'receipt':{'da_address':'0000000000000000000000000000000000000000000000000000000000000000','gas_price':['7','7'],'gas_used':[0,0],'outcome':{'rewards':{'accumulated_reward':'0','accumulated_penalty':'0'}}},'slot_number':7934}".

(** The transaction fixture with the golden body. *)
Definition tx_1 : string :=
  "{'type':'tx','number':1,'hash':'ltx19zwttsdksue0ef4fan7lnfhcjdq9lq8d592hjpcc30gh5c77ytzqvjmjm4','event_range':{'start':1,'end':2},'body':{'data':'" ++ GOLDEN_BODY_B64 ++ "','sequencing_data':null},'receipt':{'result':'successful','data':{'gas_used':[16806,16806]}},'batch_number':7888}".

Definition tx_hash_1 : string := "ltx19zwttsdksue0ef4fan7lnfhcjdq9lq8d592hjpcc30gh5c77ytzqvjmjm4".

Definition bodies : list (string * string) :=
  [("/v1/ledger/slots/latest", slot_latest); ("/v1/ledger/slots/7934", slot_latest);
   ("/v1/ledger/slots/7934/events", "[" ++ EVENT_FIXTURE ++ "]");
   ("/v1/ledger/batches/7888", batch_7888); ("/v1/ledger/txs/1", tx_1);
   ("/v1/rollup/info", "{'chain_id':'ligate-devnet-2','chain_hash':'abcd','version':'0.0.1'}")]%string.

Fixpoint body_at (u : string) (l : list (string * string)) : HttpReply :=
  match l with
  | [] => Io.Reply 404 ""
  | (path, body) :: l =>
      if (u =? srv_url ++ path)%string then Io.Reply 200 (Rfc8259.apostrophes body) else body_at u l
  end.

Definition node_env : Env := {|
  env_http _ _ u := body_at u bodies; env_now t := Z.of_nat t; env_fault _ := NoFault;
  env_other _ d := d |}.

(** The indexer, started at the slot, through one pass of its loop. *)
Definition indexed : World :=
  (run STANDARD_decode {| base := srv_url ++ "/" |} 1 1 (Some 7934) GOLDEN_CHAIN_ID node_env
    (sample_world empty_db)).2.

Definition server : Server :=
  {| srv_app := app_state bot_config (ss_signer SampleStats.state); srv_bot_drips := [];
     srv_world := indexed |}.

(** The JSON a request is answered with. *)
Definition answered_json (c : Call) (k : Value -> Prop) : Prop :=
  returns (handle no_text (request_of c) server node_env sample_clocks).1 (fun reply =>
    reply.(rp_status) = 200 /\
    unwrap (reply.(rp_body) ≫= Rfc8259.read) k).

Definition member (path : list string) (v : Value) : option Value :=
  foldl (fun o key => v ← o; m ← as_object v; obj_get key m) (Some v) path.

Definition text_at (path : list string) (v : Value) : option string := member path v ≫= Json.as_str.

(** The page of the transaction: its signer and nonce are those of the golden body, its
    transfer is the event's. *)
Example captured_transaction_served :
  answered_json (TxByHash tx_hash_1) (fun v =>
    text_at ["hash"] v = Some tx_hash_1 /\
    member ["block_height"] v = Some (JNumber (PosInt 7934)) /\
    text_at ["sender"] v = Some GOLDEN_SENDER /\
    text_at ["sender_pubkey"] v = Some GOLDEN_SENDER_PUBKEY /\
    member ["nonce"] v = Some (JNumber (PosInt GOLDEN_NONCE)) /\
    text_at ["kind"] v = Some "transfer" /\
    text_at ["details"; "amount_nano"] v = Some "1000000000" /\
    text_at ["outcome"] v = Some "committed").
Proof. run_tests. Qed.

(** The block, the sending address of the event and the search lead to the same rows. *)
Definition sending_address : string := "lig132yw8ht5p8cetl2jmvknewjawt9xwzdlrk2pyxlnwjyqz3m499u".

Example captured_block_served :
  answered_json (BlockByHeight 7934) (fun v =>
    text_at ["hash"] v =
      Some "lblk1lryqw2luawwrsgwjru9u5v4dcrxlusutvxvqvcfvr4r0lx2t72gq6qwnkm") /\
  answered_json (AddressTxs sending_address {| p_limit := None; p_before := None |}) (fun v =>
    unwrap (member ["data"] v) (fun l =>
      match l with JArray [tx] => text_at ["hash"] tx = Some tx_hash_1 | _ => False end)) /\
  answered_json (Search tx_hash_1) (fun v => text_at ["kind"] v = Some "tx").
Proof. run_tests. Qed.
